(* ===== verification/_CoqProject ===== *)
-Q . S2P
Prelude.v
Cursor.v
RustIterator.v
Bytes.v
SignatureFrame.v
MessageHeaderFrame.v
StaticAccountKeysFrame.v
AddressTableLookupFrame.v
InstructionsFrame.v
TransactionConfigView.v
MessageFrame.v
Message.v
TransactionFrame.v
Views.v
Sanitize.v
Samples.v
TransactionView.v
SvmStaticMessage.v
MessageView.v
ResolvedTransactionView.v
RustStr.v
QueueCell.v
StreamName.v
StreamPolicy.v
FileSystem.v
StreamQueue.v
EventStream.v
StreamPolicyManager.v
EventSystem.v
EventApi.v
EventLifetime.v
RelaxedGeneration.v
StreamTeardown.v
Subscriber.v
Discovery.v
SubscriberApi.v
Layout.v
HandshakeShared.v
HandshakeShmem.v
HandshakeWire.v
HandshakeSession.v
SchedulerBindings.v
Geyser.v
HandshakeText.v
HandshakeServer.v
TestKit.v
TestState.v
TestBench.v
TestData.v
TestsParsing.v
TestsTransaction.v
TestsViews.v
TestsEvents.v
TestsSystem.v
TestsHandshake.v
