(* ===== verification/Prelude.v ===== *)
(** * Verification of agave-sdk

    agave-sdk is a workspace of Rust crates around the Agave validator.  This
    library models the crates that carry logic of their own as Rocq functions,
    translated from the sources, and proves what makes them correct.

    ** The program and the files that model it

    _transaction-view_ (src/transaction-view/src) reads serialized transactions
    in place: a parse records offsets ("frames") into the buffer, the accessors
    read the buffer at these offsets, partly without bounds checks, and
    sanitization checks the rules of the runtime.
    - [Cursor]: result.rs and the idiom of all parsers, a buffer and a mutable
      offset, as a reader monad, with the notion of a grammar that a parser
      decides.
    - [RustIterator]: Rust iterators and loops over them.
    - [Bytes]: bytes.rs.  [SignatureFrame], [MessageHeaderFrame],
      [StaticAccountKeysFrame], [AddressTableLookupFrame], [InstructionsFrame],
      [TransactionConfigView], [MessageFrame], [TransactionFrame]: the source
      files of these names, in snake case; [MessageHeaderFrame] also holds
      transaction_version.rs.
    - [Message]: the documented wire format, as an encoder of abstract messages
      ([encode_message]), the format that a target reads ([native_message], which
      differs in the mask of v1 messages on big-endian targets), and the proof that
      [MessageFrame] parses it; [TransactionFrame] has the same for transactions.
    - [Views]: the view types of transaction_view.rs and message_view.rs with
      their accessors, and what it means that a view shows a transaction through them
      ([shows_transaction], [shows_message]).  [Sanitize]: sanitize.rs and the declarative rules.
      [TransactionView], [MessageView]: the constructors.  [Samples]: concrete
      transactions for the witnesses.
    - [SvmStaticMessage]: the traits [SVMStaticMessage] and
      [SVMStaticTransaction] as classes, with the instances of the crate, a
      specification class and what users rely on ([svm_guarantees]).
    - [ResolvedTransactionView]: resolved_transaction_view.rs, and the guarantees for
      all accepted views.

    _event-system_ (src/event-system/src) publishes typed events to subscriber
    processes through shared-memory queues, on streams that a policy switches on
    and off.
    - [RustStr]: the [str] operations of the standard library.
    - [StreamName], [StreamPolicy]: stream_name.rs, stream_policy.rs.
    - [FileSystem]: a model of [std::fs] with failing calls and the states that
      concurrent readers observe.  [StreamQueue]: the directory layout and the
      publication of queues, from backend/linux.rs.
    - [EventStream]: streams, publisher factories and publishers, from
      backend/linux.rs and backend/linux/publisher.rs, as a state machine whose
      steps are the atomic sections of the code.
    - [StreamPolicyManager]: backend/linux/stream_policy.rs, against its trait
      as a class; [EventSystem]: the event system of backend/linux.rs, which
      implements the trait.
    - [EventApi]: the stub backend (backend/stub.rs) and the public handles of
      event_system.rs, publisher_factory.rs and publisher.rs, as a state machine of
      the whole system with reference counts, in which each stream is simulated by
      the machine of [EventStream].  [EventLifetime]: how long the directory of the
      event system lives.
    - [RelaxedGeneration]: the machine of [EventStream] with the relaxed memory
      order of the generation counter, as views of threads.  [StreamTeardown]: the
      removal of a queue's directory, call by call, while further streams get the
      name of the stream.
    - [Subscriber]: backend/linux/subscriber.rs, in a monad that numbers the system
      calls, with what the publishing side promises about their results;
      [Discovery]: discovery in the directory that [StreamQueue] leaves.
      [SubscriberApi]: subscriber.rs, against an interface of both backends, and
      the way of events from a publisher to a subscriber.
    - [QueueCell]: queue_cell.rs, event_metadata.rs and the attribute macro of
      src/event-system-derive.

    _scheduler-handshake_ (src/scheduler-handshake/src) sets up a session between
    the validator (server) and an external scheduler (client): the client sends a
    logon message over a Unix socket, the server creates an allocator and queues in
    shared memory and passes their files back, and both hold opposite ends.
    - [HandshakeShared]: shared.rs, the logon message, its memory layout and its
      validation.  [HandshakeWire]: the messages on the socket, from client.rs and
      server.rs.  [HandshakeSession]: the set-up of both ends and the whole
      exchange, from server.rs, client.rs and lib.rs.  [HandshakeShmem]: the
      creation of shared-memory objects, with several servers at once.
      [HandshakeText]: the versions of a build, the texts of errors and the public
      entry points.  [HandshakeServer]: the server over many connections, with its
      buffer and its clock.

    _scheduler-bindings_ (src/scheduler-bindings/src) declares the messages of a
    session: [Layout] has the layout rules of C and the memory of values,
    [SchedulerBindings] the structs, flags and codes of lib.rs.
    _geyser-plugin-interface_ (src/geyser-plugin-interface/src) declares the data
    and the trait of Geyser plugins: [Geyser].

    ** How Rust is modelled

    A call returns an [Outcome]: a value, an [Err], or a panic, undefined
    behaviour (an unsafe read outside of the buffer) or divergence (a loop that
    used up its fuel); [returns] excludes the last three.  Machine integers are
    [Z] with explicit wrapping, checked and saturating operations at their width;
    [usize] has 64 bits.  A slice has at most [isize::MAX] bytes ([slice_ok]).
    Multi-byte loads use the byte order of the class [Target], and theorems hold
    for both orders unless they say otherwise.  Loops over iterators get
    [fuel_of] = remaining length + 1, one step per item and one for the final
    [None]; the theorems show that they return.  Strings are lists of Unicode
    scalar values.  Code outside of the repository is a parameter: the account
    key crates ([SolanaCrates]), shaq ([Shaq], [ShaqConsumers], [QueueCalls],
    [QueueSizes]), the operating system ([SystemCalls], [SubscriberCalls],
    [SharedMemory]), the serializer wincode ([Wincode], [SchemaLibrary],
    [DynamicDecoding]) and the types that Geyser plugins get ([GeyserTypes]).  What
    a theorem needs of a parameter is a hypothesis or a class with laws
    ([WincodeSpec], [producers_up_to_slots], [publisher_promise], [resources]), and a witness
    shows an instance.  Atomics outside
    of [RelaxedGeneration] are sequentially consistent.

    ** What the theorems show

    - Parsing decides the wire format: a constructor of [TransactionView] or
      [MessageView] accepts exactly the serializations, of at most 65535 bytes, of
      well-formed (and, for the sanitized ones, sane) transactions or messages, and the
      accepted view shows the content through every accessor (on big-endian targets for
      legacy and v0 only, as the mask of v1 is misread there); no constructor panics,
      reads out of bounds or loops, and equal content has equal bytes
      ([TransactionView], [MessageView], [Bytes]).
    - Sanitization is the conjunction of the documented rules, and message and
      transaction sanitization agree up to 65535 bytes.
    - The views implement the runtime's interface, with what its users rely on; the
      writable flags of a resolved transaction are the declarative write-lock rule.
    - Policy texts are parsed to a normal form, and the last rule for the longest
      prefix wins; a new policy is applied to every live stream; names are safe path
      components.
    - Publication of a queue is atomic for readers and cleans up after itself;
      publishers always find the current queue, slots add up, batches are all or
      nothing, and only streams that the policy enables are ever published.  The
      relaxed order of the generation counter only lets a publisher act as if it had
      been called a little earlier, and a stream never suffers from the removal of
      an earlier one of its name, except that its publication can fail meanwhile, and
      after a removal that failed.
    - The handles of the event system refine one machine per stream; a publisher of
      a stream that is turned off cannot be told from a stub; the directory lives as
      long as its last reference and is then left as it was found.
    - A discovered stream is one publication, however streams come and go; what is
      published is found, next to the streams that were there, and what a publisher
      sends arrives decoded and in order; queue cells have room for their events.
    - The handshake messages have no padding; flags and codes of the bindings can be
      told apart; Geyser plugins of every age get the callbacks they know.
    - Handshake: validation accepts exactly the representable logons; the logon
      message is received as sent; both processes get opposite ends of the same
      queues, each on a file of its own; a rejection reaches the client with the first
      255 bytes of its text, which tell the error; shared-memory objects are private however servers interleave; a
      slow client is given up in time, and clients do not see each other's bytes.
    - Four theorems record divergences between code and documentation
      ([big_endian_mask_is_misread], [large_v1_message_cannot_be_signed],
      [unsanitized_from_prefix_depends_on_trailing_bytes],
      [response_regions_fit]).

    ** The unit tests

    [TestData], [TestsParsing], [TestsTransaction], [TestsViews] and [TestsEvents]
    translate the unit tests of the crates, assertion by assertion, and evaluate them
    on the model: the definitions agree with the program wherever its authors said
    what it does.  [TestsSystem] and [TestsHandshake] do the same for the tests of
    the event system (src/event-system/tests), which run publishers and subscribers
    on a shared directory, and of the handshake (src/scheduler-handshake/src/tests.rs),
    which pass messages on all queues of a session.  [TestKit] has the assertions,
    [TestState] a monad for tests with state; [TestBench] is tests/common/mod.rs and the concrete
    operating system, queues and serializer that the tests run on.  Data that the
    tests get from other crates (compiled transfers, new keys) is written out, and of
    the interleavings of two threads one is evaluated.

    ** What is not modelled

    Debug formatting, and the texts of errors outside of the handshake; the system
    calls on sockets and of the subscriber beyond their results; lanes and memory
    orders inside of shaq and of locks; the tokens that the attribute macro parses and
    emits, beyond the arguments and the generated implementation; [cache_padded.rs],
    which is transparent; crate roots, which only re-export; the assertions of tests on
    the seals of a file, on the items that a full queue of shaq rejects, on wall-clock
    time and on inputs of megabytes; the wake-up of subscribers that wait in [recv_timeout], which is inside of shaq.

    This file holds the shared part: outcomes, machine integers, byte buffers and
    little-endian words, with their lemmas. *)

From stdpp Require Import base list numbers countable gmap.
From Stdlib Require Import ZArith Lia Strings.Byte.
Local Open Scope Z_scope.

(** ** Outcomes of Rust code

    A Rust call either returns (a value or the [Err] of a [Result]), panics, or
    has undefined behaviour because an [unsafe] block reads outside of the
    buffer.  [Diverge] is the value of a loop whose fuel ran out. *)
Inductive Outcome (E A : Type) : Type :=
| Ok (a : A)
| Err (e : E)
| Panic
| UB
| Diverge.
Arguments Ok {E A} _.
Arguments Err {E A} _.
Arguments Panic {E A}.
Arguments UB {E A}.
Arguments Diverge {E A}.

Definition obind {E A B} (m : Outcome E A) (f : A -> Outcome E B) : Outcome E B :=
  match m with
  | Ok a => f a
  | Err e => Err e
  | Panic => Panic
  | UB => UB
  | Diverge => Diverge
  end.

Definition omap {E A B} (f : A -> B) (m : Outcome E A) : Outcome E B :=
  obind m (fun a => Ok (f a)).

(** [opt.ok_or(e)]. *)
Definition ok_or {E A} (o : option A) (e : E) : Outcome E A :=
  match o with Some a => Ok a | None => Err e end.

(** A condition that makes the function return [Err e]: [if b { return Err(e) }]. *)
Definition err_if {E} (b : bool) (e : E) : Outcome E unit :=
  if b then Err e else Ok tt.

(** The outcomes a caller of safe Rust may observe. *)
Definition returns {E A} (m : Outcome E A) : Prop :=
  match m with Ok _ | Err _ => True | _ => False end.

(** Monadic fold over a list: the body of a [for] loop with [?] inside. *)
Fixpoint ofold {E A S} (body : S -> A -> Outcome E S) (s : S) (xs : list A) : Outcome E S :=
  match xs with
  | [] => Ok s
  | x :: xs => obind (body s x) (fun s' => ofold body s' xs)
  end.

Declare Scope rust_scope.
Delimit Scope rust_scope with rust.
Notation "'let?' x := m 'in' k" := (obind m (fun x => k))
  (at level 10, x pattern, m at level 100, k at level 200) : rust_scope.

(** ** Unsigned machine integers

    A [w]-bit unsigned integer is a [Z] in [0 <= x < modulus w].  [USIZE] is the
    pointer width of the supported (64-bit) targets. *)
Inductive uwidth := U8 | U16 | U32 | U64 | USIZE.

Definition modulus (w : uwidth) : Z :=
  match w with
  | U8 => 256
  | U16 => 65536
  | U32 => 4294967296
  | U64 | USIZE => 18446744073709551616
  end.

Definition umax (w : uwidth) : Z := modulus w - 1.
Definition isize_MAX : Z := 9223372036854775807.

(** The cast [x as w], which truncates. *)
Definition cast (w : uwidth) (x : Z) : Z := x mod modulus w.

Definition wrapping_add (w : uwidth) (a b : Z) : Z := cast w (a + b).
Definition wrapping_sub (w : uwidth) (a b : Z) : Z := cast w (a - b).
Definition wrapping_mul (w : uwidth) (a b : Z) : Z := cast w (a * b).

(** [w::try_from(x)] for a non-negative [x]. *)
Definition try_from (w : uwidth) (x : Z) : option Z :=
  if x <? modulus w then Some x else None.

Definition checked_add (w : uwidth) (a b : Z) : option Z := try_from w (a + b).
Definition checked_mul (w : uwidth) (a b : Z) : option Z := try_from w (a * b).
Definition checked_sub (a b : Z) : option Z := if b <=? a then Some (a - b) else None.
Definition saturating_add (w : uwidth) (a b : Z) : Z := Z.min (umax w) (a + b).

(** [!x] on [w]-bit integers. *)
Definition unot (w : uwidth) (x : Z) : Z := umax w - x.

Definition in_width (w : uwidth) (x : Z) : Prop := 0 <= x < modulus w.

Lemma cast_small w x : in_width w x -> cast w x = x.
Proof. apply Z.mod_small. Qed.

Lemma cast_range w x : in_width w (cast w x).
Proof. apply Z.mod_pos_bound. by destruct w. Qed.

Lemma wrapping_add_small w a b : in_width w (a + b) -> wrapping_add w a b = a + b.
Proof. apply cast_small. Qed.

Lemma wrapping_sub_small w a b : in_width w (a - b) -> wrapping_sub w a b = a - b.
Proof. apply cast_small. Qed.

Lemma wrapping_mul_small w a b : in_width w (a * b) -> wrapping_mul w a b = a * b.
Proof. apply cast_small. Qed.

Lemma try_from_Some w x y : try_from w x = Some y <-> y = x /\ x < modulus w.
Proof.
  unfold try_from. destruct (Z.ltb_spec x (modulus w)).
  - split; [by intros [= ->]|by intros [-> _]].
  - split; [done|lia].
Qed.

Lemma checked_add_Some w a b c :
  checked_add w a b = Some c <-> c = a + b /\ a + b < modulus w.
Proof. apply try_from_Some. Qed.

Lemma checked_mul_Some w a b c :
  checked_mul w a b = Some c <-> c = a * b /\ a * b < modulus w.
Proof. apply try_from_Some. Qed.

(** ** Bytes and buffers *)

Definition Z_of_byte (b : byte) : Z := Z.of_N (Byte.to_N b).
Definition byte_of_Z (z : Z) : byte :=
  match Byte.of_N (Z.to_N z) with Some b => b | None => x00 end.

Lemma Z_of_byte_range b : 0 <= Z_of_byte b < 256.
Proof. unfold Z_of_byte. pose proof (Byte.to_N_bounded b). lia. Qed.

Lemma byte_of_Z_of_byte b : byte_of_Z (Z_of_byte b) = b.
Proof. unfold byte_of_Z, Z_of_byte. by rewrite N2Z.id, Byte.of_to_N. Qed.

Lemma Z_of_byte_of_Z z : 0 <= z < 256 -> Z_of_byte (byte_of_Z z) = z.
Proof.
  intros Hz. unfold byte_of_Z, Z_of_byte.
  destruct (Byte.of_N (Z.to_N z)) as [b|] eqn:Hb.
  - apply Byte.to_of_N in Hb. lia.
  - apply Byte.of_N_None_iff in Hb. lia.
Qed.

Lemma Z_of_byte_inj a b : Z_of_byte a = Z_of_byte b -> a = b.
Proof. intros H. by rewrite <- (byte_of_Z_of_byte a), H, byte_of_Z_of_byte. Qed.

#[global] Instance byte_eq_dec : EqDecision byte := Byte.byte_eq_dec.
#[global] Instance byte_countable : Countable byte.
Proof.
  refine (inj_countable' Byte.to_N (fun n => default x00 (Byte.of_N n)) _).
  intros b. by rewrite Byte.of_to_N.
Defined.

(** The length of a list as a [usize]. *)
Definition len {A} (l : list A) : Z := Z.of_nat (length l).

(** Every Rust slice occupies at most [isize::MAX] bytes. *)
Definition slice_ok (bs : list byte) : Prop := len bs <= isize_MAX.

(** [bs[i..j]] for [i <= j] within bounds. *)
Definition subslice {A} (i j : Z) (l : list A) : list A :=
  take (Z.to_nat (j - i)) (drop (Z.to_nat i) l).

(** Rust indexing [&l[i..j]], which panics when the range is out of bounds. *)
Definition index_range {E A} (l : list A) (i j : Z) : Outcome E (list A) :=
  if (i <=? j) && (j <=? len l) then Ok (subslice i j l) else Panic.

(** Rust indexing [l[i]]. *)
Definition index {E A} (l : list A) (i : Z) : Outcome E A :=
  if i <? len l then match l !! Z.to_nat i with Some a => Ok a | None => Panic end else Panic.

(** Assignment [l[i] = a]. *)
Definition index_set {E A} (l : list A) (i : Z) (a : A) : Outcome E (list A) :=
  if i <? len l then Ok (<[Z.to_nat i := a]> l) else Panic.

(** [l.get(i)]. *)
Definition get {A} (l : list A) (i : Z) : option A :=
  if i <? len l then l !! Z.to_nat i else None.

(** [n] consecutive groups of [k] elements. *)
Fixpoint chunks {A} (n k : nat) (l : list A) : list (list A) :=
  match n with
  | O => []
  | S n => take k l :: chunks n k (drop k l)
  end.

(** ** Little-endian words *)

Fixpoint le_bytes (n : nat) (z : Z) : list byte :=
  match n with
  | O => []
  | S n => byte_of_Z (z mod 256) :: le_bytes n (z / 256)
  end.

Fixpoint le_val (bs : list byte) : Z :=
  match bs with
  | [] => 0
  | b :: bs => Z_of_byte b + 256 * le_val bs
  end.

(** ** Tactics and automation *)

Create Rewrite HintDb len.

Lemma len_nil {A} : len (@nil A) = 0.
Proof. done. Qed.

Lemma len_cons {A} (x : A) l : len (x :: l) = 1 + len l.
Proof. unfold len. simpl. lia. Qed.

Lemma len_app {A} (l1 l2 : list A) : len (l1 ++ l2) = len l1 + len l2.
Proof. unfold len. rewrite length_app. lia. Qed.

Lemma len_nonneg {A} (l : list A) : 0 <= len l.
Proof. unfold len. lia. Qed.

Lemma len_map {A B} (f : A -> B) l : len (map f l) = len l.
Proof. unfold len. by rewrite length_map. Qed.

Lemma len_0_nil {A} (l : list A) : len l = 0 -> l = [].
Proof. unfold len. destruct l; simpl; [done|lia]. Qed.

Lemma to_nat_len {A} (l : list A) : Z.to_nat (len l) = length l.
Proof. apply Nat2Z.id. Qed.

Lemma len_replicate {A} n (x : A) : len (replicate n x) = Z.of_nat n.
Proof. unfold len. by rewrite length_replicate. Qed.

#[export] Hint Rewrite @len_nil @len_cons @len_app @len_map @len_replicate : len.

(** Length facts of every list in sight, then [lia]. *)
Ltac len_facts :=
  autorewrite with len in *;
  repeat match goal with
  | |- context [len ?l] =>
      lazymatch goal with _ : 0 <= len l |- _ => fail | _ => pose proof (len_nonneg l) end
  | _ : context [len ?l] |- _ =>
      lazymatch goal with _ : 0 <= len l |- _ => fail | _ => pose proof (len_nonneg l) end
  end.

Ltac len_lia := len_facts; lia.

(** Bounds of machine integers made visible to [lia]. *)
Ltac uints := unfold in_width, slice_ok, isize_MAX, umax in *; cbn [modulus] in *.
Ltac ulia := solve [uints; len_lia].

(** Remove the wrap-around of arithmetic that provably does not overflow. *)
Ltac nowrap :=
  repeat first
    [ rewrite wrapping_add_small by ulia
    | rewrite wrapping_sub_small by ulia
    | rewrite wrapping_mul_small by ulia
    | rewrite cast_small by ulia ].

(** Case analysis on the boolean comparisons of the goal. *)
Ltac zcase :=
  match goal with
  | |- context [?a <? ?b] => destruct (Z.ltb_spec a b)
  | |- context [?a <=? ?b] => destruct (Z.leb_spec a b)
  | |- context [?a =? ?b] => destruct (Z.eqb_spec a b)
  end.

(** ** Lists and buffers *)

Lemma carve {A} (l : list A) i n :
  0 <= i -> 0 <= n -> i + n <= len l ->
  exists pre c post, l = pre ++ c ++ post /\ len pre = i /\ len c = n.
Proof.
  intros Hi Hn Hl. unfold len in *.
  exists (take (Z.to_nat i) l), (take (Z.to_nat n) (drop (Z.to_nat i) l)),
    (drop (Z.to_nat n) (drop (Z.to_nat i) l)).
  rewrite !take_drop. split; [done|].
  rewrite !length_take, length_drop. lia.
Qed.

Lemma subslice_app {A} (pre c post : list A) i j :
  i = len pre -> j = len pre + len c -> subslice i j (pre ++ c ++ post) = c.
Proof.
  intros -> ->. unfold subslice, len.
  replace (Z.to_nat (Z.of_nat (length pre))) with (length pre) by lia.
  replace (Z.to_nat _) with (length c) by lia.
  by rewrite drop_app_length, take_app_length.
Qed.

Lemma subslice_0 {A} (l : list A) j : j = len l -> subslice 0 j l = l.
Proof. intros ->. unfold subslice, len. rewrite drop_0, take_ge; [done|lia]. Qed.

Lemma len_subslice {A} (l : list A) i j :
  0 <= i <= j -> j <= len l -> len (subslice i j l) = j - i.
Proof. unfold len, subslice. rewrite length_take, length_drop. lia. Qed.

Lemma get_Some {A} (l : list A) i x :
  0 <= i -> get l i = Some x <->
  exists pre post, l = pre ++ x :: post /\ len pre = i.
Proof.
  intros Hi. unfold get. split.
  - zcase; [|done]. intros Hx. exists (take (Z.to_nat i) l), (drop (S (Z.to_nat i)) l).
    split; [by rewrite take_drop_middle|].
    unfold len in *. rewrite length_take. lia.
  - intros (pre & post & -> & <-). zcase; [|len_lia].
    unfold len. rewrite Nat2Z.id. by apply list_lookup_middle.
Qed.

Lemma get_None {A} (l : list A) i : 0 <= i -> get l i = None <-> len l <= i.
Proof.
  intros Hi. unfold get, len. zcase; [|split; [lia|done]].
  rewrite lookup_ge_None. split; lia.
Qed.

Lemma get_app_mid {A} (pre : list A) x post i : i = len pre -> get (pre ++ x :: post) i = Some x.
Proof. intros ->. apply get_Some; [apply len_nonneg|eauto]. Qed.

Lemma get_app_mid2 {A} (pre : list A) x y post i :
  i = len pre + 1 -> get (pre ++ x :: y :: post) i = Some y.
Proof.
  intros ->. replace (pre ++ x :: y :: post) with ((pre ++ [x]) ++ y :: post)
    by by rewrite <- app_assoc.
  apply get_app_mid. len_lia.
Qed.

Lemma get_app_r {A} (pre c : list A) k : 0 <= k -> get (pre ++ c) (len pre + k) = get c k.
Proof.
  intros Hk. unfold get. rewrite len_app. repeat zcase; [|lia|lia|done].
  unfold len. rewrite lookup_app_r by lia. f_equal. lia.
Qed.

Lemma get_app_r0 {A} (pre c : list A) : get (pre ++ c) (len pre) = get c 0.
Proof. rewrite <- (get_app_r pre c 0) by lia. by rewrite Z.add_0_r. Qed.

Lemma get_nil {A} k : get (@nil A) k = None.
Proof. unfold get. by zcase. Qed.

Lemma get_cons_0 {A} (x : A) l : get (x :: l) 0 = Some x.
Proof. unfold get. zcase; [done|len_lia]. Qed.

Lemma get_cons_S {A} (x : A) l k : 0 < k -> get (x :: l) k = get l (k - 1).
Proof.
  intros. rewrite <- (get_app_r [x] l (k - 1)) by lia. simpl. f_equal. len_lia.
Qed.

Lemma index_Ok {E A} (l : list A) i x :
  0 <= i -> get l i = Some x -> index (E := E) l i = Ok x.
Proof. unfold index, get. zcase; [|done]. by intros _ ->. Qed.

Lemma index_range_Ok {E A} (pre c post : list A) i j :
  i = len pre -> j = len pre + len c -> index_range (E := E) (pre ++ c ++ post) i j = Ok c.
Proof.
  intros -> ->. unfold index_range. repeat (zcase; [|len_lia]). simpl.
  by rewrite subslice_app.
Qed.

(** The bytes [c] are found at offset [off] of [bs]. *)
Definition bytes_at (bs : list byte) (off : Z) (c : list byte) : Prop :=
  exists pre post, bs = pre ++ c ++ post /\ len pre = off.

Lemma bytes_at_bounds bs off c : bytes_at bs off c -> 0 <= off /\ off + len c <= len bs.
Proof. intros (pre & post & -> & <-). len_lia. Qed.

Lemma bytes_at_app bs off c1 c2 :
  bytes_at bs off (c1 ++ c2) <-> bytes_at bs off c1 /\ bytes_at bs (off + len c1) c2.
Proof.
  split.
  - intros (pre & post & -> & <-). split.
    + exists pre, (c2 ++ post). by rewrite <- app_assoc.
    + exists (pre ++ c1), post. by rewrite <- !app_assoc, len_app.
  - intros [(pre & post & -> & <-) (pre' & post' & Heq & Hl)].
    rewrite app_assoc in Heq. apply app_inj_1 in Heq as [<- ->].
    + exists pre, post'. by rewrite <- app_assoc.
    + rewrite length_app. unfold len in Hl. lia.
Qed.

Lemma bytes_at_cons bs off b c :
  bytes_at bs off (b :: c) <-> get bs off = Some b /\ 0 <= off /\ bytes_at bs (off + 1) c.
Proof.
  change (b :: c) with ([b] ++ c). rewrite bytes_at_app. change (len [b]) with 1. split.
  - intros [(pre & post & -> & <-) Hc]. simpl. rewrite get_app_mid by done.
    split_and!; [done|apply len_nonneg|done].
  - intros (Hg & Ho & Hc). split; [|done]. apply get_Some in Hg as (pre & post & -> & <-); [|done].
    by exists pre, post.
Qed.

Lemma bytes_at_subslice bs off c j :
  bytes_at bs off c -> j = off + len c -> subslice off j bs = c.
Proof. intros (pre & post & -> & <-) ->. by apply subslice_app. Qed.

Lemma bytes_at_mid pre c post : bytes_at (pre ++ c ++ post) (len pre) c.
Proof. by exists pre, post. Qed.

Lemma chunks_concat {A} (xss : list (list A)) k post :
  Forall (fun xs => length xs = k) xss -> chunks (length xss) k (concat xss ++ post) = xss.
Proof.
  induction 1 as [|xs xss Hx _ IH]; simpl; [done|].
  rewrite <- app_assoc, <- Hx, take_app_length, drop_app_length. by rewrite Hx, IH.
Qed.

Lemma concat_chunks {A} n k (l : list A) :
  length l = (n * k)%nat ->
  concat (chunks n k l) = l /\ length (chunks n k l) = n /\
  Forall (fun xs => length xs = k) (chunks n k l).
Proof.
  revert l. induction n as [|n IH]; intros l Hl; simpl.
  - destruct l; [by repeat constructor|done].
  - destruct (IH (drop k l)) as (H1 & H2 & H3); [rewrite length_drop; lia|].
    rewrite H1, H2, take_drop. split_and!; [done..|].
    constructor; [rewrite length_take; lia|done].
Qed.

Lemma len_concat {A} (xss : list (list A)) k :
  Forall (fun xs => len xs = k) xss -> len (concat xss) = k * len xss.
Proof. induction 1 as [|xs xss Hx _ IH]; simpl; autorewrite with len; lia. Qed.

Lemma split_array {A} (c : list A) n k :
  len c = n * k -> 0 <= n -> 0 <= k ->
  exists xs, c = concat xs /\ len xs = n /\ Forall (fun x => len x = k) xs.
Proof.
  intros Hc Hn Hk. destruct (concat_chunks (Z.to_nat n) (Z.to_nat k) c) as (H1 & H2 & H3).
  { unfold len in *. lia. }
  exists (chunks (Z.to_nat n) (Z.to_nat k) c). unfold len. split_and!; [done|lia|].
  eapply Forall_impl; [done|]. simpl. lia.
Qed.

Lemma chunks_array {A} (xs : list (list A)) n k :
  len xs = n -> Forall (fun x => len x = k) xs ->
  chunks (Z.to_nat n) (Z.to_nat k) (concat xs) = xs.
Proof.
  intros <- Hk. unfold len at 1. rewrite Nat2Z.id, <- (app_nil_r (concat xs)).
  apply chunks_concat. eapply Forall_impl; [done|]. simpl. unfold len. lia.
Qed.

(** ** Words *)

Lemma length_le_bytes n z : length (le_bytes n z) = n.
Proof. revert z. induction n; intros z; simpl; [done|by rewrite IHn]. Qed.

Lemma len_le_bytes n z : len (le_bytes n z) = Z.of_nat n.
Proof. unfold len. by rewrite length_le_bytes. Qed.
#[export] Hint Rewrite len_le_bytes : len.

Lemma le_val_range bs : 0 <= le_val bs < 256 ^ len bs.
Proof.
  induction bs as [|b bs IH]; [done|].
  rewrite len_cons, Z.add_comm, Z.pow_add_r by (pose proof (len_nonneg bs); lia).
  simpl le_val. pose proof (Z_of_byte_range b). lia.
Qed.

Lemma le_val_le_bytes n z : 0 <= z < 256 ^ Z.of_nat n -> le_val (le_bytes n z) = z.
Proof.
  revert z. induction n as [|n IH]; intros z Hz; [cbn in *; lia|].
  rewrite Nat2Z.inj_succ, Z.pow_succ_r in Hz by lia. simpl.
  pose proof (Z.mod_pos_bound z 256). pose proof (Z.div_mod z 256).
  rewrite Z_of_byte_of_Z, IH by lia. lia.
Qed.

Lemma le_bytes_le_val bs : le_bytes (length bs) (le_val bs) = bs.
Proof.
  induction bs as [|b bs IH]; [done|]. simpl. pose proof (Z_of_byte_range b).
  rewrite (Z.mul_comm 256), Z_mod_plus_full, Z.mod_small, byte_of_Z_of_byte by lia.
  f_equal. by rewrite Z.div_add, Z.div_small, Z.add_0_l by lia.
Qed.

Lemma le_bytes_le_val' n bs : length bs = n -> le_bytes n (le_val bs) = bs.
Proof. intros <-. apply le_bytes_le_val. Qed.

Lemma le_val_cons b bs : le_val (b :: bs) = Z_of_byte b + 256 * le_val bs.
Proof. done. Qed.

(** ** Byte order of the target

    A raw read of an integer depends on the byte order of the machine. *)
Inductive Endian := LittleEndian | BigEndian.
Class Target := target_endian : Endian.

(** The integer behind a pointer to these bytes. *)
Definition native_val `{Target} (bs : list byte) : Z :=
  match target_endian with LittleEndian => le_val bs | BigEndian => le_val (rev bs) end.

(** [uN::from_le] of an [n]-byte integer. *)
Definition from_le `{Target} (n : nat) (x : Z) : Z :=
  match target_endian with LittleEndian => x | BigEndian => le_val (rev (le_bytes n x)) end.

Lemma from_le_native_val `{Target} n bs : length bs = n -> from_le n (native_val bs) = le_val bs.
Proof.
  intros Hn. unfold from_le, native_val. destruct target_endian; [done|].
  rewrite le_bytes_le_val', rev_involutive; [done|by rewrite length_rev].
Qed.

(** The bytes in memory of an [n]-byte integer. *)
Definition native_bytes `{Target} (n : nat) (z : Z) : list byte :=
  match target_endian with LittleEndian => le_bytes n z | BigEndian => rev (le_bytes n z) end.

Lemma len_native_bytes `{Target} n z : len (native_bytes n z) = Z.of_nat n.
Proof.
  unfold native_bytes, len. destruct target_endian; by rewrite ?length_rev, length_le_bytes.
Qed.
#[export] Hint Rewrite @len_native_bytes : len.

Lemma native_val_native_bytes `{Target} n z :
  0 <= z < 256 ^ Z.of_nat n -> native_val (native_bytes n z) = z.
Proof.
  intros Hz. unfold native_val, native_bytes.
  destruct target_endian; rewrite ?rev_involutive; by apply le_val_le_bytes.
Qed.

Lemma native_bytes_native_val `{Target} n bs :
  length bs = n -> native_bytes n (native_val bs) = bs.
Proof.
  intros Hn. unfold native_val, native_bytes.
  destruct target_endian; rewrite le_bytes_le_val' by (by rewrite ?length_rev); [done|].
  apply rev_involutive.
Qed.

Lemma native_val_range `{Target} bs : 0 <= native_val bs < 256 ^ len bs.
Proof.
  unfold native_val. destruct target_endian; [apply le_val_range|].
  pose proof (le_val_range (rev bs)) as Hr. unfold len in *. by rewrite length_rev in Hr.
Qed.
