(* ===== verification/Cursor.v ===== *)
(** * Cursor-style parsing and its grammars

    The error type of the transaction-view crate (result.rs), the calling
    convention of its parsing functions ([bytes: &[u8], offset: &mut usize] with
    a [Result]), and the logic used to verify them: [wp], a weakest
    precondition that rules out panics and undefined behaviour, and [parses],
    which relates a parser to the set of byte strings it accepts. *)

From stdpp Require Import base list numbers.
From Stdlib Require Import ZArith Lia Strings.Byte.
From S2P Require Import Prelude.
Local Open Scope Z_scope.

(** ** result.rs *)

Inductive TransactionViewError := ParseError | SanitizeError | AddressLookupMismatch.

#[global] Instance TransactionViewError_eq_dec : EqDecision TransactionViewError.
Proof. solve_decision. Defined.

(** [core::result::Result<T, TransactionViewError>], extended with the outcomes
    that [Result] does not show. *)
Definition Result (T : Type) : Type := Outcome TransactionViewError T.

(** ** The cursor monad

    The offset is threaded through every outcome, because [&mut usize] keeps
    the writes made before an [Err]. *)
Definition Parser (A : Type) : Type := list byte -> Z -> Result A * Z.

Definition pret {A} (a : A) : Parser A := fun _ off => (Ok a, off).

Definition pbind {A B} (m : Parser A) (f : A -> Parser B) : Parser B :=
  fun bs off =>
    match m bs off with
    | (Ok a, off') => f a bs off'
    | (Err e, off') => (Err e, off')
    | (Panic, off') => (Panic, off')
    | (UB, off') => (UB, off')
    | (Diverge, off') => (Diverge, off')
    end.

(** The current value of [*offset]. *)
Definition offset : Parser Z := fun _ off => (Ok off, off).

(** A computation that reads [bytes] and [*offset] and leaves the offset alone. *)
Definition at_offset {A} (f : list byte -> Z -> Result A) : Parser A :=
  fun bs off => (f bs off, off).

Definition lift {A} (r : Result A) : Parser A := at_offset (fun _ _ => r).

(** [for _ in 0..n { s = body(s)?; }]. *)
Fixpoint for_range {S} (n : nat) (body : S -> Parser S) (s : S) : Parser S :=
  match n with
  | O => pret s
  | S n => pbind (body s) (for_range n body)
  end.

Declare Scope parser_scope.
Delimit Scope parser_scope with parser.
Notation "x <- m ;; k" := (pbind m (fun x => k))
  (at level 100, m at next level, right associativity) : parser_scope.
Notation "m ;; k" := (pbind m (fun _ => k))
  (at level 100, right associativity) : parser_scope.
Local Open Scope parser_scope.

(** ** Weakest preconditions

    [wp p Q bs off]: from [off], [p] neither panics nor has undefined behaviour,
    and if it succeeds its result and the new offset satisfy [Q]. *)
Definition wp {A} (p : Parser A) (Q : A -> Z -> Prop) (bs : list byte) (off : Z) : Prop :=
  match p bs off with
  | (Ok a, off') => Q a off'
  | (Err _, _) => True
  | _ => False
  end.

Lemma wp_mono {A} (p : Parser A) (Q R : A -> Z -> Prop) bs off :
  wp p Q bs off -> (forall a off', Q a off' -> R a off') -> wp p R bs off.
Proof. unfold wp. destruct (p bs off) as [[] ?]; auto. Qed.

Lemma wp_ret {A} (a : A) (Q : A -> Z -> Prop) bs off : Q a off -> wp (pret a) Q bs off.
Proof. done. Qed.

Lemma wp_bind {A B} (p : Parser A) (f : A -> Parser B) Q bs off :
  wp p (fun a off' => wp (f a) Q bs off') bs off -> wp (pbind p f) Q bs off.
Proof. unfold wp, pbind. by destruct (p bs off) as [[] ?]. Qed.

Lemma wp_offset (Q : Z -> Z -> Prop) bs off : Q off off -> wp offset Q bs off.
Proof. done. Qed.

Lemma wp_at_offset {A} (f : list byte -> Z -> Result A) (Q : A -> Z -> Prop) bs off :
  match f bs off with Ok a => Q a off | Err _ => True | _ => False end ->
  wp (at_offset f) Q bs off.
Proof. unfold wp, at_offset. by destruct (f bs off). Qed.

Lemma wp_for_range {S} (I : nat -> S -> Z -> Prop) n (body : S -> Parser S) s bs off :
  (forall k s off, (k < n)%nat -> I k s off -> wp (body s) (I (Datatypes.S k)) bs off) ->
  I 0%nat s off -> wp (for_range n body s) (I n) bs off.
Proof.
  intros Hb. assert (forall m k s off, (k + m)%nat = n -> I k s off ->
    wp (for_range m body s) (I n) bs off) as Hgen; [|intros; by apply (Hgen n 0%nat)].
  clear s off. induction m as [|m IH]; intros k s off Hk HI; simpl.
  - apply wp_ret. by replace n with k by lia.
  - apply wp_bind. eapply wp_mono; [apply (Hb k); [lia|done]|].
    intros s' off' HI'. apply (IH (Datatypes.S k)); [lia|done].
Qed.

(** The result of a call with a [wp] is a regular return. *)
Lemma wp_returns {A} (p : Parser A) Q bs off : wp p Q bs off -> returns (p bs off).1.
Proof. unfold wp. by destruct (p bs off) as [[] ?]. Qed.

Lemma wp_Ok {A} (p : Parser A) Q bs off a off' :
  wp p Q bs off -> p bs off = (Ok a, off') -> Q a off'.
Proof. unfold wp. intros H Hp. by rewrite Hp in H. Qed.

(** ** Grammars

    A grammar relates the position of a chunk of bytes, the chunk, the number
    of bytes that follow it in the buffer, and the parsed value. *)
Definition Grammar (A : Type) : Type := Z -> list byte -> Z -> A -> Prop.

(** [p] consumes exactly the chunks of [G]: it only accepts such a chunk and
    moves the offset past it (soundness, without panic or undefined behaviour),
    and it accepts every such chunk wherever it is placed (completeness). *)
Record parses {A} (p : Parser A) (G : Grammar A) : Prop := {
  parses_sound : forall bs off, slice_ok bs -> 0 <= off <= len bs ->
    wp p (fun a off' => exists pre chunk post, bs = pre ++ chunk ++ post /\ len pre = off /\
      off' = off + len chunk /\ G off chunk (len post) a) bs off;
  parses_complete : forall pre chunk post a, slice_ok (pre ++ chunk ++ post) ->
    G (len pre) chunk (len post) a ->
    p (pre ++ chunk ++ post) (len pre) = (Ok a, len pre + len chunk) }.

Lemma parses_ext {A} (p : Parser A) (G H : Grammar A) :
  parses p G -> (forall off c rest a, 0 <= off -> 0 <= rest -> G off c rest a <-> H off c rest a) ->
  parses p H.
Proof.
  intros [Hs Hc] HGH. split.
  - intros bs off Hb Ho. eapply wp_mono; [by apply Hs|].
    intros a off' (pre & c & post & -> & <- & -> & HG). exists pre, c, post.
    split_and!; [done..|]. apply HGH; [apply len_nonneg..|done].
  - intros pre c post a Hb HH. apply Hc; [done|]. apply HGH; [apply len_nonneg..|done].
Qed.

Definition ret_grammar {A} (a : A) : Grammar A := fun _ c _ a' => c = [] /\ a' = a.

Definition bind_grammar {A B} (G : Grammar A) (H : A -> Grammar B) : Grammar B :=
  fun off c rest b => exists c1 c2 a, c = c1 ++ c2 /\
    G off c1 (len c2 + rest) a /\ H a (off + len c1) c2 rest b.

Lemma parses_ret {A} (a : A) : parses (pret a) (ret_grammar a).
Proof.
  split.
  - intros bs off _ Ho. apply wp_ret.
    destruct (carve bs off 0) as (pre & c & post & -> & <- & Hc%len_0_nil); [lia..|]. subst c.
    exists pre, [], post. split_and!; [done..|len_lia|done].
  - intros pre c post a' _ [-> ->]. unfold pret. f_equal. len_lia.
Qed.

Lemma parses_bind_dep {A B} (p : Parser A) (f : A -> Parser B) G H :
  parses p G -> (forall a off c rest, G off c rest a -> parses (f a) (H a)) ->
  parses (pbind p f) (bind_grammar G H).
Proof.
  intros [Hs Hc] Hf. split.
  - intros bs off Hb Ho. apply wp_bind. eapply wp_mono; [by apply Hs|].
    intros a off1 (pre & c1 & post1 & -> & <- & -> & HG).
    eapply wp_mono; [apply (parses_sound _ _ (Hf a _ _ _ HG)); [done|len_lia]|].
    intros b off2 (pre2 & c2 & post & Heq & Hl2 & -> & HH).
    rewrite app_assoc in Heq. apply app_inj_1 in Heq as [<- ->];
      [|unfold len in *; rewrite length_app in *; lia].
    exists pre, (c1 ++ c2), post. rewrite <- !app_assoc. split_and!; [done..|len_lia|].
    exists c1, c2, a. split_and!; [done|by rewrite <- len_app|].
    by autorewrite with len in *.
  - intros pre c post b Hb (c1 & c2 & a & -> & HG & HH).
    unfold pbind. rewrite <- app_assoc in *.
    rewrite (Hc pre c1 (c2 ++ post) a) by (done || by rewrite len_app).
    rewrite <- (len_app pre c1) in HH |- *.
    rewrite app_assoc. rewrite (parses_complete _ _ (Hf a _ _ _ HG) (pre ++ c1) c2 post b);
      [f_equal; len_lia|by rewrite <- app_assoc|done].
Qed.

Lemma parses_bind {A B} (p : Parser A) (f : A -> Parser B) G H :
  parses p G -> (forall a, parses (f a) (H a)) -> parses (pbind p f) (bind_grammar G H).
Proof. intros. apply parses_bind_dep; auto. Qed.

(** A parser step that consumes nothing. *)
Definition step_grammar {A} (P : Z -> Z -> A -> Prop) : Grammar A :=
  fun off c rest a => c = [] /\ P off rest a.

Lemma parses_at_offset {A} (f : list byte -> Z -> Result A) (P : Z -> Z -> A -> Prop) :
  (forall bs off, slice_ok bs -> 0 <= off <= len bs -> returns (f bs off)) ->
  (forall pre post a, slice_ok (pre ++ post) ->
     f (pre ++ post) (len pre) = Ok a <-> P (len pre) (len post) a) ->
  parses (at_offset f) (step_grammar P).
Proof.
  intros Hr HP. split.
  - intros bs off Hb Ho. apply wp_at_offset. specialize (Hr bs off Hb Ho).
    destruct (carve bs off 0) as (pre & c & post & -> & <- & Hc%len_0_nil); [lia..|]. subst c.
    destruct (f _ _) as [a| | | |] eqn:Hf; [|done..].
    exists pre, [], post. split_and!; [done..|len_lia|]. split; [done|by apply HP].
  - intros pre c post a Hb [-> HG]. unfold at_offset. simpl in *.
    apply HP in HG; [|done]. rewrite HG. f_equal. len_lia.
Qed.

Lemma parses_offset : parses offset (step_grammar (fun off _ a => a = off)).
Proof.
  apply (parses_at_offset (fun _ off => Ok off)); [done|].
  intros. split; [by intros [=]|by intros ->].
Qed.

(** The grammar of a value encoded by [enc], [f] being what the parser keeps. *)
Definition enc_grammar {X A} (wf : X -> Prop) (enc : X -> list byte) (f : X -> A) : Grammar A :=
  fun _ c _ a => exists x, wf x /\ c = enc x /\ a = f x.

(** A counted loop over self-delimiting items accepts a sequence of items. *)
Lemma parses_for_range {X S} (wf : X -> Prop) (enc : X -> list byte) (upd : S -> X -> S)
    (body : S -> Parser S) n s :
  (forall s, parses (body s) (enc_grammar wf enc (upd s))) ->
  parses (for_range n body s)
    (enc_grammar (fun xs => length xs = n /\ Forall wf xs) (fun xs => concat (map enc xs))
       (fun xs => fold_left upd xs s)).
Proof.
  intros Hb. revert s. induction n as [|n IH]; intros s; simpl.
  - eapply parses_ext; [apply parses_ret|]. intros off c rest a _ _. split.
    + intros [-> ->]. by exists [].
    + intros (xs & [->%nil_length_inv _] & -> & ->). done.
  - eapply parses_ext; [apply parses_bind; [apply Hb|apply IH]|].
    intros off c rest a _ _. split.
    + intros (? & ? & ? & -> & (x & Hx & -> & ->) & (xs & [<- Hxs] & -> & ->)).
      exists (x :: xs). split_and!; [done|by constructor|done..].
    + intros ([|x xs] & [[= <-] Hxs] & -> & ->).
      apply Forall_cons_1 in Hxs as [Hx Hxs]. simpl.
      exists (enc x), (concat (map enc xs)), (upd s x). split_and!; [done| |].
      * by exists x.
      * by exists xs.
Qed.

Lemma parses_Ok {A} (p : Parser A) G bs off a off' :
  parses p G -> slice_ok bs -> 0 <= off <= len bs ->
  p bs off = (Ok a, off') <->
  exists pre c post, bs = pre ++ c ++ post /\ len pre = off /\ off' = off + len c /\
    G off c (len post) a.
Proof.
  intros Hp Hb Ho. split.
  - intros He. eapply (wp_Ok _ _ _ _ _ _ (parses_sound _ _ Hp bs off Hb Ho) He).
  - intros (pre & c & post & -> & <- & -> & HG). by apply (parses_complete _ _ Hp).
Qed.

Lemma parses_lift_err_if b e :
  parses (lift (err_if b e)) (step_grammar (fun _ _ _ => b = false)).
Proof.
  apply parses_at_offset; [by destruct b|].
  intros pre post [] _. unfold err_if. by destruct b.
Qed.

Lemma parses_lift_ok_or {A} (o : option A) e :
  parses (lift (ok_or o e)) (step_grammar (fun _ _ a => o = Some a)).
Proof.
  apply parses_at_offset; [by destruct o|].
  intros pre post a _. destruct o; simpl; split; by intros [= ->].
Qed.
(** The next [n] bytes, [f] being what the parser keeps. *)
Definition take_grammar {A} (n : Z) (f : list byte -> A) : Grammar A :=
  fun _ c _ a => len c = n /\ a = f c.

Lemma bind_step {A B} (P : Z -> Z -> A -> Prop) (H : A -> Grammar B) off c rest b :
  bind_grammar (step_grammar P) H off c rest b <->
  exists a, P off (len c + rest) a /\ H a off c rest b.
Proof.
  split.
  - intros (c1 & c2 & a & -> & [-> HP] & HH). exists a. by rewrite len_nil, Z.add_0_r in HH.
  - intros (a & HP & HH). exists [], c, a. by rewrite len_nil, Z.add_0_r.
Qed.

Lemma bind_enc {X A B} wf enc (f : X -> A) (H : A -> Grammar B) off c rest b :
  bind_grammar (enc_grammar wf enc f) H off c rest b <->
  exists x c2, wf x /\ c = enc x ++ c2 /\ H (f x) (off + len (enc x)) c2 rest b.
Proof.
  split.
  - intros (c1 & c2 & a & -> & (x & Hx & -> & ->) & HH). by exists x, c2.
  - intros (x & c2 & Hx & -> & HH). exists (enc x), c2, (f x).
    split_and!; [done| |done]. by exists x.
Qed.

Lemma bind_take {A B} n (f : list byte -> A) (H : A -> Grammar B) off c rest b :
  bind_grammar (take_grammar n f) H off c rest b <->
  exists c1 c2, len c1 = n /\ c = c1 ++ c2 /\ H (f c1) (off + n) c2 rest b.
Proof.
  split.
  - intros (c1 & c2 & a & -> & [<- ->] & HH). by exists c1, c2.
  - intros (c1 & c2 & <- & -> & HH). by exists c1, c2, (f c1).
Qed.

Lemma parses_if {A} (b : bool) (p q : Parser A) G H :
  (b = true -> parses p G) -> (b = false -> parses q H) ->
  parses (if b then p else q) (if b then G else H).
Proof. destruct b; auto. Qed.

Lemma parses_fail {A} e : parses (lift (@Err _ A e)) (fun _ _ _ _ => False).
Proof. split; [done|]. by intros. Qed.

(** ** Automation

    [parse_auto] builds the grammar of a parser out of the grammars of its
    steps (hint database [parses]); [grammar_facts] takes a hypothesis about a
    composed grammar apart. *)
Create HintDb parses discriminated.
#[export] Hint Resolve parses_ret parses_offset parses_lift_err_if
  parses_lift_ok_or parses_fail : parses.

Ltac grammar_facts :=
  repeat match goal with
  | H : bind_grammar (step_grammar _) _ _ _ _ _ |- _ => apply bind_step in H as (? & ? & H)
  | H : bind_grammar (enc_grammar _ _ _) _ _ _ _ _ |- _ =>
      apply bind_enc in H as (? & ? & ? & ? & H)
  | H : bind_grammar (take_grammar _ _) _ _ _ _ _ |- _ =>
      apply bind_take in H as (? & ? & ? & ? & H)
  | H : bind_grammar _ _ _ _ _ _ |- _ => destruct H as (? & ? & ? & ? & ? & H)
  | H : (if ?b then _ else _) _ _ _ _ |- _ => destruct b eqn:?
  | H : step_grammar _ _ _ _ _ |- _ => destruct H as [? ?]
  | H : ret_grammar _ _ _ _ _ |- _ => destruct H as [? ?]
  | H : enc_grammar _ _ _ _ _ _ _ |- _ => destruct H as (? & ? & ? & ?)
  | H : take_grammar _ _ _ _ _ _ |- _ => destruct H as [? ?]
  | H : _ /\ _ |- _ => destruct H
  | _ => progress subst
  end; unfold id in *; rewrite ?app_nil_r in *.

Ltac parse_auto :=
  repeat match goal with
  | |- parses (pbind _ _) _ => eapply parses_bind_dep; [|intros ? ? ? ? ?]
  | |- parses (if _ then _ else _) _ => eapply parses_if; intros ?
  | |- parses _ _ => solve [eauto with parses | eapply parses_ret]
  end.
