(* ===== verification/RustIterator.v ===== *)
(** * Iterators

    The interface between the frames, which implement [Iterator] and
    [ExactSizeIterator], and the code that loops over them.  An iterator that
    [yields] a list makes every loop over it a fold over that list. *)

From stdpp Require Import base list numbers.
From Stdlib Require Import ZArith Lia.
From S2P Require Import Prelude Cursor.
Local Open Scope Z_scope.

(** [Iterator::next] and [ExactSizeIterator::len]. *)
Class RustIterator (It Item : Type) := {
  next : It -> Result (option Item) * It;
  exact_len : It -> Z }.

Section Loops.
  Context {It Item : Type} `{!RustIterator It Item}.

(** [for x in it { s = body(s, x)?; }], giving up after [fuel] items. *)
Fixpoint iter_fold {S} (fuel : nat) (body : S -> Item -> Result S) (s : S) (it : It) : Result S :=
  match fuel with
  | O => Diverge
  | Datatypes.S fuel =>
      match next it with
      | (Ok None, _) => Ok s
      | (Ok (Some x), it') => obind (body s x) (fun s' => iter_fold fuel body s' it')
      | (Err e, _) => Err e
      | (Panic, _) => Panic
      | (UB, _) => UB
      | (Diverge, _) => Diverge
      end
  end.

(** [it.any(f)], which stops at the first hit. *)
Fixpoint iter_any_fuel (fuel : nat) (f : Item -> bool) (it : It) : Result bool :=
  match fuel with
  | O => Diverge
  | Datatypes.S fuel =>
      match next it with
      | (Ok None, _) => Ok false
      | (Ok (Some x), it') => if f x then Ok true else iter_any_fuel fuel f it'
      | (Err e, _) => Err e
      | (Panic, _) => Panic
      | (UB, _) => UB
      | (Diverge, _) => Diverge
      end
  end.

(** One call of [next] per remaining item and one for the end. *)
Definition fuel_of (it : It) : nat := S (Z.to_nat (exact_len it)).

Definition for_each {S} (body : S -> Item -> Result S) (s : S) (it : It) : Result S :=
  iter_fold (fuel_of it) body s it.

Definition iter_any (f : Item -> bool) (it : It) : Result bool :=
  iter_any_fuel (fuel_of it) f it.

(** [it.map(f).collect()] for a [f] that may panic. *)
Definition map_collect {B} (f : Item -> Result B) (it : It) : Result (list B) :=
  for_each (fun acc x => obind (f x) (fun y => Ok (acc ++ [y]))) [] it.

Definition collect (it : It) : Result (list Item) := map_collect Ok it.

(** [it] produces exactly the items of the list, without a panic or undefined
    behaviour, and then ends. *)
Inductive yields : It -> list Item -> Prop :=
| yields_nil it it' : next it = (Ok None, it') -> yields it []
| yields_cons it it' x xs :
    next it = (Ok (Some x), it') -> yields it' xs -> yields it (x :: xs).

(** ... and reports their number. *)
Definition yields_exact (it : It) (xs : list Item) : Prop :=
  yields it xs /\ exact_len it = len xs.

Lemma iter_fold_yields {S} fuel (body : S -> Item -> Result S) it xs s :
  yields it xs -> (length xs < fuel)%nat -> iter_fold fuel body s it = ofold body s xs.
Proof.
  intros Hy. revert fuel s. induction Hy as [it it' Hn|it it' x xs Hn Hy IH];
    intros [|fuel] s Hf; simpl in *; try lia; rewrite Hn; [done|].
  destruct (body s x); simpl; [|done..]. apply IH. lia.
Qed.

Lemma iter_any_yields fuel f it xs :
  yields it xs -> (length xs < fuel)%nat -> iter_any_fuel fuel f it = Ok (existsb f xs).
Proof.
  intros Hy. revert fuel. induction Hy as [it it' Hn|it it' x xs Hn Hy IH];
    intros [|fuel] Hf; simpl in *; try lia; rewrite Hn; [done|].
  destruct (f x); simpl; [done|]. apply IH. lia.
Qed.

Lemma for_each_yields {S} (body : S -> Item -> Result S) it xs s :
  yields_exact it xs -> for_each body s it = ofold body s xs.
Proof.
  intros [Hy Hl]. apply iter_fold_yields; [done|]. unfold fuel_of. rewrite Hl. unfold len. lia.
Qed.

Lemma iter_any_exact f it xs : yields_exact it xs -> iter_any f it = Ok (existsb f xs).
Proof.
  intros [Hy Hl]. apply iter_any_yields; [done|]. unfold fuel_of. rewrite Hl. unfold len. lia.
Qed.

Lemma ofold_collect {B} (f : Item -> Result B) xs ys acc :
  Forall2 (fun x y => f x = Ok y) xs ys ->
  ofold (fun acc x => obind (f x) (fun y => Ok (acc ++ [y]))) acc xs = Ok (acc ++ ys).
Proof.
  intros H. revert acc. induction H as [|x y xs ys Hxy _ IH]; intros acc; simpl.
  - by rewrite app_nil_r.
  - rewrite Hxy. simpl. by rewrite IH, <- app_assoc.
Qed.

Lemma map_collect_exact {B} (f : Item -> Result B) it xs ys :
  yields_exact it xs -> Forall2 (fun x y => f x = Ok y) xs ys -> map_collect f it = Ok ys.
Proof.
  intros Hy Hf. unfold map_collect. rewrite (for_each_yields _ _ _ _ Hy).
  by rewrite (ofold_collect _ _ ys).
Qed.

Lemma collect_exact it xs : yields_exact it xs -> collect it = Ok xs.
Proof.
  intros Hy. eapply map_collect_exact; [done|]. apply Forall_Forall2_diag.
  by apply Forall_true.
Qed.
End Loops.
