(* ===== verification/Bytes.v ===== *)
(** * bytes.rs: bounds-checked and unchecked reads at a cursor *)

From stdpp Require Import base list numbers.
From Stdlib Require Import ZArith Lia Strings.Byte.
From S2P Require Import Prelude Cursor.
Local Open Scope Z_scope.
Local Open Scope parser_scope.

(** [core::mem::size_of] of the types the parser reads.  [Signature], [Pubkey]
    and [Hash] are byte arrays of the solana crates. *)
Definition size_of_u8 : Z := 1.
Definition size_of_u32 : Z := 4.
Definition size_of_Signature : Z := 64.
Definition size_of_Pubkey : Z := 32.
Definition size_of_Hash : Z := 32.

(** Largest legacy/v0 packet, [solana_packet::PACKET_DATA_SIZE]. *)
Definition PACKET_DATA_SIZE : Z := 1232.

(** ** Raw memory *)

(** [bytes.as_ptr().add(offset)]: one past the end is the last valid pointer. *)
Definition ptr_add (bytes : list byte) (offset : Z) : Result unit :=
  if offset <=? len bytes then Ok tt else UB.

(** The [n] bytes of memory behind [bytes.as_ptr().add(offset)]. *)
Definition raw_read (bytes : list byte) (offset n : Z) : Result (list byte) :=
  if offset + n <=? len bytes then Ok (subslice offset (offset + n) bytes) else UB.

(** ** The functions of bytes.rs *)

Definition check_remaining (bytes : list byte) (offset num_bytes : Z) : Result unit :=
  if wrapping_sub USIZE (len bytes) offset <? num_bytes then Err ParseError else Ok tt.

Definition checked_offset (offset : Z) : Result Z := ok_or (try_from U16 offset) ParseError.

Definition read_byte : Parser Z := fun bytes offset =>
  (ok_or (Z_of_byte <$> get bytes offset) ParseError, wrapping_add USIZE offset 1).

Definition unchecked_read_byte : Parser Z := fun bytes offset =>
  (match get bytes offset with Some b => Ok (Z_of_byte b) | None => UB end,
   wrapping_add USIZE offset 1).

(** The body of the loop over the three bytes of a compressed [u16]; [counter] holds
    the remaining values of the loop counter. *)
Fixpoint read_compressed_u16_loop (counter : list Z) (result shift : Z) : Parser Z :=
  match counter with
  | [] => fun _ offset => (Ok result, wrapping_add USIZE offset 3)
  | i :: counter => fun bytes offset =>
      match Z_of_byte <$> get bytes (wrapping_add USIZE offset i) with
      | None => (Err ParseError, offset)
      | Some byte =>
          if ((0 <? i) && (byte =? 0)) || ((i =? 2) && (3 <? byte))
          then (Err ParseError, offset)
          else
            let result := Z.lor result (cast U16 (Z.shiftl (Z.land byte 0x7F) shift)) in
            let shift := wrapping_add U16 shift 7 in
            if Z.land byte 0x80 =? 0
            then (Ok result, wrapping_add USIZE (wrapping_add USIZE offset i) 1)
            else read_compressed_u16_loop counter result shift bytes offset
      end
  end.

Definition read_compressed_u16 : Parser Z := read_compressed_u16_loop [0; 1; 2] 0 0.

Definition optimized_read_compressed_u16 : Parser Z := fun bytes offset =>
  match Z_of_byte <$> get bytes offset with
  | None => (Err ParseError, offset)
  | Some byte1 =>
      let result := Z.lor 0 (Z.land byte1 0x7F) in
      if Z.land byte1 0x80 =? 0 then (Ok result, wrapping_add USIZE offset 1)
      else
        match Z_of_byte <$> get bytes (wrapping_add USIZE offset 1) with
        | None => (Err ParseError, offset)
        | Some byte2 =>
            if (byte2 =? 0) || negb (Z.land byte2 0x80 =? 0) then (Err ParseError, offset)
            else
              (Ok (Z.lor result (cast U16 (Z.shiftl (Z.land byte2 0x7F) 7))),
               wrapping_add USIZE offset 2)
        end
  end.

Definition advance_offset_for_array (size_of_T num_elements : Z) : Parser unit :=
  fun bytes offset =>
    let array_len_bytes := wrapping_mul USIZE num_elements size_of_T in
    match check_remaining bytes offset array_len_bytes with
    | Ok _ => (Ok tt, wrapping_add USIZE offset array_len_bytes)
    | r => (r, offset)
    end.

Definition advance_offset_for_type (size_of_T : Z) : Parser unit :=
  fun bytes offset =>
    match check_remaining bytes offset size_of_T with
    | Ok _ => (Ok tt, wrapping_add USIZE offset size_of_T)
    | r => (r, offset)
    end.

(** The memory of the returned [&[T]]. *)
Definition read_slice_data (size_of_T num_elements : Z) : Parser (list byte) :=
  current <- offset ;;
  at_offset (fun bytes _ => ptr_add bytes current) ;;
  advance_offset_for_array size_of_T num_elements ;;
  at_offset (fun bytes _ => raw_read bytes current (num_elements * size_of_T)).

Definition unchecked_read_slice_data (size_of_T num_elements : Z) : Parser (list byte) :=
  fun bytes offset =>
    match ptr_add bytes offset with
    | Ok _ =>
        let array_len_bytes := wrapping_mul USIZE num_elements size_of_T in
        (raw_read bytes offset (num_elements * size_of_T),
         wrapping_add USIZE offset array_len_bytes)
    | _ => (UB, offset)
    end.

(** The memory of the returned [&T]. *)
Definition read_type (size_of_T : Z) : Parser (list byte) :=
  current <- offset ;;
  at_offset (fun bytes _ => ptr_add bytes current) ;;
  advance_offset_for_type size_of_T ;;
  at_offset (fun bytes _ => raw_read bytes current size_of_T).

(** The memory of the copied [T]. *)
Definition unchecked_copy_value (size_of_T : Z) (bytes : list byte) (offset : Z) :
    Result (list byte) :=
  match ptr_add bytes offset with
  | Ok _ => raw_read bytes offset size_of_T
  | _ => UB
  end.

(** ** The compact encoding of lengths *)

(** Minimal compact-u16 encoding: seven bits per byte, little end first. *)
Definition encode_short (n : Z) : list byte :=
  if n <? 128 then [byte_of_Z n]
  else if n <? 16384 then [byte_of_Z (128 + n mod 128); byte_of_Z (n / 128)]
  else [byte_of_Z (128 + n mod 128); byte_of_Z (128 + n / 128 mod 128); byte_of_Z (n / 16384)].

(** Lengths with an encoding of at most two bytes. *)
Definition short_len (n : Z) : Prop := 0 <= n < 16384.

Lemma land_7F b : Z.land b 0x7F = b mod 128.
Proof. change 0x7F with (Z.ones 7). by rewrite Z.land_ones. Qed.

Lemma land_80 b : 0 <= b < 256 -> (Z.land b 0x80 =? 0) = (b <? 128).
Proof.
  intros Hb. rewrite <- (Z2Nat.id b) by lia.
  assert (forallb (fun k => Bool.eqb (Z.land (Z.of_nat k) 0x80 =? 0) (Z.of_nat k <? 128))
    (seq 0 256) = true) as Hall by by vm_compute.
  rewrite forallb_forall in Hall. apply eqb_prop, Hall, in_seq. lia.
Qed.

Lemma lor_shiftl_add a b k : 0 <= k -> 0 <= a < 2 ^ k -> Z.lor a (Z.shiftl b k) = a + b * 2 ^ k.
Proof.
  intros Hk Ha. rewrite <- Z.shiftl_mul_pow2 by done.
  assert (Z.land a (Z.shiftl b k) = 0) as H0.
  { apply Z.bits_inj'. intros i Hi. rewrite Z.land_spec, Z.bits_0.
    destruct (Z.lt_ge_cases i k).
    - by rewrite Z.shiftl_spec_low, andb_false_r.
    - rewrite <- (Z.mod_small a (2 ^ k)) by done.
      by rewrite Z.mod_pow2_bits_high. }
  by rewrite <- Z.lxor_lor, Z.add_nocarry_lxor.
Qed.

(** ** Correctness of the readers *)

Lemma check_remaining_Ok bytes offset n :
  slice_ok bytes -> 0 <= offset <= len bytes ->
  check_remaining bytes offset n =
    if len bytes - offset <? n then Err ParseError else Ok tt.
Proof. intros. unfold check_remaining. by nowrap. Qed.

Lemma parses_check_remaining n :
  parses (at_offset (fun bytes off => check_remaining bytes off n))
    (step_grammar (fun _ rest _ => n <= rest)).
Proof.
  apply parses_at_offset.
  - intros. rewrite check_remaining_Ok by done. by zcase.
  - intros pre post [] Hb. rewrite check_remaining_Ok by (done || len_lia).
    rewrite len_app. zcase; split; intros; (done || lia).
Qed.

Lemma parses_checked_offset :
  parses (at_offset (fun _ off => checked_offset off))
    (step_grammar (fun off _ a => a = off /\ off <= 65535)).
Proof.
  unfold checked_offset, try_from. cbn [modulus]. apply parses_at_offset.
  - intros. by zcase.
  - intros. zcase; simpl; split; [intros [= <-]|intros [-> _]|done|]; (done || lia).
Qed.

Lemma parses_read_byte :
  parses read_byte (enc_grammar (in_width U8) (fun n => [byte_of_Z n]) id).
Proof.
  split.
  - intros bs off Hb Ho. unfold wp, read_byte.
    destruct (get bs off) as [b|] eqn:Hg; simpl; [|done].
    apply get_Some in Hg as (pre & post & -> & <-); [|lia]. nowrap.
    exists pre, [b], post. split_and!; [done..|]. exists (Z_of_byte b).
    rewrite byte_of_Z_of_byte. split; [apply Z_of_byte_range|done].
  - intros pre c post a Hb (n & Hn & -> & ->). unfold read_byte. simpl.
    rewrite get_app_mid by done. simpl. rewrite Z_of_byte_of_Z by done. by nowrap.
Qed.

Lemma len_encode_short n : short_len n -> len (encode_short n) = if n <? 128 then 1 else 2.
Proof. unfold short_len, encode_short. intros. repeat zcase; (done || lia). Qed.

(** The decoder with its bit operations read as arithmetic. *)
Lemma optimized_read_compressed_u16_eq bs off :
  optimized_read_compressed_u16 bs off =
  match Z_of_byte <$> get bs off with
  | None => (Err ParseError, off)
  | Some b1 =>
      if b1 <? 128 then (Ok b1, wrapping_add USIZE off 1)
      else match Z_of_byte <$> get bs (wrapping_add USIZE off 1) with
           | None => (Err ParseError, off)
           | Some b2 =>
               if (b2 =? 0) || (128 <=? b2) then (Err ParseError, off)
               else (Ok (b1 - 128 + b2 * 128), wrapping_add USIZE off 2)
           end
  end.
Proof.
  unfold optimized_read_compressed_u16. destruct (get bs off) as [b1|]; simpl fmap; [|done].
  pose proof (Z_of_byte_range b1). cbv beta iota zeta. rewrite land_80, land_7F, Z.lor_0_l by done.
  zcase; [by rewrite Z.mod_small by lia|].
  destruct (get _ _) as [b2|]; simpl fmap; [|done]. pose proof (Z_of_byte_range b2).
  cbv beta iota. rewrite land_80, land_7F, Z.leb_antisym by done.
  destruct (_ || _) eqn:Hb; [done|]. apply orb_false_iff in Hb as [_ Hb].
  apply negb_false_iff, Z.ltb_lt in Hb.
  rewrite (Z.mod_small (Z_of_byte b2)), cast_small
    by (rewrite ?Z.shiftl_mul_pow2 by done; uints; lia).
  rewrite lor_shiftl_add by (pose proof (Z.mod_pos_bound (Z_of_byte b1) 128); lia).
  do 2 f_equal. replace (Z_of_byte b1) with (Z_of_byte b1 - 128 + 1 * 128) at 1 by lia.
  rewrite Z_mod_plus_full, Z.mod_small by lia. lia.
Qed.

Lemma parses_optimized_read_compressed_u16 :
  parses optimized_read_compressed_u16 (enc_grammar short_len encode_short id).
Proof.
  split.
  - intros bs off Hb Ho. unfold wp. rewrite optimized_read_compressed_u16_eq.
    destruct (get bs off) as [b1|] eqn:Hg1; simpl fmap; [|done]. cbv beta iota.
    pose proof (Z_of_byte_range b1).
    apply get_Some in Hg1 as (pre & post & -> & <-); [|lia]. nowrap. zcase.
    { exists pre, [b1], post. split_and!; [done..|]. exists (Z_of_byte b1). unfold encode_short.
      zcase; [|lia]. rewrite byte_of_Z_of_byte. split_and!; [split; lia|done..]. }
    destruct (get _ (_ + 1)) as [b2|] eqn:Hg2; simpl fmap; [|done]. cbv beta iota.
    pose proof (Z_of_byte_range b2).
    replace (pre ++ b1 :: post) with ((pre ++ [b1]) ++ post) in * by by rewrite <- app_assoc.
    apply get_Some in Hg2 as (pre2 & post2 & Heq & Hl); [|len_lia].
    apply app_inj_1 in Heq as [<- ->]; [|unfold len in *; rewrite length_app; simpl; lia].
    destruct (Z.eqb_spec (Z_of_byte b2) 0); [done|].
    destruct (Z.leb_spec 128 (Z_of_byte b2)); [done|]. simpl.
    exists pre, [b1; b2], post2. rewrite <- app_assoc. split_and!; [done..|].
    exists (Z_of_byte b1 - 128 + Z_of_byte b2 * 128). split_and!; [split; lia| |done].
    unfold encode_short. zcase; [lia|]. zcase; [|lia].
    rewrite Z_mod_plus_full, (Z.mod_small (_ - 128)), Z.div_add, (Z.div_small (_ - 128)) by lia.
    replace (128 + _) with (Z_of_byte b1) by lia. by rewrite Z.add_0_l, !byte_of_Z_of_byte.
  - intros pre c post a Hb (n & Hn & -> & ->). unfold short_len in Hn.
    rewrite optimized_read_compressed_u16_eq. unfold encode_short in *.
    pose proof (Z.mod_pos_bound n 128). pose proof (Z.div_mod n 128).
    zcase.
    + simpl in *. rewrite get_app_mid by done. simpl fmap. cbv beta iota.
      rewrite Z_of_byte_of_Z by lia. zcase; [|lia]. by nowrap.
    + zcase; [|lia]. simpl in *. rewrite get_app_mid by done. simpl fmap. cbv beta iota.
      rewrite Z_of_byte_of_Z by lia. zcase; [lia|].
      rewrite get_app_mid2 by (by nowrap). simpl fmap. cbv beta iota.
      rewrite Z_of_byte_of_Z by (split; [|apply Z.div_lt_upper_bound]; lia).
      assert (0 < n / 128 < 128) by (split; [apply Z.div_str_pos|apply Z.div_lt_upper_bound]; lia).
      destruct (Z.eqb_spec (n / 128) 0); [lia|]. destruct (Z.leb_spec 128 (n / 128)); [lia|].
      simpl. nowrap. do 2 f_equal. unfold id. lia.
Qed.

(** A parser that takes the next [n] bytes, or fails when they are not there. *)
Lemma parses_take {A} (p : Parser A) n (f : list byte -> A) :
  0 <= n ->
  (forall bs off, slice_ok bs -> 0 <= off <= len bs ->
     exists e, p bs off = if len bs - off <? n then (Err e, off)
                          else (Ok (f (subslice off (off + n) bs)), off + n)) ->
  parses p (take_grammar n f).
Proof.
  intros Hn Hp. split.
  - intros bs off Hb Ho. unfold wp. destruct (Hp bs off Hb Ho) as [e ->]. zcase; [done|].
    destruct (carve bs off n) as (pre & c & post & -> & <- & <-); [lia..|].
    exists pre, c, post. split_and!; [done..|]. split; [done|]. by rewrite subslice_app.
  - intros pre c post a Hb [<- ->]. destruct (Hp _ (len pre) Hb) as [e ->]; [len_lia|].
    zcase; [len_lia|]. by rewrite subslice_app.
Qed.

Lemma parses_advance_offset_for_array size n :
  0 <= size <= 64 -> in_width U16 n ->
  parses (advance_offset_for_array size n) (take_grammar (n * size) (fun _ => tt)).
Proof.
  intros Hs Hn. assert (0 <= n * size <= 65536 * 64) by (uints; nia).
  apply parses_take; [lia|]. intros bs off Hb Ho. exists ParseError.
  unfold advance_offset_for_array. nowrap. rewrite check_remaining_Ok by done.
  zcase; [done|]. by nowrap.
Qed.

Lemma parses_advance_offset_for_type size :
  0 <= size <= 64 -> parses (advance_offset_for_type size) (take_grammar size (fun _ => tt)).
Proof.
  intros Hs. apply parses_take; [lia|]. intros bs off Hb Ho. exists ParseError.
  unfold advance_offset_for_type. rewrite check_remaining_Ok by done.
  zcase; [done|]. by nowrap.
Qed.

Lemma ptr_add_Ok bytes off : off <= len bytes -> ptr_add bytes off = Ok tt.
Proof. intros. unfold ptr_add. by zcase; [|lia]. Qed.

Lemma raw_read_Ok bytes off n :
  off + n <= len bytes -> raw_read bytes off n = Ok (subslice off (off + n) bytes).
Proof. intros. unfold raw_read. by zcase; [|lia]. Qed.

Lemma parses_read_slice_data size n :
  0 <= size <= 64 -> in_width U16 n ->
  parses (read_slice_data size n) (take_grammar (n * size) id).
Proof.
  intros Hs Hn. assert (0 <= n * size <= 65536 * 64) by (uints; nia).
  apply parses_take; [lia|]. intros bs off Hb Ho. exists ParseError.
  unfold read_slice_data, pbind, offset, at_offset, advance_offset_for_array. simpl.
  rewrite ptr_add_Ok by lia. nowrap. rewrite check_remaining_Ok by done.
  zcase; [done|]. rewrite raw_read_Ok by lia. by nowrap.
Qed.

Lemma parses_read_type size :
  0 <= size <= 64 -> parses (read_type size) (take_grammar size id).
Proof.
  intros Hs. apply parses_take; [lia|]. intros bs off Hb Ho. exists ParseError.
  unfold read_type, pbind, offset, at_offset, advance_offset_for_type. simpl.
  rewrite ptr_add_Ok by lia. rewrite check_remaining_Ok by done.
  zcase; [done|]. rewrite raw_read_Ok by lia. by nowrap.
Qed.

(** ** The unchecked readers, within bounds *)

Lemma wp_unchecked_read_byte (Q : Z -> Z -> Prop) bs off :
  slice_ok bs -> 0 <= off < len bs ->
  (forall b, get bs off = Some b -> Q (Z_of_byte b) (off + 1)) ->
  wp unchecked_read_byte Q bs off.
Proof.
  intros Hb Ho HQ. unfold wp, unchecked_read_byte. destruct (get bs off) as [b|] eqn:Hg.
  - nowrap. by apply HQ.
  - apply get_None in Hg; lia.
Qed.

Lemma unchecked_read_byte_at bs off b c :
  slice_ok bs -> bytes_at bs off (b :: c) ->
  unchecked_read_byte bs off = (Ok (Z_of_byte b), off + 1).
Proof.
  intros Hb Hc. pose proof (bytes_at_bounds _ _ _ Hc). apply bytes_at_cons in Hc as (Hg & _ & _).
  unfold unchecked_read_byte. rewrite Hg. by nowrap.
Qed.

Lemma raw_read_at bs off c n : bytes_at bs off c -> n = len c -> raw_read bs off n = Ok c.
Proof.
  intros Hc ->. pose proof (bytes_at_bounds _ _ _ Hc).
  by rewrite raw_read_Ok, (bytes_at_subslice _ _ _ _ Hc) by lia.
Qed.

Lemma unchecked_read_u8s_at bs off c n :
  slice_ok bs -> bytes_at bs off c -> n = len c ->
  unchecked_read_slice_data size_of_u8 n bs off = (Ok c, off + len c).
Proof.
  intros Hb Hc ->. pose proof (bytes_at_bounds _ _ _ Hc).
  unfold unchecked_read_slice_data. change size_of_u8 with 1.
  rewrite ptr_add_Ok, (raw_read_at _ _ _ _ Hc) by len_lia. by nowrap; rewrite Z.mul_1_r.
Qed.

Lemma unchecked_copy_value_at size bs off c :
  bytes_at bs off c -> size = len c -> unchecked_copy_value size bs off = Ok c.
Proof.
  intros Hc ->. pose proof (bytes_at_bounds _ _ _ Hc). unfold unchecked_copy_value.
  by rewrite ptr_add_Ok, (raw_read_at _ _ _ _ Hc) by len_lia.
Qed.

(** ** The general reader of compressed integers *)

Lemma read_compressed_u16_eq bs off :
  slice_ok bs -> 0 <= off <= len bs ->
  read_compressed_u16 bs off =
  match Z_of_byte <$> get bs off with
  | None => (Err ParseError, off)
  | Some b1 =>
      if b1 <? 128 then (Ok b1, off + 1)
      else match Z_of_byte <$> get bs (off + 1) with
           | None => (Err ParseError, off)
           | Some b2 =>
               if b2 =? 0 then (Err ParseError, off)
               else if b2 <? 128 then (Ok (b1 - 128 + b2 * 128), off + 2)
               else match Z_of_byte <$> get bs (off + 2) with
                    | None => (Err ParseError, off)
                    | Some b3 =>
                        if (b3 =? 0) || (3 <? b3) then (Err ParseError, off)
                        else (Ok (b1 - 128 + (b2 - 128) * 128 + b3 * 16384), off + 3)
                    end
           end
  end.
Proof.
  intros Hb Ho. unfold read_compressed_u16. cbn [read_compressed_u16_loop].
  change (wrapping_add U16 (wrapping_add U16 0 7) 7) with 14.
  change (wrapping_add U16 0 7) with 7. nowrap. rewrite !Z.add_0_r.
  assert (forall b, 128 <= b < 256 -> b mod 128 = b - 128) as Hmod.
  { intros b Hb'. replace b with (b - 128 + 1 * 128) at 1 by lia.
    rewrite Z_mod_plus_full, Z.mod_small; lia. }
  destruct (get bs off) as [b1|] eqn:Hb1; simpl fmap; [|done]. cbv beta iota zeta.
  assert (off < len bs) by (unfold get in Hb1; destruct (Z.ltb_spec off (len bs)); done).
  pose proof (Z_of_byte_range b1). simpl orb. rewrite land_80, land_7F, Z.lor_0_l, Z.shiftl_0_r by done.
  nowrap. replace (off + 1 + 1) with (off + 2) by lia. replace (off + 2 + 1) with (off + 3) by lia.
  destruct (Z.ltb_spec (Z_of_byte b1) 128).
  { rewrite cast_small, Z.mod_small; [done|lia|rewrite Z.mod_small; uints; lia]. }
  rewrite Hmod, cast_small by (uints; lia).
  destruct (get bs (off + 1)) as [b2|] eqn:Hb2; simpl fmap; [|done]. cbv beta iota zeta.
  pose proof (Z_of_byte_range b2). simpl orb. rewrite orb_false_r, land_80, land_7F by done.
  destruct (Z.eqb_spec (Z_of_byte b2) 0); [done|].
  assert (forall b, 0 <= b < 128 -> cast U16 (Z.shiftl b 7) = Z.shiftl b 7) as Hc
    by (intros; apply cast_small; rewrite Z.shiftl_mul_pow2 by done; uints; lia).
  pose proof (Z.mod_pos_bound (Z_of_byte b2) 128).
  rewrite Hc, lor_shiftl_add by lia. change (2 ^ 7) with 128.
  destruct (Z.ltb_spec (Z_of_byte b2) 128); [by rewrite Z.mod_small by lia|]. rewrite Hmod by lia.
  destruct (get bs (off + 2)) as [b3|] eqn:Hb3; simpl fmap; [|done]. cbv beta iota zeta.
  pose proof (Z_of_byte_range b3). simpl. destruct (_ || _) eqn:Hz; [done|].
  apply orb_false_iff in Hz as [_ Hz%Z.ltb_ge].
  rewrite land_80, land_7F by done. destruct (Z.ltb_spec (Z_of_byte b3) 128); [|lia].
  rewrite Z.mod_small, cast_small by (rewrite ?Z.shiftl_mul_pow2 by done; uints; lia).
  rewrite lor_shiftl_add by lia. done.
Qed.

(** The bytes a cursor can read are those of the rest of the buffer. *)
Ltac get_rest :=
  repeat (first [ rewrite get_app_r0 | rewrite get_app_r by lia | rewrite get_nil
                | rewrite get_cons_0 | rewrite get_cons_S by lia ]; simpl).

(** Two and three bytes that the reader accepts are an encoding. *)
Lemma encode_short_two b1 b2 :
  128 <= Z_of_byte b1 < 256 -> 0 < Z_of_byte b2 < 128 ->
  encode_short (Z_of_byte b1 - 128 + Z_of_byte b2 * 128) = [b1; b2].
Proof.
  intros H1 H2. unfold encode_short. zcase; [lia|]. zcase; [|lia].
  rewrite Z_mod_plus_full, (Z.mod_small (_ - 128)), Z.div_add, (Z.div_small (_ - 128)) by lia.
  replace (128 + _) with (Z_of_byte b1) by lia. by rewrite Z.add_0_l, !byte_of_Z_of_byte.
Qed.

Lemma encode_short_three b1 b2 b3 :
  128 <= Z_of_byte b1 < 256 -> 128 <= Z_of_byte b2 < 256 -> 0 < Z_of_byte b3 ->
  encode_short (Z_of_byte b1 - 128 + (Z_of_byte b2 - 128) * 128 + Z_of_byte b3 * 16384) =
    [b1; b2; b3].
Proof.
  intros H1 H2 H3. unfold encode_short. zcase; [lia|]. zcase; [lia|].
  set (lo := Z_of_byte b1 - 128). set (mid := Z_of_byte b2 - 128).
  replace (lo + mid * 128 + Z_of_byte b3 * 16384)
    with (lo + (mid + Z_of_byte b3 * 128) * 128) by lia.
  rewrite Z_mod_plus_full, Z.div_add, (Z.div_small lo), (Z.mod_small lo), Z.add_0_l,
    Z_mod_plus_full, (Z.mod_small mid) by lia.
  change 16384 with (128 * 128). rewrite <- Z.div_div, Z.div_add, (Z.div_small lo), Z.add_0_l,
    Z.div_add, (Z.div_small mid), Z.add_0_l by lia.
  replace (128 + lo) with (Z_of_byte b1) by lia. replace (128 + mid) with (Z_of_byte b2) by lia.
  by rewrite !byte_of_Z_of_byte.
Qed.

Lemma parses_read_compressed_u16 :
  parses read_compressed_u16 (enc_grammar (in_width U16) encode_short id).
Proof.
  split.
  - intros bs off Hb Ho. unfold wp. rewrite read_compressed_u16_eq by done.
    destruct (carve bs off 0) as (pre & c & post & -> & <- & ->%len_0_nil); [lia..|].
    rewrite app_nil_l in *. destruct post as [|b1 post]; get_rest; [done|].
    pose proof (Z_of_byte_range b1). zcase.
    { exists pre, [b1], post. split_and!; [done..|]. exists (Z_of_byte b1). unfold encode_short.
      zcase; [|lia]. rewrite byte_of_Z_of_byte. split_and!; [uints; lia|done..]. }
    destruct post as [|b2 post]; get_rest; [done|]. pose proof (Z_of_byte_range b2).
    destruct (Z.eqb_spec (Z_of_byte b2) 0); [done|]. zcase.
    { exists pre, [b1; b2], post. split_and!; [done..|].
      exists (Z_of_byte b1 - 128 + Z_of_byte b2 * 128). split_and!; [uints; lia| |done].
      by rewrite encode_short_two by lia. }
    destruct post as [|b3 post]; get_rest; [done|]. pose proof (Z_of_byte_range b3).
    destruct (Z.eqb_spec (Z_of_byte b3) 0); [done|]. simpl. zcase; [done|].
    exists pre, [b1; b2; b3], post. split_and!; [done..|].
    exists (Z_of_byte b1 - 128 + (Z_of_byte b2 - 128) * 128 + Z_of_byte b3 * 16384).
    split_and!; [uints; lia| |done]. by rewrite encode_short_three by lia.
  - intros pre c post a Hb (n & Hn & -> & ->). rewrite read_compressed_u16_eq by len_lia || done.
    unfold encode_short in *. uints.
    pose proof (Z.mod_pos_bound n 128). pose proof (Z.div_mod n 128).
    pose proof (Z.mod_pos_bound (n / 128) 128). pose proof (Z.div_mod (n / 128) 128).
    assert (n / 16384 = n / 128 / 128) by by rewrite Z.div_div.
    zcase; [|zcase]; simpl; get_rest.
    + rewrite Z_of_byte_of_Z by lia. by zcase; [|lia].
    + rewrite !Z_of_byte_of_Z by lia.
      destruct (Z.ltb_spec (128 + n mod 128) 128); [lia|].
      destruct (Z.eqb_spec (n / 128) 0); [lia|]. destruct (Z.ltb_spec (n / 128) 128); [|lia].
      do 2 f_equal. unfold id. lia.
    + rewrite !Z_of_byte_of_Z by lia.
      destruct (Z.ltb_spec (128 + n mod 128) 128); [lia|].
      destruct (Z.eqb_spec (128 + n / 128 mod 128) 0); [lia|].
      destruct (Z.ltb_spec (128 + n / 128 mod 128) 128); [lia|].
      destruct (Z.eqb_spec (n / 16384) 0); [lia|]. destruct (Z.ltb_spec 3 (n / 16384)); [lia|].
      simpl. do 2 f_equal. unfold id. lia.
Qed.

Ltac bytes_side := intros; grammar_facts; unfold short_len in *; uints; lia.

#[export] Hint Resolve parses_read_byte parses_optimized_read_compressed_u16
  parses_check_remaining parses_checked_offset : parses.
#[export] Hint Extern 1 (parses (advance_offset_for_array _ _) _) =>
  eapply parses_advance_offset_for_array; [done || bytes_side|bytes_side] : parses.
#[export] Hint Extern 1 (parses (advance_offset_for_type _) _) =>
  eapply parses_advance_offset_for_type; done || bytes_side : parses.
#[export] Hint Extern 1 (parses (read_slice_data _ _) _) =>
  eapply parses_read_slice_data; [done || bytes_side|bytes_side] : parses.
#[export] Hint Extern 1 (parses (read_type _) _) =>
  eapply parses_read_type; done || bytes_side : parses.

(** ** Properties *)

(** C36: The optimised two-byte reader of compressed lengths is the general
    three-byte reader restricted to the values below 2^14: it accepts at an
    offset exactly when the general reader does with such a value, and then
    yields the same value and the same new offset. *)
Theorem optimized_read_compressed_u16_agrees bs off v off' :
  slice_ok bs -> 0 <= off <= len bs ->
  optimized_read_compressed_u16 bs off = (Ok v, off') <->
  read_compressed_u16 bs off = (Ok v, off') /\ v < 16384.
Proof.
  intros Hb Ho.
  rewrite (parses_Ok _ _ _ _ _ _ parses_optimized_read_compressed_u16 Hb Ho).
  rewrite (parses_Ok _ _ _ _ _ _ parses_read_compressed_u16 Hb Ho).
  unfold enc_grammar, short_len, in_width. cbn [modulus]. split.
  - intros (pre & c & post & ? & ? & ? & n & ? & ? & ->). split; [|unfold id; lia].
    exists pre, c, post. split_and!; [done..|]. exists n. split_and!; [lia..|done|done].
  - intros [(pre & c & post & ? & ? & ? & n & ? & ? & ->) ?]. unfold id in *.
    exists pre, c, post. split_and!; [done..|]. exists n. split_and!; [lia..|done|done].
Qed.

Example optimized_read_compressed_u16_agrees_witness :
  optimized_read_compressed_u16 [xd0; x09] 0 = (Ok 1232, 2) /\
  read_compressed_u16 [xd0; x09] 0 = (Ok 1232, 2).
Proof.
  split; [reflexivity|].
  refine (proj1 (proj1 (optimized_read_compressed_u16_agrees [xd0; x09] 0 1232 2 _ _) eq_refl));
    [vm_compute; discriminate|vm_compute; split; discriminate].
Defined.

(** Round trip of the compact length encoding: wherever the minimal
    encoding of a [u16] is placed in a buffer, the general reader returns that
    value and leaves the offset just after the encoding. *)
Theorem read_compressed_u16_roundtrip pre n post :
  in_width U16 n -> slice_ok (pre ++ encode_short n ++ post) ->
  read_compressed_u16 (pre ++ encode_short n ++ post) (len pre) =
    (Ok n, len pre + len (encode_short n)).
Proof.
  intros Hn Hb. apply (parses_complete _ _ parses_read_compressed_u16); [done|].
  by exists n.
Qed.

Example read_compressed_u16_roundtrip_witness :
  read_compressed_u16 ([x07] ++ encode_short 65535 ++ [x00]) 1 = (Ok 65535, 4).
Proof.
  apply (read_compressed_u16_roundtrip [x07] 65535 [x00]);
    [vm_compute; split; [discriminate|reflexivity]|vm_compute; discriminate].
Defined.
