(* ===== verification/SignatureFrame.v ===== *)
(** * signature_frame.rs: framing of the transaction signatures *)

From stdpp Require Import base list numbers.
From Stdlib Require Import ZArith Lia Strings.Byte.
From S2P Require Import Prelude Cursor Bytes.
Local Open Scope Z_scope.
Local Open Scope parser_scope.

Record SignatureFrame := {
  sf_num_signatures : Z;
  sf_offset : Z }.

Definition SignatureFrame_try_new : Parser SignatureFrame :=
  num_signatures <- read_byte ;;
  lift (err_if ((num_signatures =? 0) || negb (Z.land num_signatures 0x80 =? 0)) ParseError) ;;
  off <- offset ;;
  let signature_offset := cast U16 off in
  advance_offset_for_array size_of_Signature num_signatures ;;
  pret {| sf_num_signatures := num_signatures; sf_offset := signature_offset |}.

(** The slice of signatures, each as its 64 bytes. *)
Definition SignatureFrame_signatures (self : SignatureFrame) (bytes : list byte) :
    Result (list (list byte)) :=
  omap (chunks (Z.to_nat (sf_num_signatures self)) (Z.to_nat size_of_Signature))
    (raw_read bytes (sf_offset self) (sf_num_signatures self * size_of_Signature)).

(** ** Wire format *)

Definition wf_signatures (sigs : list (list byte)) : Prop :=
  1 <= len sigs < 128 /\ Forall (fun s => len s = size_of_Signature) sigs.

Definition encode_signatures (sigs : list (list byte)) : list byte :=
  byte_of_Z (len sigs) :: concat sigs.

Definition signatures_grammar : Grammar SignatureFrame := fun off c _ frame =>
  exists sigs, wf_signatures sigs /\ c = encode_signatures sigs /\
    frame = {| sf_num_signatures := len sigs; sf_offset := cast U16 (off + 1) |}.

Lemma parses_SignatureFrame_try_new : parses SignatureFrame_try_new signatures_grammar.
Proof.
  unfold SignatureFrame_try_new. eapply parses_ext; [parse_auto|].
  intros off c rest f Ho Hr. split.
  - intros Hg. grammar_facts. rename select (len _ = _ * _) into Hlen.
    rename select (in_width U8 _) into Hn. rename select (_ || _ = false) into Hg.
    rewrite land_80 in Hg by apply Hn. apply orb_false_iff in Hg as [Hg1 Hg2].
    apply Z.eqb_neq in Hg1. apply negb_false_iff, Z.ltb_lt in Hg2.
    destruct (split_array _ _ _ Hlen) as (sigs & -> & <- & Hsigs); [uints; lia|done|].
    exists sigs. split_and!; [|done|done]. split; [uints; lia|done].
  - intros (sigs & [Hn Hsigs] & -> & ->). pose proof (len_concat _ _ Hsigs) as Hlen.
    apply bind_enc. exists (len sigs), (concat sigs). split_and!; [uints; lia|done|].
    apply bind_step. exists tt. split.
    { unfold id. rewrite land_80 by lia. repeat zcase; (done || lia). }
    apply bind_step. eexists. split; [done|].
    apply bind_take. exists (concat sigs), []. rewrite app_nil_r.
    split_and!; [unfold id; lia|done|]. done.
Qed.
#[export] Hint Resolve parses_SignatureFrame_try_new : parses.

(** The accessor returns the signatures that were framed. *)
Lemma SignatureFrame_signatures_Ok self bytes sigs :
  bytes_at bytes (sf_offset self) (concat sigs) -> sf_num_signatures self = len sigs ->
  Forall (fun s => len s = size_of_Signature) sigs ->
  SignatureFrame_signatures self bytes = Ok sigs.
Proof.
  intros Hc Hn Hs. unfold SignatureFrame_signatures. rewrite Hn.
  pose proof (len_concat _ _ Hs) as Hl. rewrite (raw_read_at _ _ _ _ Hc) by lia.
  unfold omap, obind. by rewrite chunks_array.
Qed.
