(* ===== verification/MessageHeaderFrame.v ===== *)
(** * transaction_version.rs and message_header_frame.rs *)

From stdpp Require Import base list numbers.
From Stdlib Require Import ZArith Lia Strings.Byte.
From S2P Require Import Prelude Cursor Bytes.
Local Open Scope Z_scope.
Local Open Scope parser_scope.

Inductive TransactionVersion := Legacy | V0 | V1.

#[global] Instance TransactionVersion_eq_dec : EqDecision TransactionVersion.
Proof. solve_decision. Defined.

(** The discriminant of the [repr(u8)] enum. *)
Definition TransactionVersion_discriminant (v : TransactionVersion) : Z :=
  match v with Legacy => umax U8 | V0 => 0 | V1 => 1 end.

(** [solana_message::MESSAGE_VERSION_PREFIX] marks a versioned message, and
    [solana_message::v1::V1_PREFIX] is the version byte of a v1 message. *)
Definition MESSAGE_VERSION_PREFIX : Z := 0x80.
Definition V1_PREFIX : Z := 0x81.

Record MessageHeaderFrame := {
  mh_offset : Z;
  mh_version : TransactionVersion;
  mh_num_required_signatures : Z;
  mh_num_readonly_signed_accounts : Z;
  mh_num_readonly_unsigned_accounts : Z }.

Definition MessageHeaderFrame_try_new : Parser MessageHeaderFrame :=
  off <- offset ;;
  let message_offset := cast U16 off in
  message_prefix <- read_byte ;;
  version_and_num <-
    (if negb (Z.land message_prefix MESSAGE_VERSION_PREFIX =? 0)
     then
       let version := Z.land message_prefix (unot U8 MESSAGE_VERSION_PREFIX) in
       if version =? 0
       then (num_required_signatures <- read_byte ;; pret (V0, num_required_signatures))
       else lift (Err ParseError)
     else pret (Legacy, message_prefix)) ;;
  num_readonly_signed_accounts <- read_byte ;;
  num_readonly_unsigned_accounts <- read_byte ;;
  pret {| mh_offset := message_offset;
          mh_version := version_and_num.1;
          mh_num_required_signatures := version_and_num.2;
          mh_num_readonly_signed_accounts := num_readonly_signed_accounts;
          mh_num_readonly_unsigned_accounts := num_readonly_unsigned_accounts |}.

(** ** Wire format *)

Record MessageHeader := {
  num_required_signatures : Z;
  num_readonly_signed_accounts : Z;
  num_readonly_unsigned_accounts : Z }.

Definition wf_header (h : MessageHeader) : Prop :=
  in_width U8 (num_required_signatures h) /\
  in_width U8 (num_readonly_signed_accounts h) /\
  in_width U8 (num_readonly_unsigned_accounts h).

Definition encode_header (h : MessageHeader) : list byte :=
  [byte_of_Z (num_required_signatures h); byte_of_Z (num_readonly_signed_accounts h);
   byte_of_Z (num_readonly_unsigned_accounts h)].

Definition header_frame (off : Z) (v : TransactionVersion) (h : MessageHeader) :
    MessageHeaderFrame :=
  {| mh_offset := cast U16 off;
     mh_version := v;
     mh_num_required_signatures := num_required_signatures h;
     mh_num_readonly_signed_accounts := num_readonly_signed_accounts h;
     mh_num_readonly_unsigned_accounts := num_readonly_unsigned_accounts h |}.

Definition header_grammar : Grammar MessageHeaderFrame := fun off c _ frame =>
  exists h, wf_header h /\
    ((num_required_signatures h < 128 /\ c = encode_header h /\
      frame = header_frame off Legacy h) \/
     (c = byte_of_Z MESSAGE_VERSION_PREFIX :: encode_header h /\
      frame = header_frame off V0 h)).

Lemma version_prefix_bits b :
  in_width U8 b ->
  (Z.land b MESSAGE_VERSION_PREFIX =? 0) = (b <? 128) /\
  (128 <= b -> (Z.land b (unot U8 MESSAGE_VERSION_PREFIX) =? 0) = (b =? 128)).
Proof.
  intros Hb. split; [by apply land_80|]. intros Hb'.
  change (unot U8 MESSAGE_VERSION_PREFIX) with 0x7F. rewrite land_7F.
  uints. replace b with (b - 128 + 1 * 128) at 1 by lia.
  rewrite Z_mod_plus_full, Z.mod_small by lia. repeat zcase; (done || lia).
Qed.

Lemma parses_MessageHeaderFrame_try_new : parses MessageHeaderFrame_try_new header_grammar.
Proof.
  unfold MessageHeaderFrame_try_new. eapply parses_ext; [parse_auto|].
  intros off c rest f Ho Hr. split.
  - intros Hg. grammar_facts; [|done|].
    all: match goal with Hb' : negb (Z.land ?p _ =? 0) = _ |- _ => rename Hb' into Hb;
      destruct (version_prefix_bits p) as [Hv1 Hv2]; [done|]; rewrite Hv1 in Hb end.
    + apply negb_true_iff, Z.ltb_ge in Hb. rename select ((_ =? _) = true) into He.
      rewrite Hv2 in He by done. apply Z.eqb_eq in He. subst.
      eexists {| num_required_signatures := _ |}. split; [|right; split; done]. done.
    + apply negb_false_iff, Z.ltb_lt in Hb.
      eexists {| num_required_signatures := _ |}. split; [|left; done]. done.
  - intros (h & (H1 & H2 & H3) & [(Hlt & -> & ->)|(-> & ->)]).
    + apply bind_step. eexists. split; [done|].
      apply bind_enc. exists (num_required_signatures h). eexists. split_and!; [done|done|].
      unfold id. rewrite (proj1 (version_prefix_bits _ H1)).
      destruct (Z.ltb_spec (num_required_signatures h) 128); [|lia]. simpl negb. cbv iota.
      eexists [], _, _. split_and!; [done|done|].
      apply bind_enc. exists (num_readonly_signed_accounts h). eexists. split_and!; [done|done|].
      apply bind_enc. exists (num_readonly_unsigned_accounts h), []. split_and!; [done|done|].
      done.
    + apply bind_step. eexists. split; [done|].
      apply bind_enc. exists MESSAGE_VERSION_PREFIX. eexists. split_and!; [done|done|].
      simpl negb. cbv iota.
      eexists [_], _, (V0, num_required_signatures h). split_and!; [done| |].
      { apply bind_enc. exists (num_required_signatures h), []. by split_and!. }
      apply bind_enc. exists (num_readonly_signed_accounts h). eexists. split_and!; [done|done|].
      apply bind_enc. exists (num_readonly_unsigned_accounts h), []. split_and!; [done|done|].
      done.
Qed.
#[export] Hint Resolve parses_MessageHeaderFrame_try_new : parses.
