(* ===== verification/StaticAccountKeysFrame.v ===== *)
(** * static_account_keys_frame.rs: framing of the static account keys *)

From stdpp Require Import base list numbers.
From Stdlib Require Import ZArith Lia Strings.Byte.
From S2P Require Import Prelude Cursor Bytes.
Local Open Scope Z_scope.
Local Open Scope parser_scope.

Definition LEGACY_OR_V0_MAX_STATIC_ACCOUNTS_PER_PACKET : Z :=
  cast U8 (PACKET_DATA_SIZE / size_of_Pubkey).

Record StaticAccountKeysFrame := {
  sk_num_static_accounts : Z;
  sk_offset : Z }.

Definition StaticAccountKeysFrame_try_new : Parser StaticAccountKeysFrame :=
  num_static_accounts <- read_byte ;;
  lift (err_if ((num_static_accounts =? 0) ||
                (LEGACY_OR_V0_MAX_STATIC_ACCOUNTS_PER_PACKET <? num_static_accounts))
          ParseError) ;;
  off <- offset ;;
  let static_accounts_offset := cast U16 off in
  advance_offset_for_array size_of_Pubkey num_static_accounts ;;
  pret {| sk_num_static_accounts := num_static_accounts; sk_offset := static_accounts_offset |}.

(** ** Wire format *)

Definition wf_key (k : list byte) : Prop := len k = size_of_Pubkey.

Definition wf_static_keys (keys : list (list byte)) : Prop :=
  1 <= len keys <= 38 /\ Forall wf_key keys.

Definition encode_keys (keys : list (list byte)) : list byte :=
  byte_of_Z (len keys) :: concat keys.

Definition keys_grammar : Grammar StaticAccountKeysFrame := fun off c _ frame =>
  exists keys, wf_static_keys keys /\ c = encode_keys keys /\
    frame = {| sk_num_static_accounts := len keys; sk_offset := cast U16 (off + 1) |}.

Lemma parses_StaticAccountKeysFrame_try_new :
  parses StaticAccountKeysFrame_try_new keys_grammar.
Proof.
  unfold StaticAccountKeysFrame_try_new. eapply parses_ext; [parse_auto|].
  change LEGACY_OR_V0_MAX_STATIC_ACCOUNTS_PER_PACKET with 38.
  intros off c rest f Ho Hr. split.
  - intros Hg. grammar_facts. rename select (len _ = _ * _) into Hlen.
    rename select (in_width U8 _) into Hn. rename select (_ || _ = false) into Hg.
    apply orb_false_iff in Hg as [Hg1%Z.eqb_neq Hg2%Z.ltb_ge].
    destruct (split_array _ _ _ Hlen) as (keys & -> & <- & Hkeys); [uints; lia|done|].
    exists keys. split_and!; [|done|done]. split; [uints; lia|done].
  - intros (keys & [Hn Hkeys] & -> & ->). pose proof (len_concat _ _ Hkeys) as Hlen.
    apply bind_enc. exists (len keys), (concat keys). split_and!; [uints; lia|done|].
    apply bind_step. exists tt. split; [unfold id; repeat zcase; (done || lia)|].
    apply bind_step. eexists. split; [done|].
    apply bind_take. exists (concat keys), []. rewrite app_nil_r.
    split_and!; [unfold id; lia|done|]. done.
Qed.
#[export] Hint Resolve parses_StaticAccountKeysFrame_try_new : parses.
