(* ===== verification/AddressTableLookupFrame.v ===== *)
(** * address_table_lookup_frame.rs: framing and iteration of address table lookups *)

From stdpp Require Import base list numbers.
From Stdlib Require Import ZArith Lia Strings.Byte.
From S2P Require Import Prelude Cursor RustIterator Bytes StaticAccountKeysFrame.
Local Open Scope Z_scope.
Local Open Scope parser_scope.

Definition MIN_SIZED_ATL : Z := size_of_Pubkey + 1 + 1 + 1.

Definition MIN_SIZED_PACKET_WITH_ATLS : Z :=
  1 + size_of_Signature + 1 + 3 + 1 + size_of_Pubkey + size_of_Hash + 1 + 1.

Definition MAX_ATLS_PER_PACKET : Z :=
  cast U8 ((PACKET_DATA_SIZE - MIN_SIZED_PACKET_WITH_ATLS) / MIN_SIZED_ATL).

Record AddressTableLookupFrame := {
  atl_num_address_table_lookups : Z;
  atl_offset : Z;
  atl_total_writable_lookup_accounts : Z;
  atl_total_readonly_lookup_accounts : Z }.

(** One round of the parsing loop; the state is the pair of [u32] totals. *)
Definition atl_loop_body (totals : Z * Z) : Parser (Z * Z) :=
  advance_offset_for_type size_of_Pubkey ;;
  num_write_accounts <- optimized_read_compressed_u16 ;;
  let total_writable_lookup_accounts := wrapping_add U32 totals.1 num_write_accounts in
  advance_offset_for_array size_of_u8 num_write_accounts ;;
  num_read_accounts <- optimized_read_compressed_u16 ;;
  let total_readonly_lookup_accounts := wrapping_add U32 totals.2 num_read_accounts in
  advance_offset_for_array size_of_u8 num_read_accounts ;;
  pret (total_writable_lookup_accounts, total_readonly_lookup_accounts).

Definition AddressTableLookupFrame_try_new : Parser AddressTableLookupFrame :=
  num_address_table_lookups <- read_byte ;;
  lift (err_if (MAX_ATLS_PER_PACKET <? num_address_table_lookups) ParseError) ;;
  at_offset (fun bytes off =>
    check_remaining bytes off (wrapping_mul USIZE MIN_SIZED_ATL num_address_table_lookups)) ;;
  off <- offset ;;
  let address_table_lookups_offset := cast U16 off in
  totals <- for_range (Z.to_nat num_address_table_lookups) atl_loop_body (0, 0) ;;
  total_writable_lookup_accounts <- lift (ok_or (try_from U16 totals.1) SanitizeError) ;;
  total_readonly_lookup_accounts <- lift (ok_or (try_from U16 totals.2) SanitizeError) ;;
  pret {| atl_num_address_table_lookups := num_address_table_lookups;
          atl_offset := address_table_lookups_offset;
          atl_total_writable_lookup_accounts := total_writable_lookup_accounts;
          atl_total_readonly_lookup_accounts := total_readonly_lookup_accounts |}.

(** ** Iteration *)

(** The lookup type of the svm-transaction crate. *)
Record SVMMessageAddressTableLookup := {
  account_key : list byte;
  writable_indexes : list byte;
  readonly_indexes : list byte }.

Record AddressTableLookupIterator := {
  ai_bytes : list byte;
  ai_offset : Z;
  ai_num_address_table_lookups : Z;
  ai_index : Z }.

(** The body of [next], reading through [self.offset]. *)
Definition atl_read_item : Parser SVMMessageAddressTableLookup :=
  account_key <- read_type size_of_Pubkey ;;
  num_write_accounts <- optimized_read_compressed_u16 ;;
  writable_indexes <- read_slice_data size_of_u8 num_write_accounts ;;
  num_read_accounts <- optimized_read_compressed_u16 ;;
  readonly_indexes <- read_slice_data size_of_u8 num_read_accounts ;;
  pret {| account_key := account_key;
          writable_indexes := writable_indexes;
          readonly_indexes := readonly_indexes |}.

(** [next]: a failing read ends the iteration ([.ok()?]). *)
Definition AddressTableLookupIterator_next (self : AddressTableLookupIterator) :
    Result (option SVMMessageAddressTableLookup) * AddressTableLookupIterator :=
  if ai_index self <? ai_num_address_table_lookups self then
    let (r, off') := atl_read_item (ai_bytes self) (ai_offset self) in
    let self' := {| ai_bytes := ai_bytes self;
                    ai_offset := off';
                    ai_num_address_table_lookups := ai_num_address_table_lookups self;
                    ai_index := wrapping_add U8 (ai_index self) 1 |} in
    (match r with
     | Ok item => Ok (Some item)
     | Err _ => Ok None
     | Panic => Panic
     | UB => UB
     | Diverge => Diverge
     end, self')
  else (Ok None, self).

Definition AddressTableLookupIterator_len (self : AddressTableLookupIterator) : Z :=
  wrapping_sub U8 (ai_num_address_table_lookups self) (ai_index self).

(** ** Wire format *)

Definition wf_atl (a : SVMMessageAddressTableLookup) : Prop :=
  wf_key (account_key a) /\ short_len (len (writable_indexes a)) /\
  short_len (len (readonly_indexes a)).

Definition encode_atl (a : SVMMessageAddressTableLookup) : list byte :=
  account_key a ++
  encode_short (len (writable_indexes a)) ++ writable_indexes a ++
  encode_short (len (readonly_indexes a)) ++ readonly_indexes a.

Definition encode_atls (atls : list SVMMessageAddressTableLookup) : list byte :=
  byte_of_Z (len atls) :: concat (map encode_atl atls).

Definition total_writable (atls : list SVMMessageAddressTableLookup) : Z :=
  foldr (fun a n => len (writable_indexes a) + n) 0 atls.
Definition total_readonly (atls : list SVMMessageAddressTableLookup) : Z :=
  foldr (fun a n => len (readonly_indexes a) + n) 0 atls.

(** The lookups the parser accepts when [rest] bytes follow them. *)
Definition wf_atls (rest : Z) (atls : list SVMMessageAddressTableLookup) : Prop :=
  len atls <= 31 /\ Forall wf_atl atls /\
  35 * len atls <= len (concat (map encode_atl atls)) + rest /\
  total_writable atls <= 65535 /\ total_readonly atls <= 65535.

Definition atls_frame (off : Z) (atls : list SVMMessageAddressTableLookup) :
    AddressTableLookupFrame :=
  {| atl_num_address_table_lookups := len atls;
     atl_offset := cast U16 (off + 1);
     atl_total_writable_lookup_accounts := total_writable atls;
     atl_total_readonly_lookup_accounts := total_readonly atls |}.

Definition atls_grammar : Grammar AddressTableLookupFrame := fun off c rest frame =>
  exists atls, wf_atls rest atls /\ c = encode_atls atls /\ frame = atls_frame off atls.

(** A parser with the shape of one lookup accepts the encodings of lookups. *)
Lemma atl_grammar_iff {K W R A} (gk : list byte -> K) (gw : list byte -> W) (gr : list byte -> R)
    (f : K -> Z -> W -> Z -> R -> A) off c rest a :
  bind_grammar (take_grammar size_of_Pubkey gk) (fun key =>
    bind_grammar (enc_grammar short_len encode_short id) (fun nw =>
      bind_grammar (take_grammar (nw * size_of_u8) gw) (fun w =>
        bind_grammar (enc_grammar short_len encode_short id) (fun nr =>
          bind_grammar (take_grammar (nr * size_of_u8) gr) (fun r =>
            ret_grammar (f key nw w nr r)))))) off c rest a <->
  enc_grammar wf_atl encode_atl (fun x =>
    f (gk (account_key x)) (len (writable_indexes x)) (gw (writable_indexes x))
      (len (readonly_indexes x)) (gr (readonly_indexes x))) off c rest a.
Proof.
  change size_of_u8 with 1. split.
  - intros Hg. grammar_facts. rewrite Z.mul_1_r in *. subst.
    match goal with |- enc_grammar _ _ _ _ (?k ++ _ ++ ?w ++ _ ++ ?r) _ _ =>
      exists {| account_key := k; writable_indexes := w; readonly_indexes := r |} end.
    split_and!; done.
  - intros ([key w r] & (H1 & H2 & H3) & -> & ->). simpl in *.
    apply bind_take. exists key. eexists. split_and!; [done|done|].
    apply bind_enc. exists (len w). eexists. split_and!; [done|done|].
    apply bind_take. exists w. eexists. split_and!; [by rewrite Z.mul_1_r|done|].
    apply bind_enc. exists (len r). eexists. split_and!; [done|done|].
    apply bind_take. exists r, []. rewrite app_nil_r. split_and!; [by rewrite Z.mul_1_r|done|].
    done.
Qed.

Lemma parses_atl_read_item : parses atl_read_item (enc_grammar wf_atl encode_atl id).
Proof.
  unfold atl_read_item. eapply parses_ext; [parse_auto|].
  intros off c rest f _ _.
  rewrite (atl_grammar_iff id id id (fun key _ w _ r => {| account_key := key;
    writable_indexes := w; readonly_indexes := r |})).
  split; intros ([key w r] & Hwf & -> & ->);
    exists {| account_key := key; writable_indexes := w; readonly_indexes := r |}; done.
Qed.

Definition atl_totals (t : Z * Z) (a : SVMMessageAddressTableLookup) : Z * Z :=
  (wrapping_add U32 t.1 (len (writable_indexes a)),
   wrapping_add U32 t.2 (len (readonly_indexes a))).

Lemma parses_atl_loop_body t :
  parses (atl_loop_body t) (enc_grammar wf_atl encode_atl (atl_totals t)).
Proof.
  unfold atl_loop_body. eapply parses_ext; [parse_auto|].
  intros off c rest f _ _.
  apply (atl_grammar_iff (fun _ => tt) (fun _ => tt) (fun _ => tt) (fun _ nw _ nr _ =>
    (wrapping_add U32 t.1 nw, wrapping_add U32 t.2 nr))).
Qed.
#[export] Hint Resolve parses_atl_loop_body : parses.

Lemma total_writable_bound atls :
  Forall wf_atl atls -> 0 <= total_writable atls <= 16384 * len atls.
Proof.
  unfold total_writable. induction 1 as [|a atls (_ & Ha & _) _ IH]; simpl; [done|].
  unfold short_len in *. len_lia.
Qed.

Lemma total_readonly_bound atls :
  Forall wf_atl atls -> 0 <= total_readonly atls <= 16384 * len atls.
Proof.
  unfold total_readonly. induction 1 as [|a atls (_ & _ & Ha) _ IH]; simpl; [done|].
  unfold short_len in *. len_lia.
Qed.

(** The [u32] totals do not wrap. *)
Lemma fold_atl_totals atls w r :
  Forall wf_atl atls -> 0 <= w -> 0 <= r ->
  w + 16384 * len atls < 2 ^ 32 -> r + 16384 * len atls < 2 ^ 32 ->
  fold_left atl_totals atls (w, r) = (w + total_writable atls, r + total_readonly atls).
Proof.
  intros Ha. revert w r. induction Ha as [|a atls (Hk & Hw & Hr) Ha IH]; intros w r ????; simpl.
  { by rewrite !Z.add_0_r. }
  unfold short_len in *. autorewrite with len in *. pose proof (len_nonneg atls).
  unfold atl_totals at 2. simpl. nowrap. rewrite IH by lia. f_equal; lia.
Qed.

Lemma parses_AddressTableLookupFrame_try_new :
  parses AddressTableLookupFrame_try_new atls_grammar.
Proof.
  unfold AddressTableLookupFrame_try_new. eapply parses_ext.
  { do 4 (eapply parses_bind_dep; [eauto with parses|intros ? ? ? ? ?]).
    eapply parses_bind; [apply (parses_for_range wf_atl), parses_atl_loop_body|intros ?].
    parse_auto. }
  change MAX_ATLS_PER_PACKET with 31. change MIN_SIZED_ATL with 35.
  intros off c rest f Ho Hr. split.
  - intros Hg. grammar_facts. rename select ((31 <? _) = false) into Hn.
    rename select (list SVMMessageAddressTableLookup) into atls.
    rename select (length atls = _) into Hl. rename select (Forall wf_atl atls) into Ha.
    apply Z.ltb_ge in Hn. uints. assert (len atls = x) as Hx by (unfold len; lia).
    rewrite fold_atl_totals in * by lia || done. rewrite wrapping_mul_small in * by ulia.
    repeat match goal with H : try_from _ _ = Some _ |- _ =>
      apply try_from_Some in H as [-> ?] end.
    subst x. exists atls. split_and!; [|done|done]. cbn in *. split_and!; (done || lia).
  - intros (atls & (Hn & Ha & Hrest & Hw & Hrd) & -> & ->). pose proof (len_nonneg atls).
    pose proof (total_writable_bound _ Ha). pose proof (total_readonly_bound _ Ha).
    apply bind_enc. exists (len atls). eexists. split_and!; [uints; lia|done|]. unfold id.
    apply bind_step. exists tt. split; [by apply Z.ltb_ge|].
    apply bind_step. exists tt. split; [by rewrite wrapping_mul_small by ulia|].
    apply bind_step. eexists. split; [done|].
    apply bind_enc. exists atls, []. rewrite app_nil_r.
    split_and!; [unfold len; lia|done|done|]. rewrite fold_atl_totals by (done || lia).
    do 2 (apply bind_step; eexists; split; [apply try_from_Some; cbn; split; [done|lia]|]).
    done.
Qed.
#[export] Hint Resolve parses_AddressTableLookupFrame_try_new : parses.

(** ** The iterator yields the framed lookups *)

#[global] Instance AddressTableLookupIterator_RustIterator :
    RustIterator AddressTableLookupIterator SVMMessageAddressTableLookup := {
  next := AddressTableLookupIterator_next;
  exact_len := AddressTableLookupIterator_len }.

Lemma AddressTableLookupIterator_yields bytes off atls i n :
  bytes_at bytes off (concat (map encode_atl atls)) -> slice_ok bytes ->
  Forall wf_atl atls -> 0 <= i -> i + len atls = n -> n < 256 ->
  yields {| ai_bytes := bytes; ai_offset := off;
            ai_num_address_table_lookups := n; ai_index := i |} atls.
Proof.
  intros Hat Hb Ha. revert off i Hat.
  induction Ha as [|a atls Hwf Ha IH]; intros off i Hat Hi Hn Hn'.
  - eapply yields_nil. simpl. unfold AddressTableLookupIterator_next. simpl.
    autorewrite with len in Hn. by zcase; [lia|].
  - autorewrite with len in Hn. pose proof (len_nonneg atls).
    cbn [map concat] in Hat. apply bytes_at_app in Hat as [(pre & post & Heq & <-) Hat].
    eapply (yields_cons _ {| ai_bytes := bytes; ai_offset := len pre + len (encode_atl a);
      ai_num_address_table_lookups := n; ai_index := i + 1 |}); [|apply IH; [done|lia..]].
    simpl. unfold AddressTableLookupIterator_next. simpl. zcase; [|lia].
    rewrite Heq in Hb |- *.
    rewrite (parses_complete _ _ parses_atl_read_item _ _ _ a); [by nowrap|done|by exists a].
Qed.
