(* ===== verification/InstructionsFrame.v ===== *)
(** * instructions_frame.rs: framing and iteration of instructions *)

From stdpp Require Import base list numbers.
From Stdlib Require Import ZArith Lia Strings.Byte.
From S2P Require Import Prelude Cursor RustIterator Bytes.
Local Open Scope Z_scope.
Local Open Scope parser_scope.

Record LegacyAndV0InstructionFrame := {
  if_num_accounts : Z;
  if_data_len : Z;
  if_num_accounts_len : Z;
  if_data_len_len : Z }.

Inductive InstructionsFrame :=
| LegacyAndV0Frame (num_instructions offset : Z) (frames : list LegacyAndV0InstructionFrame)
| V1Frame (num_instructions headers_offset payloads_offset : Z).

(** [#[repr(C)]]: the fields are at offsets 0, 1 and 2 of four bytes. *)
Record V1InstructionHeader := {
  vh_program_id_index : Z;
  vh_num_accounts : Z;
  vh_data_len : Z }.

Definition size_of_V1InstructionHeader : Z := 4.

Definition V1InstructionHeader_of_memory `{Target} (raw : list byte) : V1InstructionHeader :=
  {| vh_program_id_index := native_val (subslice 0 1 raw);
     vh_num_accounts := native_val (subslice 1 2 raw);
     vh_data_len := native_val (subslice 2 4 raw) |}.

(** The instruction type of the svm-transaction crate. *)
Record SVMInstruction := {
  program_id_index : Z;
  accounts : list byte;
  data : list byte }.

#[global] Instance SVMInstruction_eq_dec : EqDecision SVMInstruction.
Proof. solve_decision. Defined.

(** [*offset = offset.wrapping_add(n)]. *)
Definition advance (n : Z) : Parser unit := fun _ off => (Ok tt, wrapping_add USIZE off n).

(** ** Parsing *)

(** One round of the legacy/v0 loop; the state is the vector of frames. *)
Definition legacy_and_v0_loop_body (frames : list LegacyAndV0InstructionFrame) :
    Parser (list LegacyAndV0InstructionFrame) :=
  _program_id_index <- read_byte ;;
  num_accounts_offset <- offset ;;
  num_accounts <- optimized_read_compressed_u16 ;;
  off <- offset ;;
  let num_accounts_len := cast U8 (wrapping_sub USIZE off num_accounts_offset) in
  advance_offset_for_array size_of_u8 num_accounts ;;
  data_len_offset <- offset ;;
  data_len <- optimized_read_compressed_u16 ;;
  off <- offset ;;
  let data_len_len := cast U8 (wrapping_sub USIZE off data_len_offset) in
  advance_offset_for_array size_of_u8 data_len ;;
  pret (frames ++ [{| if_num_accounts := num_accounts;
                      if_num_accounts_len := num_accounts_len;
                      if_data_len := data_len;
                      if_data_len_len := data_len_len |}]).

Definition InstructionsFrame_try_new_for_legacy_and_v0 : Parser InstructionsFrame :=
  num_instructions <- optimized_read_compressed_u16 ;;
  at_offset (fun bytes off =>
    check_remaining bytes off (wrapping_mul USIZE 3 num_instructions)) ;;
  off <- offset ;;
  let instructions_offset := cast U16 off in
  frames <- for_range (Z.to_nat num_instructions) legacy_and_v0_loop_body [] ;;
  pret (LegacyAndV0Frame num_instructions instructions_offset frames).

Section Target.
  Context `{Target}.

Definition read_v1_header : Parser V1InstructionHeader :=
  raw <- at_offset (unchecked_copy_value size_of_V1InstructionHeader) ;;
  let header := V1InstructionHeader_of_memory raw in
  advance size_of_V1InstructionHeader ;;
  pret {| vh_program_id_index := vh_program_id_index header;
          vh_num_accounts := vh_num_accounts header;
          vh_data_len := from_le 2 (vh_data_len header) |}.

(** One round of the v1 loop; the state is [header_offset] and [total_payload_len]. *)
Definition v1_loop_body (s : Z * Z) : Parser (Z * Z) :=
  at_offset (fun bytes _ =>
    let (r, header_offset) := read_v1_header bytes s.1 in
    obind r (fun header =>
    obind (ok_or (checked_add USIZE (vh_num_accounts header) (vh_data_len header)) ParseError)
      (fun payload_len =>
    obind (ok_or (checked_add USIZE s.2 payload_len) ParseError) (fun total_payload_len =>
    Ok (header_offset, total_payload_len))))).

Definition InstructionsFrame_try_new_for_v1 (num_instructions : Z) : Parser InstructionsFrame :=
  off <- offset ;;
  let headers_offset := cast U16 off in
  let headers_len := wrapping_mul USIZE size_of_V1InstructionHeader num_instructions in
  at_offset (fun bytes off => check_remaining bytes off headers_len) ;;
  header_offset <- offset ;;
  advance headers_len ;;
  off <- offset ;;
  let payloads_offset := cast U16 off in
  s <- for_range (Z.to_nat num_instructions) v1_loop_body (header_offset, 0) ;;
  let total_payload_len := s.2 in
  at_offset (fun bytes off => check_remaining bytes off total_payload_len) ;;
  advance total_payload_len ;;
  pret (V1Frame num_instructions headers_offset payloads_offset).
End Target.

Definition InstructionsFrame_num_instructions (self : InstructionsFrame) : Z :=
  match self with
  | LegacyAndV0Frame num_instructions _ _ => num_instructions
  | V1Frame num_instructions _ _ => num_instructions
  end.

(** ** Iteration *)

Inductive InstructionsIterator :=
| LegacyAndV0Iterator (bytes : list byte) (offset num_instructions index : Z)
    (frames : list LegacyAndV0InstructionFrame)
| V1Iterator (bytes : list byte) (index num_instructions headers_offset payloads_offset : Z).

Definition InstructionsFrame_iter (self : InstructionsFrame) (bytes : list byte) :
    InstructionsIterator :=
  match self with
  | LegacyAndV0Frame num_instructions offset frames =>
      LegacyAndV0Iterator bytes offset num_instructions 0 frames
  | V1Frame num_instructions headers_offset payloads_offset =>
      V1Iterator bytes 0 num_instructions headers_offset payloads_offset
  end.

Definition for_legacy_and_v0 (num_accounts num_accounts_len data_len data_len_len : Z) :
    Parser SVMInstruction :=
  program_id_index <- unchecked_read_byte ;;
  advance num_accounts_len ;;
  accounts <- unchecked_read_slice_data size_of_u8 num_accounts ;;
  advance data_len_len ;;
  data <- unchecked_read_slice_data size_of_u8 data_len ;;
  pret {| program_id_index := program_id_index; accounts := accounts; data := data |}.

Definition for_v1 (program_id_index num_accounts data_len : Z) : Parser SVMInstruction :=
  accounts <- unchecked_read_slice_data size_of_u8 num_accounts ;;
  data <- unchecked_read_slice_data size_of_u8 data_len ;;
  pret {| program_id_index := program_id_index; accounts := accounts; data := data |}.

Definition InstructionsIterator_next `{Target} (self : InstructionsIterator) :
    Result (option SVMInstruction) * InstructionsIterator :=
  match self with
  | LegacyAndV0Iterator bytes offset num_instructions index' frames =>
      if num_instructions <=? index' then (Ok None, self)
      else
        match index frames index' with
        | Ok frame =>
            let (r, offset) := for_legacy_and_v0 (if_num_accounts frame)
              (if_num_accounts_len frame) (if_data_len frame) (if_data_len_len frame)
              bytes offset in
            (omap Some r, LegacyAndV0Iterator bytes offset num_instructions
                            (wrapping_add U16 index' 1) frames)
        | r => (omap (fun _ => None) r, self)
        end
  | V1Iterator bytes index num_instructions headers_offset payloads_offset =>
      if num_instructions <=? index then (Ok None, self)
      else
        let (r, headers_offset) := read_v1_header bytes headers_offset in
        let index := wrapping_add U16 index 1 in
        match r with
        | Ok header =>
            let (r, payloads_offset) := for_v1 (vh_program_id_index header)
              (vh_num_accounts header) (vh_data_len header) bytes payloads_offset in
            (omap Some r,
             V1Iterator bytes index num_instructions headers_offset payloads_offset)
        | r => (omap (fun _ => None) r,
                V1Iterator bytes index num_instructions headers_offset payloads_offset)
        end
  end.

Definition InstructionsIterator_len (self : InstructionsIterator) : Z :=
  match self with
  | LegacyAndV0Iterator _ _ num_instructions index _ =>
      wrapping_sub U16 num_instructions index
  | V1Iterator _ index num_instructions _ _ => wrapping_sub U16 num_instructions index
  end.

#[global] Instance InstructionsIterator_RustIterator `{Target} :
    RustIterator InstructionsIterator SVMInstruction := {
  next := InstructionsIterator_next;
  exact_len := InstructionsIterator_len }.

(** ** Wire format of legacy and v0 instructions *)

Definition wf_instruction (i : SVMInstruction) : Prop :=
  in_width U8 (program_id_index i) /\ short_len (len (accounts i)) /\ short_len (len (data i)).

Definition encode_instruction (i : SVMInstruction) : list byte :=
  byte_of_Z (program_id_index i) ::
  encode_short (len (accounts i)) ++ accounts i ++ encode_short (len (data i)) ++ data i.

Definition wf_instructions (ixs : list SVMInstruction) : Prop :=
  short_len (len ixs) /\ Forall wf_instruction ixs.

Definition encode_instructions (ixs : list SVMInstruction) : list byte :=
  encode_short (len ixs) ++ concat (map encode_instruction ixs).

Definition instruction_frame (i : SVMInstruction) : LegacyAndV0InstructionFrame :=
  {| if_num_accounts := len (accounts i);
     if_num_accounts_len := len (encode_short (len (accounts i)));
     if_data_len := len (data i);
     if_data_len_len := len (encode_short (len (data i))) |}.

Definition instructions_frame (off : Z) (ixs : list SVMInstruction) : InstructionsFrame :=
  LegacyAndV0Frame (len ixs) (cast U16 (off + len (encode_short (len ixs))))
    (map instruction_frame ixs).

Definition instructions_grammar : Grammar InstructionsFrame := fun off c _ frame =>
  exists ixs, wf_instructions ixs /\ c = encode_instructions ixs /\
    frame = instructions_frame off ixs.

Lemma len_encode_short_bound n : short_len n -> 1 <= len (encode_short n) <= 2.
Proof. intros Hn. rewrite len_encode_short by done. zcase; lia. Qed.

Lemma parses_legacy_and_v0_loop_body frames :
  parses (legacy_and_v0_loop_body frames)
    (enc_grammar wf_instruction encode_instruction (fun i => frames ++ [instruction_frame i])).
Proof.
  unfold legacy_and_v0_loop_body. eapply parses_ext; [parse_auto|].
  change size_of_u8 with 1.
  assert (forall off n, short_len n ->
    cast U8 (wrapping_sub USIZE (off + len (encode_short n)) off) = len (encode_short n)) as Hlen.
  { intros off n Hn%len_encode_short_bound.
    replace (wrapping_sub USIZE _ off) with (len (encode_short n))
      by (unfold wrapping_sub; rewrite cast_small; ulia).
    by nowrap. }
  intros off c rest f Ho Hr. split.
  - intros Hg. grammar_facts. rewrite Z.mul_1_r, Hlen in * by done.
    rename select (in_width U8 _) into Hp. subst.
    match goal with |- enc_grammar _ _ _ _ (_ ++ _ ++ ?a ++ _ ++ ?d) _ _ =>
      match type of Hp with in_width _ ?p =>
        exists {| program_id_index := p; accounts := a; data := d |} end end.
    split_and!; [done..|]. unfold instruction_frame. simpl. by rewrite Hlen.
  - intros ([p a d] & (H1 & H2 & H3) & -> & ->). simpl in *.
    apply bind_enc. exists p. eexists. split_and!; [done|done|].
    apply bind_step. eexists. split; [done|].
    apply bind_enc. exists (len a). eexists. split_and!; [done|done|].
    apply bind_step. eexists. split; [done|].
    apply bind_take. exists a. eexists. split_and!; [by rewrite Z.mul_1_r|done|].
    apply bind_step. eexists. split; [done|].
    apply bind_enc. exists (len d). eexists. split_and!; [done|done|].
    apply bind_step. eexists. split; [done|].
    apply bind_take. exists d, []. rewrite app_nil_r. split_and!; [by rewrite Z.mul_1_r|done|].
    split; [done|]. unfold instruction_frame, id. simpl. by rewrite !Hlen.
Qed.

Lemma fold_left_snoc {A B} (f : A -> B) xs acc :
  fold_left (fun s x => s ++ [f x]) xs acc = acc ++ map f xs.
Proof.
  revert acc. induction xs as [|x xs IH]; intros acc; simpl; [by rewrite app_nil_r|].
  by rewrite IH, <- app_assoc.
Qed.

Lemma len_encode_instruction_ge i : wf_instruction i -> 3 <= len (encode_instruction i).
Proof.
  intros (_ & Ha%len_encode_short_bound & Hd%len_encode_short_bound).
  unfold encode_instruction. len_lia.
Qed.

(** Each instruction takes at least three bytes. *)
Lemma len_encode_instructions_ge ixs :
  Forall wf_instruction ixs -> 3 * len ixs <= len (concat (map encode_instruction ixs)).
Proof.
  induction 1 as [|i ixs Hi%len_encode_instruction_ge _ IH]; cbn [map concat]; [done|len_lia].
Qed.

Lemma parses_InstructionsFrame_try_new_for_legacy_and_v0 :
  parses InstructionsFrame_try_new_for_legacy_and_v0 instructions_grammar.
Proof.
  unfold InstructionsFrame_try_new_for_legacy_and_v0. eapply parses_ext.
  { do 3 (eapply parses_bind_dep; [eauto with parses|intros ? ? ? ? ?]).
    eapply parses_bind; [apply (parses_for_range wf_instruction),
      parses_legacy_and_v0_loop_body|intros ?].
    parse_auto. }
  intros off c rest f Ho Hr. split.
  - intros Hg. grammar_facts. rename select (list SVMInstruction) into ixs.
    rename select (length ixs = _) into Hl. rename select (short_len _) into Hn.
    apply (f_equal Z.of_nat) in Hl. rewrite Z2Nat.id in Hl by apply Hn.
    change (len ixs = x) in Hl. subst x.
    exists ixs. rewrite fold_left_snoc. done.
  - intros (ixs & [Hn Hixs] & -> & ->). pose proof (len_encode_instructions_ge _ Hixs).
    apply bind_enc. exists (len ixs). eexists. split_and!; [done|done|]. unfold id, short_len in *.
    apply bind_step. exists tt. split; [rewrite wrapping_mul_small by ulia; lia|].
    apply bind_step. eexists. split; [done|].
    apply bind_enc. exists ixs, []. rewrite app_nil_r.
    split_and!; [by rewrite to_nat_len|done|done|]. by rewrite fold_left_snoc.
Qed.
#[export] Hint Resolve parses_InstructionsFrame_try_new_for_legacy_and_v0 : parses.

(** ** Wire format of v1 instructions: all headers, then all payloads *)

Definition wf_v1_header (h : V1InstructionHeader) : Prop :=
  in_width U8 (vh_program_id_index h) /\ in_width U8 (vh_num_accounts h) /\
  in_width U16 (vh_data_len h).

Definition encode_v1_header (h : V1InstructionHeader) : list byte :=
  [byte_of_Z (vh_program_id_index h); byte_of_Z (vh_num_accounts h)] ++
  le_bytes 2 (vh_data_len h).

Definition v1_header (i : SVMInstruction) : V1InstructionHeader :=
  {| vh_program_id_index := program_id_index i;
     vh_num_accounts := len (accounts i);
     vh_data_len := len (data i) |}.

Definition v1_payload (i : SVMInstruction) : list byte := accounts i ++ data i.

Definition wf_v1_instructions (n : Z) (ixs : list SVMInstruction) : Prop :=
  len ixs = n /\ Forall (fun i => wf_v1_header (v1_header i)) ixs.

Definition encode_v1_instructions (ixs : list SVMInstruction) : list byte :=
  concat (map (fun i => encode_v1_header (v1_header i)) ixs) ++ concat (map v1_payload ixs).

Definition v1_instructions_frame (off : Z) (ixs : list SVMInstruction) : InstructionsFrame :=
  V1Frame (len ixs) (cast U16 off) (cast U16 (off + 4 * len ixs)).

Definition v1_instructions_grammar (n : Z) : Grammar InstructionsFrame := fun off c _ frame =>
  exists ixs, wf_v1_instructions n ixs /\ c = encode_v1_instructions ixs /\
    frame = v1_instructions_frame off ixs.

Definition v1_payload_len (hs : list V1InstructionHeader) : Z :=
  foldr (fun h n => vh_num_accounts h + vh_data_len h + n) 0 hs.

Lemma len_encode_v1_headers hs : len (concat (map encode_v1_header hs)) = 4 * len hs.
Proof.
  induction hs as [|h hs IH]; cbn [map concat]; [done|].
  rewrite len_app, IH, len_cons. change (len (encode_v1_header h)) with 4. lia.
Qed.

Lemma decode_v1_headers raws :
  Forall (fun raw => len raw = 4) raws ->
  exists hs, raws = map encode_v1_header hs /\ Forall wf_v1_header hs.
Proof.
  induction 1 as [|raw raws Hraw _ (hs & -> & Hhs)]; [by exists []|].
  destruct raw as [|b0 [|b1 bs]]; autorewrite with len in Hraw; [lia..|].
  exists ({| vh_program_id_index := Z_of_byte b0; vh_num_accounts := Z_of_byte b1;
             vh_data_len := le_val bs |} :: hs). split.
  - unfold encode_v1_header; cbn [map vh_program_id_index vh_num_accounts vh_data_len].
    rewrite !byte_of_Z_of_byte, le_bytes_le_val'; [done|]. unfold len in Hraw. lia.
  - constructor; [|done]. split_and!; simpl; [apply Z_of_byte_range..|].
    pose proof (le_val_range bs) as Hv. replace (len bs) with 2 in Hv by lia. done.
Qed.

Lemma v1_payload_len_bound hs :
  Forall wf_v1_header hs -> 0 <= v1_payload_len hs <= 65790 * len hs.
Proof.
  induction 1 as [|h hs (Hp & Ha & Hd) _ IH]; simpl; [done|]. uints. len_lia.
Qed.

Lemma payload_split hs c :
  Forall wf_v1_header hs -> len c = v1_payload_len hs ->
  exists ixs, hs = map v1_header ixs /\ c = concat (map v1_payload ixs).
Proof.
  intros Hhs. revert c. induction Hhs as [|h hs (Hp & Ha & Hd) Hhs IH]; intros c Hc; simpl in Hc.
  { apply len_0_nil in Hc as ->. by exists []. }
  pose proof (v1_payload_len_bound _ Hhs). uints.
  destruct (carve c 0 (vh_num_accounts h)) as (p0 & a & r & -> & ->%len_0_nil & Ha'); [lia..|].
  destruct (carve r 0 (vh_data_len h)) as (p1 & d & r' & -> & ->%len_0_nil & Hd'); [len_lia..|].
  destruct (IH r') as (ixs & -> & ->); [len_lia|].
  exists ({| program_id_index := vh_program_id_index h; accounts := a; data := d |} :: ixs).
  split; [|by simpl; unfold v1_payload at 2; simpl; rewrite <- app_assoc].
  simpl. f_equal. unfold v1_header. simpl. rewrite Ha', Hd'. by destruct h.
Qed.

Lemma v1_payload_len_concat ixs :
  v1_payload_len (map v1_header ixs) = len (concat (map v1_payload ixs)).
Proof.
  induction ixs as [|i ixs IH]; [done|]. cbn [map concat v1_payload_len foldr].
  fold (v1_payload_len (map v1_header ixs)). rewrite IH. unfold v1_payload at 2. simpl. len_lia.
Qed.

Section V1Parsing.
  Context `{Target}.

Lemma read_v1_header_app pre h post :
  slice_ok (pre ++ encode_v1_header h ++ post) -> wf_v1_header h ->
  read_v1_header (pre ++ encode_v1_header h ++ post) (len pre) = (Ok h, len pre + 4).
Proof.
  intros Hb (Hp & Ha & Hd). unfold read_v1_header, pbind, at_offset.
  change size_of_V1InstructionHeader with (len (encode_v1_header h)).
  rewrite (unchecked_copy_value_at _ _ _ _ (bytes_at_mid _ _ _)) by done. unfold advance.
  change (len (encode_v1_header h)) with 4. nowrap. unfold pret.
  destruct h as [p a d]. unfold encode_v1_header in *. simpl in *. unfold V1InstructionHeader_of_memory. simpl.
  assert (forall b, native_val [b] = Z_of_byte b) as Hn1.
  { intros b. unfold native_val. destruct target_endian; simpl; lia. }
  unfold subslice. simpl. rewrite from_le_native_val, !Hn1, !Z_of_byte_of_Z by done.
  do 3 f_equal. by apply (le_val_le_bytes 2).
Qed.

Lemma v1_loop_app hs pre post t off :
  slice_ok (pre ++ concat (map encode_v1_header hs) ++ post) ->
  Forall wf_v1_header hs -> 0 <= t -> t + 65790 * len hs < modulus USIZE ->
  for_range (length hs) v1_loop_body (len pre, t)
    (pre ++ concat (map encode_v1_header hs) ++ post) off =
  (Ok (len pre + 4 * len hs, t + v1_payload_len hs), off).
Proof.
  intros Hb Hhs. revert pre t Hb.
  induction Hhs as [|h hs Hh Hhs IH]; intros pre t Hb Ht Hm; cbn [length for_range map concat].
  { unfold pret. change (len []) with 0. by rewrite !Z.add_0_r. }
  cbn [map concat] in Hb. rewrite <- app_assoc in *. unfold pbind, v1_loop_body at 1, at_offset.
  cbn [fst snd]. rewrite read_v1_header_app by done. cbn [obind].
  destruct Hh as (Hp & Ha & Hd). autorewrite with len in Hm. pose proof (len_nonneg hs).
  change (v1_payload_len (h :: hs))
    with (vh_num_accounts h + vh_data_len h + v1_payload_len hs).
  unfold checked_add, try_from. do 2 (zcase; [|uints; lia]; cbn [ok_or obind]).
  replace (len pre + 4) with (len (pre ++ encode_v1_header h)) by by rewrite len_app.
  rewrite app_assoc in Hb |- *. rewrite IH; [|done|uints; lia..].
  rewrite len_app, len_cons. change (len (encode_v1_header h)) with 4. do 3 f_equal; lia.
Qed.

(** The parser on a buffer with the headers in place. *)
Lemma try_new_for_v1_app hs pre post :
  slice_ok (pre ++ concat (map encode_v1_header hs) ++ post) ->
  Forall wf_v1_header hs -> len hs < 256 ->
  InstructionsFrame_try_new_for_v1 (len hs)
    (pre ++ concat (map encode_v1_header hs) ++ post) (len pre) =
  if len post <? v1_payload_len hs then (Err ParseError, len pre + 4 * len hs)
  else (Ok (V1Frame (len hs) (cast U16 (len pre)) (cast U16 (len pre + 4 * len hs))),
        len pre + 4 * len hs + v1_payload_len hs).
Proof.
  intros Hb Hhs Hn. unfold InstructionsFrame_try_new_for_v1, pbind, offset, advance, pret.
  pose proof (len_encode_v1_headers hs) as Hl. pose proof (len_nonneg hs).
  pose proof (v1_payload_len_bound _ Hhs).
  unfold at_offset. change size_of_V1InstructionHeader with 4. nowrap.
  rewrite check_remaining_Ok by (done || len_lia).
  destruct (Z.ltb_spec (len (pre ++ concat (map encode_v1_header hs) ++ post) - len pre)
    (4 * len hs)); [len_lia|]. simpl.
  rewrite to_nat_len, v1_loop_app by (done || uints; lia). simpl.
  rewrite check_remaining_Ok by (done || len_lia). rewrite !len_app, Hl.
  replace (_ - _) with (len post) by lia. rewrite Z.add_0_l. zcase; [done|].
  by nowrap.
Qed.

Lemma parses_InstructionsFrame_try_new_for_v1 n :
  in_width U8 n -> parses (InstructionsFrame_try_new_for_v1 n) (v1_instructions_grammar n).
Proof.
  intros Hn. split.
  - intros bs off Hb Ho. destruct (Z.lt_ge_cases (len bs - off) (4 * n)) as [Hs|Hs].
    { unfold wp, InstructionsFrame_try_new_for_v1, pbind, offset, at_offset.
      change size_of_V1InstructionHeader with 4. uints. nowrap.
      rewrite check_remaining_Ok by done. by zcase; [|lia]. }
    destruct (carve bs off (n * 4)) as (pre & c & post & -> & <- & Hc); [uints; lia..|].
    destruct (split_array _ _ _ Hc) as (raws & -> & <- & Hraws); [uints; lia..|].
    apply decode_v1_headers in Hraws as (hs & -> & Hhs). rewrite len_map in *.
    unfold wp. rewrite try_new_for_v1_app by (done || apply Hn). zcase; [done|].
    destruct (carve post 0 (v1_payload_len hs)) as (p & c' & post' & -> & ->%len_0_nil & Hc');
      [lia|by apply v1_payload_len_bound|lia|].
    destruct (payload_split _ _ Hhs Hc') as (ixs & -> & ->). rewrite map_map in *.
    rewrite len_map in *. exists pre, (encode_v1_instructions ixs), post'.
    unfold encode_v1_instructions. rewrite <- app_assoc. split_and!; [done..|len_lia|].
    exists ixs. split_and!; [|done..]. split; [done|]. by rewrite Forall_map in Hhs.
  - intros pre c post a Hb (ixs & [<- Hixs] & -> & ->). unfold encode_v1_instructions in *.
    rewrite <- app_assoc in *. rewrite <- (map_map v1_header) in *.
    rewrite <- (len_map v1_header ixs) in *. rewrite try_new_for_v1_app;
      [|done|by apply Forall_map|apply Hn].
    rewrite v1_payload_len_concat. zcase; [len_lia|].
    unfold v1_instructions_frame. f_equal; [by rewrite len_map|].
    rewrite len_app, len_encode_v1_headers. lia.
Qed.
End V1Parsing.
#[export] Hint Extern 1 (parses (InstructionsFrame_try_new_for_v1 _) _) =>
  eapply parses_InstructionsFrame_try_new_for_v1; bytes_side : parses.

(** ** The iterators yield the framed instructions *)

Lemma for_legacy_and_v0_at i bs off :
  slice_ok bs -> bytes_at bs off (encode_instruction i) -> in_width U8 (program_id_index i) ->
  let frame := instruction_frame i in
  for_legacy_and_v0 (if_num_accounts frame) (if_num_accounts_len frame)
    (if_data_len frame) (if_data_len_len frame) bs off =
  (Ok i, off + len (encode_instruction i)).
Proof.
  intros Hb Hat Hp. pose proof (bytes_at_bounds _ _ _ Hat).
  destruct i as [p a d]. unfold encode_instruction, instruction_frame in *.
  cbn [program_id_index accounts data if_num_accounts if_num_accounts_len if_data_len
    if_data_len_len] in *.
  unfold for_legacy_and_v0, pbind, pret, advance.
  rewrite (unchecked_read_byte_at _ _ _ _ Hb Hat), Z_of_byte_of_Z by done.
  apply bytes_at_cons in Hat as (_ & _ & Hat). rewrite !bytes_at_app in Hat.
  destruct Hat as (_ & Ha & _ & Hd). autorewrite with len in *. nowrap.
  rewrite (unchecked_read_u8s_at _ _ _ _ Hb Ha) by done. nowrap.
  rewrite (unchecked_read_u8s_at _ _ _ _ Hb Hd) by done. f_equal. lia.
Qed.

Lemma for_v1_at i bs off :
  slice_ok bs -> bytes_at bs off (v1_payload i) ->
  for_v1 (program_id_index i) (len (accounts i)) (len (data i)) bs off =
  (Ok i, off + len (v1_payload i)).
Proof.
  intros Hb [Ha Hd]%bytes_at_app. unfold for_v1, pbind, pret, v1_payload.
  rewrite (unchecked_read_u8s_at _ _ _ _ Hb Ha), (unchecked_read_u8s_at _ _ _ _ Hb Hd) by done.
  rewrite len_app. destruct i. f_equal. simpl. lia.
Qed.

Section Iteration.
  Context `{Target}.

Lemma LegacyAndV0Iterator_yields bytes off done ixs n frames :
  bytes_at bytes off (concat (map encode_instruction ixs)) -> slice_ok bytes ->
  Forall wf_instruction ixs -> frames = done ++ map instruction_frame ixs ->
  n = len frames -> n < 65536 ->
  yields (LegacyAndV0Iterator bytes off n (len done) frames) ixs.
Proof.
  intros Hat Hb Hixs -> -> Hn. revert off done Hat Hn.
  induction Hixs as [|i ixs (Hp & _ & _) Hixs IH]; intros off done Hat Hn; cbn [map concat] in *.
  - eapply yields_nil. simpl. rewrite app_nil_r. by zcase; [|lia].
  - apply bytes_at_app in Hat as [Hi Hat].
    eapply (yields_cons _ (LegacyAndV0Iterator bytes (off + len (encode_instruction i)) _
      (len (done ++ [instruction_frame i]))
      ((done ++ [instruction_frame i]) ++ map instruction_frame ixs))).
    2: { apply IH; [done|]. by rewrite <- app_assoc. }
    rewrite <- app_assoc. simpl. zcase; [len_lia|].
    rewrite (index_Ok _ _ (instruction_frame i)) by (by apply get_app_mid || apply len_nonneg).
    rewrite for_legacy_and_v0_at by done. autorewrite with len in *.
    pose proof (len_nonneg ixs). pose proof (len_nonneg done). by nowrap.
Qed.

Lemma V1Iterator_yields bytes ixs i n ho po :
  bytes_at bytes ho (concat (map (fun i => encode_v1_header (v1_header i)) ixs)) ->
  bytes_at bytes po (concat (map v1_payload ixs)) -> slice_ok bytes ->
  Forall (fun i => wf_v1_header (v1_header i)) ixs ->
  0 <= i -> n = i + len ixs -> n < 256 -> yields (V1Iterator bytes i n ho po) ixs.
Proof.
  intros Hh Hp Hb Hixs. revert i ho po Hh Hp.
  induction Hixs as [|x ixs Hx Hixs IH]; intros i ho po Hh Hp Hi Hn Hlt; cbn [map concat] in *.
  - eapply yields_nil. simpl. autorewrite with len in Hn. by zcase; [|lia].
  - autorewrite with len in Hn. pose proof (len_nonneg ixs).
    apply bytes_at_app in Hh as [(pre & post & Heq & Hl) Hh]. apply bytes_at_app in Hp as [Hp Hp'].
    eapply (yields_cons _ (V1Iterator bytes (i + 1) n (ho + 4) (po + len (v1_payload x))));
      [|apply IH; (done || lia)].
    simpl. zcase; [lia|]. rewrite <- Hl, Heq, read_v1_header_app by (done || by rewrite <- Heq).
    rewrite <- Heq. simpl. rewrite for_v1_at by done. by nowrap.
Qed.
End Iteration.
