(* ===== verification/TransactionConfigView.v ===== *)
(** * transaction_config_view.rs: the config section of v1 messages *)

From stdpp Require Import base list numbers.
From Stdlib Require Import ZArith Lia Strings.Byte.
From S2P Require Import Prelude Cursor Bytes.
Local Open Scope Z_scope.
Local Open Scope parser_scope.

Record TransactionConfigFrame := {
  cf_mask_offset : Z;
  cf_mask : Z;
  cf_values_offset : Z }.

Definition MASK_SIZE : Z := size_of_u32.
Definition CONFIG_VALUE_SIZE : Z := size_of_u32.

Definition TransactionConfigFrame_not_applicable : TransactionConfigFrame :=
  {| cf_mask_offset := 0; cf_mask := 0; cf_values_offset := 0 |}.

Definition TransactionConfigFrame_is_present (self : TransactionConfigFrame) : bool :=
  negb (cf_mask_offset self =? 0).

(** [u32::count_ones]. *)
Definition count_ones (x : Z) : Z :=
  foldr (fun i n => Z.b2z (Z.testbit x (Z.of_nat i)) + n) 0 (seq 0 32).

Definition has_bit (mask bit : Z) : bool :=
  (bit <? 32) && negb (Z.land (Z.shiftr mask bit) 1 =? 0).

Definition ALLOWED_TRANSACTION_CONFIG_MASK : Z := 31.

Definition sanitize_mask (mask : Z) : Result unit :=
  obind (err_if (negb (Z.land mask (unot U32 ALLOWED_TRANSACTION_CONFIG_MASK) =? 0))
           SanitizeError) (fun _ =>
  let bit0 := has_bit mask 0 in
  let bit1 := has_bit mask 1 in
  err_if (xorb bit0 bit1) SanitizeError).

Definition TransactionConfigFrame_try_new (mask_offset mask : Z) :
    Parser TransactionConfigFrame :=
  lift (if 0 <? mask_offset then Ok tt else Panic) ;;
  lift (sanitize_mask mask) ;;
  let num_values := cast U8 (count_ones mask) in
  mask_offset <- lift (ok_or (try_from U16 mask_offset) SanitizeError) ;;
  values_offset <- at_offset (fun _ off => ok_or (try_from U16 off) SanitizeError) ;;
  advance_offset_for_array size_of_u32 num_values ;;
  pret {| cf_mask_offset := mask_offset; cf_mask := mask; cf_values_offset := values_offset |}.

Definition word_index_for_bit (self : TransactionConfigFrame) (bit : Z) : option Z :=
  if negb (TransactionConfigFrame_is_present self) || negb (has_bit (cf_mask self) bit)
  then None
  else
    let mask_before_bit := wrapping_sub U32 (cast U32 (Z.shiftl 1 bit)) 1 in
    Some (cast U8 (count_ones (Z.land (cf_mask self) mask_before_bit))).

Definition word_offset (self : TransactionConfigFrame) (bit : Z) : option Z :=
  match word_index_for_bit self bit with
  | None => None
  | Some word_index =>
      Some (wrapping_add USIZE (cf_values_offset self)
              (wrapping_mul USIZE word_index CONFIG_VALUE_SIZE))
  end.

Record TransactionConfigView := {
  cv_transaction_config_frame : TransactionConfigFrame;
  cv_bytes : list byte }.

Section Target.
  Context `{Target}.

(** [uN::from_le(unsafe { unchecked_copy_value(self.bytes, offset) })] for the word
    that starts at [bit], when it is there; [n] is the size of the integer. *)
Definition config_value (self : TransactionConfigView) (bit : Z) (n : nat) : Result (option Z) :=
  match word_offset (cv_transaction_config_frame self) bit with
  | None => Ok None
  | Some offset =>
      omap (fun raw => Some (from_le n (native_val raw)))
        (unchecked_copy_value (Z.of_nat n) (cv_bytes self) offset)
  end.

Definition priority_fee_lamports (self : TransactionConfigView) : Result (option Z) :=
  config_value self 0 8.

Definition compute_unit_limit (self : TransactionConfigView) : Result (option Z) :=
  config_value self 2 4.

Definition loaded_accounts_data_size_limit (self : TransactionConfigView) : Result (option Z) :=
  config_value self 3 4.

Definition requested_heap_size (self : TransactionConfigView) : Result (option Z) :=
  config_value self 4 4.
End Target.

Definition TransactionConfigView_mask (self : TransactionConfigView) : Z :=
  cf_mask (cv_transaction_config_frame self).

(** ** The config a v1 message carries *)

Record TransactionConfig := {
  cfg_priority_fee_lamports : option Z;
  cfg_compute_unit_limit : option Z;
  cfg_loaded_accounts_data_size_limit : option Z;
  cfg_requested_heap_size : option Z }.

Definition empty_config : TransactionConfig :=
  {| cfg_priority_fee_lamports := None; cfg_compute_unit_limit := None;
     cfg_loaded_accounts_data_size_limit := None; cfg_requested_heap_size := None |}.

Definition wf_field (w : uwidth) (o : option Z) : Prop :=
  match o with Some x => in_width w x | None => True end.

Definition wf_config (c : TransactionConfig) : Prop :=
  wf_field U64 (cfg_priority_fee_lamports c) /\ wf_field U32 (cfg_compute_unit_limit c) /\
  wf_field U32 (cfg_loaded_accounts_data_size_limit c) /\ wf_field U32 (cfg_requested_heap_size c).

Definition field_bits (bits : Z) (o : option Z) : Z :=
  match o with Some _ => bits | None => 0 end.

Definition field_bytes (n : nat) (o : option Z) : list byte :=
  match o with Some x => le_bytes n x | None => [] end.

(** Bits 0 and 1 stand for the two words of the priority fee. *)
Definition config_mask (c : TransactionConfig) : Z :=
  field_bits 3 (cfg_priority_fee_lamports c) + field_bits 4 (cfg_compute_unit_limit c) +
  field_bits 8 (cfg_loaded_accounts_data_size_limit c) +
  field_bits 16 (cfg_requested_heap_size c).

Definition encode_config_values (c : TransactionConfig) : list byte :=
  field_bytes 8 (cfg_priority_fee_lamports c) ++ field_bytes 4 (cfg_compute_unit_limit c) ++
  field_bytes 4 (cfg_loaded_accounts_data_size_limit c) ++
  field_bytes 4 (cfg_requested_heap_size c).

Definition config_grammar (mask_offset mask : Z) : Grammar TransactionConfigFrame :=
  fun off c _ frame =>
    mask_offset <= 65535 /\ off <= 65535 /\
    (exists cfg, wf_config cfg /\ mask = config_mask cfg /\ c = encode_config_values cfg) /\
    frame = {| cf_mask_offset := mask_offset; cf_mask := mask; cf_values_offset := off |}.

(** ** Masks *)

Lemma mask_below_32 mask :
  in_width U32 mask -> Z.land mask (unot U32 ALLOWED_TRANSACTION_CONFIG_MASK) = 0 -> mask < 32.
Proof.
  intros Hm H0. assert (mask mod 2 ^ 5 = mask) as <-; [|apply Z.mod_pos_bound; lia].
  apply Z.bits_inj'. intros i Hi. destruct (Z.lt_ge_cases i 5).
  { by rewrite Z.mod_pow2_bits_low. }
  rewrite Z.mod_pow2_bits_high by lia. destruct (Z.lt_ge_cases i 32).
  - apply (f_equal (fun x => Z.testbit x i)) in H0.
    rewrite Z.land_spec, Z.bits_0 in H0.
    replace (unot U32 ALLOWED_TRANSACTION_CONFIG_MASK) with (Z.shiftl (Z.ones 27) 5) in H0 by done.
    rewrite Z.shiftl_spec, Z.ones_spec_low, andb_true_r in H0 by lia. done.
  - destruct (Z.eq_dec mask 0) as [->|Hz]; [by rewrite Z.bits_0|].
    rewrite Z.bits_above_log2; [done|apply Hm|]. uints.
    assert (Z.log2 mask < 32) by (apply Z.log2_lt_pow2; lia). lia.
Qed.

(** The masks that pass are those of some set of fields. *)
Lemma sanitize_mask_cases mask :
  in_width U32 mask -> sanitize_mask mask = Ok tt ->
  exists (b0 b2 b3 b4 : bool),
    mask = (if b0 then 3 else 0) + (if b2 then 4 else 0) + (if b3 then 8 else 0) +
           (if b4 then 16 else 0).
Proof.
  intros Hm Hs. unfold sanitize_mask in Hs. destruct (err_if _ _) eqn:He; [|done..].
  simpl in Hs. unfold err_if in He.
  assert (mask < 32) as Hlt.
  { apply mask_below_32; [done|]. by destruct (Z.eqb_spec (Z.land mask (unot U32
      ALLOWED_TRANSACTION_CONFIG_MASK)) 0). }
  exists (Z.testbit mask 0), (Z.testbit mask 2), (Z.testbit mask 3), (Z.testbit mask 4).
  clear He. assert (0 <= mask) by apply Hm. clear Hm. revert Hs.
  rewrite <- (Z2Nat.id mask) by done.
  assert (forall k, In k (seq 0 32) -> err_if (xorb (has_bit (Z.of_nat k) 0) (has_bit (Z.of_nat k) 1))
    SanitizeError = Ok tt -> Z.of_nat k = (if Z.testbit (Z.of_nat k) 0 then 3 else 0) +
      (if Z.testbit (Z.of_nat k) 2 then 4 else 0) + (if Z.testbit (Z.of_nat k) 3 then 8 else 0) +
      (if Z.testbit (Z.of_nat k) 4 then 16 else 0)) as Hall.
  { simpl. intros k Hk. repeat (destruct Hk as [<-|Hk]; [by vm_compute|]). done. }
  apply Hall, in_seq. lia.
Qed.

Lemma sanitize_config_mask c : sanitize_mask (config_mask c) = Ok tt.
Proof. destruct c as [[] [] [] []]; reflexivity. Qed.

Lemma config_mask_range c : 0 <= config_mask c < 32.
Proof. destruct c as [[] [] [] []]; unfold config_mask; simpl; lia. Qed.

(** One word per set bit. *)
Lemma len_encode_config_values c :
  len (encode_config_values c) = 4 * cast U8 (count_ones (config_mask c)).
Proof.
  destruct c as [[] [] [] []]; unfold encode_config_values; simpl field_bytes;
    autorewrite with len; reflexivity.
Qed.

(** Split the field of [n] bytes off the values, when its bits are set. *)
Lemma decode_field (b : bool) w n bits k c :
  modulus w = 256 ^ Z.of_nat n -> 0 <= k -> len c = (if b then Z.of_nat n else 0) + k ->
  exists o c', wf_field w o /\ field_bits bits o = (if b then bits else 0) /\
    c = field_bytes n o ++ c' /\ len c' = k.
Proof.
  intros Hw Hk Hc. destruct b; [|by exists None, c].
  destruct (carve c 0 (Z.of_nat n)) as (p & x & c' & -> & ->%len_0_nil & Hx); [lia..|].
  exists (Some (le_val x)), c'. simpl. pose proof (le_val_range x) as Hr. rewrite Hx in Hr.
  split_and!; [unfold in_width; by rewrite Hw|done| |len_lia].
  rewrite le_bytes_le_val'; [done|]. unfold len in Hx. lia.
Qed.

(** The words behind a mask are the fields of a config. *)
Lemma decode_config_values mask c :
  in_width U32 mask -> sanitize_mask mask = Ok tt ->
  len c = cast U8 (count_ones mask) * 4 ->
  exists cfg, wf_config cfg /\ mask = config_mask cfg /\ c = encode_config_values cfg.
Proof.
  intros Hm Hs Hc. destruct (sanitize_mask_cases _ Hm Hs) as (b0 & b2 & b3 & b4 & ->).
  assert (len c = (if b0 then 8 else 0) + ((if b2 then 4 else 0) + ((if b3 then 4 else 0) +
    ((if b4 then 4 else 0) + 0)))) as Hl by (rewrite Hc; by destruct b0, b2, b3, b4).
  clear Hc. destruct (decode_field b0 U64 8 3
    ((if b2 then 4 else 0) + ((if b3 then 4 else 0) + ((if b4 then 4 else 0) + 0))) c) as (o0 & c2 & W0 & B0 & -> & H2);
    [done|destruct b2, b3, b4; lia|exact Hl|].
  destruct (decode_field b2 U32 4 4
    ((if b3 then 4 else 0) + ((if b4 then 4 else 0) + 0)) c2) as (o2 & c3 & W2 & B2 & -> & H3);
    [done|destruct b3, b4; lia|exact H2|].
  destruct (decode_field b3 U32 4 8
    ((if b4 then 4 else 0) + 0) c3) as (o3 & c4 & W3 & B3 & -> & H4);
    [done|destruct b4; lia|exact H3|].
  destruct (decode_field b4 U32 4 16
    0 c4) as (o4 & c5 & W4 & B4 & -> & ->%len_0_nil);
    [done|lia|exact H4|].
  exists {| cfg_priority_fee_lamports := o0; cfg_compute_unit_limit := o2;
            cfg_loaded_accounts_data_size_limit := o3; cfg_requested_heap_size := o4 |}.
  split_and!; [done|unfold config_mask; simpl; lia|].
  unfold encode_config_values. simpl. by rewrite app_nil_r.
Qed.

Lemma parses_TransactionConfigFrame_try_new mask_offset mask :
  0 < mask_offset -> in_width U32 mask ->
  parses (TransactionConfigFrame_try_new mask_offset mask) (config_grammar mask_offset mask).
Proof.
  intros Hmo Hm. unfold TransactionConfigFrame_try_new.
  assert (parses (lift (if 0 <? mask_offset then Ok tt else Panic))
    (step_grammar (fun _ _ _ => True))) as Hp1.
  { zcase; [|lia]. apply parses_at_offset; [done|]. by intros ?? []. }
  assert (parses (lift (sanitize_mask mask))
    (step_grammar (fun _ _ _ => sanitize_mask mask = Ok tt))) as Hp2.
  { unfold sanitize_mask. unfold err_if. destruct (negb _); simpl; [|destruct (xorb _ _)];
      (apply parses_at_offset; [done|]; by intros ?? []). }
  assert (parses (at_offset (fun _ off => ok_or (try_from U16 off) SanitizeError))
    (step_grammar (fun off _ a => a = off /\ off <= 65535))) as Hp3.
  { unfold try_from. cbn [modulus]. apply parses_at_offset; [intros; by zcase|].
    intros. zcase; simpl; split; [intros [= <-]|intros [-> _]|done|]; (done || lia). }
  pose proof (cast_range U8 (count_ones mask)). eapply parses_ext.
  { repeat (eapply parses_bind; [eauto with parses|intros ?]). eapply parses_ret. }
  intros off c rest f Ho Hr. split.
  - intros Hg. grammar_facts. rename select (try_from _ _ = Some _) into Ht.
    apply try_from_Some in Ht as [-> Ht]. cbn [modulus] in Ht.
    split_and!; [lia|done| |done]. by apply decode_config_values.
  - intros (H1 & H2 & (cfg & Hcfg & -> & ->) & ->).
    apply bind_step. exists tt. split; [done|].
    apply bind_step. exists tt. split; [apply sanitize_config_mask|].
    apply bind_step. eexists. split; [apply try_from_Some; cbn [modulus]; split; [done|lia]|].
    apply bind_step. eexists. split; [done|].
    apply bind_take. exists (encode_config_values cfg), [].
    rewrite app_nil_r, len_encode_config_values. change size_of_u32 with 4.
    split_and!; [lia|done|]. done.
Qed.

(** ** The view returns the fields of the config *)

Section View.
  Context `{Target} (view : TransactionConfigView) (cfg : TransactionConfig).
Let frame := cv_transaction_config_frame view.
  Hypothesis Hpresent : 0 < cf_mask_offset frame.
  Hypothesis Hvalues : cf_values_offset frame <= 65535.
  Hypothesis Hmask : cf_mask frame = config_mask cfg.
  Hypothesis Hbytes : bytes_at (cv_bytes view) (cf_values_offset frame) (encode_config_values cfg).
  Hypothesis Hcfg : wf_config cfg.

(** A field is read at the word index of its lowest bit. *)
Lemma config_value_at bit n w o before after i :
  0 <= bit < 32 -> modulus w = 256 ^ Z.of_nat n -> wf_field w o ->
  encode_config_values cfg = before ++ field_bytes n o ++ after ->
  has_bit (config_mask cfg) bit = match o with Some _ => true | None => false end ->
  cast U8 (count_ones (Z.land (config_mask cfg)
    (wrapping_sub U32 (cast U32 (Z.shiftl 1 bit)) 1))) = i ->
  len before = 4 * i -> 0 <= i < 8 ->
  config_value view bit n = Ok o.
Proof.
  intros Hbit Hw Ho Henc Hhas Hi Hlen Hi8. unfold config_value, word_offset, word_index_for_bit.
  fold frame. rewrite Hmask, Hhas, Hi. unfold TransactionConfigFrame_is_present.
  destruct (Z.eqb_spec (cf_mask_offset frame) 0); [lia|].
  destruct o as [x|]; [|done]. simpl negb. simpl orb. cbv iota.
  pose proof (bytes_at_bounds _ _ _ Hbytes) as [? _].
  rewrite Henc in Hbytes. apply bytes_at_app in Hbytes as [_ [Hx _]%bytes_at_app]. change CONFIG_VALUE_SIZE with 4. nowrap.
  replace (cf_values_offset frame + i * 4) with (cf_values_offset frame + len before) by lia.
  rewrite (unchecked_copy_value_at _ _ _ _ Hx) by (simpl; by autorewrite with len). simpl.
  rewrite from_le_native_val by apply length_le_bytes. rewrite le_val_le_bytes; [done|].
  rewrite <- Hw. apply Ho.
Qed.

Lemma priority_fee_lamports_Ok : priority_fee_lamports view = Ok (cfg_priority_fee_lamports cfg).
Proof.
  destruct Hcfg as (W & _). eapply (config_value_at 0 8 U64 _ []); [done..| | | |done].
  all: destruct cfg as [[] [] [] []]; done.
Qed.

Lemma compute_unit_limit_Ok : compute_unit_limit view = Ok (cfg_compute_unit_limit cfg).
Proof.
  destruct Hcfg as (_ & W & _).
  eapply (config_value_at 2 4 U32 _ (field_bytes 8 (cfg_priority_fee_lamports cfg)));
    [done..| |done| |]; destruct cfg as [[] [] [] []]; done.
Qed.

Lemma loaded_accounts_data_size_limit_Ok :
  loaded_accounts_data_size_limit view = Ok (cfg_loaded_accounts_data_size_limit cfg).
Proof.
  destruct Hcfg as (_ & _ & W & _).
  eapply (config_value_at 3 4 U32 _ (field_bytes 8 (cfg_priority_fee_lamports cfg) ++
    field_bytes 4 (cfg_compute_unit_limit cfg)));
    [done..|by rewrite <- app_assoc| |done| |]; destruct cfg as [[] [] [] []]; done.
Qed.

Lemma requested_heap_size_Ok : requested_heap_size view = Ok (cfg_requested_heap_size cfg).
Proof.
  destruct Hcfg as (_ & _ & _ & W).
  eapply (config_value_at 4 4 U32 _ (field_bytes 8 (cfg_priority_fee_lamports cfg) ++
    field_bytes 4 (cfg_compute_unit_limit cfg) ++
    field_bytes 4 (cfg_loaded_accounts_data_size_limit cfg)) []);
    [done..|by rewrite <- !app_assoc, app_nil_r| |done| |]; destruct cfg as [[] [] [] []]; done.
Qed.
End View.
