(* ===== verification/MessageFrame.v ===== *)
(** * message_frame.rs: framing of a message, the signed part of a transaction *)

From stdpp Require Import base list numbers.
From Stdlib Require Import ZArith Lia Strings.Byte.
From S2P Require Import Prelude Cursor RustIterator Bytes MessageHeaderFrame.
From S2P Require Import StaticAccountKeysFrame AddressTableLookupFrame InstructionsFrame.
From S2P Require Import TransactionConfigView.
Local Open Scope Z_scope.
Local Open Scope parser_scope.

Record MessageFrame := {
  mf_message_header : MessageHeaderFrame;
  mf_static_account_keys : StaticAccountKeysFrame;
  mf_recent_blockhash_offset : Z;
  mf_instructions : InstructionsFrame;
  mf_address_table_lookup : AddressTableLookupFrame;
  mf_transaction_config_frame : TransactionConfigFrame;
  mf_end_offset : Z }.

(** The frame of a message without lookups. *)
Definition no_address_table_lookup : AddressTableLookupFrame :=
  {| atl_num_address_table_lookups := 0;
     atl_offset := 0;
     atl_total_writable_lookup_accounts := 0;
     atl_total_readonly_lookup_accounts := 0 |}.

Definition message_frame_as_legacy_or_v0 : Parser MessageFrame :=
  message_header <- MessageHeaderFrame_try_new ;;
  static_account_keys <- StaticAccountKeysFrame_try_new ;;
  recent_blockhash_offset <- at_offset (fun _ off => checked_offset off) ;;
  advance_offset_for_type size_of_Hash ;;
  instructions <- InstructionsFrame_try_new_for_legacy_and_v0 ;;
  address_table_lookup <-
    match mh_version message_header with
    | Legacy => pret no_address_table_lookup
    | V0 => AddressTableLookupFrame_try_new
    | V1 => lift Panic
    end ;;
  end_offset <- at_offset (fun _ off => checked_offset off) ;;
  pret {| mf_message_header := message_header;
          mf_static_account_keys := static_account_keys;
          mf_recent_blockhash_offset := recent_blockhash_offset;
          mf_instructions := instructions;
          mf_address_table_lookup := address_table_lookup;
          mf_transaction_config_frame := TransactionConfigFrame_not_applicable;
          mf_end_offset := end_offset |}.

(** The offset is a parameter of the function, not a reference. *)
Definition MessageFrame_try_new_as_legacy_or_v0 (bytes : list byte) (offset : Z) :
    Result MessageFrame :=
  (message_frame_as_legacy_or_v0 bytes offset).1.

Definition FIXED_V1_PREFIX_LEN : Z := 1 + 3 + 4 + size_of_Hash + 1 + 1.

Section V1.
  Context `{Target}.

(** The variable part of a v1 message, from the addresses on. *)
Definition message_frame_v1_tail (message_header : MessageHeaderFrame)
    (transaction_config_mask_offset transaction_config_mask recent_blockhash_offset
     num_instructions num_addresses : Z) : Parser MessageFrame :=
  addresses_offset <- at_offset (fun _ off => checked_offset off) ;;
  advance_offset_for_array size_of_Pubkey num_addresses ;;
  transaction_config_frame <-
    TransactionConfigFrame_try_new transaction_config_mask_offset transaction_config_mask ;;
  instructions <- InstructionsFrame_try_new_for_v1 num_instructions ;;
  end_offset <- at_offset (fun _ off => checked_offset off) ;;
  pret {| mf_message_header := message_header;
          mf_static_account_keys :=
            {| sk_num_static_accounts := num_addresses; sk_offset := addresses_offset |};
          mf_recent_blockhash_offset := recent_blockhash_offset;
          mf_instructions := instructions;
          mf_address_table_lookup := no_address_table_lookup;
          mf_transaction_config_frame := transaction_config_frame;
          mf_end_offset := end_offset |}.

Definition message_frame_as_v1 : Parser MessageFrame :=
  at_offset (fun bytes off => check_remaining bytes off FIXED_V1_PREFIX_LEN) ;;
  off <- offset ;;
  let message_offset := cast U16 off in
  version <- unchecked_read_byte ;;
  lift (err_if (negb (version =? V1_PREFIX)) ParseError) ;;
  num_required_signatures <- unchecked_read_byte ;;
  num_readonly_signed_accounts <- unchecked_read_byte ;;
  num_readonly_unsigned_accounts <- unchecked_read_byte ;;
  transaction_config_mask_offset <- offset ;;
  raw_mask <- at_offset (unchecked_copy_value size_of_u32) ;;
  let transaction_config_mask := native_val raw_mask in
  advance size_of_u32 ;;
  recent_blockhash_offset <- at_offset (fun _ off => checked_offset off) ;;
  advance size_of_Hash ;;
  num_instructions <- unchecked_read_byte ;;
  num_addresses <- unchecked_read_byte ;;
  message_frame_v1_tail
    {| mh_offset := message_offset;
       mh_version := V1;
       mh_num_required_signatures := num_required_signatures;
       mh_num_readonly_signed_accounts := num_readonly_signed_accounts;
       mh_num_readonly_unsigned_accounts := num_readonly_unsigned_accounts |}
    transaction_config_mask_offset transaction_config_mask recent_blockhash_offset
    num_instructions num_addresses.

Definition MessageFrame_try_new_as_v1 (bytes : list byte) : Result MessageFrame :=
  (message_frame_as_v1 bytes 0).1.

Definition MessageFrame_try_new (bytes : list byte) : Result MessageFrame :=
  obind (if bool_decide (get bytes 0 = Some (byte_of_Z V1_PREFIX))
         then MessageFrame_try_new_as_v1 bytes
         else MessageFrame_try_new_as_legacy_or_v0 bytes 0) (fun message_frame =>
  obind (err_if (negb (mf_end_offset message_frame =? len bytes)) ParseError) (fun _ =>
  Ok message_frame)).
End V1.

(** ** Accessors *)

Definition MessageFrame_version (self : MessageFrame) : TransactionVersion :=
  mh_version (mf_message_header self).
Definition MessageFrame_num_required_signatures (self : MessageFrame) : Z :=
  mh_num_required_signatures (mf_message_header self).
Definition MessageFrame_num_readonly_signed_static_accounts (self : MessageFrame) : Z :=
  mh_num_readonly_signed_accounts (mf_message_header self).
Definition MessageFrame_num_readonly_unsigned_static_accounts (self : MessageFrame) : Z :=
  mh_num_readonly_unsigned_accounts (mf_message_header self).
Definition MessageFrame_num_static_account_keys (self : MessageFrame) : Z :=
  sk_num_static_accounts (mf_static_account_keys self).
Definition MessageFrame_num_instructions (self : MessageFrame) : Z :=
  InstructionsFrame_num_instructions (mf_instructions self).
Definition MessageFrame_num_address_table_lookups (self : MessageFrame) : Z :=
  atl_num_address_table_lookups (mf_address_table_lookup self).
Definition MessageFrame_total_writable_lookup_accounts (self : MessageFrame) : Z :=
  atl_total_writable_lookup_accounts (mf_address_table_lookup self).
Definition MessageFrame_total_readonly_lookup_accounts (self : MessageFrame) : Z :=
  atl_total_readonly_lookup_accounts (mf_address_table_lookup self).
Definition MessageFrame_message_range (self : MessageFrame) : Z * Z :=
  (mh_offset (mf_message_header self), mf_end_offset self).
Definition MessageFrame_recent_blockhash_offset (self : MessageFrame) : Z :=
  mf_recent_blockhash_offset self.
Definition MessageFrame_end_offset (self : MessageFrame) : Z := mf_end_offset self.
Definition MessageFrame_transaction_config_frame (self : MessageFrame) : TransactionConfigFrame :=
  mf_transaction_config_frame self.

(** The slice of keys, each as its 32 bytes. *)
Definition MessageFrame_static_account_keys (self : MessageFrame) (bytes : list byte) :
    Result (list (list byte)) :=
  let keys := mf_static_account_keys self in
  omap (chunks (Z.to_nat (sk_num_static_accounts keys)) (Z.to_nat size_of_Pubkey))
    (raw_read bytes (sk_offset keys) (sk_num_static_accounts keys * size_of_Pubkey)).

Definition MessageFrame_recent_blockhash (self : MessageFrame) (bytes : list byte) :
    Result (list byte) :=
  raw_read bytes (mf_recent_blockhash_offset self) size_of_Hash.

Definition MessageFrame_instructions_iter (self : MessageFrame) (bytes : list byte) :
    InstructionsIterator :=
  InstructionsFrame_iter (mf_instructions self) bytes.

Definition MessageFrame_address_table_lookup_iter (self : MessageFrame) (bytes : list byte) :
    AddressTableLookupIterator :=
  {| ai_bytes := bytes;
     ai_offset := atl_offset (mf_address_table_lookup self);
     ai_num_address_table_lookups :=
       atl_num_address_table_lookups (mf_address_table_lookup self);
     ai_index := 0 |}.
