(* ===== verification/Message.v ===== *)
(** * The wire format of messages, and what parsing one means

    [Message] is the abstract content of a serialized message and [encode_message]
    its serialization; [native_message] is what the parser of a target reads as the
    message, which differs in the byte order of the mask of v1 messages on big-endian
    targets.  The parsers of message_frame.rs are shown to accept exactly the
    [native_message]s of well-formed messages, and the accessors to return the parts of
    the message. *)

From stdpp Require Import base list numbers.
From Stdlib Require Import ZArith Lia Strings.Byte.
From S2P Require Import Prelude Cursor RustIterator Bytes MessageHeaderFrame.
From S2P Require Import StaticAccountKeysFrame AddressTableLookupFrame InstructionsFrame.
From S2P Require Import TransactionConfigView MessageFrame.
Local Open Scope Z_scope.
Local Open Scope parser_scope.

Record Message := {
  msg_version : TransactionVersion;
  msg_header : MessageHeader;
  msg_account_keys : list (list byte);
  msg_recent_blockhash : list byte;
  msg_instructions : list SVMInstruction;
  msg_address_table_lookups : list SVMMessageAddressTableLookup;
  msg_config : TransactionConfig }.

(** What the version allows in a message that [rest] bytes follow. *)
Definition wf_message_body (rest : Z) (m : Message) : Prop :=
  match msg_version m with
  | Legacy =>
      num_required_signatures (msg_header m) < 128 /\ wf_static_keys (msg_account_keys m) /\
      wf_instructions (msg_instructions m) /\ msg_address_table_lookups m = [] /\
      msg_config m = empty_config
  | V0 =>
      wf_static_keys (msg_account_keys m) /\ wf_instructions (msg_instructions m) /\
      wf_atls rest (msg_address_table_lookups m) /\ msg_config m = empty_config
  | V1 =>
      len (msg_account_keys m) < 256 /\ Forall wf_key (msg_account_keys m) /\
      len (msg_instructions m) < 256 /\
      Forall (fun i => wf_v1_header (v1_header i)) (msg_instructions m) /\
      msg_address_table_lookups m = [] /\ wf_config (msg_config m)
  end.

Definition wf_message (rest : Z) (m : Message) : Prop :=
  wf_header (msg_header m) /\ len (msg_recent_blockhash m) = size_of_Hash /\
  wf_message_body rest m.

(** The serialization of a message whose mask has these bytes. *)
Definition encode_with_mask (mask : list byte) (m : Message) : list byte :=
  match msg_version m with
  | Legacy =>
      encode_header (msg_header m) ++ encode_keys (msg_account_keys m) ++
      msg_recent_blockhash m ++ encode_instructions (msg_instructions m)
  | V0 =>
      (byte_of_Z MESSAGE_VERSION_PREFIX :: encode_header (msg_header m)) ++
      encode_keys (msg_account_keys m) ++
      msg_recent_blockhash m ++ encode_instructions (msg_instructions m) ++
      encode_atls (msg_address_table_lookups m)
  | V1 =>
      (byte_of_Z V1_PREFIX :: encode_header (msg_header m)) ++
      mask ++ msg_recent_blockhash m ++
      [byte_of_Z (len (msg_instructions m)); byte_of_Z (len (msg_account_keys m))] ++
      concat (msg_account_keys m) ++ encode_config_values (msg_config m) ++
      encode_v1_instructions (msg_instructions m)
  end.

(** The documented wire format: all integers are little-endian. *)
Definition encode_message (m : Message) : list byte :=
  encode_with_mask (le_bytes 4 (config_mask (msg_config m))) m.

Section Target.
  Context `{Target}.

(** A message is read with its mask in the byte order of the target, because
    message_frame.rs copies the mask without [from_le]: on a little-endian target
    this is its serialization. *)
Definition native_message (m : Message) : list byte :=
  encode_with_mask (native_bytes 4 (config_mask (msg_config m))) m.

(** Where the parts of a message are, from its start. *)
Definition keys_position (m : Message) : Z :=
  match msg_version m with Legacy => 4 | V0 => 5 | V1 => 42 end.

Definition blockhash_position (m : Message) : Z :=
  match msg_version m with
  | Legacy | V0 => keys_position m + 32 * len (msg_account_keys m)
  | V1 => 8
  end.

Definition values_position (m : Message) : Z := keys_position m + 32 * len (msg_account_keys m).

Definition instructions_position (m : Message) : Z :=
  match msg_version m with
  | Legacy | V0 => blockhash_position m + 32
  | V1 => values_position m + len (encode_config_values (msg_config m))
  end.

Definition atls_position (m : Message) : Z :=
  instructions_position m + len (encode_instructions (msg_instructions m)).

(** The frame of a message that starts at offset [off]. *)
Definition message_frame (off : Z) (m : Message) : MessageFrame :=
  {| mf_message_header := header_frame off (msg_version m) (msg_header m);
     mf_static_account_keys :=
       {| sk_num_static_accounts := len (msg_account_keys m);
          sk_offset := cast U16 (off + keys_position m) |};
     mf_recent_blockhash_offset := off + blockhash_position m;
     mf_instructions :=
       match msg_version m with
       | Legacy | V0 => instructions_frame (off + instructions_position m) (msg_instructions m)
       | V1 => v1_instructions_frame (off + instructions_position m) (msg_instructions m)
       end;
     mf_address_table_lookup :=
       match msg_version m with
       | V0 => atls_frame (off + atls_position m) (msg_address_table_lookups m)
       | _ => no_address_table_lookup
       end;
     mf_transaction_config_frame :=
       match msg_version m with
       | V1 => {| cf_mask_offset := off + 4; cf_mask := config_mask (msg_config m);
                  cf_values_offset := off + values_position m |}
       | _ => TransactionConfigFrame_not_applicable
       end;
     mf_end_offset := off + len (native_message m) |}.

End Target.

(** On this target the mask of the message is read as it is documented. *)
Definition mask_is_read `{Target} (m : Message) : Prop :=
  target_endian = LittleEndian \/ msg_version m <> V1 \/ msg_config m = empty_config.

Lemma native_message_documented `{Target} m : mask_is_read m -> native_message m = encode_message m.
Proof.
  unfold mask_is_read, native_message, encode_message, native_bytes.
  destruct target_endian; [done|]. intros [|[Hv|Hc]]; [done| |by rewrite Hc].
  unfold encode_with_mask. by destruct (msg_version m).
Qed.

Lemma len_native_message `{Target} m : len (native_message m) = len (encode_message m).
Proof.
  unfold native_message, encode_message, encode_with_mask.
  by destruct (msg_version m); autorewrite with len.
Qed.

Lemma config_mask_0 c : config_mask c = 0 <-> c = empty_config.
Proof. by destruct c as [[] [] [] []]. Qed.

Lemma len_encode_header h : len (encode_header h) = 3.
Proof. done. Qed.
#[export] Hint Rewrite len_encode_header : len.

Ltac msg_unfold :=
  unfold message_frame, atls_position, instructions_position, blockhash_position,
    values_position, keys_position, native_message, encode_with_mask in *;
  cbn [msg_version msg_header msg_account_keys msg_recent_blockhash msg_instructions
    msg_address_table_lookups msg_config] in *.

(** Equality of frames, down to linear arithmetic on offsets. *)
Ltac frame_eq :=
  repeat match goal with
  | |- @eq Z (cast _ _) _ => f_equal
  | |- @eq Z _ _ => change size_of_Hash with 32 in *; len_lia
  | |- _ => progress f_equal
  end.

(** The grammar steps from the keys to the instructions. *)
Ltac body_steps keys bh ixs :=
  eexists (encode_keys keys), _, _; split_and!; [done|by exists keys|];
  apply bind_step; eexists; split; [split; [done|change size_of_Hash with 32 in *; len_lia]|];
  apply bind_take; exists bh; eexists; split_and!; [done|done|];
  eexists (encode_instructions ixs), _, _; split_and!; [done|by exists ixs|].

(** Evaluate the sums of literals. *)
Ltac zlit :=
  repeat match goal with
  | |- context [Z.add (Zpos ?a) (Zpos ?b)] =>
      let c := eval vm_compute in (Zpos a + Zpos b) in change (Zpos a + Zpos b) with c
  | H : context [Z.add (Zpos ?a) (Zpos ?b)] |- _ =>
      let c := eval vm_compute in (Zpos a + Zpos b) in change (Zpos a + Zpos b) with c in H
  end; rewrite ?Z.add_0_l in *.

(** ** Parsing a legacy or v0 message *)

Section Parsing.
  Context `{Target}.

Definition legacy_or_v0_grammar : Grammar MessageFrame := fun off c rest f =>
  exists m, msg_version m <> V1 /\ wf_message rest m /\ c = native_message m /\
    off + len c <= 65535 /\ f = message_frame off m.

Lemma len_encode_keys keys : Forall wf_key keys -> len (encode_keys keys) = 1 + 32 * len keys.
Proof. intros Hk%len_concat. unfold encode_keys. rewrite len_cons, Hk. done. Qed.

Lemma parses_legacy_or_v0_lookups v :
  v <> V1 ->
  parses (match v with
          | Legacy => pret no_address_table_lookup
          | V0 => AddressTableLookupFrame_try_new
          | V1 => lift Panic
          end)
    (match v with
     | Legacy => ret_grammar no_address_table_lookup
     | V0 => atls_grammar
     | V1 => fun _ _ _ _ => False
     end).
Proof. destruct v; [|eauto with parses|done]. intros _. apply parses_ret. Qed.

Lemma parses_message_frame_as_legacy_or_v0 :
  parses message_frame_as_legacy_or_v0 legacy_or_v0_grammar.
Proof.
  unfold message_frame_as_legacy_or_v0. eapply parses_ext.
  { eapply parses_bind_dep; [eauto with parses|].
    intros mh o1 c1 r1 (h & _ & Hmh).
    do 4 (eapply parses_bind; [eauto with parses|intros ?]).
    eapply parses_bind; [apply parses_legacy_or_v0_lookups; by destruct Hmh as [(_ & _ & ->)|(_ & ->)]|].
    intros ?. eapply parses_bind; [eauto with parses|intros ?]. eapply parses_ret. }
  intros off c rest f Ho Hr. split.
  - intros Hg. grammar_facts.
    rename select (header_grammar _ _ _ _) into Hh. rename select (keys_grammar _ _ _ _) into Hk.
    rename select (instructions_grammar _ _ _ _) into Hi.
    destruct Hk as (keys & Hk & -> & ->). destruct Hi as (ixs & Hi & -> & ->).
    rename select (len _ = size_of_Hash) into Hbh.
    pose proof (len_encode_keys _ (proj2 Hk)) as Hlk.
    destruct Hh as (h & Hwf & [(Hlt & -> & ->)|(-> & ->)]); cbn [header_frame mh_version] in *.
    + match goal with HH : ret_grammar _ _ _ _ _ |- _ => destruct HH as [-> ->] end.
      exists {| msg_version := Legacy; msg_header := h; msg_account_keys := keys;
        msg_recent_blockhash := x6; msg_instructions := ixs; msg_address_table_lookups := [];
        msg_config := empty_config |}.
      split_and!; [done|done|by rewrite app_nil_r|len_lia|].
      msg_unfold. frame_eq.
    + match goal with HH : atls_grammar _ _ _ _ |- _ => destruct HH as (atls & Ha & -> & ->) end.
      exists {| msg_version := V0; msg_header := h; msg_account_keys := keys;
        msg_recent_blockhash := x6; msg_instructions := ixs; msg_address_table_lookups := atls;
        msg_config := empty_config |}.
      split_and!; [done|done|done|len_lia|].
      msg_unfold. frame_eq.
  - intros ([v h keys bh ixs atls cfg] & Hv & (Hh & Hbh & Hbody) & -> & Hend & ->).
    unfold wf_message_body in Hbody. msg_unfold.
    destruct v; [destruct Hbody as (Hn & Hk & Hi & -> & ->)|destruct Hbody as (Hk & Hi & Ha & ->)|done].
    all: pose proof (len_encode_keys _ (proj2 Hk)) as Hlk.
    + rewrite <- (app_nil_r (encode_instructions ixs)).
      exists (encode_header h). eexists _, _. split_and!; [done|exists h; split; [done|by left]|].
      body_steps keys bh ixs.
      exists [], [], no_address_table_lookup. split_and!; [done..|].
      apply bind_step. eexists. split; [split; [done|]|]; [len_lia|].
      split; [done|]. frame_eq.
    + exists (byte_of_Z MESSAGE_VERSION_PREFIX :: encode_header h). eexists _, _.
      split_and!; [done|exists h; split; [done|by right]|].
      body_steps keys bh ixs.
      eexists (encode_atls atls), [], _. split_and!; [by rewrite app_nil_r|by exists atls|].
      apply bind_step. eexists. split; [split; [done|]|]; [len_lia|].
      split; [done|]. frame_eq.
Qed.

(** ** Parsing a v1 message *)

Definition v1_tail_grammar (mh : MessageHeaderFrame) (mask_offset mask blockhash_offset ni na : Z) :
    Grammar MessageFrame := fun off c _ f =>
  exists keys cfg ixs,
    len keys = na /\ Forall wf_key keys /\ wf_config cfg /\ mask = config_mask cfg /\
    wf_v1_instructions ni ixs /\
    c = concat keys ++ encode_config_values cfg ++ encode_v1_instructions ixs /\
    off + len c <= 65535 /\
    f = {| mf_message_header := mh;
           mf_static_account_keys := {| sk_num_static_accounts := na; sk_offset := off |};
           mf_recent_blockhash_offset := blockhash_offset;
           mf_instructions := v1_instructions_frame
             (off + 32 * len keys + len (encode_config_values cfg)) ixs;
           mf_address_table_lookup := no_address_table_lookup;
           mf_transaction_config_frame := {| cf_mask_offset := mask_offset; cf_mask := mask;
             cf_values_offset := off + 32 * len keys |};
           mf_end_offset := off + len c |}.

Lemma parses_message_frame_v1_tail mh mask_offset mask blockhash_offset ni na :
  0 < mask_offset <= 65535 -> in_width U32 mask -> in_width U8 ni -> in_width U8 na ->
  parses (message_frame_v1_tail mh mask_offset mask blockhash_offset ni na)
    (v1_tail_grammar mh mask_offset mask blockhash_offset ni na).
Proof.
  intros Hmo Hm Hni Hna. unfold message_frame_v1_tail. eapply parses_ext.
  { do 2 (eapply parses_bind; [eauto with parses|intros ?]).
    eapply parses_bind; [apply parses_TransactionConfigFrame_try_new; [lia|done]|intros ?].
    do 2 (eapply parses_bind; [eauto with parses|intros ?]). eapply parses_ret. }
  intros off c rest f Ho Hr. change size_of_Pubkey with 32. split.
  - intros Hg. grammar_facts. rename select (len _ = na * 32) into Hlen.
    destruct (split_array _ _ _ Hlen) as (keys & -> & <- & Hkeys); [uints; lia..|].
    rename select (config_grammar _ _ _ _ _ _) into Hc.
    destruct Hc as (_ & _ & (cfg & Hcfg & -> & ->) & ->).
    rename select (v1_instructions_grammar _ _ _ _ _) into Hi.
    destruct Hi as (ixs & Hixs & -> & ->).
    exists keys, cfg, ixs. split_and!; [done..| |frame_eq].
    len_lia.
  - intros (keys & cfg & ixs & <- & Hkeys & Hcfg & -> & Hixs & -> & Hend & ->).
    pose proof (len_concat _ _ Hkeys) as Hlen. change size_of_Pubkey with 32 in Hlen.
    apply bind_step. eexists. split; [split; [done|len_lia]|].
    apply bind_take. exists (concat keys). eexists. split_and!; [lia|done|].
    eexists (encode_config_values cfg), _, _. split_and!; [done| |].
    { split_and!; [lia|len_lia|by exists cfg|done]. }
    eexists (encode_v1_instructions ixs), [], _. split_and!; [by rewrite app_nil_r| |].
    { exists ixs. done. }
    apply bind_step. eexists. split; [split; [done|len_lia]|].
    split; [done|]. frame_eq.
Qed.

(** The fixed prefix, read without further checks after the length check. *)
Lemma message_frame_as_v1_prefix bytes b0 b1 b2 b3 mask bh ni na post :
  bytes = [b0; b1; b2; b3] ++ mask ++ bh ++ [ni; na] ++ post -> slice_ok bytes ->
  len mask = 4 -> len bh = 32 ->
  message_frame_as_v1 bytes 0 =
  if Z_of_byte b0 =? V1_PREFIX then
    message_frame_v1_tail
      {| mh_offset := 0; mh_version := V1; mh_num_required_signatures := Z_of_byte b1;
         mh_num_readonly_signed_accounts := Z_of_byte b2;
         mh_num_readonly_unsigned_accounts := Z_of_byte b3 |}
      4 (native_val mask) 8 (Z_of_byte ni) (Z_of_byte na) bytes 42
  else (Err ParseError, 1).
Proof.
  intros Hbytes Hb Hm Hbh.
  assert (bytes_at bytes 0 ([b0; b1; b2; b3] ++ mask ++ bh ++ [ni; na] ++ post)) as Hat.
  { exists [], []. by rewrite app_nil_r. }
  rewrite !bytes_at_app, Hm, Hbh in Hat. change (len [b0; b1; b2; b3]) with 4 in Hat.
  change (len [ni; na]) with 2 in Hat. simpl in Hat. destruct Hat as (Hat & Hmask & _ & Hn & _).
  unfold message_frame_as_v1, pbind, offset, at_offset, lift, at_offset.
  change FIXED_V1_PREFIX_LEN with 42.
  rewrite check_remaining_Ok by (done || (split; [done|apply len_nonneg])).
  destruct (Z.ltb_spec (len bytes - 0) 42); [subst bytes; len_lia|].
  rewrite (unchecked_read_byte_at _ _ _ _ Hb Hat). apply bytes_at_cons in Hat as (_ & _ & Hat).
  zlit. unfold err_if. destruct (Z_of_byte b0 =? V1_PREFIX); [|done]. cbn [negb].
  do 3 (rewrite (unchecked_read_byte_at _ _ _ _ Hb Hat);
        apply bytes_at_cons in Hat as (_ & _ & Hat); zlit).
  rewrite (unchecked_copy_value_at _ _ _ _ Hmask) by done.
  unfold advance. change (wrapping_add USIZE 4 size_of_u32) with 8.
  change (checked_offset 8) with (@Ok TransactionViewError Z 8). cbv beta iota.
  change (wrapping_add USIZE 8 size_of_Hash) with 40.
  do 2 (rewrite (unchecked_read_byte_at _ _ _ _ Hb Hn);
        apply bytes_at_cons in Hn as (_ & _ & Hn); zlit).
  done.
Qed.

Lemma split_fixed_prefix (bytes : list byte) :
  42 <= len bytes ->
  exists b0 b1 b2 b3 mask bh ni na post,
    bytes = [b0; b1; b2; b3] ++ mask ++ bh ++ [ni; na] ++ post /\ len mask = 4 /\ len bh = 32.
Proof.
  intros Hl. destruct bytes as [|b0 [|b1 [|b2 [|b3 bytes]]]]; autorewrite with len in Hl; try lia.
  destruct (carve bytes 0 4) as (p & mask & r & -> & ->%len_0_nil & Hmask); [lia..|].
  destruct (carve r 0 32) as (p & bh & r' & -> & ->%len_0_nil & Hbh); [len_lia..|].
  destruct r' as [|ni [|na post]]; [len_lia..|].
  by exists b0, b1, b2, b3, mask, bh, ni, na, post.
Qed.

(** A parsed v1 message: the buffer starts with its serialization. *)
Definition v1_parse (bytes : list byte) (f : MessageFrame) : Prop :=
  exists m post, msg_version m = V1 /\ wf_message (len post) m /\
    bytes = native_message m ++ post /\ len (native_message m) <= 65535 /\ f = message_frame 0 m.

Lemma message_frame_as_v1_sound bytes :
  slice_ok bytes -> wp message_frame_as_v1 (fun f _ => v1_parse bytes f) bytes 0.
Proof.
  intros Hb. destruct (Z.lt_ge_cases (len bytes) 42) as [Hlt|Hge].
  { unfold wp, message_frame_as_v1, pbind, at_offset. change FIXED_V1_PREFIX_LEN with 42.
    rewrite check_remaining_Ok by (done || (split; [done|apply len_nonneg])).
    by zcase; [|lia]. }
  destruct (split_fixed_prefix _ Hge) as (b0&b1&b2&b3&mask&bh&ni&na&post&Hbytes&Hm&Hbh).
  unfold wp. rewrite (message_frame_as_v1_prefix _ _ _ _ _ _ _ _ _ _ Hbytes Hb Hm Hbh).
  destruct (Z.eqb_spec (Z_of_byte b0) V1_PREFIX) as [Hv|]; [|done].
  pose proof (native_val_range mask) as Hmr. rewrite Hm in Hmr.
  eapply wp_mono; [apply (parses_sound _ _ (parses_message_frame_v1_tail _ 4 _ _ _ _
    ltac:(lia) Hmr (Z_of_byte_range ni) (Z_of_byte_range na))); [done|lia]|].
  intros f off' (pre & c & rest & Hsplit & Hpre & _ & HG).
  destruct HG as (keys & cfg & ixs & Hnk & Hkeys & Hcfg & Hmask & [Hni Hixs] & -> & Hend & ->).
  assert (pre = [b0; b1; b2; b3] ++ mask ++ bh ++ [ni; na]) as ->.
  { assert (([b0; b1; b2; b3] ++ mask ++ bh ++ [ni; na]) ++ post = bytes) as Heq
      by (rewrite Hbytes; by rewrite <- !app_assoc).
    rewrite Hsplit in Heq. apply app_inj_1 in Heq as [<- _]; [done|].
    unfold len in *. rewrite !length_app. simpl. lia. }
  exists {| msg_version := V1;
    msg_header := {| num_required_signatures := Z_of_byte b1;
      num_readonly_signed_accounts := Z_of_byte b2;
      num_readonly_unsigned_accounts := Z_of_byte b3 |};
    msg_account_keys := keys; msg_recent_blockhash := bh; msg_instructions := ixs;
    msg_address_table_lookups := []; msg_config := cfg |}, rest.
  assert (b0 = byte_of_Z V1_PREFIX) as -> by (apply Z_of_byte_inj; by rewrite Hv).
  pose proof (Z_of_byte_range b1). pose proof (Z_of_byte_range b2). pose proof (Z_of_byte_range b3).
  pose proof (Z_of_byte_range ni). pose proof (Z_of_byte_range na).
  assert (native_bytes 4 (config_mask cfg) = mask) as Hmb.
  { rewrite <- Hmask. apply native_bytes_native_val. unfold len in Hm. lia. }
  pose proof (len_concat _ _ Hkeys) as Hlk. change size_of_Pubkey with 32 in Hlk.
  msg_unfold. unfold encode_header. simpl num_required_signatures.
  simpl num_readonly_signed_accounts. simpl num_readonly_unsigned_accounts.
  rewrite Hni, Hnk, Hmb, !byte_of_Z_of_byte.
  split_and!; [done|unfold wf_message, wf_message_body, wf_header; simpl; split_and!;
    (done || lia)| |len_lia|].
  - rewrite Hsplit. by rewrite <- !app_assoc.
  - frame_eq.
Qed.

Lemma message_frame_as_v1_complete m post :
  slice_ok (native_message m ++ post) -> msg_version m = V1 -> wf_message (len post) m ->
  len (native_message m) <= 65535 ->
  message_frame_as_v1 (native_message m ++ post) 0 =
    (Ok (message_frame 0 m), len (native_message m)).
Proof.
  destruct m as [v h keys bh ixs atls cfg]. simpl. intros Hb -> (Hh & Hbh & Hbody) Hend.
  destruct Hbody as (Hnk & Hkeys & Hni & Hixs & Hatls & Hcfg). destruct Hh as (H1 & H2 & H3).
  msg_unfold. pose proof (config_mask_range cfg) as Hmr.
  pose proof (len_concat _ _ Hkeys) as Hlk. change size_of_Pubkey with 32 in Hlk.
  set (tail := concat keys ++ encode_config_values cfg ++ encode_v1_instructions ixs) in *.
  set (prefix := (byte_of_Z V1_PREFIX :: encode_header h) ++ native_bytes 4 (config_mask cfg) ++
    bh ++ [byte_of_Z (len ixs); byte_of_Z (len keys)]).
  assert (len prefix = 42) as Hpre.
  { unfold prefix. change size_of_Hash with 32 in Hbh. rewrite !len_app, len_native_bytes, Hbh. done. }
  erewrite message_frame_as_v1_prefix with (mask := native_bytes 4 (config_mask cfg)) (bh := bh);
    [|rewrite <- !app_assoc; done|done|by rewrite len_native_bytes|done].
  rewrite !Z_of_byte_of_Z by (done || (split; [apply len_nonneg|done])). simpl (_ =? _). cbv iota.
  rewrite native_val_native_bytes by (simpl; lia).
  replace ((_ ++ _) ++ post) with (prefix ++ tail ++ post)
    by (unfold prefix; by rewrite <- !app_assoc).
  replace (len ((byte_of_Z V1_PREFIX :: encode_header h) ++ _)) with (len prefix + len tail)
    in Hend |- * by (unfold prefix; rewrite <- len_app; by rewrite <- !app_assoc).
  rewrite <- Hpre at 1. rewrite !Z.add_0_l.
  apply (parses_complete _ _ (parses_message_frame_v1_tail _ 4 (config_mask cfg) 8 (len ixs)
    (len keys) ltac:(lia) ltac:(uints; lia) (conj (len_nonneg ixs) Hni) (conj (len_nonneg keys) Hnk))
    prefix tail post).
  { unfold prefix. by rewrite <- !app_assoc in *. }
  exists keys, cfg, ixs. split_and!; [done..|]. rewrite Hpre. done.
Qed.

(** ** The three entry points *)

Lemma MessageFrame_try_new_as_v1_Ok bytes f :
  slice_ok bytes -> MessageFrame_try_new_as_v1 bytes = Ok f <-> v1_parse bytes f.
Proof.
  intros Hb. unfold MessageFrame_try_new_as_v1. split.
  - pose proof (message_frame_as_v1_sound _ Hb) as Hs. unfold wp in Hs.
    destruct (message_frame_as_v1 bytes 0) as [[] ?]; simpl; by intros [= <-].
  - intros (m & post & Hv & Hwf & -> & Hend & ->). by rewrite message_frame_as_v1_complete.
Qed.

Lemma MessageFrame_try_new_as_v1_returns bytes :
  slice_ok bytes -> returns (MessageFrame_try_new_as_v1 bytes).
Proof. intros Hb. eapply wp_returns, message_frame_as_v1_sound, Hb. Qed.

Lemma MessageFrame_try_new_as_legacy_or_v0_Ok bytes off f :
  slice_ok bytes -> 0 <= off <= len bytes ->
  MessageFrame_try_new_as_legacy_or_v0 bytes off = Ok f <->
  exists pre m post, bytes = pre ++ native_message m ++ post /\ len pre = off /\
    msg_version m <> V1 /\ wf_message (len post) m /\ off + len (native_message m) <= 65535 /\
    f = message_frame off m.
Proof.
  intros Hb Ho. unfold MessageFrame_try_new_as_legacy_or_v0.
  pose proof parses_message_frame_as_legacy_or_v0 as Hp. split.
  - destruct (message_frame_as_legacy_or_v0 bytes off) as [r off'] eqn:He. simpl. intros ->.
    apply (parses_Ok _ _ _ _ _ _ Hp Hb Ho) in He as (pre & c & post & -> & Hpre & _ & HG).
    destruct HG as (m & Hv & Hwf & -> & Hend & ->). by exists pre, m, post.
  - intros (pre & m & post & -> & <- & Hv & Hwf & Hend & ->).
    rewrite (parses_complete _ _ Hp pre _ post (message_frame (len pre) m)); [done|done|].
    by exists m.
Qed.

Lemma MessageFrame_try_new_as_legacy_or_v0_returns bytes off :
  slice_ok bytes -> 0 <= off <= len bytes ->
  returns (MessageFrame_try_new_as_legacy_or_v0 bytes off).
Proof.
  intros Hb Ho. eapply wp_returns, (parses_sound _ _ parses_message_frame_as_legacy_or_v0); done.
Qed.

(** The first byte tells v1 messages from the others. *)
Lemma encode_message_first m post rest :
  wf_message rest m ->
  get (native_message m ++ post) 0 = Some (byte_of_Z V1_PREFIX) <-> msg_version m = V1.
Proof.
  intros ((Hh & _) & _ & Hbody). unfold wf_message_body in Hbody. unfold native_message, encode_with_mask, encode_header.
  destruct (msg_version m); simpl; rewrite get_cons_0; [|done..].
  split; [|done]. intros [= Heq]. apply (f_equal Z_of_byte) in Heq.
  rewrite !Z_of_byte_of_Z in Heq by done. unfold V1_PREFIX in Heq. lia.
Qed.

(** The frame a message has, as a whole buffer. *)
Lemma MessageFrame_try_new_Ok bytes f :
  slice_ok bytes ->
  MessageFrame_try_new bytes = Ok f <->
  exists m, wf_message 0 m /\ bytes = native_message m /\ len bytes <= 65535 /\
    f = message_frame 0 m.
Proof.
  intros Hb. unfold MessageFrame_try_new. split.
  - intros H1. destruct (if bool_decide _ then _ else _) as [f'| | | |] eqn:Hf; simpl in H1; try done.
    unfold err_if in H1. destruct (Z.eqb_spec (mf_end_offset f') (len bytes)) as [He|]; [|done].
    simpl in H1. injection H1 as ->. case_bool_decide.
    + apply MessageFrame_try_new_as_v1_Ok in Hf as (m & post & Hv & Hwf & -> & Hend & ->); [|done].
      simpl in He. assert (post = []) as -> by (apply len_0_nil; len_lia).
      exists m. rewrite app_nil_r in *. done.
    + apply MessageFrame_try_new_as_legacy_or_v0_Ok in Hf
        as (pre & m & post & -> & ->%len_0_nil & Hv & Hwf & Hend & ->);
        [|done|split; [done|apply len_nonneg]].
      simpl in He. assert (post = []) as -> by (apply len_0_nil; len_lia).
      exists m. rewrite app_nil_r in *. done.
  - intros (m & Hwf & -> & Hend & ->).
    pose proof (encode_message_first m [] _ Hwf) as Hfirst. rewrite app_nil_r in Hfirst.
    assert (forall r, r = Ok (message_frame 0 m) ->
      obind r (fun f => obind (err_if (negb (mf_end_offset f =? len (native_message m))) ParseError)
        (fun _ => Ok f)) = Ok (message_frame 0 m)) as Hk.
    { intros r ->. simpl. by rewrite Z.add_0_l, Z.eqb_refl. }
    apply Hk. case_bool_decide as Hd.
    + apply MessageFrame_try_new_as_v1_Ok; [done|]. exists m, []. rewrite app_nil_r.
      by apply Hfirst in Hd.
    + apply MessageFrame_try_new_as_legacy_or_v0_Ok; [done|split; [done|apply len_nonneg]|].
      exists [], m, []. rewrite app_nil_r. split_and!; try done. by rewrite <- Hfirst.
Qed.

Lemma MessageFrame_try_new_returns bytes :
  slice_ok bytes -> returns (MessageFrame_try_new bytes).
Proof.
  intros Hb. unfold MessageFrame_try_new. pose proof (MessageFrame_try_new_as_v1_returns _ Hb).
  pose proof (MessageFrame_try_new_as_legacy_or_v0_returns bytes 0 Hb
    (conj (Z.le_refl 0) (len_nonneg bytes))).
  case_bool_decide; [destruct (MessageFrame_try_new_as_v1 _)|
    destruct (MessageFrame_try_new_as_legacy_or_v0 _ _)]; try done;
    simpl; unfold err_if; by destruct (negb _).
Qed.
End Parsing.

(** ** Accessors of a framed message *)

Section Accessors.
  Context `{Target} (bytes : list byte) (off rest : Z) (m : Message).
  Hypothesis Hb : slice_ok bytes.
  Hypothesis Hat : bytes_at bytes off (native_message m).
  Hypothesis Hwf : wf_message rest m.
  Hypothesis Hend : off + len (native_message m) <= 65535.
Let f := message_frame off m.

Lemma account_keys_wf : Forall wf_key (msg_account_keys m).
Proof.
  destruct Hwf as (_ & _ & Hbody). unfold wf_message_body, wf_static_keys in Hbody.
  by destruct (msg_version m); destruct_and?.
Qed.

Lemma account_keys_bound : len (msg_account_keys m) < 256.
Proof.
  destruct Hwf as (_ & _ & Hbody). unfold wf_message_body, wf_static_keys in Hbody.
  destruct (msg_version m); destruct_and?; lia.
Qed.

(** Where the parts of the message are in the buffer. *)
Lemma message_layout :
  bytes_at bytes (off + keys_position m) (concat (msg_account_keys m)) /\
  bytes_at bytes (off + blockhash_position m) (msg_recent_blockhash m) /\
  match msg_version m with
  | Legacy => bytes_at bytes (off + instructions_position m) (encode_instructions (msg_instructions m))
  | V0 =>
      bytes_at bytes (off + instructions_position m) (encode_instructions (msg_instructions m)) /\
      bytes_at bytes (off + atls_position m) (encode_atls (msg_address_table_lookups m))
  | V1 =>
      bytes_at bytes (off + instructions_position m)
        (encode_v1_instructions (msg_instructions m)) /\
      bytes_at bytes (off + values_position m) (encode_config_values (msg_config m))
  end.
Proof.
  pose proof (len_concat _ _ account_keys_wf) as Hlk. change size_of_Pubkey with 32 in Hlk.
  destruct Hwf as (_ & Hbh & _). change size_of_Hash with 32 in Hbh.
  destruct m as [v h keys bh ixs atls cfg]. msg_unfold. unfold encode_keys in Hat.
  assert (forall o o' c, bytes_at bytes o c -> o = o' -> bytes_at bytes o' c) as Hmove
    by by intros ??? ? <-.
  destruct v; rewrite !bytes_at_app, ?(bytes_at_cons _ _ (byte_of_Z (len keys))) in Hat;
    destruct_and?; split_and!; (eapply Hmove; [eassumption|len_lia]).
Qed.

Lemma off_nonneg : 0 <= off.
Proof. apply (bytes_at_bounds _ _ _ Hat). Qed.

(** A position of the message fits the [u16] that stores it. *)
Lemma cast_position o c : bytes_at bytes o c -> o <= off + len (native_message m) -> cast U16 o = o.
Proof. intros [Ho _]%bytes_at_bounds ?. apply cast_small. uints. lia. Qed.

Lemma positions_bound :
  keys_position m <= len (native_message m) /\
  values_position m <= len (native_message m) /\
  (msg_version m <> V1 -> instructions_position m + len (encode_short (len (msg_instructions m))) <=
     len (native_message m)) /\
  (msg_version m = V1 -> instructions_position m + 4 * len (msg_instructions m) <=
     len (native_message m)) /\
  (msg_version m = V0 -> atls_position m + 1 <= len (native_message m)).
Proof.
  pose proof (len_concat _ _ account_keys_wf) as Hlk. change size_of_Pubkey with 32 in Hlk.
  destruct Hwf as (_ & Hbh & _). change size_of_Hash with 32 in Hbh.
  destruct m as [v h keys bh ixs atls cfg]. msg_unfold.
  unfold encode_keys, encode_instructions, encode_atls, encode_v1_instructions in *.
  pose proof (len_encode_v1_headers (map v1_header ixs)) as Hv1. rewrite map_map in Hv1.
  destruct v; split_and!; try done; intros; len_lia.
Qed.

Lemma lookups_only_v0 : msg_version m <> V0 -> msg_address_table_lookups m = [].
Proof.
  destruct Hwf as (_ & _ & Hbody). unfold wf_message_body in Hbody.
  by destruct (msg_version m); destruct_and?.
Qed.

Lemma MessageFrame_static_account_keys_Ok :
  MessageFrame_static_account_keys f bytes = Ok (msg_account_keys m).
Proof.
  destruct message_layout as (Hk & _). pose proof (len_concat _ _ account_keys_wf) as Hlk.
  assert (cast U16 (off + keys_position m) = off + keys_position m) as Hc.
  { eapply cast_position; [done|]. destruct positions_bound as [? _]. lia. }
  unfold MessageFrame_static_account_keys. cbn [f message_frame mf_static_account_keys
    sk_num_static_accounts sk_offset]. rewrite Hc, (raw_read_at _ _ _ _ Hk) by lia.
  unfold omap, obind. rewrite chunks_array; [done|done|apply account_keys_wf].
Qed.

Lemma MessageFrame_recent_blockhash_Ok :
  MessageFrame_recent_blockhash f bytes = Ok (msg_recent_blockhash m).
Proof.
  destruct message_layout as (_ & Hbh & _). apply (raw_read_at _ _ _ _ Hbh).
  symmetry. apply Hwf.
Qed.

Lemma MessageFrame_data_Ok :
  index_range (E := TransactionViewError) bytes (MessageFrame_message_range f).1
    (MessageFrame_message_range f).2 = Ok (native_message m).
Proof.
  pose proof off_nonneg. destruct Hat as (pre & post & Hbytes & Hpre).
  simpl. pose proof (len_nonneg (native_message m)).
  rewrite cast_small by (uints; lia). rewrite Hbytes.
  apply index_range_Ok; lia.
Qed.

Lemma MessageFrame_instructions_iter_yields :
  yields_exact (MessageFrame_instructions_iter f bytes) (msg_instructions m).
Proof.
  pose proof off_nonneg. pose proof (len_nonneg (msg_instructions m)).
  destruct positions_bound as (_ & _ & P2 & P3 & _).
  destruct message_layout as (_ & _ & Hl). destruct Hwf as (_ & _ & Hbody).
  unfold wf_message_body in Hbody. unfold f, MessageFrame_instructions_iter, message_frame.
  cbn [mf_instructions]. destruct (msg_version m) eqn:Hv.
  1,2: assert (wf_instructions (msg_instructions m)) as [Hn Hi] by by destruct_and?.
  1,2: assert (bytes_at bytes (off + instructions_position m)
    (encode_instructions (msg_instructions m))) as [_ Hix]%bytes_at_app by by destruct_and?.
  1,2: specialize (P2 ltac:(done)); pose proof (bytes_at_bounds _ _ _ Hix);
    unfold short_len in Hn; split; simpl; [|unfold wrapping_sub; rewrite Z.sub_0_r; by nowrap];
    rewrite cast_small by (uints; lia);
    eapply (LegacyAndV0Iterator_yields _ _ []); try done; [by autorewrite with len|lia].
  destruct Hl as [[Hh Hp]%bytes_at_app _]. destruct Hbody as (_ & _ & Hn & Hi & _).
  pose proof (len_encode_v1_headers (map v1_header (msg_instructions m))) as Hv1.
  rewrite map_map, len_map in Hv1. specialize (P3 eq_refl).
  pose proof (bytes_at_bounds _ _ _ Hh). pose proof (bytes_at_bounds _ _ _ Hp).
  split; simpl; [|unfold wrapping_sub; rewrite Z.sub_0_r; by nowrap].
  rewrite !cast_small by (uints; lia). rewrite Hv1 in Hp.
  by apply V1Iterator_yields.
Qed.

Lemma MessageFrame_address_table_lookup_iter_yields :
  yields_exact (MessageFrame_address_table_lookup_iter f bytes) (msg_address_table_lookups m).
Proof.
  pose proof off_nonneg. pose proof (len_nonneg (msg_address_table_lookups m)).
  destruct positions_bound as (_ & _ & _ & _ & P4).
  destruct message_layout as (_ & _ & Hl). destruct Hwf as (_ & _ & Hbody).
  unfold wf_message_body in Hbody.
  unfold f, MessageFrame_address_table_lookup_iter, message_frame. cbn [mf_address_table_lookup].
  destruct (decide (msg_version m = V0)) as [Hv|Hv].
  2: { rewrite lookups_only_v0 by done. destruct (msg_version m); [|done|];
       (split; [by eapply yields_nil|done]). }
  rewrite Hv in *.
  destruct Hl as [_ (_ & _ & Ha)%bytes_at_cons]. destruct Hbody as (_ & _ & (Hn & Hwfa & _) & _).
  specialize (P4 eq_refl). pose proof (bytes_at_bounds _ _ _ Ha).
  split; simpl; [|unfold AddressTableLookupIterator_len; simpl; by nowrap; rewrite Z.sub_0_r].
  rewrite cast_small by (uints; lia). apply AddressTableLookupIterator_yields; (done || lia).
Qed.
End Accessors.
