(* ===== verification/TransactionFrame.v ===== *)
(** * transaction_frame.rs: framing of a transaction, its signatures and message

    [Transaction] is the abstract content of a serialized transaction,
    [encode_transaction] its serialization and [native_transaction] what the parser of a
    target reads as the transaction (see [native_message]).  The parsers accept exactly
    the [native_transaction]s of well-formed transactions. *)

From stdpp Require Import base list numbers.
From Stdlib Require Import ZArith Lia Strings.Byte.
From S2P Require Import Prelude Cursor RustIterator Bytes SignatureFrame MessageHeaderFrame.
From S2P Require Import StaticAccountKeysFrame AddressTableLookupFrame InstructionsFrame.
From S2P Require Import TransactionConfigView MessageFrame Message.
Local Open Scope Z_scope.
Local Open Scope rust_scope.

Record TransactionFrame := {
  tf_signature : SignatureFrame;
  tf_message : MessageFrame;
  tf_data_len : Z }.

Definition TransactionFrame_try_new_as_legacy_or_v0 (bytes : list byte) :
    Result TransactionFrame :=
  let (r, offset) := SignatureFrame_try_new bytes 0 in
  let? signature := r in
  let? message := MessageFrame_try_new_as_legacy_or_v0 bytes offset in
  Ok {| tf_signature := signature;
        tf_message := message;
        tf_data_len := MessageFrame_end_offset message |}.

Definition is_legacy_or_v0 (bytes : list byte) : Result bool :=
  let? first_byte := ok_or (Z_of_byte <$> get bytes 0) ParseError in
  Ok (Z.land first_byte MESSAGE_VERSION_PREFIX =? 0).

Section Target.
  Context `{Target}.

Definition TransactionFrame_try_new_as_v1 (bytes : list byte) : Result TransactionFrame :=
  let? message := MessageFrame_try_new_as_v1 bytes in
  let num_signatures := MessageFrame_num_required_signatures message in
  let (r, offset) := advance_offset_for_array size_of_Signature num_signatures bytes
                       (MessageFrame_end_offset message) in
  let? _ := r in
  let? data_len := checked_offset offset in
  Ok {| tf_signature := {| sf_num_signatures := num_signatures;
                           sf_offset := MessageFrame_end_offset message |};
        tf_message := message;
        tf_data_len := data_len |}.

Definition TransactionFrame_try_new_from_prefix (bytes : list byte) : Result TransactionFrame :=
  let? legacy_or_v0 := is_legacy_or_v0 bytes in
  if (legacy_or_v0 : bool) then TransactionFrame_try_new_as_legacy_or_v0 bytes
  else TransactionFrame_try_new_as_v1 bytes.

Definition TransactionFrame_try_new (bytes : list byte) : Result TransactionFrame :=
  let? transaction_frame := TransactionFrame_try_new_from_prefix bytes in
  let? _ := err_if (negb (tf_data_len transaction_frame =? len bytes)) ParseError in
  Ok transaction_frame.
End Target.

(** ** Wire format *)

Record Transaction := {
  tx_signatures : list (list byte);
  tx_message : Message }.

(** The signatures come first in legacy and v0 transactions, last in v1. *)
Definition wf_transaction (rest : Z) (t : Transaction) : Prop :=
  wf_message rest (tx_message t) /\
  match msg_version (tx_message t) with
  | Legacy | V0 => wf_signatures (tx_signatures t)
  | V1 =>
      len (tx_signatures t) = num_required_signatures (msg_header (tx_message t)) /\
      Forall (fun s => len s = size_of_Signature) (tx_signatures t)
  end.

(** The documented serialization. *)
Definition encode_transaction (t : Transaction) : list byte :=
  match msg_version (tx_message t) with
  | Legacy | V0 => encode_signatures (tx_signatures t) ++ encode_message (tx_message t)
  | V1 => encode_message (tx_message t) ++ concat (tx_signatures t)
  end.

Section Wire.
  Context `{Target}.

(** What a target reads as the transaction. *)
Definition native_transaction (t : Transaction) : list byte :=
  match msg_version (tx_message t) with
  | Legacy | V0 => encode_signatures (tx_signatures t) ++ native_message (tx_message t)
  | V1 => native_message (tx_message t) ++ concat (tx_signatures t)
  end.

Definition message_position (t : Transaction) : Z :=
  match msg_version (tx_message t) with
  | Legacy | V0 => 1 + 64 * len (tx_signatures t)
  | V1 => 0
  end.

Definition signatures_position (t : Transaction) : Z :=
  match msg_version (tx_message t) with
  | Legacy | V0 => 1
  | V1 => len (native_message (tx_message t))
  end.

Definition transaction_frame (t : Transaction) : TransactionFrame :=
  {| tf_signature := {| sf_num_signatures := len (tx_signatures t);
                        sf_offset := signatures_position t |};
     tf_message := message_frame (message_position t) (tx_message t);
     tf_data_len := len (native_transaction t) |}.

End Wire.

Lemma native_transaction_documented `{Target} t :
  mask_is_read (tx_message t) -> native_transaction t = encode_transaction t.
Proof.
  intros Hm. unfold native_transaction, encode_transaction. by rewrite native_message_documented.
Qed.

Lemma len_native_transaction `{Target} t : len (native_transaction t) = len (encode_transaction t).
Proof.
  unfold native_transaction, encode_transaction.
  destruct (msg_version (tx_message t)); by rewrite !len_app, len_native_message.
Qed.

Ltac tx_unfold :=
  unfold transaction_frame, wf_transaction, signatures_position, message_position,
    native_transaction in *; cbn [tx_message tx_signatures] in *.

Section Parsing.
  Context `{Target}.

(** A transaction at the front of a buffer. *)
Definition prefix_parse (bytes : list byte) (f : TransactionFrame) : Prop :=
  exists t post, wf_transaction (len post) t /\ bytes = native_transaction t ++ post /\
    len (native_transaction t) <= 65535 /\ f = transaction_frame t.

Lemma len_encode_signatures sigs :
  Forall (fun s => len s = size_of_Signature) sigs ->
  len (encode_signatures sigs) = 1 + 64 * len sigs.
Proof. intros Hs%len_concat. unfold encode_signatures. by rewrite len_cons, Hs. Qed.

(** ** Legacy and v0 *)

Lemma try_new_as_legacy_or_v0_returns bytes :
  slice_ok bytes -> returns (TransactionFrame_try_new_as_legacy_or_v0 bytes).
Proof.
  intros Hb. unfold TransactionFrame_try_new_as_legacy_or_v0.
  pose proof (parses_sound _ _ parses_SignatureFrame_try_new bytes 0 Hb
    (conj (Z.le_refl 0) (len_nonneg bytes))) as Hs. unfold wp in Hs.
  destruct (SignatureFrame_try_new bytes 0) as [[] off]; simpl; try done.
  destruct Hs as (pre & c & post & -> & Hpre & -> & _).
  pose proof (MessageFrame_try_new_as_legacy_or_v0_returns _ (0 + len c) Hb ltac:(len_lia)) as Hr.
  by destruct (MessageFrame_try_new_as_legacy_or_v0 _ _).
Qed.

Lemma try_new_as_legacy_or_v0_Ok bytes f :
  slice_ok bytes ->
  TransactionFrame_try_new_as_legacy_or_v0 bytes = Ok f <->
  exists t post, msg_version (tx_message t) <> V1 /\ wf_transaction (len post) t /\
    bytes = native_transaction t ++ post /\ len (native_transaction t) <= 65535 /\
    f = transaction_frame t.
Proof.
  intros Hb. unfold TransactionFrame_try_new_as_legacy_or_v0. split.
  - destruct (SignatureFrame_try_new bytes 0) as [[sf| | | |] off] eqn:Hsf; simpl; try done.
    apply (parses_Ok _ _ _ _ _ _ parses_SignatureFrame_try_new Hb
      (conj (Z.le_refl 0) (len_nonneg bytes))) in Hsf
      as (pre & c & post & -> & ->%len_0_nil & -> & (sigs & Hsigs & -> & ->)).
    pose proof (len_encode_signatures _ (proj2 Hsigs)) as Hls. rewrite app_nil_l in *.
    destruct (MessageFrame_try_new_as_legacy_or_v0 _ _) as [mf| | | |] eqn:Hmf; simpl; try done.
    apply MessageFrame_try_new_as_legacy_or_v0_Ok in Hmf
      as (pre & m & post' & Heq & Hpre & Hv & Hwf & Hend & ->); [|done|len_lia].
    apply app_inj_1 in Heq as [<- ->]; [|unfold len in *; lia].
    intros [= <-]. exists {| tx_signatures := sigs; tx_message := m |}, post'.
    tx_unfold.
    destruct (msg_version m) eqn:Hvm; [| |done].
    all: split_and!; [done..|by rewrite <- app_assoc|len_lia|]; rewrite len_app;
      rewrite Z.add_0_l, Hls; done.
  - intros ([sigs m] & post & Hv & (Hwf & Hsigs) & -> & Hend & ->).
    tx_unfold.
    assert (wf_signatures sigs) as Hs by by destruct (msg_version m).
    pose proof (len_encode_signatures _ (proj2 Hs)) as Hls.
    assert (match msg_version m with Legacy | V0 => encode_signatures sigs ++ native_message m
      | V1 => native_message m ++ concat sigs end = encode_signatures sigs ++ native_message m)
      as Heq by by destruct (msg_version m).
    rewrite Heq in *. rewrite <- app_assoc in *.
    pose proof (parses_complete _ _ parses_SignatureFrame_try_new [] (encode_signatures sigs)
      (native_message m ++ post)) as Hp. rewrite !app_nil_l in Hp. change (len []) with 0 in Hp.
    erewrite Hp; [|done|by exists sigs]. cbn [obind].
    rewrite (proj2 (MessageFrame_try_new_as_legacy_or_v0_Ok _ (0 + len (encode_signatures sigs))
      (message_frame (len (encode_signatures sigs)) m) Hb ltac:(len_lia))).
    + cbn [obind]. unfold MessageFrame_end_offset. cbn [message_frame mf_end_offset].
      rewrite len_app, Hls. by destruct (msg_version m).
    + exists (encode_signatures sigs), m, post. split_and!; [done..|len_lia|done].
Qed.

(** ** v1 *)

Lemma try_new_as_v1_Ok bytes f :
  slice_ok bytes ->
  TransactionFrame_try_new_as_v1 bytes = Ok f <->
  exists t post, msg_version (tx_message t) = V1 /\ wf_transaction (len post) t /\
    bytes = native_transaction t ++ post /\ len (native_transaction t) <= 65535 /\
    f = transaction_frame t.
Proof.
  intros Hb. unfold TransactionFrame_try_new_as_v1. split.
  - destruct (MessageFrame_try_new_as_v1 bytes) as [mf| | | |] eqn:Hmf; simpl; try done.
    apply MessageFrame_try_new_as_v1_Ok in Hmf as (m & post & Hv & Hwf & -> & Hend & ->); [|done].
    change (MessageFrame_num_required_signatures (message_frame 0 m))
      with (num_required_signatures (msg_header m)).
    change (MessageFrame_end_offset (message_frame 0 m)) with (0 + len (native_message m)).
    rewrite Z.add_0_l. destruct Hwf as ((Hn & Hh) & Hwf').
    destruct (advance_offset_for_array _ _ _ _) as [r off'] eqn:Ha. intros Hf.
    destruct r as [u| | | |]; simpl in Hf; try done.
    apply (parses_Ok _ _ _ (len (native_message m)) _ _ (parses_advance_offset_for_array size_of_Signature
      (num_required_signatures (msg_header m)) ltac:(done) ltac:(uints; lia)) Hb ltac:(len_lia)) in Ha
      as (pre & c & post' & Heq & Hpre & -> & Hc & _).
    apply app_inj_1 in Heq as [<- ->]; [|unfold len in *; lia].
    destruct (split_array _ _ _ Hc) as (sigs & -> & Hns & Hsigs); [uints; lia|done|].
    unfold checked_offset in Hf. destruct (try_from U16 _) as [dl|] eqn:Ht; simpl in Hf; [|done].
    apply try_from_Some in Ht as [-> Ht]. cbn [modulus] in Ht. injection Hf as <-.
    exists {| tx_signatures := sigs; tx_message := m |}, post'. tx_unfold. rewrite Hv.
    split_and!; [done| |done|done|by rewrite <- app_assoc|len_lia|by rewrite len_app, Hns].
    unfold wf_message, wf_message_body in *. rewrite Hv in *. done.
  - intros ([sigs m] & post & Hv & (Hwf & Hsigs) & -> & Hend & ->). tx_unfold. rewrite Hv in *.
    destruct Hsigs as [Hns Hsigs]. pose proof (len_concat _ _ Hsigs) as Hls.
    rewrite <- app_assoc in *. assert (in_width U8 (len sigs)) as Hn8 by (rewrite Hns; apply Hwf).
    rewrite (proj2 (MessageFrame_try_new_as_v1_Ok _ (message_frame 0 m) Hb)).
    2: { exists m, (concat sigs ++ post). split_and!; [done| |done|len_lia|done].
         unfold wf_message, wf_message_body in *. by rewrite Hv in *. }
    cbn [obind]. change (MessageFrame_num_required_signatures (message_frame 0 m))
      with (num_required_signatures (msg_header m)).
    change (MessageFrame_end_offset (message_frame 0 m)) with (0 + len (native_message m)).
    rewrite Z.add_0_l, <- Hns.
    rewrite (parses_complete _ _ (parses_advance_offset_for_array size_of_Signature (len sigs)
      ltac:(done) ltac:(uints; lia)) (native_message m) (concat sigs) post tt);
      [|done|split; [lia|done]].
    cbn [obind]. rewrite <- len_app. unfold checked_offset, try_from. cbn [modulus].
    by zcase; [|lia].
Qed.

Lemma try_new_as_v1_returns bytes :
  slice_ok bytes -> returns (TransactionFrame_try_new_as_v1 bytes).
Proof.
  intros Hb. unfold TransactionFrame_try_new_as_v1.
  pose proof (MessageFrame_try_new_as_v1_returns _ Hb) as Hr.
  destruct (MessageFrame_try_new_as_v1 bytes) as [mf| | | |] eqn:Hmf; simpl; try done.
  apply MessageFrame_try_new_as_v1_Ok in Hmf as (m & post & Hv & Hwf & -> & Hend & ->); [|done].
  destruct Hwf as ((Hn & _) & _).
  pose proof (parses_sound _ _ (parses_advance_offset_for_array size_of_Signature
    (num_required_signatures (msg_header m)) ltac:(done) ltac:(uints; lia)) _
    (0 + len (native_message m)) Hb ltac:(len_lia)) as Hp.
  apply wp_returns in Hp.
  change (MessageFrame_num_required_signatures (message_frame 0 m))
    with (num_required_signatures (msg_header m)).
  change (MessageFrame_end_offset (message_frame 0 m)) with (0 + len (native_message m)).
  destruct (advance_offset_for_array _ _ _ _) as [[] off']; simpl in *; try done.
  unfold checked_offset. by destruct (try_from _ _).
Qed.

(** ** Whole transactions *)

(** The first byte tells v1 transactions from the others. *)
Lemma is_legacy_or_v0_encode t rest post :
  wf_transaction rest t ->
  is_legacy_or_v0 (native_transaction t ++ post) = Ok (bool_decide (msg_version (tx_message t) <> V1)).
Proof.
  intros [Hwf Hs]. unfold is_legacy_or_v0. destruct t as [sigs m]. tx_unfold.
  assert (wf_signatures sigs -> forall post,
    obind (ok_or (Z_of_byte <$> get ((encode_signatures sigs ++ native_message m) ++ post) 0) ParseError)
      (fun b => Ok (Z.land b MESSAGE_VERSION_PREFIX =? 0)) = Ok true) as Hsigs.
  { intros [Hn _] p. unfold encode_signatures. rewrite <- !app_comm_cons, get_cons_0. simpl.
    rewrite Z_of_byte_of_Z by lia. unfold MESSAGE_VERSION_PREFIX. rewrite land_80 by lia.
    by zcase; [|lia]. }
  destruct (msg_version m) eqn:Hv; [by apply Hsigs..|].
  rewrite <- app_assoc. pose proof (proj2 (encode_message_first m (concat sigs ++ post) rest Hwf) Hv)
    as ->. done.
Qed.

Lemma TransactionFrame_try_new_from_prefix_Ok bytes f :
  slice_ok bytes -> TransactionFrame_try_new_from_prefix bytes = Ok f <-> prefix_parse bytes f.
Proof.
  intros Hb. unfold TransactionFrame_try_new_from_prefix. split.
  - destruct (is_legacy_or_v0 bytes) as [[]| | | |]; simpl; try done; intros Hf.
    + apply try_new_as_legacy_or_v0_Ok in Hf as (t & post & _ & Hr); [|done]. by exists t, post.
    + apply try_new_as_v1_Ok in Hf as (t & post & _ & Hr); [|done]. by exists t, post.
  - intros (t & post & Hwf & -> & Hend & ->). rewrite (is_legacy_or_v0_encode _ _ _ Hwf). simpl.
    case_bool_decide as Hv.
    + apply try_new_as_legacy_or_v0_Ok; [done|]. by exists t, post.
    + apply try_new_as_v1_Ok; [done|]. exists t, post. split; [|done].
      destruct (decide (msg_version (tx_message t) = V1)) as [He|He]; [done|]. by destruct Hv.
Qed.

Lemma TransactionFrame_try_new_Ok bytes f :
  slice_ok bytes ->
  TransactionFrame_try_new bytes = Ok f <->
  exists t, wf_transaction 0 t /\ bytes = native_transaction t /\ len bytes <= 65535 /\
    f = transaction_frame t.
Proof.
  intros Hb. unfold TransactionFrame_try_new. split.
  - destruct (TransactionFrame_try_new_from_prefix bytes) as [f'| | | |] eqn:Hf; simpl; try done.
    apply TransactionFrame_try_new_from_prefix_Ok in Hf as (t & post & Hwf & -> & Hend & ->); [|done].
    unfold err_if. simpl. destruct (Z.eqb_spec (len (native_transaction t))
      (len (native_transaction t ++ post))) as [He|]; simpl; [|done]. intros [= <-].
    assert (post = []) as -> by (apply len_0_nil; len_lia). exists t. by rewrite app_nil_r in *.
  - intros (t & Hwf & -> & Hend & ->).
    rewrite (proj2 (TransactionFrame_try_new_from_prefix_Ok _ (transaction_frame t) Hb)).
    + simpl. by rewrite Z.eqb_refl.
    + exists t, []. by rewrite app_nil_r.
Qed.

Lemma TransactionFrame_try_new_from_prefix_returns bytes :
  slice_ok bytes -> returns (TransactionFrame_try_new_from_prefix bytes).
Proof.
  intros Hb. unfold TransactionFrame_try_new_from_prefix, is_legacy_or_v0.
  destruct (get bytes 0); simpl; [|done]. destruct (_ =? _).
  - by apply try_new_as_legacy_or_v0_returns.
  - by apply try_new_as_v1_returns.
Qed.

Lemma TransactionFrame_try_new_returns bytes :
  slice_ok bytes -> returns (TransactionFrame_try_new bytes).
Proof.
  intros Hb%TransactionFrame_try_new_from_prefix_returns. unfold TransactionFrame_try_new.
  destruct (TransactionFrame_try_new_from_prefix bytes); simpl; try done.
  unfold err_if. by destruct (negb _).
Qed.
End Parsing.
