(* ===== verification/Views.v ===== *)
(** * message_view.rs and transaction_view.rs: views of serialized messages and transactions

    The view types, and the accessors that read the buffer through the frame. *)

From stdpp Require Import base list numbers.
From Stdlib Require Import ZArith Lia Strings.Byte.
From S2P Require Import Prelude Cursor RustIterator Bytes SignatureFrame MessageHeaderFrame.
From S2P Require Import StaticAccountKeysFrame AddressTableLookupFrame InstructionsFrame.
From S2P Require Import TransactionConfigView MessageFrame Message TransactionFrame.
Local Open Scope Z_scope.
Local Open Scope rust_scope.

(** [AsRef<[u8]>] and [AsMut<[u8]>]: a container of the serialized bytes.
    [with_mut bs d] is [d] after [bs] has been written through [d.as_mut()],
    which cannot change the length. *)
Class AsRef (D : Type) := as_ref : D -> list byte.
Class AsMut (D : Type) `{AsRef D} := {
  with_mut : list byte -> D -> D;
  as_ref_with_mut bs d : len bs = len (as_ref d) -> as_ref (with_mut bs d) = bs }.

(** [Vec<u8>]. *)
#[global] Instance Vec_AsRef : AsRef (list byte) := id.
#[global, program] Instance Vec_AsMut : AsMut (list byte) := { with_mut bs _ := bs }.
Next Obligation. done. Qed.

(** The conversion into [solana_transaction::versioned::TransactionVersion]. *)
Inductive VersionedTransactionVersion := VersionLegacy | VersionNumber (n : Z).

Definition TransactionVersion_into (version : TransactionVersion) : VersionedTransactionVersion :=
  match version with
  | Legacy => VersionLegacy
  | V0 => VersionNumber 0
  | V1 => VersionNumber 1
  end.

(** ** The types *)

Record MessageView (SANITIZED : bool) (D : Type) := {
  mv_data : D;
  mv_message_frame : MessageFrame }.
Arguments mv_data {SANITIZED D} _.
Arguments mv_message_frame {SANITIZED D} _.

Record TransactionView (SANITIZED : bool) (D : Type) := {
  tv_data : D;
  tv_frame : TransactionFrame }.
Arguments tv_data {SANITIZED D} _.
Arguments tv_frame {SANITIZED D} _.

Record MessageViewRef (SANITIZED : bool) := {
  mr_data : list byte;
  mr_message_frame : MessageFrame }.
Arguments mr_data {SANITIZED} _.
Arguments mr_message_frame {SANITIZED} _.

(** ** TransactionView: what the message view is made of *)

Section TransactionViewData.
  Context {S : bool} `{AsRef D}.
  Implicit Type self : TransactionView S D.

Definition TransactionView_data self : Result (list byte) :=
  let data_length := tf_data_len (tv_frame self) in
  index_range (as_ref (tv_data self)) 0 data_length.

Definition TransactionView_message_frame self : MessageFrame := tf_message (tv_frame self).

Definition MessageViewRef_from_transaction_view self : Result (MessageViewRef S) :=
  let? data := TransactionView_data self in
  Ok {| mr_data := data; mr_message_frame := TransactionView_message_frame self |}.

Definition TransactionView_message self : Result (MessageViewRef S) :=
  MessageViewRef_from_transaction_view self.
End TransactionViewData.

Definition MessageView_message {S} `{AsRef D} (self : MessageView S D) :
    Result (MessageViewRef S) :=
  let? data := index_range (as_ref (mv_data self)) 0
                 (MessageFrame_end_offset (mv_message_frame self)) in
  Ok {| mr_data := data; mr_message_frame := mv_message_frame self |}.

(** ** MessageViewRef *)

Section MessageViewRef.
  Context {S : bool}.
  Implicit Type self : MessageViewRef S.

Definition MessageViewRef_version self := MessageFrame_version (mr_message_frame self).
Definition MessageViewRef_num_required_signatures self :=
  MessageFrame_num_required_signatures (mr_message_frame self).
Definition MessageViewRef_num_readonly_signed_static_accounts self :=
  MessageFrame_num_readonly_signed_static_accounts (mr_message_frame self).
Definition MessageViewRef_num_readonly_unsigned_static_accounts self :=
  MessageFrame_num_readonly_unsigned_static_accounts (mr_message_frame self).
Definition MessageViewRef_num_static_account_keys self :=
  MessageFrame_num_static_account_keys (mr_message_frame self).
Definition MessageViewRef_total_writable_lookup_accounts self :=
  MessageFrame_total_writable_lookup_accounts (mr_message_frame self).
Definition MessageViewRef_total_readonly_lookup_accounts self :=
  MessageFrame_total_readonly_lookup_accounts (mr_message_frame self).

Definition MessageViewRef_static_account_keys self : Result (list (list byte)) :=
  MessageFrame_static_account_keys (mr_message_frame self) (mr_data self).
Definition MessageViewRef_recent_blockhash self : Result (list byte) :=
  MessageFrame_recent_blockhash (mr_message_frame self) (mr_data self).
Definition MessageViewRef_instructions_iter self : InstructionsIterator :=
  MessageFrame_instructions_iter (mr_message_frame self) (mr_data self).
Definition MessageViewRef_address_table_lookup_iter self : AddressTableLookupIterator :=
  MessageFrame_address_table_lookup_iter (mr_message_frame self) (mr_data self).

Definition MessageViewRef_transaction_config self : option TransactionConfigView :=
  let transaction_config_frame :=
    MessageFrame_transaction_config_frame (mr_message_frame self) in
  if TransactionConfigFrame_is_present transaction_config_frame
  then Some {| cv_transaction_config_frame := transaction_config_frame;
               cv_bytes := mr_data self |}
  else None.

Definition MessageViewRef_data self : Result (list byte) :=
  let '(start, end_) := MessageFrame_message_range (mr_message_frame self) in
  index_range (mr_data self) start end_.
End MessageViewRef.

(** ** What relies on the sanitization checks *)

(** The mapped iterator of [program_instructions_iter]; indexing panics. *)
Record ProgramInstructionsIterator := {
  pi_static_account_keys : list (list byte);
  pi_instructions : InstructionsIterator }.

Definition ProgramInstructionsIterator_next `{Target} (self : ProgramInstructionsIterator) :
    Result (option (list byte * SVMInstruction)) * ProgramInstructionsIterator :=
  let (r, it) := InstructionsIterator_next (pi_instructions self) in
  let self' := {| pi_static_account_keys := pi_static_account_keys self;
                  pi_instructions := it |} in
  (let? item := r in
   match item with
   | None => Ok None
   | Some ix =>
       let? program_id := index (pi_static_account_keys self) (program_id_index ix) in
       Ok (Some (program_id, ix))
   end, self').

#[global] Instance ProgramInstructionsIterator_RustIterator `{Target} :
    RustIterator ProgramInstructionsIterator (list byte * SVMInstruction) := {
  next := ProgramInstructionsIterator_next;
  exact_len := fun self => InstructionsIterator_len (pi_instructions self) }.

Section SanitizedMessageViewRef.
  Implicit Type self : MessageViewRef true.

Definition MessageViewRef_program_instructions_iter self : Result ProgramInstructionsIterator :=
  let? static_account_keys := MessageViewRef_static_account_keys self in
  Ok {| pi_static_account_keys := static_account_keys;
        pi_instructions := MessageViewRef_instructions_iter self |}.

Definition MessageViewRef_num_static_unsigned_static_accounts self : Z :=
  wrapping_sub U8 (MessageViewRef_num_static_account_keys self)
    (MessageViewRef_num_required_signatures self).

Definition MessageViewRef_num_writable_unsigned_static_accounts self : Z :=
  wrapping_sub U8 (MessageViewRef_num_static_unsigned_static_accounts self)
    (MessageViewRef_num_readonly_unsigned_static_accounts self).

Definition MessageViewRef_num_writable_signed_static_accounts self : Z :=
  wrapping_sub U8 (MessageViewRef_num_required_signatures self)
    (MessageViewRef_num_readonly_signed_static_accounts self).

Definition MessageViewRef_total_num_accounts self : Z :=
  wrapping_add U16
    (wrapping_add U16 (MessageViewRef_num_static_account_keys self)
       (MessageViewRef_total_writable_lookup_accounts self))
    (MessageViewRef_total_readonly_lookup_accounts self).

Definition MessageViewRef_num_requested_write_locks self : Z :=
  wrapping_add U16
    (wrapping_sub U8
       (wrapping_sub U8 (MessageViewRef_num_static_account_keys self)
          (MessageViewRef_num_readonly_signed_static_accounts self))
       (MessageViewRef_num_readonly_unsigned_static_accounts self))
    (MessageViewRef_total_writable_lookup_accounts self).
End SanitizedMessageViewRef.

(** ** TransactionView *)

Section TransactionView.
  Context {S : bool} `{AsRef D}.
  Implicit Type self : TransactionView S D.

Definition TransactionView_num_signatures self : Z :=
  sf_num_signatures (tf_signature (tv_frame self)).
Definition TransactionView_version self := MessageFrame_version (tf_message (tv_frame self)).
Definition TransactionView_num_required_signatures self :=
  MessageFrame_num_required_signatures (tf_message (tv_frame self)).
Definition TransactionView_num_readonly_signed_static_accounts self :=
  MessageFrame_num_readonly_signed_static_accounts (tf_message (tv_frame self)).
Definition TransactionView_num_readonly_unsigned_static_accounts self :=
  MessageFrame_num_readonly_unsigned_static_accounts (tf_message (tv_frame self)).
Definition TransactionView_num_static_account_keys self :=
  MessageFrame_num_static_account_keys (tf_message (tv_frame self)).
Definition TransactionView_num_instructions self :=
  MessageFrame_num_instructions (tf_message (tv_frame self)).
Definition TransactionView_num_address_table_lookups self :=
  MessageFrame_num_address_table_lookups (tf_message (tv_frame self)).
Definition TransactionView_total_writable_lookup_accounts self :=
  MessageFrame_total_writable_lookup_accounts (tf_message (tv_frame self)).
Definition TransactionView_total_readonly_lookup_accounts self :=
  MessageFrame_total_readonly_lookup_accounts (tf_message (tv_frame self)).

Definition TransactionView_signatures self : Result (list (list byte)) :=
  let? data := TransactionView_data self in
  SignatureFrame_signatures (tf_signature (tv_frame self)) data.
Definition TransactionView_static_account_keys self : Result (list (list byte)) :=
  let? message := TransactionView_message self in MessageViewRef_static_account_keys message.
Definition TransactionView_recent_blockhash self : Result (list byte) :=
  let? message := TransactionView_message self in MessageViewRef_recent_blockhash message.
Definition TransactionView_instructions_iter self : Result InstructionsIterator :=
  omap MessageViewRef_instructions_iter (TransactionView_message self).
Definition TransactionView_address_table_lookup_iter self : Result AddressTableLookupIterator :=
  omap MessageViewRef_address_table_lookup_iter (TransactionView_message self).
Definition TransactionView_transaction_config self : Result (option TransactionConfigView) :=
  omap MessageViewRef_transaction_config (TransactionView_message self).
Definition TransactionView_message_data self : Result (list byte) :=
  let? message := TransactionView_message self in MessageViewRef_data message.
Definition TransactionView_inner_data self : D := tv_data self.
Definition TransactionView_into_inner_data self : D := tv_data self.

(** [self.data.as_mut()[offset..][..32].copy_from_slice(recent_blockhash)]: both
    ranges are checked, and the lengths agree. *)
Definition TransactionView_set_recent_blockhash `{!AsMut D} (recent_blockhash : list byte) self :
    Result (TransactionView S D) :=
  let offset := MessageFrame_recent_blockhash_offset (tf_message (tv_frame self)) in
  let bytes := as_ref (tv_data self) in
  let? tail := index_range bytes offset (len bytes) in
  let? _ := index_range tail 0 size_of_Hash in
  Ok {| tv_data := with_mut (subslice 0 offset bytes ++ recent_blockhash ++
                             subslice (offset + size_of_Hash) (len bytes) bytes) (tv_data self);
        tv_frame := tv_frame self |}.
End TransactionView.

Section SanitizedTransactionView.
  Context `{AsRef D}.
  Implicit Type self : TransactionView true D.

Definition TransactionView_program_instructions_iter self : Result ProgramInstructionsIterator :=
  let? message := TransactionView_message self in
  MessageViewRef_program_instructions_iter message.
Definition TransactionView_num_writable_unsigned_static_accounts self : Result Z :=
  omap MessageViewRef_num_writable_unsigned_static_accounts (TransactionView_message self).
Definition TransactionView_num_writable_signed_static_accounts self : Result Z :=
  omap MessageViewRef_num_writable_signed_static_accounts (TransactionView_message self).
Definition TransactionView_total_num_accounts self : Result Z :=
  omap MessageViewRef_total_num_accounts (TransactionView_message self).
Definition TransactionView_num_requested_write_locks self : Result Z :=
  omap MessageViewRef_num_requested_write_locks (TransactionView_message self).

(** [SVMStaticTransaction]. *)
Definition TransactionView_signature self : Result (list byte) :=
  let? signatures := TransactionView_signatures self in index signatures 0.
End SanitizedTransactionView.

(** ** MessageView *)

Section MessageView.
  Context {S : bool} `{AsRef D}.
  Implicit Type self : MessageView S D.

Definition MessageView_version self := MessageFrame_version (mv_message_frame self).
Definition MessageView_num_required_signatures self :=
  MessageFrame_num_required_signatures (mv_message_frame self).
Definition MessageView_num_readonly_signed_static_accounts self :=
  MessageFrame_num_readonly_signed_static_accounts (mv_message_frame self).
Definition MessageView_num_readonly_unsigned_static_accounts self :=
  MessageFrame_num_readonly_unsigned_static_accounts (mv_message_frame self).
Definition MessageView_num_static_account_keys self :=
  MessageFrame_num_static_account_keys (mv_message_frame self).
Definition MessageView_num_instructions self :=
  MessageFrame_num_instructions (mv_message_frame self).
Definition MessageView_num_address_table_lookups self :=
  MessageFrame_num_address_table_lookups (mv_message_frame self).
Definition MessageView_total_writable_lookup_accounts self :=
  MessageFrame_total_writable_lookup_accounts (mv_message_frame self).
Definition MessageView_total_readonly_lookup_accounts self :=
  MessageFrame_total_readonly_lookup_accounts (mv_message_frame self).

Definition MessageView_static_account_keys self : Result (list (list byte)) :=
  let? message := MessageView_message self in MessageViewRef_static_account_keys message.
Definition MessageView_recent_blockhash self : Result (list byte) :=
  let? message := MessageView_message self in MessageViewRef_recent_blockhash message.
Definition MessageView_instructions_iter self : Result InstructionsIterator :=
  omap MessageViewRef_instructions_iter (MessageView_message self).
Definition MessageView_address_table_lookup_iter self : Result AddressTableLookupIterator :=
  omap MessageViewRef_address_table_lookup_iter (MessageView_message self).
Definition MessageView_transaction_config self : Result (option TransactionConfigView) :=
  omap MessageViewRef_transaction_config (MessageView_message self).
Definition MessageView_data self : Result (list byte) :=
  let? message := MessageView_message self in MessageViewRef_data message.
Definition MessageView_inner_data self : D := mv_data self.
Definition MessageView_into_inner_data self : D := mv_data self.
End MessageView.

Section SanitizedMessageView.
  Context `{AsRef D}.
  Implicit Type self : MessageView true D.

Definition MessageView_program_instructions_iter self : Result ProgramInstructionsIterator :=
  let? message := MessageView_message self in
  MessageViewRef_program_instructions_iter message.
Definition MessageView_total_num_accounts self : Result Z :=
  omap MessageViewRef_total_num_accounts (MessageView_message self).
Definition MessageView_num_requested_write_locks self : Result Z :=
  omap MessageViewRef_num_requested_write_locks (MessageView_message self).
End SanitizedMessageView.

(** ** Reading everything *)

Section Reading.
  Context `{Target}.

(** All fields of the config. *)
Definition config_content (config : option TransactionConfigView) : Result TransactionConfig :=
  match config with
  | None => Ok empty_config
  | Some view =>
      let? fee := priority_fee_lamports view in
      let? limit := compute_unit_limit view in
      let? size := loaded_accounts_data_size_limit view in
      let? heap := requested_heap_size view in
      Ok {| cfg_priority_fee_lamports := fee; cfg_compute_unit_limit := limit;
            cfg_loaded_accounts_data_size_limit := size; cfg_requested_heap_size := heap |}
  end.

(** The content of a transaction or message, read with the accessors of its view. *)
Definition TransactionView_content {S} `{AsRef D} (self : TransactionView S D) : Result Transaction :=
  let? signatures := TransactionView_signatures self in
  let? keys := TransactionView_static_account_keys self in
  let? blockhash := TransactionView_recent_blockhash self in
  let? instructions_iter := TransactionView_instructions_iter self in
  let? instructions := collect instructions_iter in
  let? lookup_iter := TransactionView_address_table_lookup_iter self in
  let? lookups := collect lookup_iter in
  let? config_view := TransactionView_transaction_config self in
  let? config := config_content config_view in
  Ok {| tx_signatures := signatures;
        tx_message :=
          {| msg_version := TransactionView_version self;
             msg_header :=
               {| num_required_signatures := TransactionView_num_required_signatures self;
                  num_readonly_signed_accounts :=
                    TransactionView_num_readonly_signed_static_accounts self;
                  num_readonly_unsigned_accounts :=
                    TransactionView_num_readonly_unsigned_static_accounts self |};
             msg_account_keys := keys; msg_recent_blockhash := blockhash;
             msg_instructions := instructions; msg_address_table_lookups := lookups;
             msg_config := config |} |}.

Definition MessageView_content {S} `{AsRef D} (self : MessageView S D) : Result Message :=
  let? keys := MessageView_static_account_keys self in
  let? blockhash := MessageView_recent_blockhash self in
  let? instructions_iter := MessageView_instructions_iter self in
  let? instructions := collect instructions_iter in
  let? lookup_iter := MessageView_address_table_lookup_iter self in
  let? lookups := collect lookup_iter in
  let? config_view := MessageView_transaction_config self in
  let? config := config_content config_view in
  Ok {| msg_version := MessageView_version self;
        msg_header :=
          {| num_required_signatures := MessageView_num_required_signatures self;
             num_readonly_signed_accounts :=
               MessageView_num_readonly_signed_static_accounts self;
             num_readonly_unsigned_accounts :=
               MessageView_num_readonly_unsigned_static_accounts self |};
        msg_account_keys := keys; msg_recent_blockhash := blockhash;
        msg_instructions := instructions; msg_address_table_lookups := lookups;
        msg_config := config |}.
End Reading.

(** Every accessor of the view returns what it names of the transaction. *)
Record shows_transaction `{Target} {S} `{AsRef D} (v : TransactionView S D) (t : Transaction) : Prop := {
  st_content : TransactionView_content v = Ok t;
  st_num_signatures : TransactionView_num_signatures v = len (tx_signatures t);
  st_num_static_account_keys :
    TransactionView_num_static_account_keys v = len (msg_account_keys (tx_message t));
  st_num_instructions :
    TransactionView_num_instructions v = len (msg_instructions (tx_message t));
  st_num_address_table_lookups :
    TransactionView_num_address_table_lookups v = len (msg_address_table_lookups (tx_message t));
  st_total_writable : TransactionView_total_writable_lookup_accounts v =
    total_writable (msg_address_table_lookups (tx_message t));
  st_total_readonly : TransactionView_total_readonly_lookup_accounts v =
    total_readonly (msg_address_table_lookups (tx_message t));
  st_data : TransactionView_data v = Ok (encode_transaction t);
  st_message_data : TransactionView_message_data v = Ok (encode_message (tx_message t)) }.

Record shows_message `{Target} {S} `{AsRef D} (v : MessageView S D) (m : Message) : Prop := {
  sm_content : MessageView_content v = Ok m;
  sm_num_static_account_keys :
    MessageView_num_static_account_keys v = len (msg_account_keys m);
  sm_num_instructions : MessageView_num_instructions v = len (msg_instructions m);
  sm_num_address_table_lookups :
    MessageView_num_address_table_lookups v = len (msg_address_table_lookups m);
  sm_total_writable : MessageView_total_writable_lookup_accounts v =
    total_writable (msg_address_table_lookups m);
  sm_total_readonly : MessageView_total_readonly_lookup_accounts v =
    total_readonly (msg_address_table_lookups m);
  sm_data : MessageView_data v = Ok (encode_message m) }.

(** ** The content behind a view *)

Section Content.
  Context `{Target}.

(** [r] is a view of the message [m]. *)
Definition views_message {S} (r : MessageViewRef S) (m : Message) : Prop :=
  exists off rest, slice_ok (mr_data r) /\ bytes_at (mr_data r) off (native_message m) /\
    wf_message rest m /\ off + len (native_message m) <= 65535 /\
    mr_message_frame r = message_frame off m.

(** [v] is a view of the transaction [t], which [rest] bytes may follow. *)
Definition views_transaction {S} `{AsRef D} (v : TransactionView S D) (t : Transaction)
    (rest : list byte) : Prop :=
  slice_ok (as_ref (tv_data v)) /\ as_ref (tv_data v) = native_transaction t ++ rest /\
  wf_transaction (len rest) t /\ len (native_transaction t) <= 65535 /\
  tv_frame v = transaction_frame t.

(** [v] is a view of exactly the message [m]. *)
Definition views_whole_message {S} `{AsRef D} (v : MessageView S D) (m : Message) : Prop :=
  slice_ok (as_ref (mv_data v)) /\ as_ref (mv_data v) = native_message m /\
  wf_message 0 m /\ len (native_message m) <= 65535 /\ mv_message_frame v = message_frame 0 m.
End Content.

Section ContentLemmas.
  Context `{Target}.

(** Every accessor of a message view returns the part of the message it names. *)
Record accessors_return {S} (r : MessageViewRef S) (m : Message) : Prop := {
  ar_version : MessageViewRef_version r = msg_version m;
  ar_num_required_signatures :
    MessageViewRef_num_required_signatures r = num_required_signatures (msg_header m);
  ar_num_readonly_signed :
    MessageViewRef_num_readonly_signed_static_accounts r =
      num_readonly_signed_accounts (msg_header m);
  ar_num_readonly_unsigned :
    MessageViewRef_num_readonly_unsigned_static_accounts r =
      num_readonly_unsigned_accounts (msg_header m);
  ar_num_static_account_keys :
    MessageViewRef_num_static_account_keys r = len (msg_account_keys m);
  ar_total_writable :
    MessageViewRef_total_writable_lookup_accounts r = total_writable (msg_address_table_lookups m);
  ar_total_readonly :
    MessageViewRef_total_readonly_lookup_accounts r = total_readonly (msg_address_table_lookups m);
  ar_static_account_keys : MessageViewRef_static_account_keys r = Ok (msg_account_keys m);
  ar_recent_blockhash : MessageViewRef_recent_blockhash r = Ok (msg_recent_blockhash m);
  ar_instructions : yields_exact (MessageViewRef_instructions_iter r) (msg_instructions m);
  ar_address_table_lookups :
    yields_exact (MessageViewRef_address_table_lookup_iter r) (msg_address_table_lookups m);
  ar_data : MessageViewRef_data r = Ok (native_message m) }.

Lemma views_message_accessors {S} (r : MessageViewRef S) m :
  views_message r m -> accessors_return r m.
Proof.
  intros (off & rest & Hb & Hat & Hwf & Hend & Hf). destruct r as [data frame]. simpl in *. subst.
  assert (msg_version m <> V0 -> msg_address_table_lookups m = []) as Hno
    by (intros; by eapply lookups_only_v0).
  split; try done.
  - unfold MessageViewRef_total_writable_lookup_accounts,
      MessageFrame_total_writable_lookup_accounts. simpl.
    destruct (msg_version m); [|done|]; by rewrite Hno.
  - unfold MessageViewRef_total_readonly_lookup_accounts,
      MessageFrame_total_readonly_lookup_accounts. simpl.
    destruct (msg_version m); [|done|]; by rewrite Hno.
  - by eapply MessageFrame_static_account_keys_Ok.
  - by eapply MessageFrame_recent_blockhash_Ok.
  - by eapply MessageFrame_instructions_iter_yields.
  - by eapply MessageFrame_address_table_lookup_iter_yields.
  - by apply (MessageFrame_data_Ok _ _ _ Hat Hend).
Qed.

(** The config view of a v1 message returns its config; other messages have none. *)
Lemma views_message_config {S} (r : MessageViewRef S) m :
  views_message r m ->
  match MessageViewRef_transaction_config r with
  | None => msg_version m <> V1
  | Some view => msg_version m = V1 /\
      TransactionConfigView_mask view = config_mask (msg_config m) /\
      priority_fee_lamports view = Ok (cfg_priority_fee_lamports (msg_config m)) /\
      compute_unit_limit view = Ok (cfg_compute_unit_limit (msg_config m)) /\
      loaded_accounts_data_size_limit view = Ok (cfg_loaded_accounts_data_size_limit (msg_config m)) /\
      requested_heap_size view = Ok (cfg_requested_heap_size (msg_config m))
  end.
Proof.
  intros (off & rest & Hb & Hat & Hwf & Hend & Hf). unfold MessageViewRef_transaction_config.
  rewrite Hf. unfold MessageFrame_transaction_config_frame. cbn [message_frame
    mf_transaction_config_frame].
  destruct (msg_version m) eqn:Hv; [done..|].
  pose proof (off_nonneg _ _ _ Hat) as Ho. unfold TransactionConfigFrame_is_present.
  cbn [cf_mask_offset]. destruct (Z.eqb_spec (off + 4) 0); [lia|]. simpl negb. cbv iota.
  destruct (message_layout _ _ _ _ Hat Hwf Hend) as (_ & _ & Hl). rewrite Hv in Hl.
  destruct Hl as [_ Hl]. destruct (positions_bound _ _ _ _ Hat Hwf Hend) as (_ & Hval & _).
  assert (wf_config (msg_config m)) as Hcfg.
  { destruct Hwf as (_ & _ & Hbody). unfold wf_message_body in Hbody. rewrite Hv in Hbody.
    by destruct_and?. }
  split_and!; [done..| | | |].
  - apply priority_fee_lamports_Ok; simpl; (done || lia).
  - apply compute_unit_limit_Ok; simpl; (done || lia).
  - apply loaded_accounts_data_size_limit_Ok; simpl; (done || lia).
  - apply requested_heap_size_Ok; simpl; (done || lia).
Qed.

(** ** Views of a whole buffer give views of the message *)

Definition transaction_ref S (t : Transaction) : MessageViewRef S :=
  {| mr_data := native_transaction t;
     mr_message_frame := message_frame (message_position t) (tx_message t) |}.

Definition message_ref S (m : Message) : MessageViewRef S :=
  {| mr_data := native_message m; mr_message_frame := message_frame 0 m |}.

Lemma subslice_prefix {A} (l post : list A) j : j = len l -> subslice 0 j (l ++ post) = l.
Proof. intros ->. by apply (subslice_app [] l post). Qed.

Lemma index_range_prefix {E A} (l post : list A) j :
  j = len l -> index_range (E := E) (l ++ post) 0 j = Ok l.
Proof. intros ->. apply (index_range_Ok [] l post); done. Qed.

Lemma TransactionView_data_Ok {S} `{AsRef D} (v : TransactionView S D) t rest :
  views_transaction v t rest -> TransactionView_data v = Ok (native_transaction t).
Proof.
  intros (_ & Hd & _ & _ & Hf). unfold TransactionView_data. rewrite Hd, Hf.
  by apply index_range_prefix.
Qed.

Lemma TransactionView_message_Ok {S} `{AsRef D} (v : TransactionView S D) t rest :
  views_transaction v t rest -> TransactionView_message v = Ok (transaction_ref S t).
Proof.
  intros Hv. unfold TransactionView_message, MessageViewRef_from_transaction_view.
  rewrite (TransactionView_data_Ok _ _ _ Hv). destruct Hv as (_ & _ & _ & _ & Hf).
  unfold TransactionView_message_frame. by rewrite Hf.
Qed.

Lemma message_at t rest :
  wf_transaction rest t ->
  bytes_at (native_transaction t) (message_position t) (native_message (tx_message t)) /\
  bytes_at (native_transaction t) (signatures_position t) (concat (tx_signatures t)) /\
  Forall (fun s => len s = size_of_Signature) (tx_signatures t).
Proof.
  intros [Hwf Hs]. destruct t as [sigs m]. tx_unfold.
  assert (Forall (fun s => len s = size_of_Signature) sigs) as Hsigs.
  { destruct (msg_version m); [apply Hs..|]. by destruct Hs. }
  pose proof (len_encode_signatures _ Hsigs) as Hls. split_and!; [| |done].
  - destruct (msg_version m).
    1,2: exists (encode_signatures sigs), []; by rewrite app_nil_r.
    exists [], (concat sigs). done.
  - destruct (msg_version m).
    1,2: exists [byte_of_Z (len sigs)], (native_message m); done.
    exists (native_message m), []. by rewrite app_nil_r.
Qed.

Lemma views_transaction_ref {S} t rest :
  wf_transaction rest t -> len (native_transaction t) <= 65535 ->
  views_message (transaction_ref S t) (tx_message t).
Proof.
  intros Hwf Hend. destruct (message_at _ _ Hwf) as (Hm & _). pose proof (bytes_at_bounds _ _ _ Hm).
  exists (message_position t), rest. simpl. split_and!; [ulia|done|apply Hwf|lia|done].
Qed.

Lemma MessageView_message_Ok {S} `{AsRef D} (v : MessageView S D) m :
  views_whole_message v m -> MessageView_message v = Ok (message_ref S m).
Proof.
  intros (_ & Hd & _ & _ & Hf). unfold MessageView_message. rewrite Hd, Hf.
  rewrite <- (app_nil_r (native_message m)) at 1. by rewrite index_range_prefix.
Qed.

Lemma views_whole_message_ref {S} m :
  wf_message 0 m -> len (native_message m) <= 65535 -> views_message (message_ref S m) m.
Proof.
  intros Hwf Hend. exists 0, 0. simpl. split_and!; [ulia| |done|lia|done].
  exists [], []. by rewrite app_nil_r.
Qed.

Lemma TransactionView_signatures_Ok {S} `{AsRef D} (v : TransactionView S D) t rest :
  views_transaction v t rest -> TransactionView_signatures v = Ok (tx_signatures t).
Proof.
  intros Hv. unfold TransactionView_signatures. rewrite (TransactionView_data_Ok _ _ _ Hv). simpl.
  destruct Hv as (_ & _ & Hwf & _ & Hf). destruct (message_at _ _ Hwf) as (_ & Hs & Hsigs).
  rewrite Hf. by apply SignatureFrame_signatures_Ok.
Qed.

(** ** The accessors of a view read everything back *)

Lemma config_content_Ok {S} (r : MessageViewRef S) m :
  views_message r m -> config_content (MessageViewRef_transaction_config r) = Ok (msg_config m).
Proof.
  intros Hr. pose proof (views_message_config r m Hr) as Hc.
  destruct (MessageViewRef_transaction_config r) as [view|]; simpl.
  - destruct Hc as (_ & _ & -> & -> & -> & ->). by destruct (msg_config m).
  - destruct Hr as (? & ? & _ & _ & (_ & _ & Hb) & _). unfold wf_message_body in Hb.
    destruct (msg_version m); [..|done]; destruct_and?; congruence.
Qed.

(** The frame of a message has its counts. *)
Lemma message_frame_counts rest off m :
  wf_message rest m ->
  let f := message_frame off m in
  MessageFrame_num_instructions f = len (msg_instructions m) /\
  MessageFrame_num_address_table_lookups f = len (msg_address_table_lookups m) /\
  MessageFrame_total_writable_lookup_accounts f = total_writable (msg_address_table_lookups m) /\
  MessageFrame_total_readonly_lookup_accounts f = total_readonly (msg_address_table_lookups m).
Proof.
  intros Hwf f. unfold MessageFrame_num_instructions, MessageFrame_num_address_table_lookups,
    MessageFrame_total_writable_lookup_accounts, MessageFrame_total_readonly_lookup_accounts, f.
  simpl. pose proof (lookups_only_v0 _ _ Hwf) as Hno.
  destruct (msg_version m); split_and!; try done; by rewrite Hno.
Qed.

Lemma TransactionView_content_Ok {S} `{AsRef D} (v : TransactionView S D) t rest :
  views_transaction v t rest -> TransactionView_content v = Ok t.
Proof.
  intros Hv. pose proof (TransactionView_message_Ok _ _ _ Hv) as Hm.
  pose proof (TransactionView_signatures_Ok _ _ _ Hv) as Hs. destruct Hv as (_ & _ & Hwf & Hend & Hf).
  pose proof (views_transaction_ref (S := S) _ _ Hwf Hend) as Hr.
  pose proof (views_message_accessors _ _ Hr) as [V A B C _ _ _ K R I L _].
  unfold TransactionView_content, TransactionView_static_account_keys,
    TransactionView_recent_blockhash, TransactionView_instructions_iter,
    TransactionView_address_table_lookup_iter, TransactionView_transaction_config.
  rewrite Hs, Hm. simpl. rewrite K, R. simpl. rewrite (collect_exact _ _ I), (collect_exact _ _ L).
  simpl. rewrite (config_content_Ok _ _ Hr). simpl. unfold TransactionView_version,
    TransactionView_num_required_signatures, TransactionView_num_readonly_signed_static_accounts,
    TransactionView_num_readonly_unsigned_static_accounts. rewrite Hf. simpl.
  by destruct t as [sigs [? [] ? ? ? ? ?]].
Qed.

Lemma MessageView_content_Ok {S} `{AsRef D} (v : MessageView S D) m :
  views_whole_message v m -> MessageView_content v = Ok m.
Proof.
  intros Hv. pose proof (MessageView_message_Ok _ _ Hv) as Hm.
  destruct Hv as (_ & _ & Hwf & Hend & Hf).
  pose proof (views_whole_message_ref (S := S) _ Hwf Hend) as Hr.
  pose proof (views_message_accessors _ _ Hr) as [V A B C _ _ _ K R I L _].
  unfold MessageView_content, MessageView_static_account_keys, MessageView_recent_blockhash,
    MessageView_instructions_iter, MessageView_address_table_lookup_iter,
    MessageView_transaction_config.
  rewrite Hm. simpl. rewrite K, R. simpl. rewrite (collect_exact _ _ I), (collect_exact _ _ L).
  simpl. rewrite (config_content_Ok _ _ Hr). simpl. unfold MessageView_version,
    MessageView_num_required_signatures, MessageView_num_readonly_signed_static_accounts,
    MessageView_num_readonly_unsigned_static_accounts. rewrite Hf. simpl.
  by destruct m as [? [] ? ? ? ? ?].
Qed.

Lemma views_transaction_shows {S} `{AsRef D} (v : TransactionView S D) t rest :
  mask_is_read (tx_message t) -> views_transaction v t rest -> shows_transaction v t.
Proof.
  intros Hmask Hv. pose proof Hv as (_ & _ & Hwf & Hend & Hf).
  destruct (message_frame_counts _ (message_position t) _ (proj1 Hwf)) as (Hi & Hl & Hw & Hr).
  split; unfold TransactionView_num_signatures, TransactionView_num_static_account_keys,
    TransactionView_num_instructions, TransactionView_num_address_table_lookups,
    TransactionView_total_writable_lookup_accounts, TransactionView_total_readonly_lookup_accounts;
    try by rewrite Hf.
  - by eapply TransactionView_content_Ok.
  - by rewrite (TransactionView_data_Ok _ _ _ Hv), native_transaction_documented.
  - unfold TransactionView_message_data. rewrite (TransactionView_message_Ok _ _ _ Hv). simpl.
    rewrite (ar_data _ _ (views_message_accessors _ _ (views_transaction_ref (S := S) _ _ Hwf Hend))).
    by rewrite native_message_documented.
Qed.

Lemma views_whole_message_shows {S} `{AsRef D} (v : MessageView S D) m :
  mask_is_read m -> views_whole_message v m -> shows_message v m.
Proof.
  intros Hmask Hv. pose proof Hv as (_ & _ & Hwf & Hend & Hf).
  destruct (message_frame_counts _ 0 _ Hwf) as (Hi & Hl & Hw & Hr).
  split; unfold MessageView_num_static_account_keys,
    MessageView_num_instructions, MessageView_num_address_table_lookups,
    MessageView_total_writable_lookup_accounts, MessageView_total_readonly_lookup_accounts;
    try by rewrite Hf.
  - by apply MessageView_content_Ok.
  - unfold MessageView_data. rewrite (MessageView_message_Ok _ _ Hv). simpl.
    rewrite (ar_data _ _ (views_message_accessors _ _ (views_whole_message_ref (S := S) _ Hwf Hend))).
    by rewrite native_message_documented.
Qed.

(** ** A view determines the content *)

Lemma views_message_inj {S} (r : MessageViewRef S) m1 m2 :
  views_message r m1 -> views_message r m2 -> m1 = m2.
Proof.
  intros H1 H2. pose proof (views_message_config _ _ H1) as C1.
  pose proof (views_message_config _ _ H2) as C2.
  pose proof (views_message_accessors _ _ H1) as [V1' A1 B1 D1 _ _ _ K1 R1 I1 L1 _].
  pose proof (views_message_accessors _ _ H2) as [V2' A2 B2 D2 _ _ _ K2 R2 I2 L2 _].
  apply collect_exact in I1, I2, L1, L2.
  assert (msg_config m1 = msg_config m2) as Hcfg.
  { destruct (MessageViewRef_transaction_config r) as [view|].
    - destruct C1 as (_ & _ & P1 & P2 & P3 & P4), C2 as (_ & _ & Q1 & Q2 & Q3 & Q4).
      destruct (msg_config m1), (msg_config m2); simpl in *. congruence.
    - destruct H1 as (? & ? & _ & _ & (_ & _ & W1) & _), H2 as (? & ? & _ & _ & (_ & _ & W2) & _).
      unfold wf_message_body in W1, W2.
      destruct (msg_version m1), (msg_version m2); destruct_and?; congruence. }
  destruct m1 as [v1 [a1 b1 d1] k1 bh1 i1 l1 c1], m2 as [v2 [a2 b2 d2] k2 bh2 i2 l2 c2].
  simpl in *. congruence.
Qed.

(** Serializations are prefix-free: a buffer starts with at most one transaction. *)
Lemma encode_transaction_prefix_free t1 t2 r1 r2 :
  slice_ok (native_transaction t1 ++ r1) ->
  wf_transaction (len r1) t1 -> wf_transaction (len r2) t2 ->
  len (native_transaction t1) <= 65535 -> len (native_transaction t2) <= 65535 ->
  native_transaction t1 ++ r1 = native_transaction t2 ++ r2 -> t1 = t2 /\ r1 = r2.
Proof.
  intros Hb W1 W2 L1 L2 Heq.
  assert (TransactionFrame_try_new_from_prefix (native_transaction t1 ++ r1) =
    Ok (transaction_frame t1)) as P1
    by (apply TransactionFrame_try_new_from_prefix_Ok; [done|by exists t1, r1]).
  assert (TransactionFrame_try_new_from_prefix (native_transaction t1 ++ r1) =
    Ok (transaction_frame t2)) as P2
    by (apply TransactionFrame_try_new_from_prefix_Ok; [done|by exists t2, r2]).
  assert (transaction_frame t1 = transaction_frame t2) as HF by congruence. clear P1 P2.
  pose proof (f_equal (fun f => sf_num_signatures (tf_signature f)) HF) as Hn.
  pose proof (f_equal (fun f => sf_offset (tf_signature f)) HF) as Hpos.
  pose proof (f_equal tf_message HF) as Hf. pose proof (f_equal tf_data_len HF) as Hlen.
  cbn [transaction_frame tf_signature tf_message tf_data_len sf_num_signatures sf_offset] in *.
  apply app_inj_1 in Heq as [Henc ->]; [|unfold len in Hlen; lia]. split; [|done].
  assert (tx_message t1 = tx_message t2) as Hm.
  { apply (views_message_inj (transaction_ref true t1)); [by eapply views_transaction_ref|].
    unfold transaction_ref. rewrite Henc, Hf. by eapply (views_transaction_ref (S := true)). }
  destruct (message_at _ _ W1) as (_ & S1 & F1). destruct (message_at _ _ W2) as (_ & S2 & F2).
  pose proof (SignatureFrame_signatures_Ok {| sf_num_signatures := len (tx_signatures t1);
    sf_offset := signatures_position t1 |} _ _ S1 eq_refl F1) as E1.
  rewrite Henc, Hn, Hpos in E1.
  pose proof (SignatureFrame_signatures_Ok {| sf_num_signatures := len (tx_signatures t2);
    sf_offset := signatures_position t2 |} _ _ S2 eq_refl F2) as E2.
  rewrite E2 in E1. injection E1 as E1. destruct t1, t2; simpl in *. congruence.
Qed.
End ContentLemmas.
