(* ===== verification/Sanitize.v ===== *)
(** * sanitize.rs: the checks that turn a parsed view into a sanitized one *)

From stdpp Require Import base list numbers.
From Stdlib Require Import ZArith Lia Strings.Byte.
From S2P Require Import Prelude Cursor RustIterator Bytes SignatureFrame MessageHeaderFrame.
From S2P Require Import StaticAccountKeysFrame AddressTableLookupFrame InstructionsFrame.
From S2P Require Import TransactionConfigView MessageFrame Message TransactionFrame Views.
Local Open Scope Z_scope.
Local Open Scope rust_scope.

(** [matches!(version, Legacy | V0)]. *)
Definition matches_legacy_or_v0 (version : TransactionVersion) : bool :=
  match version with Legacy | V0 => true | V1 => false end.

Section Message.
  Context `{Target}.
  Implicit Type view : MessageViewRef false.

Definition total_number_of_accounts view : Z :=
  saturating_add U16
    (saturating_add U16 (MessageViewRef_num_static_account_keys view)
       (MessageViewRef_total_writable_lookup_accounts view))
    (MessageViewRef_total_readonly_lookup_accounts view).

Definition sanitize_message_size view : Result unit :=
  let? data := MessageViewRef_data view in
  let signed_len :=
    wrapping_add USIZE
      (wrapping_mul USIZE (MessageViewRef_num_required_signatures view) size_of_Signature)
      (len data) in
  err_if (PACKET_DATA_SIZE <? wrapping_add USIZE signed_len 1) SanitizeError.

Definition sanitize_message_header view : Result unit :=
  let? _ := err_if (MessageViewRef_num_required_signatures view <? 1) SanitizeError in
  let? _ := err_if (MessageViewRef_num_required_signatures view <=?
                    MessageViewRef_num_readonly_signed_static_accounts view) SanitizeError in
  let? _ := err_if (wrapping_sub U8 (MessageViewRef_num_static_account_keys view)
                      (MessageViewRef_num_required_signatures view) <?
                    MessageViewRef_num_readonly_unsigned_static_accounts view) SanitizeError in
  Ok tt.

Definition sanitize_required_signatures view : Result unit :=
  err_if (MessageViewRef_num_static_account_keys view <?
          MessageViewRef_num_required_signatures view) SanitizeError.

Definition sanitize_account_access view : Result unit :=
  err_if (matches_legacy_or_v0 (MessageViewRef_version view) &&
          (256 <? total_number_of_accounts view)) SanitizeError.

Definition sanitize_instructions view : Result unit :=
  let max_program_id_index := wrapping_sub U8 (MessageViewRef_num_static_account_keys view) 1 in
  let max_account_index := cast U8 (wrapping_sub U16 (total_number_of_accounts view) 1) in
  for_each (fun _ instruction =>
    let? _ := err_if (max_program_id_index <? program_id_index instruction) SanitizeError in
    let? _ := err_if (program_id_index instruction =? 0) SanitizeError in
    ofold (fun _ account_index =>
      err_if (max_account_index <? Z_of_byte account_index) SanitizeError)
      tt (accounts instruction))
    tt (MessageViewRef_instructions_iter view).

(** [slice.is_empty()]. *)
Definition is_empty {A} (l : list A) : bool := match l with [] => true | _ => false end.

Definition sanitize_address_table_lookups view : Result unit :=
  for_each (fun _ address_table_lookup =>
    err_if (is_empty (writable_indexes address_table_lookup) &&
            is_empty (readonly_indexes address_table_lookup)) SanitizeError)
    tt (MessageViewRef_address_table_lookup_iter view).

Definition sanitize_message_body view : Result unit :=
  let? _ := sanitize_message_header view in
  let? _ := sanitize_required_signatures view in
  let? _ := sanitize_account_access view in
  let? _ := sanitize_instructions view in
  sanitize_address_table_lookups view.

Definition sanitize_message view : Result unit :=
  let? _ := (if matches_legacy_or_v0 (MessageViewRef_version view)
             then sanitize_message_size view else Ok tt) in
  sanitize_message_body view.
End Message.

Section Transaction.
  Context `{Target} `{AsRef D}.
  Implicit Type view : TransactionView false D.

Definition sanitize_transaction_size view : Result unit :=
  let? data := TransactionView_data view in
  err_if (PACKET_DATA_SIZE <? len data) SanitizeError.

Definition sanitize_signatures view : Result unit :=
  err_if (negb (TransactionView_num_signatures view =?
                TransactionView_num_required_signatures view)) SanitizeError.

Definition sanitize view : Result unit :=
  let? _ := (if matches_legacy_or_v0 (TransactionView_version view)
             then sanitize_transaction_size view else Ok tt) in
  let? _ := sanitize_signatures view in
  let? message := TransactionView_message view in
  sanitize_message_body message.
End Transaction.

(** ** What a sanitized message is *)

Definition num_accounts (m : Message) : Z :=
  len (msg_account_keys m) + total_writable (msg_address_table_lookups m) +
  total_readonly (msg_address_table_lookups m).

(** The program of an instruction is a static key other than the fee payer, and
    its accounts are accounts of the message. *)
Definition sane_instruction (m : Message) (i : SVMInstruction) : Prop :=
  1 <= program_id_index i < len (msg_account_keys m) /\
  Forall (fun b => Z_of_byte b < num_accounts m) (accounts i).

Definition sane_lookup (a : SVMMessageAddressTableLookup) : Prop :=
  0 < len (writable_indexes a) + len (readonly_indexes a).

Record sane_message (m : Message) : Prop := {
  (** the fee payer signs and is writable *)
  sane_fee_payer : num_readonly_signed_accounts (msg_header m) <
    num_required_signatures (msg_header m);
  (** the signers and the read-only non-signers do not overlap *)
  sane_header : num_required_signatures (msg_header m) +
    num_readonly_unsigned_accounts (msg_header m) <= len (msg_account_keys m);
  sane_num_accounts : num_accounts m <= 256;
  sane_instructions : Forall (sane_instruction m) (msg_instructions m);
  sane_lookups : Forall sane_lookup (msg_address_table_lookups m) }.

(** A legacy or v0 transaction fits a packet. *)
Definition fits_packet (v : TransactionVersion) (n : Z) : Prop :=
  match v with Legacy | V0 => n <= PACKET_DATA_SIZE | V1 => True end.

Record sane_transaction (t : Transaction) : Prop := {
  sane_size : fits_packet (msg_version (tx_message t)) (len (encode_transaction t));
  sane_signatures : len (tx_signatures t) = num_required_signatures (msg_header (tx_message t));
  sane_tx_message : sane_message (tx_message t) }.

(** The length of the transaction formed by signing a legacy or v0 message. *)
Definition signed_len (m : Message) : Z :=
  1 + 64 * num_required_signatures (msg_header m) + len (encode_message m).

(** ** Checks as decisions *)

(** [r] checks [P]: it returns, and succeeds exactly when [P] holds; a failure
    is a [SanitizeError]. *)
Definition checks (r : Result unit) (P : Prop) : Prop :=
  (r = Ok tt /\ P) \/ (r = Err SanitizeError /\ ~ P).

Lemma checks_err_if b P : (b = false <-> P) -> checks (err_if b SanitizeError) P.
Proof. unfold checks, err_if. destruct b; intros HP; [right|left]; (split; [done|]); intuition congruence. Qed.

Lemma checks_bind r P s Q :
  checks r P -> (P -> checks s Q) -> checks (let? _ := r in s) (P /\ Q).
Proof. unfold checks. intros [[-> HP]|[-> HP]] Hs; simpl; tauto. Qed.

Lemma checks_weaken r P Q : checks r P -> (P <-> Q) -> checks r Q.
Proof. unfold checks. tauto. Qed.

Lemma checks_ofold {A} (body : unit -> A -> Result unit) P xs :
  (forall x, x ∈ xs -> checks (body tt x) (P x)) -> checks (ofold body tt xs) (Forall P xs).
Proof.
  induction xs as [|x xs IH]; intros Hb; simpl.
  - left. split; [done|constructor].
  - eapply checks_weaken; [|apply iff_sym, List.Forall_cons_iff].
    pose proof (Hb x ltac:(by left)) as [[-> HP]|[-> HP]]; simpl.
    + assert (checks (ofold body tt xs) (Forall P xs)) as IH'
        by (apply IH; intros; apply Hb; by right).
      unfold checks in *. tauto.
    + right. tauto.
Qed.

Lemma checks_for_each `{RustIterator It Item} (body : unit -> Item -> Result unit) P it xs :
  yields_exact it xs -> (forall x, x ∈ xs -> checks (body tt x) (P x)) ->
  checks (for_each body tt it) (Forall P xs).
Proof. intros Hy Hb. rewrite (for_each_yields _ _ _ _ Hy). by apply checks_ofold. Qed.

Lemma checks_returns r P : checks r P -> returns r.
Proof. by intros [[-> _]|[-> _]]. Qed.

Lemma checks_Ok r P : checks r P -> r = Ok tt <-> P.
Proof. intros [[-> ?]|[-> ?]]; split; (done || tauto). Qed.

(** ** The checks of the code decide what is sane *)

Section MessageChecks.
  Context `{Target} (view : MessageViewRef false) (m : Message) (rest : Z).
  Hypothesis Hview : accessors_return view m.
  Hypothesis Hwf : wf_message rest m.
Let h := msg_header m.

Lemma header_range :
  in_width U8 (num_required_signatures h) /\ in_width U8 (num_readonly_signed_accounts h) /\
  in_width U8 (num_readonly_unsigned_accounts h) /\ 0 <= len (msg_account_keys m) < 256.
Proof.
  pose proof (account_keys_bound _ _ Hwf). destruct Hwf as ((? & ? & ?) & _).
  split_and!; [done..|apply len_nonneg|done].
Qed.

Lemma program_ids_wf : Forall (fun i => in_width U8 (program_id_index i)) (msg_instructions m).
Proof.
  destruct Hwf as (_ & _ & Hbody). unfold wf_message_body, wf_instructions in Hbody.
  assert (Forall wf_instruction (msg_instructions m) \/
    Forall (fun i => wf_v1_header (v1_header i)) (msg_instructions m)) as [Hi|Hi].
  { destruct (msg_version m); destruct_and?; auto. }
  all: eapply Forall_impl; [|exact Hi]; by intros i (? & _).
Qed.

Lemma lookup_totals_range :
  0 <= total_writable (msg_address_table_lookups m) <= 65535 /\
  0 <= total_readonly (msg_address_table_lookups m) <= 65535.
Proof.
  destruct (decide (msg_version m = V0)) as [Hv|Hv].
  - destruct Hwf as (_ & _ & Hbody). unfold wf_message_body in Hbody. rewrite Hv in Hbody.
    destruct Hbody as (_ & _ & (_ & Ha & _ & Hw & Hr) & _).
    apply total_writable_bound in Ha as Hw'. apply total_readonly_bound in Ha. lia.
  - rewrite (lookups_only_v0 _ _ Hwf Hv). done.
Qed.

Lemma total_number_of_accounts_sat :
  total_number_of_accounts view = Z.min 65535 (num_accounts m).
Proof.
  pose proof header_range. pose proof lookup_totals_range.
  unfold total_number_of_accounts, num_accounts, saturating_add.
  rewrite (ar_num_static_account_keys _ _ Hview), (ar_total_writable _ _ Hview), (ar_total_readonly _ _ Hview). uints. lia.
Qed.

Lemma sanitize_message_header_checks :
  checks (sanitize_message_header view)
    (1 <= num_required_signatures h /\
     num_readonly_signed_accounts h < num_required_signatures h /\
     num_readonly_unsigned_accounts h <=
       wrapping_sub U8 (len (msg_account_keys m)) (num_required_signatures h)).
Proof.
  unfold sanitize_message_header.
  rewrite (ar_num_required_signatures _ _ Hview), (ar_num_readonly_signed _ _ Hview), (ar_num_readonly_unsigned _ _ Hview),
    (ar_num_static_account_keys _ _ Hview). fold h.
  eapply checks_bind; [apply checks_err_if; rewrite Z.ltb_ge; lia|intros _].
  eapply checks_bind; [apply checks_err_if; rewrite Z.leb_gt; lia|intros _].
  eapply checks_weaken; [eapply checks_bind;
    [apply (checks_err_if _ _ (Z.ltb_ge _ _))|intros _; left; done]|]. tauto.
Qed.

Lemma sanitize_account_access_checks :
  checks (sanitize_account_access view) (num_accounts m <= 256).
Proof.
  unfold sanitize_account_access. rewrite total_number_of_accounts_sat, (ar_version _ _ Hview).
  pose proof header_range. apply checks_err_if.
  destruct (msg_version m) eqn:Hv; simpl; rewrite ?Z.ltb_ge; [lia..|].
  assert (msg_address_table_lookups m = []) as Hno by (eapply lookups_only_v0; [done|by rewrite Hv]).
  unfold num_accounts. rewrite Hno. split; [|done]. intros _. change (total_writable []) with 0.
  change (total_readonly []) with 0. lia.
Qed.

Lemma sanitize_instructions_checks :
  1 <= len (msg_account_keys m) -> num_accounts m <= 256 ->
  checks (sanitize_instructions view) (Forall (sane_instruction m) (msg_instructions m)).
Proof.
  intros Hk Hn. pose proof header_range. pose proof lookup_totals_range.
  unfold sanitize_instructions. rewrite total_number_of_accounts_sat.
  rewrite (ar_num_static_account_keys _ _ Hview).
  assert (1 <= num_accounts m) by (unfold num_accounts; lia).
  rewrite Z.min_r by lia. nowrap.
  eapply checks_for_each; [apply (ar_instructions _ _ Hview)|]. intros i Hi.
  assert (in_width U8 (program_id_index i)) as Hp by (pose proof program_ids_wf as Hp; by eapply list.Forall_forall in Hp).
  unfold sane_instruction. eapply checks_weaken.
  - eapply checks_bind; [apply (checks_err_if _ _ (Z.ltb_ge _ _))|intros _].
    eapply checks_bind; [apply (checks_err_if _ _ (Z.eqb_neq _ _))|intros _].
    apply checks_ofold. intros b _. apply (checks_err_if _ _ (Z.ltb_ge _ _)).
  - assert (forall b, Z_of_byte b <= num_accounts m - 1 <-> Z_of_byte b < num_accounts m)
      as Hb by lia.
    setoid_rewrite Hb. uints. intuition lia.
Qed.

Lemma sanitize_address_table_lookups_checks :
  checks (sanitize_address_table_lookups view)
    (Forall sane_lookup (msg_address_table_lookups m)).
Proof.
  eapply checks_for_each; [apply (ar_address_table_lookups _ _ Hview)|]. intros a _.
  apply checks_err_if. unfold sane_lookup.
  destruct (writable_indexes a), (readonly_indexes a); simpl; autorewrite with len;
    split; intros; try done; len_lia.
Qed.

Lemma sanitize_message_body_checks : checks (sanitize_message_body view) (sane_message m).
Proof.
  pose proof header_range as Hr. unfold sanitize_message_body. eapply checks_weaken.
  - eapply checks_bind; [apply sanitize_message_header_checks|intros Hh].
    eapply checks_bind.
    { unfold sanitize_required_signatures. rewrite (ar_num_static_account_keys _ _ Hview),
        (ar_num_required_signatures _ _ Hview). apply (checks_err_if _ _ (Z.ltb_ge _ _)). }
    intros Hs. eapply checks_bind; [apply sanitize_account_access_checks|intros Ha].
    eapply checks_bind; [apply sanitize_instructions_checks; [fold h in Hs; lia|done]|intros _].
    apply sanitize_address_table_lookups_checks.
  - fold h. split.
    + intros ((H1 & H2 & H3) & H4 & H5 & H6 & H7). fold h in H3.
      rewrite wrapping_sub_small in H3 by (uints; lia). split; (done || fold h; lia).
    + intros [F Hd N I L]. fold h in F, Hd. uints.
      rewrite wrapping_sub_small by (uints; lia). split_and!; (done || lia).
Qed.

Lemma sanitize_message_checks :
  len (native_message m) <= 65535 ->
  checks (sanitize_message view) (fits_packet (msg_version m) (signed_len m) /\ sane_message m).
Proof.
  intros Hl. pose proof header_range as Hr. unfold sanitize_message.
  eapply checks_bind; [|intros _; apply sanitize_message_body_checks].
  rewrite (ar_version _ _ Hview). unfold sanitize_message_size.
  rewrite (ar_data _ _ Hview), (ar_num_required_signatures _ _ Hview). fold h.
  change size_of_Signature with 64. pose proof (len_nonneg (native_message m)).
  cbn [obind]. nowrap. rewrite (wrapping_add_small _ (_ * 64)) by ulia. nowrap. unfold signed_len. fold h.
  rewrite <- len_native_message.
  destruct (msg_version m); simpl; [apply checks_err_if; rewrite Z.ltb_ge; lia..|].
  by left.
Qed.
End MessageChecks.

Lemma sanitize_checks `{Target} `{AsRef D} (view : TransactionView false D) t rest :
  views_transaction view t rest -> checks (sanitize view) (sane_transaction t).
Proof.
  intros Hv. unfold sanitize. pose proof (TransactionView_message_Ok _ _ _ Hv) as Hm.
  unfold sanitize_transaction_size. rewrite (TransactionView_data_Ok _ _ _ Hv).
  destruct Hv as (_ & _ & Hwf & Hend & Hf). rewrite Hm. cbn [obind].
  unfold sanitize_signatures, TransactionView_version, TransactionView_num_signatures,
    TransactionView_num_required_signatures. rewrite Hf. eapply checks_weaken.
  - eapply checks_bind with (P := fits_packet (msg_version (tx_message t))
      (len (native_transaction t))).
    { change (MessageFrame_version _) with (msg_version (tx_message t)).
      destruct (msg_version (tx_message t)); simpl;
        [apply (checks_err_if _ _ (Z.ltb_ge _ _))..|by left]. }
    intros _. eapply checks_bind with (P := len (tx_signatures t) =
      num_required_signatures (msg_header (tx_message t))).
    { apply checks_err_if. rewrite negb_false_iff. apply Z.eqb_eq. }
    intros _. eapply sanitize_message_body_checks; [|apply Hwf].
    by eapply views_message_accessors, views_transaction_ref.
  - rewrite len_native_transaction. split; [intros (? & ? & ?); by split|by intros [? ? ?]].
Qed.
