(* ===== verification/Samples.v ===== *)
(** * Concrete transactions

    Small transactions of each version, on which the theorems are instantiated. *)

From stdpp Require Import base list numbers.
From Stdlib Require Import ZArith Lia Strings.Byte.
From S2P Require Import Prelude Cursor RustIterator Bytes SignatureFrame MessageHeaderFrame.
From S2P Require Import StaticAccountKeysFrame AddressTableLookupFrame InstructionsFrame.
From S2P Require Import TransactionConfigView MessageFrame Message TransactionFrame Views.
From S2P Require Import Sanitize.
Local Open Scope Z_scope.

#[global] Instance little_endian : Target | 10 := LittleEndian.

Definition sample_key (n : Z) : list byte := replicate 32 (byte_of_Z n).

Definition sample_header : MessageHeader :=
  {| num_required_signatures := 1; num_readonly_signed_accounts := 0;
     num_readonly_unsigned_accounts := 1 |}.

Definition sample_instruction : SVMInstruction :=
  {| program_id_index := 2; accounts := [x00; x01]; data := [x07; x08; x09] |}.

Definition sample_lookup : SVMMessageAddressTableLookup :=
  {| account_key := sample_key 9; writable_indexes := [x03]; readonly_indexes := [x00; x05] |}.

Definition sample_config : TransactionConfig :=
  {| cfg_priority_fee_lamports := Some 5000000000; cfg_compute_unit_limit := Some 200000;
     cfg_loaded_accounts_data_size_limit := None; cfg_requested_heap_size := Some 65536 |}.

Definition sample_message (v : TransactionVersion) : Message :=
  {| msg_version := v;
     msg_header := sample_header;
     msg_account_keys := [sample_key 1; sample_key 2; sample_key 3];
     msg_recent_blockhash := sample_key 4;
     msg_instructions := [sample_instruction];
     msg_address_table_lookups := match v with V0 => [sample_lookup] | _ => [] end;
     msg_config := match v with V1 => sample_config | _ => empty_config end |}.

Definition sample_transaction (v : TransactionVersion) : Transaction :=
  {| tx_signatures := [replicate 64 x2a]; tx_message := sample_message v |}.

(** The serialized transaction, and the buffer of a view of it. *)
Definition sample_bytes (v : TransactionVersion) : list byte :=
  encode_transaction (sample_transaction v).

(** Well-formedness of concrete data. *)
Ltac wf_concrete :=
  repeat match goal with
  | |- _ /\ _ => split
  | |- Forall _ _ => constructor
  | |- wf_transaction _ _ => split
  | |- wf_message _ _ => split
  | |- wf_message_body _ _ => progress (unfold wf_message_body; simpl)
  | |- wf_header _ => split
  | |- in_width _ _ => split
  | |- wf_signatures _ => split
  | |- wf_static_keys _ => split
  | |- wf_instructions _ => split
  | |- wf_instruction _ => split
  | |- short_len _ => split
  | |- wf_atls _ _ => split
  | |- wf_atl _ => split
  | |- wf_v1_header _ => split
  | |- wf_config _ => split
  | |- wf_field _ _ => simpl
  | |- True => exact I
  | |- @eq _ _ _ => reflexivity
  | |- (_ < _)%Z => reflexivity
  | |- (_ <= _)%Z => vm_compute; discriminate
  | |- (_ <= _ < _)%Z => split
  | |- wf_key _ => reflexivity
  end.

Lemma sample_transaction_wf v : wf_transaction 0 (sample_transaction v).
Proof. destruct v; (split; [|simpl]); wf_concrete. Qed.

Lemma sample_transaction_len v : len (sample_bytes v) <= 65535.
Proof. destruct v; vm_compute; discriminate. Qed.

Lemma sample_transaction_sane v : sane_transaction (sample_transaction v).
Proof.
  split; [destruct v; vm_compute; (discriminate || done)|done|].
  split; simpl; [reflexivity|vm_compute; discriminate|destruct v; vm_compute; discriminate| |].
  - repeat constructor; destruct v; vm_compute; (discriminate || reflexivity).
  - destruct v; repeat constructor.
Qed.
