(* ===== verification/TransactionView.v ===== *)
(** * transaction_view.rs: construction of transaction views

    The constructors of [TransactionView], what they accept, and what the
    resulting views return. *)

From stdpp Require Import base list numbers.
From Stdlib Require Import ZArith Lia Strings.Byte.
From S2P Require Import Prelude Cursor RustIterator Bytes SignatureFrame MessageHeaderFrame.
From S2P Require Import StaticAccountKeysFrame AddressTableLookupFrame InstructionsFrame.
From S2P Require Import TransactionConfigView MessageFrame Message TransactionFrame Views.
From S2P Require Import Sanitize Samples.
Local Open Scope Z_scope.
Local Open Scope rust_scope.

Section Constructors.
  Context `{Target} `{AsRef D}.

Definition TransactionView_try_new_unsanitized (data : D) : Result (TransactionView false D) :=
  let? frame := TransactionFrame_try_new (as_ref data) in
  Ok {| tv_data := data; tv_frame := frame |}.

Definition TransactionView_try_new_unsanitized_from_prefix (data : D) :
    Result (TransactionView false D * Z) :=
  let? frame := TransactionFrame_try_new_from_prefix (as_ref data) in
  let consumed_len := tf_data_len frame in
  Ok ({| tv_data := data; tv_frame := frame |}, consumed_len).

Definition TransactionView_sanitize (self : TransactionView false D) :
    Result (TransactionView true D) :=
  let? _ := sanitize self in
  Ok {| tv_data := tv_data self; tv_frame := tv_frame self |}.

Definition TransactionView_try_new_sanitized (data : D) : Result (TransactionView true D) :=
  let? unsanitized_view := TransactionView_try_new_unsanitized data in
  TransactionView_sanitize unsanitized_view.

Definition TransactionView_try_new_sanitized_from_prefix (data : D) :
    Result (TransactionView true D * Z) :=
  let? parsed := TransactionView_try_new_unsanitized_from_prefix data in
  let (unsanitized_view, consumed_len) := parsed in
  let? view := TransactionView_sanitize unsanitized_view in
  Ok (view, consumed_len).
End Constructors.

(** ** What the constructors accept *)

Section Acceptance.
  Context `{Target} `{AsRef D}.
  Implicit Types data : D.

(** The view of a buffer that starts with [t]. *)
Definition view_of {S} (data : D) (t : Transaction) : TransactionView S D :=
  {| tv_data := data; tv_frame := transaction_frame t |}.

Definition holds (data : D) (t : Transaction) (rest : list byte) : Prop :=
  slice_ok (as_ref data) /\ as_ref data = native_transaction t ++ rest /\
  wf_transaction (len rest) t /\ len (native_transaction t) <= 65535.

Lemma holds_views {S} data t rest : holds data t rest -> views_transaction (S := S) (view_of data t) t rest.
Proof. by intros (? & ? & ? & ?). Qed.

Lemma try_new_unsanitized_holds data v :
  slice_ok (as_ref data) ->
  TransactionView_try_new_unsanitized data = Ok v <->
  exists t, holds data t [] /\ v = view_of data t.
Proof.
  intros Hb. unfold TransactionView_try_new_unsanitized, holds. split.
  - destruct (TransactionFrame_try_new (as_ref data)) as [f| | | |] eqn:Hf; simpl; try done.
    intros [= <-]. apply TransactionFrame_try_new_Ok in Hf as (t & Hwf & Hd & Hl & ->); [|done].
    exists t. rewrite app_nil_r. split_and!; try done. by rewrite <- Hd.
  - intros (t & (_ & Hd & Hwf & Hl) & ->). rewrite app_nil_r in Hd.
    rewrite (proj2 (TransactionFrame_try_new_Ok _ (transaction_frame t) Hb)); [done|].
    exists t. by rewrite Hd.
Qed.

Lemma try_new_unsanitized_from_prefix_holds data v n :
  slice_ok (as_ref data) ->
  TransactionView_try_new_unsanitized_from_prefix data = Ok (v, n) <->
  exists t rest, holds data t rest /\ v = view_of data t /\ n = len (native_transaction t).
Proof.
  intros Hb. unfold TransactionView_try_new_unsanitized_from_prefix, holds. split.
  - destruct (TransactionFrame_try_new_from_prefix (as_ref data)) as [f| | | |] eqn:Hf;
      simpl; try done.
    intros [= <- <-]. apply TransactionFrame_try_new_from_prefix_Ok in Hf
      as (t & rest & Hwf & Hd & Hl & ->); [|done]. by exists t, rest.
  - intros (t & rest & (_ & Hd & Hwf & Hl) & -> & ->).
    rewrite (proj2 (TransactionFrame_try_new_from_prefix_Ok _ (transaction_frame t) Hb)); [done|].
    by exists t, rest.
Qed.

Lemma TransactionView_sanitize_holds data t rest v :
  holds data t rest ->
  TransactionView_sanitize (view_of data t) = Ok v <-> sane_transaction t /\ v = view_of data t.
Proof.
  intros Hh. unfold TransactionView_sanitize.
  pose proof (sanitize_checks _ _ _ (holds_views (S := false) _ _ _ Hh)) as [[-> Hs]|[-> Hs]]; simpl.
  - split; [by intros [= <-]|by intros [_ ->]].
  - split; [done|by intros [? _]].
Qed.

Lemma TransactionView_sanitize_returns data t rest :
  holds data t rest -> returns (TransactionView_sanitize (view_of data t)).
Proof.
  intros Hh. unfold TransactionView_sanitize.
  by pose proof (sanitize_checks _ _ _ (holds_views (S := false) _ _ _ Hh)) as [[-> Hs]|[-> Hs]].
Qed.

Lemma try_new_sanitized_holds data v :
  slice_ok (as_ref data) ->
  TransactionView_try_new_sanitized data = Ok v <->
  exists t, holds data t [] /\ sane_transaction t /\ v = view_of data t.
Proof.
  intros Hb. unfold TransactionView_try_new_sanitized. split.
  - destruct (TransactionView_try_new_unsanitized data) as [u| | | |] eqn:Hu; simpl; try done.
    apply try_new_unsanitized_holds in Hu as (t & Hh & ->); [|done].
    rewrite (TransactionView_sanitize_holds _ _ _ _ Hh). intros [Hs ->]. by exists t.
  - intros (t & Hh & Hs & ->).
    rewrite (proj2 (try_new_unsanitized_holds _ (view_of data t) Hb)) by by exists t. simpl.
    by apply (TransactionView_sanitize_holds _ _ _ _ Hh).
Qed.

Lemma try_new_sanitized_from_prefix_holds data v n :
  slice_ok (as_ref data) ->
  TransactionView_try_new_sanitized_from_prefix data = Ok (v, n) <->
  exists t rest, holds data t rest /\ sane_transaction t /\ v = view_of data t /\
    n = len (native_transaction t).
Proof.
  intros Hb. unfold TransactionView_try_new_sanitized_from_prefix. split.
  - destruct (TransactionView_try_new_unsanitized_from_prefix data) as [[u k]| | | |] eqn:Hu;
      simpl; try done.
    apply try_new_unsanitized_from_prefix_holds in Hu as (t & rest & Hh & -> & ->); [|done].
    destruct (TransactionView_sanitize (view_of data t)) as [s| | | |] eqn:Hs; simpl; try done.
    intros [= <- <-]. apply (TransactionView_sanitize_holds _ _ _ _ Hh) in Hs as [Hs ->].
    by exists t, rest.
  - intros (t & rest & Hh & Hs & -> & ->).
    rewrite (proj2 (try_new_unsanitized_from_prefix_holds _ (view_of data t)
      (len (native_transaction t)) Hb)) by by exists t, rest. simpl.
    by rewrite (proj2 (TransactionView_sanitize_holds _ _ _ (view_of data t) Hh)).
Qed.

(** Every constructor returns, whatever the bytes. *)
Lemma try_new_unsanitized_returns data :
  slice_ok (as_ref data) -> returns (TransactionView_try_new_unsanitized data).
Proof.
  intros Hb%TransactionFrame_try_new_returns. unfold TransactionView_try_new_unsanitized.
  by destruct (TransactionFrame_try_new _).
Qed.

Lemma try_new_unsanitized_from_prefix_returns data :
  slice_ok (as_ref data) -> returns (TransactionView_try_new_unsanitized_from_prefix data).
Proof.
  intros Hb%TransactionFrame_try_new_from_prefix_returns.
  unfold TransactionView_try_new_unsanitized_from_prefix.
  by destruct (TransactionFrame_try_new_from_prefix _).
Qed.

Lemma try_new_sanitized_returns data :
  slice_ok (as_ref data) -> returns (TransactionView_try_new_sanitized data).
Proof.
  intros Hb. pose proof (try_new_unsanitized_returns _ Hb) as Hr.
  unfold TransactionView_try_new_sanitized.
  destruct (TransactionView_try_new_unsanitized data) as [u| | | |] eqn:Hu; try done. simpl.
  apply try_new_unsanitized_holds in Hu as (t & Hh & ->); [|done].
  by eapply TransactionView_sanitize_returns.
Qed.

Lemma try_new_sanitized_from_prefix_returns data :
  slice_ok (as_ref data) -> returns (TransactionView_try_new_sanitized_from_prefix data).
Proof.
  intros Hb. pose proof (try_new_unsanitized_from_prefix_returns _ Hb) as Hr.
  unfold TransactionView_try_new_sanitized_from_prefix.
  destruct (TransactionView_try_new_unsanitized_from_prefix data) as [[u n]| | | |] eqn:Hu; try done.
  simpl. apply try_new_unsanitized_from_prefix_holds in Hu as (t & rest & Hh & -> & _); [|done].
  pose proof (TransactionView_sanitize_returns _ _ _ Hh).
  by destruct (TransactionView_sanitize _).
Qed.
End Acceptance.

(** ** Trailing bytes *)

Lemma wf_transaction_rest r r' t :
  r <= r' -> wf_transaction r t -> wf_transaction r' t.
Proof.
  intros Hr [(Hh & Hbh & Hbody) Hs]. split; [split; [done|split; [done|]]|done].
  unfold wf_message_body in *. destruct (msg_version (tx_message t)); [done| |done].
  destruct Hbody as (Hk & Hi & (Hn & Ha & Hmin & Hw) & Hc). split_and!; try done.
  split_and!; try done; lia.
Qed.

(** A lookup with an index takes at least 35 bytes. *)
Lemma len_encode_sane_atls atls :
  Forall wf_atl atls -> Forall sane_lookup atls -> 35 * len atls <= len (concat (map encode_atl atls)).
Proof.
  induction 1 as [|a atls (Hk & Hw & Hr) _ IH]; intros Hs; [done|].
  apply List.Forall_cons_iff in Hs as [Ha Hs]. cbn [map concat]. specialize (IH Hs).
  unfold sane_lookup in Ha. apply len_encode_short_bound in Hw, Hr.
  assert (35 <= len (encode_atl a)); [|len_lia].
  unfold encode_atl. unfold wf_key, size_of_Pubkey in Hk. len_lia.
Qed.

Lemma sane_transaction_rest r t :
  sane_transaction t -> wf_transaction r t -> wf_transaction 0 t.
Proof.
  intros [_ _ [_ _ _ _ Hs]] [(Hh & Hbh & Hbody) Hsig]. split; [split; [done|split; [done|]]|done].
  unfold wf_message_body in *. destruct (msg_version (tx_message t)); [done| |done].
  destruct Hbody as (Hk & Hi & (Hn & Ha & Hmin & Hw) & Hc).
  pose proof (len_encode_sane_atls _ Ha Hs). split_and!; try done.
  split_and!; try done; lia.
Qed.

(** ** Uniqueness *)

(** The bytes that parsing a prefix consumes. *)
Lemma from_prefix_consumed `{Target} `{AsRef D} (data : D) v n t rest :
  slice_ok (as_ref data) -> TransactionView_try_new_unsanitized_from_prefix data = Ok (v, n) ->
  views_transaction v t rest -> subslice 0 n (as_ref data) = native_transaction t.
Proof.
  intros Hb Hp (_ & Hd & Hwf & Hl & _).
  apply try_new_unsanitized_from_prefix_holds in Hp as (t' & rest' & (_ & Hd' & Hwf' & Hl') & -> & ->);
    [|done].
  simpl in Hd. rewrite Hd' in Hb, Hd. rewrite Hd', subslice_prefix by done.
  by destruct (encode_transaction_prefix_free t' t rest' rest) as [-> _].
Qed.

Lemma views_transaction_encode `{Target} `{AsRef D} {S} (v1 v2 : TransactionView S D) t1 t2 r1 r2 :
  views_transaction v1 t1 r1 -> views_transaction v2 t2 r2 ->
  native_transaction t1 = native_transaction t2 -> t1 = t2.
Proof.
  assert (Hle : forall (v2 : TransactionView S D) t1 t2 (r1 r2 : list byte), wf_transaction (len r1) t1 ->
    views_transaction v2 t2 r2 -> len r1 <= len r2 ->
    native_transaction t1 = native_transaction t2 -> t1 = t2).
  { intros v t t' r r' W (S2 & E2 & W2 & L2 & _) Hr Heq.
    apply (encode_transaction_prefix_free t t' r' r'); rewrite ?Heq; try done.
    - by rewrite <- E2.
    - by apply wf_transaction_rest with (len r). }
  intros V1 V2 Heq. destruct (Z.le_ge_cases (len r1) (len r2)).
  - eapply Hle; [apply V1|done..].
  - symmetry. eapply Hle; [apply V2|done..].
Qed.

(** ** Replacing the blockhash *)

Definition with_blockhash (bh : list byte) (m : Message) : Message :=
  {| msg_version := msg_version m; msg_header := msg_header m;
     msg_account_keys := msg_account_keys m; msg_recent_blockhash := bh;
     msg_instructions := msg_instructions m;
     msg_address_table_lookups := msg_address_table_lookups m; msg_config := msg_config m |}.

Definition tx_with_blockhash (bh : list byte) (t : Transaction) : Transaction :=
  {| tx_signatures := tx_signatures t; tx_message := with_blockhash bh (tx_message t) |}.

Section SetBlockhash.
  Context `{Target}.

Lemma encode_message_blockhash rest m :
  wf_message rest m ->
  exists pre post, len pre = blockhash_position m /\
    forall bh, native_message (with_blockhash bh m) = pre ++ bh ++ post.
Proof.
  intros Hwf. pose proof (len_concat _ _ (account_keys_wf _ _ Hwf)) as Hlk.
  change size_of_Pubkey with 32 in Hlk. destruct Hwf as (_ & Hbh & _).
  unfold with_blockhash. destruct m as [v h keys bh ixs atls cfg]. msg_unfold.
  unfold encode_keys. destruct v.
  - exists (encode_header h ++ byte_of_Z (len keys) :: concat keys), (encode_instructions ixs).
    split; [len_lia|]. intros. by rewrite <- app_assoc.
  - exists ((byte_of_Z MESSAGE_VERSION_PREFIX :: encode_header h) ++ byte_of_Z (len keys) :: concat keys),
      (encode_instructions ixs ++ encode_atls atls).
    split; [len_lia|]. intros. by rewrite <- app_assoc.
  - eexists ((byte_of_Z V1_PREFIX :: encode_header h) ++ native_bytes 4 (config_mask cfg)), _.
    split; [len_lia|]. intros. by rewrite <- app_assoc.
Qed.

Lemma encode_transaction_blockhash rest t :
  wf_transaction rest t ->
  exists pre post, len pre = message_position t + blockhash_position (tx_message t) /\
    forall bh, native_transaction (tx_with_blockhash bh t) = pre ++ bh ++ post.
Proof.
  intros [Hwf Hs]. destruct (encode_message_blockhash _ _ Hwf) as (pre & post & Hpre & Henc).
  destruct t as [sigs m]. unfold tx_with_blockhash. tx_unfold.
  assert (forall bh, msg_version (with_blockhash bh m) = msg_version m) as Hv by done.
  setoid_rewrite Hv. destruct (msg_version m).
  1, 2: pose proof (len_encode_signatures _ (proj2 Hs));
    exists (encode_signatures sigs ++ pre), post; (split; [len_lia|]);
    intros; by rewrite Henc, <- app_assoc.
  exists pre, (post ++ concat sigs). split; [lia|]. intros. by rewrite Henc, <- !app_assoc.
Qed.

Lemma wf_transaction_blockhash rest bh t :
  len bh = size_of_Hash -> wf_transaction rest t -> wf_transaction rest (tx_with_blockhash bh t).
Proof. intros Hbh [(Hh & _ & Hbody) Hs]. split; [split; [done|split; done]|done]. Qed.

Lemma message_frame_blockhash rest off bh m :
  len bh = size_of_Hash -> wf_message rest m ->
  message_frame off (with_blockhash bh m) = message_frame off m.
Proof.
  intros Hbh (_ & Hbh' & _). unfold message_frame. f_equal.
  unfold native_message, encode_with_mask. cbn [with_blockhash msg_version msg_header msg_account_keys
    msg_recent_blockhash msg_instructions msg_address_table_lookups msg_config].
  destruct (msg_version m); rewrite !len_app, Hbh, Hbh'; done.
Qed.

Lemma set_recent_blockhash_views {S} `{AsMut D} (v : TransactionView S D) t rest bh :
  views_transaction v t rest -> len bh = size_of_Hash ->
  exists v', TransactionView_set_recent_blockhash bh v = Ok v' /\
    views_transaction v' (tx_with_blockhash bh t) rest /\ tv_frame v' = tv_frame v.
Proof.
  intros (Hb & Hd & Hwf & Hend & Hf) Hbh.
  destruct (encode_transaction_blockhash _ _ Hwf) as (pre & post & Hpre & Henc).
  pose proof (Henc (msg_recent_blockhash (tx_message t))) as Hold.
  assert (tx_with_blockhash (msg_recent_blockhash (tx_message t)) t = t) as Hsame
    by by destruct t as [? []].
  rewrite Hsame in Hold. assert (len (msg_recent_blockhash (tx_message t)) = 32) as Hobh
    by apply Hwf. change size_of_Hash with 32 in Hbh.
  assert (transaction_frame (tx_with_blockhash bh t) = transaction_frame t) as Hframe.
  { unfold transaction_frame. f_equal.
    - unfold signatures_position. simpl. f_equal. destruct (msg_version (tx_message t)); try done.
      pose proof (message_frame_blockhash _ 0 bh _ Hbh (proj1 Hwf)) as Hm.
      apply (f_equal mf_end_offset) in Hm. simpl in Hm. by rewrite !Z.add_0_l in Hm.
    - eapply message_frame_blockhash; [done|apply Hwf].
    - rewrite Henc, Hold. rewrite !len_app. lia. }
  unfold TransactionView_set_recent_blockhash. rewrite Hf.
  change (MessageFrame_recent_blockhash_offset (tf_message (transaction_frame t)))
    with (message_position t + blockhash_position (tx_message t)).
  rewrite <- Hpre, Hd, Hold, <- !app_assoc. set (old := msg_recent_blockhash _) in *.
  change size_of_Hash with 32.
  pose proof (index_range_Ok (E := TransactionViewError) pre (old ++ post ++ rest) [] (len pre)
    (len (pre ++ old ++ post ++ rest)) eq_refl ltac:(len_lia)) as Hi. rewrite app_nil_r in Hi.
  rewrite Hi. cbn [obind]. rewrite index_range_prefix by done. cbn [obind].
  eexists. split; [done|]. split; [|done].
  assert (subslice 0 (len pre) (pre ++ old ++ post ++ rest) = pre) as ->
    by by apply subslice_prefix.
  assert (subslice (len pre + 32) (len (pre ++ old ++ post ++ rest)) (pre ++ old ++ post ++ rest)
    = post ++ rest) as ->.
  { rewrite <- (app_nil_r (pre ++ old ++ post ++ rest)) at 2.
    replace ((pre ++ old ++ post ++ rest) ++ []) with ((pre ++ old) ++ (post ++ rest) ++ [])
      by by rewrite !app_nil_r, <- !app_assoc.
    apply subslice_app; len_lia. }
  unfold views_transaction. cbn [tv_data tv_frame]. rewrite as_ref_with_mut.
  - rewrite Henc, Hframe, <- !app_assoc. rewrite Hd, Hold in Hb. rewrite Hold in Hend.
    split_and!; [ulia|done|by apply wf_transaction_blockhash|len_lia|done].
  - rewrite Hd, Hold. len_lia.
Qed.
End SetBlockhash.

(** ** The documented format

    Where the mask does not matter or is read as documented, what a target reads is the
    documented serialization. *)

Lemma legacy_or_v0_version t rest post :
  wf_transaction rest t ->
  is_legacy_or_v0 (encode_transaction t ++ post) = Ok (bool_decide (msg_version (tx_message t) <> V1)).
Proof. exact (is_legacy_or_v0_encode (H := LittleEndian) t rest post). Qed.

Lemma documented_data `{Target} bytes t rest post :
  target_endian = LittleEndian \/ is_legacy_or_v0 bytes = Ok true ->
  wf_transaction rest t ->
  bytes = native_transaction t ++ post \/ bytes = encode_transaction t ++ post ->
  mask_is_read (tx_message t).
Proof.
  intros [Hle|Hold] Hwf Hd; [by left|]. right. left. intros Hv.
  assert (is_legacy_or_v0 bytes = Ok (bool_decide (msg_version (tx_message t) <> V1))) as He.
  { destruct Hd as [->| ->]; [by eapply is_legacy_or_v0_encode|by eapply legacy_or_v0_version]. }
  rewrite Hold in He. case_bool_decide; congruence.
Qed.

Lemma holds_documented `{Target} `{AsRef D} (data : D) t :
  target_endian = LittleEndian \/ is_legacy_or_v0 (as_ref data) = Ok true ->
  slice_ok (as_ref data) ->
  holds data t [] <->
  wf_transaction 0 t /\ as_ref data = encode_transaction t /\ len (as_ref data) <= 65535 /\
  mask_is_read (tx_message t).
Proof.
  intros Hcond Hb. unfold holds. change (len []) with 0. rewrite app_nil_r. split.
  - intros (_ & Hd & Hwf & Hl).
    assert (mask_is_read (tx_message t)) as Hm
      by (eapply (documented_data _ _ _ []); [done..|]; left; by rewrite app_nil_r).
    rewrite native_transaction_documented in Hd, Hl by done. by rewrite Hd.
  - intros (Hwf & Hd & Hl & Hm). rewrite native_transaction_documented by done. by rewrite <- Hd.
Qed.

(** ** Properties *)

Lemma sample_bytes_ok v : slice_ok (as_ref (sample_bytes v)).
Proof. destruct v; vm_compute; discriminate. Qed.

Lemma sample_holds v : holds (sample_bytes v) (sample_transaction v) [].
Proof.
  split_and!; [apply sample_bytes_ok|by rewrite app_nil_r|apply sample_transaction_wf|
    apply sample_transaction_len].
Qed.

(** C1: Specification of [TransactionView::try_new_sanitized], on little-endian
    targets, and on big-endian ones for legacy and v0 (for v1 see
    [big_endian_mask_is_misread]): a buffer is accepted exactly when it is the
    serialization of a well-formed transaction that satisfies the sanitization rules
    (size, signature count, header, account and index limits) and is at most 65535 bytes
    long; the view then has the buffer and the frame of that transaction, and every
    accessor returns what it names of that transaction. *)
Theorem try_new_sanitized_spec `{Target} `{AsRef D} (data : D) v :
  slice_ok (as_ref data) ->
  target_endian = LittleEndian \/ is_legacy_or_v0 (as_ref data) = Ok true ->
  TransactionView_try_new_sanitized data = Ok v <->
  exists t, wf_transaction 0 t /\ sane_transaction t /\
    as_ref data = encode_transaction t /\ len (as_ref data) <= 65535 /\
    v = {| tv_data := data; tv_frame := transaction_frame t |} /\ shows_transaction v t.
Proof.
  intros Hb Hcond. rewrite try_new_sanitized_holds by done. split.
  - intros (t & Hh & Hs & ->). exists t. pose proof (holds_views (S := true) _ _ _ Hh) as Hv.
    apply holds_documented in Hh as (Hwf & Hd & Hl & Hm); [|done..].
    split_and!; [done..|]. by eapply views_transaction_shows.
  - intros (t & Hwf & Hs & Hd & Hl & -> & _). exists t. split; [|done].
    apply holds_documented; [done..|]. split_and!; [done..|].
    eapply (documented_data _ _ _ []); [done..|]. right. by rewrite app_nil_r.
Qed.

Example try_new_sanitized_spec_witness :
  TransactionView_try_new_sanitized (sample_bytes V0) =
  Ok {| tv_data := sample_bytes V0; tv_frame := transaction_frame (sample_transaction V0) |}.
Proof.
  refine (proj2 (try_new_sanitized_spec (sample_bytes V0) _ (sample_bytes_ok V0) (or_introl eq_refl)) _).
  exists (sample_transaction V0). split; [apply sample_transaction_wf|].
  split; [apply sample_transaction_sane|]. split; [reflexivity|].
  split; [apply sample_transaction_len|]. split; [reflexivity|].
  eapply views_transaction_shows; [by left|apply holds_views, (sample_holds V0)].
Defined.

(** C31: Specification of [TransactionView::try_new_unsanitized], on little-endian
    targets, and on big-endian ones for legacy and v0: parsing accepts exactly the
    serializations of well-formed transactions of at most 65535 bytes, without trailing
    bytes, and every accessor of the view returns what it names of the transaction. *)
Theorem try_new_unsanitized_spec `{Target} `{AsRef D} (data : D) v :
  slice_ok (as_ref data) ->
  target_endian = LittleEndian \/ is_legacy_or_v0 (as_ref data) = Ok true ->
  TransactionView_try_new_unsanitized data = Ok v <->
  exists t, wf_transaction 0 t /\ as_ref data = encode_transaction t /\
    len (as_ref data) <= 65535 /\ v = {| tv_data := data; tv_frame := transaction_frame t |} /\
    shows_transaction v t.
Proof.
  intros Hb Hcond. rewrite try_new_unsanitized_holds by done. split.
  - intros (t & Hh & ->). exists t. pose proof (holds_views (S := false) _ _ _ Hh) as Hv.
    apply holds_documented in Hh as (Hwf & Hd & Hl & Hm); [|done..].
    split_and!; [done..|]. by eapply views_transaction_shows.
  - intros (t & Hwf & Hd & Hl & -> & _). exists t. split; [|done].
    apply holds_documented; [done..|]. split_and!; [done..|].
    eapply (documented_data _ _ _ []); [done..|]. right. by rewrite app_nil_r.
Qed.

Example try_new_unsanitized_spec_witness :
  TransactionView_try_new_unsanitized (sample_bytes V1) =
  Ok {| tv_data := sample_bytes V1; tv_frame := transaction_frame (sample_transaction V1) |}.
Proof.
  refine (proj2 (try_new_unsanitized_spec (sample_bytes V1) _ (sample_bytes_ok V1) (or_introl eq_refl)) _).
  exists (sample_transaction V1). split; [apply sample_transaction_wf|].
  split; [reflexivity|]. split; [apply sample_transaction_len|]. split; [reflexivity|].
  eapply views_transaction_shows; [by left|apply holds_views, (sample_holds V1)].
Defined.

(** C5: Memory safety of parsing: on any buffer, on a target of either byte
    order, the four constructors return a value or an error; they never panic,
    read outside of the buffer in an [unsafe] block, or loop. *)
Theorem constructors_return `{Target} `{AsRef D} (data : D) :
  slice_ok (as_ref data) ->
  returns (TransactionView_try_new_unsanitized data) /\
  returns (TransactionView_try_new_unsanitized_from_prefix data) /\
  returns (TransactionView_try_new_sanitized data) /\
  returns (TransactionView_try_new_sanitized_from_prefix data).
Proof.
  intros Hb. split_and!; auto using try_new_unsanitized_returns, try_new_sanitized_returns,
    try_new_unsanitized_from_prefix_returns, try_new_sanitized_from_prefix_returns.
Qed.

Example constructors_return_witness :
  returns (TransactionView_try_new_sanitized (D := list byte) [x81; x01; x02]) /\
  TransactionView_try_new_sanitized (D := list byte) [x81; x01; x02] = Err ParseError.
Proof.
  split; [|reflexivity].
  apply (constructors_return (D := list byte) [x81; x01; x02]). vm_compute. discriminate.
Defined.

(** C34: Parsing is not malleable: two parsed prefixes read the same through the
    accessors of their views exactly when the bytes that parsing consumed are the same.
    So every transaction is accepted in one serialization only, and a buffer starts with
    one transaction only. *)
Theorem parsing_is_not_malleable `{Target} `{AsRef D} (d1 d2 : D) v1 v2 n1 n2 :
  slice_ok (as_ref d1) -> slice_ok (as_ref d2) ->
  TransactionView_try_new_unsanitized_from_prefix d1 = Ok (v1, n1) ->
  TransactionView_try_new_unsanitized_from_prefix d2 = Ok (v2, n2) ->
  TransactionView_content v1 = TransactionView_content v2 <->
  subslice 0 n1 (as_ref d1) = subslice 0 n2 (as_ref d2).
Proof.
  intros S1 S2 P1 P2.
  pose proof P1 as (t1 & r1 & H1 & -> & _)%try_new_unsanitized_from_prefix_holds; [|done].
  pose proof P2 as (t2 & r2 & H2 & -> & _)%try_new_unsanitized_from_prefix_holds; [|done].
  apply (holds_views (S := false)) in H1, H2.
  rewrite (TransactionView_content_Ok _ _ _ H1), (TransactionView_content_Ok _ _ _ H2).
  rewrite (from_prefix_consumed d1 _ n1 t1 r1), (from_prefix_consumed d2 _ n2 t2 r2) by done.
  split; [by intros [= ->]|]. intros Heq. f_equal. by eapply views_transaction_encode.
Qed.

Example parsing_is_not_malleable_witness :
  TransactionView_content (view_of (S := false) (sample_bytes V0) (sample_transaction V0)) =
  TransactionView_content (view_of (S := false) (sample_bytes V0 ++ [x00]) (sample_transaction V0)).
Proof.
  refine (proj2 (parsing_is_not_malleable (sample_bytes V0) (sample_bytes V0 ++ [x00])
    (view_of (sample_bytes V0) (sample_transaction V0))
    (view_of (sample_bytes V0 ++ [x00]) (sample_transaction V0))
    (len (sample_bytes V0)) (len (sample_bytes V0)) _ _ _ _) _); vm_compute;
    [discriminate|discriminate|reflexivity..].
Defined.

(** C32: [try_new_sanitized_from_prefix] finds the transaction at the front of
    a buffer: it returns the view and a length [n] exactly when the first [n]
    bytes alone are accepted by [try_new_sanitized] with the same frame, so
    the trailing bytes do not influence the outcome. *)
Theorem sanitized_from_prefix_spec `{Target} `{AsRef D} (data : D) v n :
  slice_ok (as_ref data) ->
  TransactionView_try_new_sanitized_from_prefix data = Ok (v, n) <->
  0 <= n <= len (as_ref data) /\ tv_data v = data /\
  let front := subslice 0 n (as_ref data) in
  TransactionView_try_new_sanitized front = Ok {| tv_data := front; tv_frame := tv_frame v |}.
Proof.
  intros Hb. rewrite try_new_sanitized_from_prefix_holds by done. split.
  - intros (t & rest & (_ & Hd & Hwf & Hl) & Hs & -> & ->). rewrite Hd in *.
    split; [len_lia|]. split; [done|]. cbv zeta.
    rewrite subslice_prefix by done.
    apply try_new_sanitized_holds; [unfold as_ref, Vec_AsRef, id; ulia|].
    exists t. split; [|done]. split_and!; [unfold as_ref, Vec_AsRef, id; ulia|by rewrite app_nil_r| |done].
    by eapply sane_transaction_rest.
  - intros (Hn & <- & Hf). cbv zeta in Hf.
    destruct (carve (as_ref (tv_data v)) 0 n) as (p & front & rest & Hd & ->%len_0_nil & Hlen); [lia..|].
    rewrite Hd, app_nil_l, subslice_prefix in Hf by done.
    rewrite Hd in Hb. apply try_new_sanitized_holds in Hf
      as (t & (_ & Hd' & Hwf & Hl) & Hs & Hv); [|unfold as_ref, Vec_AsRef, id; ulia].
    unfold as_ref, Vec_AsRef, id in Hd'. rewrite app_nil_r in Hd'. apply (f_equal tv_frame) in Hv.
    simpl in Hv.
    exists t, rest. split; [split_and!; [by rewrite Hd|by rewrite Hd, Hd'| |done]|].
    { eapply wf_transaction_rest; [apply len_nonneg|done]. }
    split_and!; [done| |by rewrite <- Hd', Hlen]. destruct v; simpl in *. by subst.
Qed.

Example sanitized_from_prefix_spec_witness :
  TransactionView_try_new_sanitized_from_prefix (sample_bytes V1 ++ [x01; x02; x03]) =
  Ok ({| tv_data := sample_bytes V1 ++ [x01; x02; x03];
         tv_frame := transaction_frame (sample_transaction V1) |}, len (sample_bytes V1)).
Proof.
  refine (proj2 (sanitized_from_prefix_spec (sample_bytes V1 ++ [x01; x02; x03]) _ _ _) _);
    [vm_compute; discriminate|].
  split; [vm_compute; split; discriminate|]. split; [reflexivity|]. vm_compute. reflexivity.
Defined.

(** [try_new_unsanitized_from_prefix] accepts whatever
    [try_new_unsanitized] accepts, followed by any bytes, with the same frame,
    and reports where the transaction ends. *)
Theorem unsanitized_from_prefix_extends `{Target} (bytes rest : list byte) v :
  slice_ok (bytes ++ rest) -> TransactionView_try_new_unsanitized bytes = Ok v ->
  TransactionView_try_new_unsanitized_from_prefix (bytes ++ rest) =
    Ok ({| tv_data := bytes ++ rest; tv_frame := tv_frame v |}, len bytes).
Proof.
  intros Hb Hv. apply try_new_unsanitized_holds in Hv as (t & (_ & Hd & Hwf & Hl) & ->);
    [|unfold as_ref, Vec_AsRef, id; ulia].
  unfold as_ref, Vec_AsRef, id in Hd. rewrite app_nil_r in Hd. subst bytes.
  apply try_new_unsanitized_from_prefix_holds; [done|]. exists t, rest.
  split; [split_and!; try done|done]. eapply wf_transaction_rest; [apply len_nonneg|done].
Qed.

Example unsanitized_from_prefix_extends_witness :
  TransactionView_try_new_unsanitized_from_prefix (sample_bytes Legacy ++ [x09]) =
    Ok ({| tv_data := sample_bytes Legacy ++ [x09];
           tv_frame := transaction_frame (sample_transaction Legacy) |},
        len (sample_bytes Legacy)).
Proof.
  apply (unsanitized_from_prefix_extends (sample_bytes Legacy) [x09]
    {| tv_data := sample_bytes Legacy; tv_frame := transaction_frame (sample_transaction Legacy) |});
    [vm_compute; discriminate|vm_compute; reflexivity].
Defined.

(** A v0 transaction with one address table lookup that has no indexes: 34 bytes
    of lookup, one less than the size check of the parser expects. *)
Definition empty_lookup_transaction : Transaction :=
  {| tx_signatures := tx_signatures (sample_transaction V0);
     tx_message :=
       {| msg_version := V0; msg_header := sample_header;
          msg_account_keys := msg_account_keys (sample_message V0);
          msg_recent_blockhash := sample_key 4; msg_instructions := [];
          msg_address_table_lookups :=
            [{| account_key := sample_key 9; writable_indexes := []; readonly_indexes := [] |}];
          msg_config := empty_config |} |}.

(** C40: The converse fails before sanitization: for a transaction whose last
    lookup has no indexes, [try_new_unsanitized_from_prefix] rejects the exact
    serialization and accepts it when one arbitrary byte follows, so the trailing
    bytes decide, although the documentation says they are ignored. *)
Theorem unsanitized_from_prefix_depends_on_trailing_bytes (b : byte) :
  let bytes := encode_transaction empty_lookup_transaction in
  TransactionView_try_new_unsanitized_from_prefix bytes = Err ParseError /\
  TransactionView_try_new_unsanitized_from_prefix (bytes ++ [b]) =
    Ok ({| tv_data := bytes ++ [b]; tv_frame := transaction_frame empty_lookup_transaction |},
        len bytes).
Proof.
  cbv zeta. split; [vm_compute; reflexivity|].
  apply try_new_unsanitized_from_prefix_holds; [vm_compute; discriminate|].
  exists empty_lookup_transaction, [b]. split; [|done].
  split_and!; [vm_compute; discriminate|done| |vm_compute; discriminate].
  split; [|simpl]; wf_concrete.
Qed.

(** C4: [set_recent_blockhash] replaces the blockhash and nothing else: it
    does not panic, keeps the frame, and the buffer becomes the serialization of
    the same transaction with the new blockhash (in the form that the target reads),
    which parses again to the updated view. *)
Theorem set_recent_blockhash_spec `{Target} `{AsMut D} (data : D) v bh :
  slice_ok (as_ref data) -> TransactionView_try_new_unsanitized data = Ok v ->
  len bh = size_of_Hash ->
  exists t v', as_ref data = native_transaction t /\
    TransactionView_set_recent_blockhash bh v = Ok v' /\ tv_frame v' = tv_frame v /\
    as_ref (tv_data v') = native_transaction (tx_with_blockhash bh t) /\
    TransactionView_recent_blockhash v' = Ok bh /\
    TransactionView_try_new_unsanitized (tv_data v') = Ok v'.
Proof.
  intros Hb Hv Hbh. apply try_new_unsanitized_holds in Hv as (t & Hh & ->); [|done].
  pose proof (holds_views (S := false) _ _ _ Hh) as Hviews. destruct Hh as (_ & Hd & _).
  destruct (set_recent_blockhash_views _ _ _ _ Hviews Hbh) as (v' & Hset & Hv' & Hf).
  pose proof Hv' as (Hb' & Hd' & Hwf' & Hl' & Hf'). rewrite app_nil_r in Hd, Hd'.
  exists t, v'. split_and!; [done..| |].
  - unfold TransactionView_recent_blockhash. rewrite (TransactionView_message_Ok _ _ _ Hv'). simpl.
    apply (ar_recent_blockhash _ (tx_message (tx_with_blockhash bh t))).
    by eapply views_message_accessors, views_transaction_ref.
  - apply try_new_unsanitized_holds; [done|]. exists (tx_with_blockhash bh t).
    split; [split_and!; try done; by rewrite app_nil_r|].
    destruct v'; simpl in *. unfold view_of. by rewrite Hf'.
Qed.

Example set_recent_blockhash_spec_witness :
  exists t (v' : TransactionView false (list byte)), sample_bytes V1 = native_transaction t /\
    TransactionView_set_recent_blockhash (sample_key 77)
      {| tv_data := sample_bytes V1; tv_frame := transaction_frame (sample_transaction V1) |} =
      Ok v' /\ tv_frame v' = transaction_frame (sample_transaction V1) /\
    as_ref (tv_data v') = native_transaction (tx_with_blockhash (sample_key 77) t) /\
    TransactionView_recent_blockhash v' = Ok (sample_key 77) /\
    TransactionView_try_new_unsanitized (tv_data v') = Ok v'.
Proof.
  refine (set_recent_blockhash_spec (sample_bytes V1)
    {| tv_data := sample_bytes V1; tv_frame := transaction_frame (sample_transaction V1) |}
    (sample_key 77) _ _ _);
    [vm_compute; discriminate|vm_compute; reflexivity|reflexivity].
Defined.
