(* ===== verification/SvmStaticMessage.v ===== *)
(** * The SVMStaticMessage interface of the views

    The runtime reads transactions through the trait [SVMStaticMessage].  The
    class below has its methods, [svm_implements] states what they return for a
    message, and every view type of the crate is shown to implement it. *)

From stdpp Require Import base list numbers.
From Stdlib Require Import ZArith Lia Strings.Byte.
From S2P Require Import Prelude Cursor RustIterator Bytes SignatureFrame MessageHeaderFrame.
From S2P Require Import StaticAccountKeysFrame AddressTableLookupFrame InstructionsFrame.
From S2P Require Import TransactionConfigView MessageFrame Message TransactionFrame Views.
From S2P Require Import Sanitize Samples TransactionView.
Local Open Scope Z_scope.
Local Open Scope rust_scope.

Class SVMStaticMessage (T : Type) := {
  svm_version : T -> VersionedTransactionVersion;
  svm_num_transaction_signatures : T -> Z;
  svm_num_write_locks : T -> Result Z;
  svm_num_readonly_signed_static_accounts : T -> Z;
  svm_num_readonly_unsigned_static_accounts : T -> Z;
  svm_recent_blockhash : T -> Result (list byte);
  svm_num_instructions : T -> Z;
  svm_instructions_iter : T -> Result InstructionsIterator;
  svm_program_instructions_iter : T -> Result ProgramInstructionsIterator;
  svm_static_account_keys : T -> Result (list (list byte));
  svm_fee_payer : T -> Result (list byte);
  svm_num_lookup_tables : T -> Z;
  svm_message_address_table_lookups : T -> Result AddressTableLookupIterator;
  svm_is_signer : T -> Z -> bool;
  svm_is_invoked : T -> Z -> Result bool }.

(** ** Instances *)

(** The body of [is_invoked]. *)
Definition any_program_id_index `{Target} (instructions : Result InstructionsIterator)
    (key_index : Z) : Result bool :=
  match try_from U8 key_index with
  | None => Ok false
  | Some index =>
      let? it := instructions in
      iter_any (fun ix => program_id_index ix =? index) it
  end.

#[global] Instance TransactionView_SVMStaticMessage `{Target} `{AsRef D} :
    SVMStaticMessage (TransactionView true D) := {
  svm_version self := TransactionVersion_into (TransactionView_version self);
  svm_num_transaction_signatures self := TransactionView_num_required_signatures self;
  svm_num_write_locks self := TransactionView_num_requested_write_locks self;
  svm_num_readonly_signed_static_accounts self :=
    TransactionView_num_readonly_signed_static_accounts self;
  svm_num_readonly_unsigned_static_accounts self :=
    TransactionView_num_readonly_unsigned_static_accounts self;
  svm_recent_blockhash self := TransactionView_recent_blockhash self;
  svm_num_instructions self := TransactionView_num_instructions self;
  svm_instructions_iter self := TransactionView_instructions_iter self;
  svm_program_instructions_iter self := TransactionView_program_instructions_iter self;
  svm_static_account_keys self := TransactionView_static_account_keys self;
  svm_fee_payer self := let? keys := TransactionView_static_account_keys self in index keys 0;
  svm_num_lookup_tables self := TransactionView_num_address_table_lookups self;
  svm_message_address_table_lookups self := TransactionView_address_table_lookup_iter self;
  svm_is_signer self index := index <? TransactionView_num_required_signatures self;
  svm_is_invoked self key_index :=
    any_program_id_index (TransactionView_instructions_iter self) key_index }.

#[global] Instance MessageView_SVMStaticMessage `{Target} `{AsRef D} :
    SVMStaticMessage (MessageView true D) := {
  svm_version self := TransactionVersion_into (MessageView_version self);
  svm_num_transaction_signatures self := MessageView_num_required_signatures self;
  svm_num_write_locks self := MessageView_num_requested_write_locks self;
  svm_num_readonly_signed_static_accounts self :=
    MessageView_num_readonly_signed_static_accounts self;
  svm_num_readonly_unsigned_static_accounts self :=
    MessageView_num_readonly_unsigned_static_accounts self;
  svm_recent_blockhash self := MessageView_recent_blockhash self;
  svm_num_instructions self := MessageView_num_instructions self;
  svm_instructions_iter self := MessageView_instructions_iter self;
  svm_program_instructions_iter self := MessageView_program_instructions_iter self;
  svm_static_account_keys self := MessageView_static_account_keys self;
  svm_fee_payer self := let? keys := MessageView_static_account_keys self in index keys 0;
  svm_num_lookup_tables self := MessageView_num_address_table_lookups self;
  svm_message_address_table_lookups self := MessageView_address_table_lookup_iter self;
  svm_is_signer self index := index <? MessageView_num_required_signatures self;
  svm_is_invoked self key_index :=
    any_program_id_index (MessageView_instructions_iter self) key_index }.

(** [&T]: the implementation for references delegates to the one of [T]. *)
Record Ref (T : Type) := { deref : T }.
Arguments deref {T} _.

#[global] Instance TransactionViewRef_SVMStaticMessage `{Target} `{AsRef D} :
    SVMStaticMessage (Ref (TransactionView true D)) := {
  svm_version self := svm_version (deref self);
  svm_num_transaction_signatures self := svm_num_transaction_signatures (deref self);
  svm_num_write_locks self := svm_num_write_locks (deref self);
  svm_num_readonly_signed_static_accounts self :=
    svm_num_readonly_signed_static_accounts (deref self);
  svm_num_readonly_unsigned_static_accounts self :=
    svm_num_readonly_unsigned_static_accounts (deref self);
  svm_recent_blockhash self := svm_recent_blockhash (deref self);
  svm_num_instructions self := svm_num_instructions (deref self);
  svm_instructions_iter self := svm_instructions_iter (deref self);
  svm_program_instructions_iter self := svm_program_instructions_iter (deref self);
  svm_static_account_keys self := svm_static_account_keys (deref self);
  svm_fee_payer self := svm_fee_payer (deref self);
  svm_num_lookup_tables self := svm_num_lookup_tables (deref self);
  svm_message_address_table_lookups self := svm_message_address_table_lookups (deref self);
  svm_is_signer self index := svm_is_signer (deref self) index;
  svm_is_invoked self key_index := svm_is_invoked (deref self) key_index }.

(** [SVMStaticTransaction]: the signatures of a transaction. *)
Class SVMStaticTransaction (T : Type) := {
  svm_signature : T -> Result (list byte);
  svm_signatures : T -> Result (list (list byte)) }.

#[global] Instance TransactionView_SVMStaticTransaction `{AsRef D} :
    SVMStaticTransaction (TransactionView true D) := {
  svm_signature self := TransactionView_signature self;
  svm_signatures self := TransactionView_signatures self }.

#[global] Instance TransactionViewRef_SVMStaticTransaction `{AsRef D} :
    SVMStaticTransaction (Ref (TransactionView true D)) := {
  svm_signature self := svm_signature (deref self);
  svm_signatures self := svm_signatures (deref self) }.

(** ** What the methods return for a message *)

(** The write locks: every account that is not read-only. *)
Definition write_locks (m : Message) : Z :=
  len (msg_account_keys m) - num_readonly_signed_accounts (msg_header m) -
  num_readonly_unsigned_accounts (msg_header m) + total_writable (msg_address_table_lookups m).

Definition invokes (m : Message) (index : Z) : bool :=
  existsb (fun ix => program_id_index ix =? index) (msg_instructions m).

(** The instructions paired with the keys of their programs. *)
Definition paired_with_programs (m : Message) (ps : list (list byte * SVMInstruction)) : Prop :=
  Forall2 (fun ix p => p.2 = ix /\ get (msg_account_keys m) (program_id_index ix) = Some p.1)
    (msg_instructions m) ps.

Record svm_implements `{Target} `{SVMStaticMessage T} (x : T) (m : Message) : Prop := {
  si_version : svm_version x = TransactionVersion_into (msg_version m);
  si_num_transaction_signatures :
    svm_num_transaction_signatures x = num_required_signatures (msg_header m);
  si_num_write_locks : svm_num_write_locks x = Ok (write_locks m);
  si_num_readonly_signed :
    svm_num_readonly_signed_static_accounts x = num_readonly_signed_accounts (msg_header m);
  si_num_readonly_unsigned :
    svm_num_readonly_unsigned_static_accounts x = num_readonly_unsigned_accounts (msg_header m);
  si_recent_blockhash : svm_recent_blockhash x = Ok (msg_recent_blockhash m);
  si_num_instructions : svm_num_instructions x = len (msg_instructions m);
  si_instructions : exists it, svm_instructions_iter x = Ok it /\
    yields_exact it (msg_instructions m);
  si_program_instructions : exists it ps, svm_program_instructions_iter x = Ok it /\
    yields_exact it ps /\ paired_with_programs m ps;
  si_static_account_keys : svm_static_account_keys x = Ok (msg_account_keys m);
  si_fee_payer : exists k ks, msg_account_keys m = k :: ks /\ svm_fee_payer x = Ok k;
  si_num_lookup_tables : svm_num_lookup_tables x = len (msg_address_table_lookups m);
  si_lookups : exists it, svm_message_address_table_lookups x = Ok it /\
    yields_exact it (msg_address_table_lookups m);
  si_is_signer index : svm_is_signer x index = (index <? num_required_signatures (msg_header m));
  si_is_invoked index : 0 <= index -> svm_is_invoked x index = Ok (invokes m index) }.

(** What a type promises to the users of [SVMStaticMessage]: it views a message
    that passed the sanitization checks, and its methods return the parts. *)
Class SVMStaticMessageSpec (T : Type) `{Target} `{SVMStaticMessage T} := {
  svm_content : T -> Message -> Prop;
  svm_content_sane x m : svm_content x m -> sane_message m;
  svm_correct x m : svm_content x m -> svm_implements x m }.

(** ** Sanitized message views *)

Section Sanitized.
  Context `{Target} (r : MessageViewRef true) (m : Message) (rest : Z).
  Hypothesis Hr : views_message r m.
  Hypothesis Hsane : sane_message m.
  Hypothesis Hwf : wf_message rest m.
Let Hret : accessors_return r m := views_message_accessors _ _ Hr.

Lemma account_keys_nonempty : exists k ks, msg_account_keys m = k :: ks.
Proof.
  destruct Hsane as [F Hd _ _ _]. destruct Hwf as ((? & ? & ?) & _). uints.
  destruct (msg_account_keys m) as [|k ks]; [autorewrite with len in Hd; lia|eauto].
Qed.

Lemma num_requested_write_locks_Ok :
  MessageViewRef_num_requested_write_locks r = write_locks m.
Proof.
  unfold MessageViewRef_num_requested_write_locks, write_locks.
  rewrite (ar_num_static_account_keys _ _ Hret), (ar_num_readonly_signed _ _ Hret),
    (ar_num_readonly_unsigned _ _ Hret), (ar_total_writable _ _ Hret).
  destruct Hsane as [F Hd N _ _]. pose proof (header_range _ _ Hwf) as (? & ? & ? & ?).
  pose proof (lookup_totals_range _ _ Hwf). unfold num_accounts in N.
  rewrite (wrapping_sub_small _ (len _)) by ulia. by nowrap.
Qed.

Lemma total_num_accounts_Ok : MessageViewRef_total_num_accounts r = num_accounts m.
Proof.
  unfold MessageViewRef_total_num_accounts.
  rewrite (ar_num_static_account_keys _ _ Hret), (ar_total_writable _ _ Hret),
    (ar_total_readonly _ _ Hret).
  pose proof (header_range _ _ Hwf). pose proof (lookup_totals_range _ _ Hwf).
  pose proof (sane_num_accounts _ Hsane) as N. unfold num_accounts in *.
  rewrite (wrapping_add_small _ (len _)) by ulia. by nowrap.
Qed.

Lemma writable_counts_Ok :
  MessageViewRef_num_writable_signed_static_accounts r =
    num_required_signatures (msg_header m) - num_readonly_signed_accounts (msg_header m) /\
  MessageViewRef_num_writable_unsigned_static_accounts r =
    len (msg_account_keys m) - num_required_signatures (msg_header m) -
    num_readonly_unsigned_accounts (msg_header m).
Proof.
  unfold MessageViewRef_num_writable_signed_static_accounts,
    MessageViewRef_num_writable_unsigned_static_accounts,
    MessageViewRef_num_static_unsigned_static_accounts.
  rewrite (ar_num_static_account_keys _ _ Hret), (ar_num_readonly_signed _ _ Hret),
    (ar_num_readonly_unsigned _ _ Hret), (ar_num_required_signatures _ _ Hret).
  destruct Hsane as [F Hd _ _ _]. pose proof (header_range _ _ Hwf) as (? & ? & ? & ?).
  rewrite (wrapping_sub_small _ (len _)) by ulia. by nowrap.
Qed.

Lemma program_instructions_yields keys it ixs :
  yields it ixs -> keys = msg_account_keys m -> Forall (sane_instruction m) ixs ->
  exists ps, yields {| pi_static_account_keys := keys; pi_instructions := it |} ps /\
    Forall2 (fun ix p => p.2 = ix /\ get (msg_account_keys m) (program_id_index ix) = Some p.1)
      ixs ps.
Proof.
  intros Hy ->. induction Hy as [it it' Hn|it it' ix ixs Hn Hy IH]; intros Hs.
  - exists []. split; [|constructor]. eapply yields_nil. simpl.
    unfold ProgramInstructionsIterator_next. simpl in *. by rewrite Hn.
  - apply List.Forall_cons_iff in Hs as [[Hp _] Hs]. destruct (IH Hs) as (ps & Hps & Hall).
    destruct (get (msg_account_keys m) (program_id_index ix)) as [k|] eqn:Hk;
      [|apply get_None in Hk; lia].
    exists ((k, ix) :: ps). split; [|by constructor].
    eapply yields_cons; [|apply Hps]. simpl. unfold ProgramInstructionsIterator_next. simpl in *.
    rewrite Hn. simpl. by rewrite (index_Ok _ _ k) by (done || lia).
Qed.

Lemma program_instructions_iter_Ok :
  exists it ps, MessageViewRef_program_instructions_iter r = Ok it /\
    yields_exact it ps /\ paired_with_programs m ps.
Proof.
  destruct (ar_instructions _ _ Hret) as [Hy Hl].
  destruct (program_instructions_yields _ _ _ Hy eq_refl (sane_instructions _ Hsane))
    as (ps & Hps & Hall).
  eexists _, ps. unfold MessageViewRef_program_instructions_iter.
  rewrite (ar_static_account_keys _ _ Hret). split; [done|]. split; [|done]. split; [done|].
  simpl in *. rewrite Hl. unfold len. f_equal. by eapply Forall2_length.
Qed.

Lemma any_program_id_index_Ok it index :
  it = MessageViewRef_instructions_iter r -> 0 <= index ->
  any_program_id_index (Ok it) index = Ok (invokes m index).
Proof.
  intros -> Hi. unfold any_program_id_index, try_from. zcase; simpl.
  - apply iter_any_exact, (ar_instructions _ _ Hret).
  - f_equal. unfold invokes. symmetry. apply not_true_is_false. intros Hex.
    apply existsb_exists in Hex as (ix & Hin & Heq%Z.eqb_eq).
    pose proof (program_ids_wf _ _ Hwf) as Hp. rewrite List.Forall_forall in Hp.
    specialize (Hp ix Hin). uints. lia.
Qed.
End Sanitized.

(** ** The view types keep the promise *)

Section Specs.
  Context `{Target} `{AsRef D}.

Lemma TransactionView_svm_implements (v : TransactionView true D) t rest :
  views_transaction v t rest -> sane_transaction t -> svm_implements v (tx_message t).
Proof.
  intros Hv [_ _ Hs]. pose proof (TransactionView_message_Ok _ _ _ Hv) as Hm.
  destruct Hv as (_ & _ & Hwf & Hend & Hf). pose proof (proj1 Hwf) as Hwfm.
  pose proof (views_transaction_ref (S := true) _ _ Hwf Hend) as Hr.
  pose proof (views_message_accessors _ _ Hr) as Ha.
  destruct (message_frame_counts _ (message_position t) _ Hwfm) as (Hni & Hna & _).
  split; simpl.
  - unfold TransactionView_version. by rewrite Hf.
  - unfold TransactionView_num_required_signatures. by rewrite Hf.
  - unfold TransactionView_num_requested_write_locks. rewrite Hm. simpl.
    by erewrite num_requested_write_locks_Ok.
  - unfold TransactionView_num_readonly_signed_static_accounts. by rewrite Hf.
  - unfold TransactionView_num_readonly_unsigned_static_accounts. by rewrite Hf.
  - unfold TransactionView_recent_blockhash. rewrite Hm. apply (ar_recent_blockhash _ _ Ha).
  - unfold TransactionView_num_instructions. by rewrite Hf.
  - unfold TransactionView_instructions_iter. rewrite Hm. eexists. split; [done|].
    apply (ar_instructions _ _ Ha).
  - unfold TransactionView_program_instructions_iter. rewrite Hm.
    by eapply program_instructions_iter_Ok.
  - unfold TransactionView_static_account_keys. rewrite Hm. apply (ar_static_account_keys _ _ Ha).
  - unfold TransactionView_static_account_keys. rewrite Hm. simpl.
    rewrite (ar_static_account_keys _ _ Ha).
    destruct (account_keys_nonempty _ _ Hs Hwfm) as (k & ks & Hk). exists k, ks.
    split; [done|]. simpl. rewrite Hk. by apply index_Ok.
  - unfold TransactionView_num_address_table_lookups. by rewrite Hf.
  - unfold TransactionView_address_table_lookup_iter. rewrite Hm. eexists. split; [done|].
    apply (ar_address_table_lookups _ _ Ha).
  - intros. unfold TransactionView_num_required_signatures. by rewrite Hf.
  - intros. unfold TransactionView_instructions_iter. rewrite Hm.
    by eapply any_program_id_index_Ok.
Qed.

Lemma MessageView_svm_implements (v : MessageView true D) m :
  views_whole_message v m -> sane_message m -> svm_implements v m.
Proof.
  intros Hv Hs. pose proof (MessageView_message_Ok _ _ Hv) as Hm.
  destruct Hv as (_ & _ & Hwf & Hend & Hf).
  pose proof (views_whole_message_ref (S := true) _ Hwf Hend) as Hr.
  pose proof (views_message_accessors _ _ Hr) as Ha.
  destruct (message_frame_counts _ 0 _ Hwf) as (Hni & Hna & _).
  split; simpl.
  - unfold MessageView_version. by rewrite Hf.
  - unfold MessageView_num_required_signatures. by rewrite Hf.
  - unfold MessageView_num_requested_write_locks. rewrite Hm. simpl.
    by erewrite num_requested_write_locks_Ok.
  - unfold MessageView_num_readonly_signed_static_accounts. by rewrite Hf.
  - unfold MessageView_num_readonly_unsigned_static_accounts. by rewrite Hf.
  - unfold MessageView_recent_blockhash. rewrite Hm. apply (ar_recent_blockhash _ _ Ha).
  - unfold MessageView_num_instructions. by rewrite Hf.
  - unfold MessageView_instructions_iter. rewrite Hm. eexists. split; [done|].
    apply (ar_instructions _ _ Ha).
  - unfold MessageView_program_instructions_iter. rewrite Hm.
    by eapply program_instructions_iter_Ok.
  - unfold MessageView_static_account_keys. rewrite Hm. apply (ar_static_account_keys _ _ Ha).
  - unfold MessageView_static_account_keys. rewrite Hm. simpl.
    rewrite (ar_static_account_keys _ _ Ha).
    destruct (account_keys_nonempty _ _ Hs Hwf) as (k & ks & Hk). exists k, ks.
    split; [done|]. simpl. rewrite Hk. by apply index_Ok.
  - unfold MessageView_num_address_table_lookups. by rewrite Hf.
  - unfold MessageView_address_table_lookup_iter. rewrite Hm. eexists. split; [done|].
    apply (ar_address_table_lookups _ _ Ha).
  - intros. unfold MessageView_num_required_signatures. by rewrite Hf.
  - intros. unfold MessageView_instructions_iter. rewrite Hm.
    by eapply any_program_id_index_Ok.
Qed.

#[global, program] Instance TransactionView_spec :
    SVMStaticMessageSpec (TransactionView true D) := {
  svm_content v m := exists t rest,
    views_transaction v t rest /\ sane_transaction t /\ m = tx_message t }.
Next Obligation. intros v m (t & rest & _ & [] & ->). done. Qed.
Next Obligation.
  intros v m (t & rest & Hv & Hs & ->). by eapply TransactionView_svm_implements.
Qed.

#[global, program] Instance MessageView_spec : SVMStaticMessageSpec (MessageView true D) := {
  svm_content v m := views_whole_message v m /\ sane_message m }.
Next Obligation. by intros v m []. Qed.
Next Obligation. intros v m [Hv Hs]. by apply MessageView_svm_implements. Qed.

#[global, program] Instance TransactionViewRef_spec :
    SVMStaticMessageSpec (Ref (TransactionView true D)) := {
  svm_content v m := svm_content (deref v) m }.
Next Obligation. intros v m Hv. exact (svm_content_sane (deref v) m Hv). Qed.
Next Obligation. intros v m Hv. destruct (svm_correct (deref v) m Hv). by split. Qed.
End Specs.

(** ** What the users of the interface rely on

    The first static account key is the fee payer: it signs, is not read-only and is not
    invoked; the signers are the first accounts, all of them static; only static accounts
    other than the fee payer are invoked, and every instruction has the key of its
    program; there are between 1 and 256 write locks. *)
Definition svm_guarantees `{Target} `{SVMStaticMessage T} (x : T) : Prop :=
  exists keys payer locks it invocations,
    svm_static_account_keys x = Ok keys /\
    svm_fee_payer x = Ok payer /\ get keys 0 = Some payer /\ svm_is_invoked x 0 = Ok false /\
    svm_num_readonly_signed_static_accounts x < svm_num_transaction_signatures x <= len keys /\
    (forall i, svm_is_signer x i = true <-> i < svm_num_transaction_signatures x) /\
    (forall i, 0 <= i -> svm_is_invoked x i = Ok true -> 1 <= i < len keys) /\
    svm_program_instructions_iter x = Ok it /\ yields_exact it invocations /\
    len invocations = svm_num_instructions x /\
    Forall (fun p => get keys (program_id_index p.2) = Some p.1 /\
                     svm_is_invoked x (program_id_index p.2) = Ok true) invocations /\
    svm_num_write_locks x = Ok locks /\ 1 <= locks <= 256.

Lemma spec_guarantees `{SVMStaticMessageSpec T} (x : T) m rest :
  svm_content x m -> wf_message rest m -> svm_guarantees x.
Proof.
  intros Hc Hwf. destruct (svm_content_sane _ _ Hc) as [F Hd N I L].
  destruct (svm_correct _ _ Hc) as [_ Hns Hw Hros _ _ Hni _ Hpi Hk Hpay _ _ Hsig Hinv].
  pose proof (header_range _ _ Hwf) as (? & ? & ? & ?). pose proof (lookup_totals_range _ _ Hwf).
  pose proof (program_ids_wf _ _ Hwf) as Hp8.
  assert (forall i, invokes m i = true -> 1 <= i < len (msg_account_keys m)) as Hex.
  { intros i Hi. apply existsb_exists in Hi as (ix & Hin & <-%Z.eqb_eq).
    rewrite List.Forall_forall in I. by destruct (I ix Hin). }
  destruct Hpi as (it & ps & Hit & Hyields & Hpaired), Hpay as (payer & ks & Hkeys & Hpay).
  unfold num_accounts in N. uints.
  exists (msg_account_keys m), payer, (write_locks m), it, ps. split_and!; try done; try lia.
  - by rewrite Hkeys, get_cons_0.
  - rewrite Hinv by lia. f_equal. apply not_true_is_false. intros Hi%Hex. lia.
  - intros i. rewrite Hsig, Hns. apply Z.ltb_lt.
  - intros i Hi. rewrite Hinv by done. intros [= ?]. by apply Hex.
  - rewrite Hni. unfold len. f_equal. symmetry. by eapply Forall2_length.
  - apply Forall_lookup. intros i p Hi.
    destruct (Forall2_lookup_r _ _ _ _ _ Hpaired Hi) as (ix & Hix%list_elem_of_lookup_2 & <- & Hget).
    split; [done|]. apply list_elem_of_In in Hix. rewrite List.Forall_forall in Hp8.
    specialize (Hp8 _ Hix). uints. rewrite Hinv by lia. f_equal. apply existsb_exists.
    exists p.2. split; [done|apply Z.eqb_refl].
  - unfold write_locks. lia.
  - unfold write_locks. lia.
Qed.

(** ** Properties *)

(** C6: A sanitized transaction view gives the runtime the content of the
    transaction: for any accepted buffer, every method of [SVMStaticMessage] and
    [SVMStaticTransaction] returns without a panic the corresponding part of the
    transaction the bytes encode, the counts are exact despite the wrapping [u8]
    and [u16] arithmetic, and the iterators yield exactly the encoded
    instructions (paired with their program keys) and lookups. *)
Theorem sanitized_view_implements_svm `{Target} `{AsRef D} (data : D) v :
  slice_ok (as_ref data) -> TransactionView_try_new_sanitized data = Ok v ->
  exists t, as_ref data = native_transaction t /\ wf_transaction 0 t /\
    svm_implements v (tx_message t) /\
    TransactionView_total_num_accounts v = Ok (num_accounts (tx_message t)) /\
    svm_signatures v = Ok (tx_signatures t) /\
    exists s ss, tx_signatures t = s :: ss /\ svm_signature v = Ok s.
Proof.
  intros Hb Hv. apply try_new_sanitized_holds in Hv as (t & Hh & Hs & ->); [|done].
  pose proof (holds_views (S := true) _ _ _ Hh) as Hviews. destruct Hh as (_ & Hd & Hwf & Hend).
  pose proof (TransactionView_signatures_Ok _ _ _ Hviews) as Hsig.
  exists t. split_and!; [by rewrite app_nil_r in Hd|done|by eapply TransactionView_svm_implements| |done|].
  { unfold TransactionView_total_num_accounts. rewrite (TransactionView_message_Ok _ _ _ Hviews).
    simpl. erewrite total_num_accounts_Ok; [done|by eapply views_transaction_ref|apply Hs|apply Hwf]. }
  destruct Hs as [_ Hn [F _ _ _ _]]. destruct (proj1 Hwf) as ((_ & ? & _) & _).
  destruct (tx_signatures t) as [|s ss] eqn:Ht; [autorewrite with len in Hn; uints; lia|].
  exists s, ss. split; [done|]. simpl. unfold TransactionView_signature. rewrite Hsig. simpl.
  by apply index_Ok.
Qed.

Example sanitized_view_implements_svm_witness :
  exists t, sample_bytes V0 = native_transaction t /\ wf_transaction 0 t /\
    let v : TransactionView true (list byte) :=
      {| tv_data := sample_bytes V0; tv_frame := transaction_frame (sample_transaction V0) |} in
    svm_implements v (tx_message t) /\
    TransactionView_total_num_accounts v = Ok (num_accounts (tx_message t)) /\
    svm_signatures v = Ok (tx_signatures t) /\
    exists s ss, tx_signatures t = s :: ss /\ svm_signature v = Ok s.
Proof.
  refine (sanitized_view_implements_svm (sample_bytes V0) _ _ _);
    [vm_compute; discriminate|vm_compute; reflexivity].
Defined.
