(* ===== verification/MessageView.v ===== *)
(** * message_view.rs: construction of message views

    The constructors of [MessageView], what they accept, and how accepting a
    message relates to accepting the transaction formed by signing it. *)

From stdpp Require Import base list numbers.
From Stdlib Require Import ZArith Lia Strings.Byte.
From S2P Require Import Prelude Cursor RustIterator Bytes SignatureFrame MessageHeaderFrame.
From S2P Require Import StaticAccountKeysFrame AddressTableLookupFrame InstructionsFrame.
From S2P Require Import TransactionConfigView MessageFrame Message TransactionFrame Views.
From S2P Require Import Sanitize Samples TransactionView SvmStaticMessage.
Local Open Scope Z_scope.
Local Open Scope rust_scope.

Section Constructors.
  Context `{Target} `{AsRef D}.

Definition MessageView_try_new_unsanitized (data : D) : Result (MessageView false D) :=
  let? message_frame := MessageFrame_try_new (as_ref data) in
  Ok {| mv_data := data; mv_message_frame := message_frame |}.

Definition MessageView_sanitize (self : MessageView false D) : Result (MessageView true D) :=
  let? message := MessageView_message self in
  let? _ := sanitize_message message in
  Ok {| mv_data := mv_data self; mv_message_frame := mv_message_frame self |}.

Definition MessageView_try_new_sanitized (data : D) : Result (MessageView true D) :=
  let? unsanitized_view := MessageView_try_new_unsanitized data in
  MessageView_sanitize unsanitized_view.
End Constructors.

Section Acceptance.
  Context `{Target} `{AsRef D}.
  Implicit Types data : D.

Definition message_view_of {S} (data : D) (m : Message) : MessageView S D :=
  {| mv_data := data; mv_message_frame := message_frame 0 m |}.

Definition holds_message (data : D) (m : Message) : Prop :=
  slice_ok (as_ref data) /\ as_ref data = native_message m /\ wf_message 0 m /\
  len (native_message m) <= 65535.

Lemma holds_message_views {S} data m :
  holds_message data m -> views_whole_message (S := S) (message_view_of data m) m.
Proof. by intros (? & ? & ? & ?). Qed.

Lemma message_try_new_unsanitized_holds data v :
  slice_ok (as_ref data) ->
  MessageView_try_new_unsanitized data = Ok v <->
  exists m, holds_message data m /\ v = message_view_of data m.
Proof.
  intros Hb. unfold MessageView_try_new_unsanitized, holds_message. split.
  - destruct (MessageFrame_try_new (as_ref data)) as [f| | | |] eqn:Hf; simpl; try done.
    intros [= <-]. apply MessageFrame_try_new_Ok in Hf as (m & Hwf & Hd & Hl & ->); [|done].
    exists m. split_and!; try done. by rewrite <- Hd.
  - intros (m & (_ & Hd & Hwf & Hl) & ->).
    rewrite (proj2 (MessageFrame_try_new_Ok _ (message_frame 0 m) Hb)); [done|].
    exists m. by rewrite Hd.
Qed.

Lemma MessageView_sanitize_checks data m :
  holds_message data m ->
  (MessageView_sanitize (message_view_of data m) = Ok (message_view_of data m) /\
   fits_packet (msg_version m) (signed_len m) /\ sane_message m) \/
  (MessageView_sanitize (message_view_of data m) = Err SanitizeError /\
   ~ (fits_packet (msg_version m) (signed_len m) /\ sane_message m)).
Proof.
  intros Hh. unfold MessageView_sanitize.
  rewrite (MessageView_message_Ok (S := false) _ _ (holds_message_views _ _ Hh)). simpl.
  destruct Hh as (_ & _ & Hwf & Hl).
  pose proof (sanitize_message_checks _ _ _ (views_message_accessors _ _
    (views_whole_message_ref (S := false) _ Hwf Hl)) Hwf Hl) as [[-> Hs]|[-> Hs]]; simpl; auto.
Qed.

Lemma message_try_new_sanitized_holds data v :
  slice_ok (as_ref data) ->
  MessageView_try_new_sanitized data = Ok v <->
  exists m, holds_message data m /\ fits_packet (msg_version m) (signed_len m) /\ sane_message m /\
    v = message_view_of data m.
Proof.
  intros Hb. unfold MessageView_try_new_sanitized. split.
  - destruct (MessageView_try_new_unsanitized data) as [u| | | |] eqn:Hu; simpl; try done.
    apply message_try_new_unsanitized_holds in Hu as (m & Hh & ->); [|done].
    pose proof (MessageView_sanitize_checks _ _ Hh) as [(-> & Hp & Hs)|[-> _]]; [|done].
    intros [= <-]. by exists m.
  - intros (m & Hh & Hp & Hs & ->).
    rewrite (proj2 (message_try_new_unsanitized_holds _ (message_view_of data m) Hb)) by by exists m.
    simpl. pose proof (MessageView_sanitize_checks _ _ Hh) as [(-> & _)|[_ []]]; done.
Qed.
End Acceptance.

(** Different messages have different serializations. *)
Lemma encode_message_inj `{Target} m1 m2 :
  wf_message 0 m1 -> wf_message 0 m2 -> len (native_message m1) <= 65535 ->
  len (native_message m2) <= 65535 -> native_message m2 = native_message m1 -> m1 = m2.
Proof.
  intros W1 W2 L1 L2 Heq. assert (slice_ok (native_message m1)) as Hb by ulia.
  pose proof (proj2 (MessageFrame_try_new_Ok _ (message_frame 0 m1) Hb)) as P1.
  pose proof (proj2 (MessageFrame_try_new_Ok _ (message_frame 0 m2) Hb)) as P2.
  rewrite P1 in P2 by by exists m1. specialize (P2 ltac:(exists m2; by rewrite Heq in *)).
  apply (views_message_inj (message_ref true m1)); [by apply views_whole_message_ref|].
  assert (message_frame 0 m1 = message_frame 0 m2) as Hf by congruence.
  unfold message_ref. rewrite Hf, <- Heq. by apply views_whole_message_ref.
Qed.

(** ** Signing a message *)

Lemma len_signed_transaction t :
  msg_version (tx_message t) <> V1 ->
  Forall (fun s => len s = size_of_Signature) (tx_signatures t) ->
  len (tx_signatures t) = num_required_signatures (msg_header (tx_message t)) ->
  len (encode_transaction t) = signed_len (tx_message t).
Proof.
  intros Hv Hs Hn. destruct t as [sigs m]. unfold signed_len, encode_transaction.
  cbn [tx_message tx_signatures] in *.
  pose proof (len_encode_signatures _ Hs) as Hls. rewrite Hn in Hls.
  destruct (msg_version m); [..|done]; rewrite len_app, Hls; lia.
Qed.

(** Sanity of a message is sanity of the signed transaction. *)
Lemma sane_signed_transaction t :
  Forall (fun s => len s = size_of_Signature) (tx_signatures t) ->
  len (tx_signatures t) = num_required_signatures (msg_header (tx_message t)) ->
  sane_transaction t <->
  fits_packet (msg_version (tx_message t)) (signed_len (tx_message t)) /\ sane_message (tx_message t).
Proof.
  intros Hs Hn. assert (fits_packet (msg_version (tx_message t)) (len (encode_transaction t)) <->
    fits_packet (msg_version (tx_message t)) (signed_len (tx_message t))) as Hfit.
  { destruct (decide (msg_version (tx_message t) = V1)) as [->|Hv]; [done|].
    by rewrite len_signed_transaction. }
  split; [intros [H1 _ H2]; tauto|]. intros [H1 H2]. split; tauto.
Qed.

(** A sanitized legacy or v0 message can be signed. *)
Lemma sane_message_signable sigs m :
  wf_message 0 m -> msg_version m <> V1 -> fits_packet (msg_version m) (signed_len m) ->
  sane_message m -> Forall (fun s => len s = size_of_Signature) sigs ->
  len sigs = num_required_signatures (msg_header m) ->
  let t := {| tx_signatures := sigs; tx_message := m |} in
  wf_transaction 0 t /\ len (encode_transaction t) <= 65535.
Proof.
  intros Hwf Hv Hfit [F _ _ _ _] Hs Hn t. assert (signed_len m <= PACKET_DATA_SIZE) as Hl.
  { by destruct (msg_version m). }
  split; [|rewrite len_signed_transaction by done; unfold PACKET_DATA_SIZE in Hl; simpl; lia].
  split; [done|]. simpl. pose proof (header_range _ _ Hwf) as (_ & ? & _).
  assert (wf_signatures sigs) as Hsigs; [|by destruct (msg_version m)].
  split; [|done]. rewrite Hn. unfold signed_len, PACKET_DATA_SIZE in Hl.
  pose proof (len_nonneg (encode_message m)). uints. lia.
Qed.
(** ** The documented format *)

Lemma v1_first_byte m rest :
  wf_message rest m -> get (encode_message m) 0 = Some (byte_of_Z V1_PREFIX) <-> msg_version m = V1.
Proof.
  intros Hwf. pose proof (encode_message_first (H := LittleEndian) m [] rest Hwf) as Hf.
  by rewrite app_nil_r in Hf.
Qed.

Lemma holds_message_documented `{Target} `{AsRef D} (data : D) m :
  target_endian = LittleEndian \/ get (as_ref data) 0 <> Some (byte_of_Z V1_PREFIX) ->
  slice_ok (as_ref data) ->
  holds_message data m <->
  wf_message 0 m /\ as_ref data = encode_message m /\ len (as_ref data) <= 65535 /\ mask_is_read m.
Proof.
  intros Hcond Hb. unfold holds_message. split.
  - intros (_ & Hd & Hwf & Hl). assert (mask_is_read m) as Hm.
    { destruct Hcond as [|Hn]; [by left|]. right. left. intros Hv. apply Hn. rewrite Hd.
      pose proof (encode_message_first m [] _ Hwf) as Hf. rewrite app_nil_r in Hf. by apply Hf. }
    rewrite native_message_documented in Hd, Hl by done. by rewrite Hd.
  - intros (Hwf & Hd & Hl & Hm). rewrite native_message_documented by done. by rewrite <- Hd.
Qed.

(** The first byte of the mask. *)
Lemma mask_byte b mask m post :
  msg_version m = V1 -> get (encode_with_mask (b :: mask) m ++ post) 4 = Some b.
Proof.
  intros Hv. unfold encode_with_mask. rewrite Hv, <- !app_assoc. by apply get_app_mid.
Qed.

Lemma le_mask_byte c : exists mask, le_bytes 4 (config_mask c) = byte_of_Z (config_mask c) :: mask.
Proof. by destruct c as [[] [] [] []]; eexists. Qed.

Lemma be_mask_byte c : exists mask, rev (le_bytes 4 (config_mask c)) = x00 :: mask.
Proof. by destruct c as [[] [] [] []]; eexists. Qed.

(** A documented v1 message with a config is not what a big-endian target reads as one. *)
Lemma documented_not_native m m' post post' :
  msg_version m = V1 -> msg_version m' = V1 ->
  encode_message m ++ post = native_message (H := BigEndian) m' ++ post' ->
  msg_config m = empty_config.
Proof.
  intros Hv Hv' Heq. apply (f_equal (fun l => get l 4)) in Heq.
  unfold encode_message, native_message in Heq. cbn [native_bytes target_endian] in Heq.
  destruct (le_mask_byte (msg_config m)) as [k Hk].
  change (native_bytes (H := BigEndian) 4 ?z) with (rev (le_bytes 4 z)) in Heq.
  destruct (be_mask_byte (msg_config m')) as [k' Hk']. rewrite Hk, Hk' in Heq.
  rewrite !mask_byte in Heq by done. injection Heq as Heq. apply config_mask_0.
  apply (f_equal Z_of_byte) in Heq. pose proof (config_mask_range (msg_config m)).
  rewrite Z_of_byte_of_Z in Heq by lia. exact Heq.
Qed.

(** So the target rejects it, and only it. *)
Lemma documented_holds `{Target} t :
  wf_transaction 0 t -> len (encode_transaction t) <= 65535 ->
  (exists t', holds (encode_transaction t) t' []) <-> mask_is_read (tx_message t).
Proof.
  intros Hwf Hl. assert (slice_ok (encode_transaction t)) as Hb by ulia. split.
  - intros (t' & _ & Hd & Hwf' & _). unfold as_ref, Vec_AsRef, id in Hd. unfold mask_is_read.
    destruct target_endian eqn:He; [by left|]. right.
    destruct (decide (msg_version (tx_message t) = V1)) as [Hv|]; [right|by left].
    pose proof (legacy_or_v0_version t _ [] Hwf) as K.
    pose proof (is_legacy_or_v0_encode t' _ [] Hwf') as K'.
    rewrite <- Hd, <- (app_nil_r (encode_transaction t)), K in K'.
    assert (msg_version (tx_message t') = V1) as Hv'.
    { destruct (decide (msg_version (tx_message t') = V1)) as [|Hn]; [done|].
      rewrite (bool_decide_eq_true_2 _ Hn), bool_decide_eq_false_2 in K' by tauto. done. }
    unfold encode_transaction, native_transaction in Hd. rewrite Hv, Hv', <- app_assoc in Hd.
    destruct H; [done|]. by eapply documented_not_native.
  - intros Hm. exists t. unfold holds. rewrite app_nil_r, native_transaction_documented by done. done.
Qed.

Lemma documented_holds_message `{Target} m :
  wf_message 0 m -> len (encode_message m) <= 65535 ->
  (exists m', holds_message (encode_message m) m') <-> mask_is_read m.
Proof.
  intros Hwf Hl. assert (slice_ok (encode_message m)) as Hb by ulia. split.
  - intros (m' & _ & Hd & Hwf' & _). unfold as_ref, Vec_AsRef, id in Hd. unfold mask_is_read.
    destruct target_endian eqn:He; [by left|]. right.
    destruct (decide (msg_version m = V1)) as [Hv|]; [right|by left].
    pose proof (proj2 (v1_first_byte m _ Hwf) Hv) as Hf. rewrite Hd in Hf.
    pose proof (encode_message_first m' [] _ Hwf') as Hf'. rewrite app_nil_r in Hf'.
    destruct H; [done|]. eapply (documented_not_native m m' [] []); [done|by apply Hf'|].
    by rewrite !app_nil_r.
  - intros Hm. exists m. unfold holds_message. by rewrite native_message_documented.
Qed.

Lemma native_sanitize_agrees `{Target} t :
  wf_transaction 0 t -> len (native_transaction t) <= 65535 ->
  len (tx_signatures t) = num_required_signatures (msg_header (tx_message t)) ->
  (exists v, MessageView_try_new_sanitized (native_message (tx_message t)) = Ok v) <->
  (exists v, TransactionView_try_new_sanitized (native_transaction t) = Ok v).
Proof.
  intros Hwf Hl Hn. destruct (message_at _ _ Hwf) as (Hat & _ & Hs).
  pose proof (bytes_at_bounds _ _ _ Hat). pose proof (sane_signed_transaction t Hs Hn) as Hiff.
  assert (slice_ok (native_message (tx_message t))) as Hbm by ulia.
  assert (slice_ok (native_transaction t)) as Hbt by ulia. split.
  - intros (v & Hv). apply message_try_new_sanitized_holds in Hv
      as (m & (_ & Hd & Hwf' & Hl') & Hp & Hsm & _); [|done].
    assert (m = tx_message t) as -> by (apply encode_message_inj; (done || apply Hwf || lia)).
    eexists. apply try_new_sanitized_holds; [done|]. exists t.
    split; [split_and!; try done; by rewrite app_nil_r|]. split; [by apply Hiff|done].
  - intros (v & Hv). apply try_new_sanitized_holds in Hv
      as (t' & (_ & Hd & Hwf' & Hl') & Hst & _); [|done].
    assert (t = t') as <-.
    { eapply encode_transaction_prefix_free with (r1 := []) (r2 := []); try done;
        by rewrite ?app_nil_r in *. }
    eexists. apply message_try_new_sanitized_holds; [done|]. exists (tx_message t).
    apply Hiff in Hst as [Hp Hsm]. split; [|done].
    split_and!; [done|done|apply Hwf|lia].
Qed.

(** ** Properties *)

(** C3: Specification of [MessageView::try_new_sanitized], on little-endian targets, and
    on big-endian ones for legacy and v0: a buffer is accepted exactly when it is the
    serialization of a well-formed message of at most 65535 bytes that satisfies the
    sanitization rules and, for legacy and v0, whose signed transaction fits a packet;
    every accessor of the view then returns what it names of the message. *)
Theorem message_try_new_sanitized_spec `{Target} `{AsRef D} (data : D) v :
  slice_ok (as_ref data) ->
  target_endian = LittleEndian \/ get (as_ref data) 0 <> Some (byte_of_Z V1_PREFIX) ->
  MessageView_try_new_sanitized data = Ok v <->
  exists m, wf_message 0 m /\ sane_message m /\ fits_packet (msg_version m) (signed_len m) /\
    as_ref data = encode_message m /\ len (as_ref data) <= 65535 /\
    v = {| mv_data := data; mv_message_frame := message_frame 0 m |} /\ shows_message v m.
Proof.
  intros Hb Hcond. rewrite message_try_new_sanitized_holds by done. split.
  - intros (m & Hh & Hp & Hs & ->). exists m. pose proof (holds_message_views (S := true) _ _ Hh) as Hv.
    apply holds_message_documented in Hh as (Hwf & Hd & Hl & Hm); [|done..].
    split_and!; [done..|]. by apply views_whole_message_shows.
  - intros (m & Hwf & Hs & Hp & Hd & Hl & -> & _). exists m. split; [|done].
    apply holds_message_documented; [done..|]. split_and!; [done..|].
    destruct Hcond as [|Hn]; [by left|]. right. left. intros Hv. apply Hn. rewrite Hd.
    by apply (v1_first_byte _ _ Hwf).
Qed.

Definition sample_message_bytes (v : TransactionVersion) : list byte :=
  encode_message (sample_message v).

Lemma sample_message_sane v :
  wf_message 0 (sample_message v) /\ sane_message (sample_message v) /\
  fits_packet v (signed_len (sample_message v)) /\ len (sample_message_bytes v) <= 65535.
Proof.
  split; [apply (sample_transaction_wf v)|]. split; [apply (sample_transaction_sane v)|].
  destruct v; split; vm_compute; (discriminate || done).
Qed.

Example message_try_new_sanitized_spec_witness :
  MessageView_try_new_sanitized (sample_message_bytes V0) =
  Ok {| mv_data := sample_message_bytes V0; mv_message_frame := message_frame 0 (sample_message V0) |}.
Proof.
  refine (proj2 (message_try_new_sanitized_spec (sample_message_bytes V0) _ _ (or_introl eq_refl)) _);
    [vm_compute; discriminate|].
  exists (sample_message V0). destruct (sample_message_sane V0) as (H1 & H2 & H3 & H4).
  split; [exact H1|]. split; [exact H2|]. split; [exact H3|]. split; [reflexivity|].
  split; [exact H4|]. split; [reflexivity|].
  apply views_whole_message_shows; [by left|].
  split; [vm_compute; discriminate|]. split; [reflexivity|]. split; [exact H1|].
  split; [exact H4|reflexivity].
Defined.

(** C35: Sanitizing a message agrees with sanitizing the signed transaction, as
    [MessageView::sanitize] documents, as long as the offsets of the transaction fit:
    for any well-formed transaction of at most 65535 bytes with one signature per
    required signer, the message alone is accepted exactly when the whole transaction
    is, on targets of either byte order.  Above that size the agreement fails
    ([large_v1_message_cannot_be_signed]). *)
Theorem message_sanitize_agrees `{Target} t :
  wf_transaction 0 t -> len (encode_transaction t) <= 65535 ->
  len (tx_signatures t) = num_required_signatures (msg_header (tx_message t)) ->
  (exists v, MessageView_try_new_sanitized (encode_message (tx_message t)) = Ok v) <->
  (exists v, TransactionView_try_new_sanitized (encode_transaction t) = Ok v).
Proof.
  intros Hwf Hl Hn. assert (slice_ok (encode_transaction t)) as Hbt by ulia.
  assert (len (encode_message (tx_message t)) <= len (encode_transaction t)) as Hlm.
  { unfold encode_transaction. destruct (msg_version (tx_message t)); len_lia. }
  assert (slice_ok (encode_message (tx_message t))) as Hbm by ulia.
  assert (mask_is_read (tx_message t) ->
    (exists v, MessageView_try_new_sanitized (encode_message (tx_message t)) = Ok v) <->
    (exists v, TransactionView_try_new_sanitized (encode_transaction t) = Ok v)) as Hagree.
  { intros Hm. rewrite <- native_message_documented, <- native_transaction_documented by done.
    apply native_sanitize_agrees; [done|by rewrite len_native_transaction|done]. }
  split; intros (v & Hv); (apply Hagree; [|by exists v]).
  - apply message_try_new_sanitized_holds in Hv as (m & Hh & _); [|done].
    apply documented_holds_message; [apply Hwf|lia|by exists m].
  - apply try_new_sanitized_holds in Hv as (t' & Hh & _); [|done].
    by apply documented_holds; [| |exists t'].
Qed.

Example message_sanitize_agrees_witness :
  (exists v, MessageView_try_new_sanitized (encode_message (sample_message V1)) = Ok v) <->
  (exists v, TransactionView_try_new_sanitized (encode_transaction (sample_transaction V1)) = Ok v).
Proof.
  apply (message_sanitize_agrees (sample_transaction V1));
    [apply sample_transaction_wf|apply sample_transaction_len|reflexivity].
Defined.

(** A sanitized legacy or v0 message can always be signed: with any
    signatures, one per required signer, the transaction formed from it is
    accepted by [TransactionView::try_new_sanitized]. *)
Theorem signing_sanitized_message `{Target} m sigs v :
  slice_ok (encode_message m) -> wf_message 0 m ->
  MessageView_try_new_sanitized (encode_message m) = Ok v -> msg_version m <> V1 ->
  Forall (fun s => len s = size_of_Signature) sigs ->
  len sigs = num_required_signatures (msg_header m) ->
  let t := {| tx_signatures := sigs; tx_message := m |} in
  TransactionView_try_new_sanitized (encode_transaction t) =
    Ok {| tv_data := encode_transaction t; tv_frame := transaction_frame t |}.
Proof.
  intros Hb Hwf Hv Hver Hs Hn t. assert (mask_is_read m) as Hm by by right; left.
  assert (mask_is_read (tx_message t)) as Hmt by done.
  apply message_try_new_sanitized_holds in Hv
    as (m' & (_ & Hd & Hwf' & Hl') & Hp & Hsm & _); [|done].
  assert (m' = m) as ->.
  { unfold as_ref, Vec_AsRef, id in Hd. rewrite <- native_message_documented in Hd by done.
    apply encode_message_inj; try done. by rewrite Hd. }
  destruct (sane_message_signable sigs m Hwf Hver Hp Hsm Hs Hn) as [Hwft Hlt].
  fold t in Hwft, Hlt. assert (slice_ok (encode_transaction t)) by ulia.
  apply try_new_sanitized_holds; [done|]. exists t.
  split; [unfold holds; rewrite app_nil_r, native_transaction_documented by done; by split_and!|]. split; [|done].
  by apply sane_signed_transaction.
Qed.

Example signing_sanitized_message_witness :
  let t := {| tx_signatures := [replicate 64 x11]; tx_message := sample_message Legacy |} in
  TransactionView_try_new_sanitized (encode_transaction t) =
    Ok {| tv_data := encode_transaction t; tv_frame := transaction_frame t |}.
Proof.
  refine (signing_sanitized_message (sample_message Legacy) [replicate 64 x11] _ _ _ _ _ _ _);
    [vm_compute; discriminate|apply (sample_transaction_wf Legacy)|vm_compute; reflexivity|
     discriminate|repeat constructor|reflexivity].
Defined.

(** A v1 message close to the size limit. *)
Definition large_message : Message :=
  {| msg_version := V1; msg_header := sample_header;
     msg_account_keys := [sample_key 1; sample_key 2; sample_key 3];
     msg_recent_blockhash := sample_key 4;
     msg_instructions :=
       [{| program_id_index := 2; accounts := []; data := replicate (Z.to_nat 65380) x00 |}];
     msg_address_table_lookups := []; msg_config := empty_config |}.

Lemma large_message_len : len (encode_message large_message) = 65522.
Proof.
  unfold encode_message, encode_with_mask, large_message, encode_v1_instructions, encode_v1_header, v1_payload.
  cbn [msg_version msg_header msg_account_keys msg_recent_blockhash msg_instructions
    msg_address_table_lookups msg_config map concat accounts data v1_header].
  unfold encode_header, encode_config_values. cbn [field_bytes empty_config cfg_priority_fee_lamports
    cfg_compute_unit_limit cfg_loaded_accounts_data_size_limit cfg_requested_heap_size].
  unfold sample_key. autorewrite with len. reflexivity.
Qed.

Lemma large_message_wf : wf_message 0 large_message.
Proof.
  split; [|split; [reflexivity|]]; [wf_concrete|]. unfold wf_message_body. cbn [large_message msg_version].
  split_and!; [reflexivity|wf_concrete|reflexivity| |reflexivity|wf_concrete].
  constructor; [|constructor]. unfold wf_v1_header, v1_header. simpl vh_program_id_index.
  cbn [vh_num_accounts vh_data_len accounts data]. rewrite len_replicate, Z2Nat.id by lia.
  split_and!; uints; (done || lia).
Qed.

(** C38: For v1 the documented agreement has a gap at the size limit: a v1
    message of 65522 bytes is sanitized, but no transaction formed by signing it
    is accepted, because the end of the signatures does not fit a [u16]. *)
Theorem large_v1_message_cannot_be_signed `{Target} sigs :
  wf_transaction 0 {| tx_signatures := sigs; tx_message := large_message |} ->
  (exists v, MessageView_try_new_sanitized (encode_message large_message) = Ok v) /\
  forall v, TransactionView_try_new_sanitized
    (encode_transaction {| tx_signatures := sigs; tx_message := large_message |}) <> Ok v.
Proof.
  pose proof large_message_len as Hl. pose proof large_message_wf as Hwf.
  assert (mask_is_read large_message) as Hm by by right; right.
  assert (slice_ok (encode_message large_message)) as Hb by (uints; lia).
  set (t := {| tx_signatures := sigs; tx_message := large_message |}).
  intros [_ [Hn Hs]]. simpl in Hn, Hs. split.
  - eexists. apply message_try_new_sanitized_holds; [done|]. exists large_message.
    split; [unfold holds_message; rewrite native_message_documented by done; split_and!; [done|done|done|lia]|]. split; [exact I|]. split; [|done].
    split; [reflexivity|vm_compute; discriminate..| |constructor].
    constructor; [|constructor]. split; [vm_compute; split; [discriminate|reflexivity]|constructor].
  - intros v Hv. assert (len (encode_transaction t) = 65586) as Hlt.
    { change (encode_transaction t) with (encode_message large_message ++ concat sigs).
      by rewrite len_app, Hl, (len_concat _ _ Hs), Hn. }
    apply try_new_sanitized_holds in Hv as (t' & (_ & Hd & Hwf' & Hl') & _); [|uints; unfold as_ref, Vec_AsRef, id; lia].
    unfold as_ref, Vec_AsRef, id in Hd. rewrite app_nil_r in Hd. rewrite Hd in Hlt. lia.
Qed.

Example large_v1_message_cannot_be_signed_witness :
  (exists v, MessageView_try_new_sanitized (encode_message large_message) = Ok v) /\
  forall v, TransactionView_try_new_sanitized
    (encode_transaction {| tx_signatures := [replicate 64 x00]; tx_message := large_message |})
    <> Ok v.
Proof.
  apply (large_v1_message_cannot_be_signed [replicate 64 x00]).
  split; [apply large_message_wf|]. split; [reflexivity|repeat constructor].
Defined.

(** Memory safety of message parsing: on any buffer the constructors of
    [MessageView] return a value or an error, on either byte order. *)
Theorem message_constructors_return `{Target} `{AsRef D} (data : D) :
  slice_ok (as_ref data) ->
  returns (MessageView_try_new_unsanitized data) /\ returns (MessageView_try_new_sanitized data).
Proof.
  intros Hb. pose proof (MessageFrame_try_new_returns _ Hb) as Hr.
  unfold MessageView_try_new_sanitized.
  destruct (MessageView_try_new_unsanitized data) as [u| | | |] eqn:Hu.
  - split; [done|]. apply message_try_new_unsanitized_holds in Hu as (m & Hh & ->); [|done]. simpl.
    by destruct (MessageView_sanitize_checks _ _ Hh) as [[-> _]|[-> _]].
  - done.
  - unfold MessageView_try_new_unsanitized in Hu. by destruct (MessageFrame_try_new _).
  - unfold MessageView_try_new_unsanitized in Hu. by destruct (MessageFrame_try_new _).
  - unfold MessageView_try_new_unsanitized in Hu. by destruct (MessageFrame_try_new _).
Qed.

Example message_constructors_return_witness :
  returns (MessageView_try_new_unsanitized (D := list byte) [x80; x01; x00]) /\
  returns (MessageView_try_new_sanitized (D := list byte) [x80; x01; x00]).
Proof.
  apply (message_constructors_return (D := list byte) [x80; x01; x00]). vm_compute. discriminate.
Defined.

(** The config section of v1 messages is read back exactly: a parsed message
    has a config view precisely when it is v1, and the view returns each field of
    the config (absent fields as [None]), at the offsets computed from the mask. *)
Theorem message_config_roundtrip `{Target} `{AsRef D} (data : D) v :
  slice_ok (as_ref data) -> MessageView_try_new_unsanitized data = Ok v ->
  exists m view, as_ref data = native_message m /\ MessageView_transaction_config v = Ok view /\
  match view with
  | None => msg_version m <> V1
  | Some view => msg_version m = V1 /\
      TransactionConfigView_mask view = config_mask (msg_config m) /\
      priority_fee_lamports view = Ok (cfg_priority_fee_lamports (msg_config m)) /\
      compute_unit_limit view = Ok (cfg_compute_unit_limit (msg_config m)) /\
      loaded_accounts_data_size_limit view = Ok (cfg_loaded_accounts_data_size_limit (msg_config m)) /\
      requested_heap_size view = Ok (cfg_requested_heap_size (msg_config m))
  end.
Proof.
  intros Hb Hv. apply message_try_new_unsanitized_holds in Hv as (m & Hh & ->); [|done].
  exists m, (MessageViewRef_transaction_config (message_ref false m)).
  split; [apply Hh|]. split.
  - unfold MessageView_transaction_config.
    by rewrite (MessageView_message_Ok (S := false) _ _ (holds_message_views _ _ Hh)).
  - apply views_message_config. destruct Hh as (_ & _ & Hwf & Hl).
    by apply views_whole_message_ref.
Qed.

Example message_config_roundtrip_witness :
  exists m view, sample_message_bytes V1 = native_message m /\
    MessageView_transaction_config
      (message_view_of (S := false) (sample_message_bytes V1) (sample_message V1)) = Ok view /\
  match view with
  | None => msg_version m <> V1
  | Some view => msg_version m = V1 /\
      TransactionConfigView_mask view = config_mask (msg_config m) /\
      priority_fee_lamports view = Ok (cfg_priority_fee_lamports (msg_config m)) /\
      compute_unit_limit view = Ok (cfg_compute_unit_limit (msg_config m)) /\
      loaded_accounts_data_size_limit view = Ok (cfg_loaded_accounts_data_size_limit (msg_config m)) /\
      requested_heap_size view = Ok (cfg_requested_heap_size (msg_config m))
  end.
Proof.
  refine (message_config_roundtrip (sample_message_bytes V1) _ _ _);
    [vm_compute; discriminate|vm_compute; reflexivity].
Defined.

(** C39: On a big-endian target the mask of a v1 message is read in the wrong byte
    order: the parser copies it without [u32::from_le], unlike every other integer.  So
    the serialization of a well-formed transaction, or of its message alone, which is
    always parsed on a little-endian target, is parsed on a big-endian one exactly if it
    is legacy or v0 or has no config value; every v1 transaction with a config value is
    rejected there. *)
Theorem big_endian_mask_is_misread t :
  wf_transaction 0 t -> len (encode_transaction t) <= 65535 ->
  let m := tx_message t in
  (exists v, TransactionView_try_new_unsanitized (H := LittleEndian) (encode_transaction t) = Ok v) /\
  (exists v, MessageView_try_new_unsanitized (H := LittleEndian) (encode_message m) = Ok v) /\
  ((exists v, TransactionView_try_new_unsanitized (H := BigEndian) (encode_transaction t) = Ok v) <->
   msg_version m <> V1 \/ msg_config m = empty_config) /\
  ((exists v, MessageView_try_new_unsanitized (H := BigEndian) (encode_message m) = Ok v) <->
   msg_version m <> V1 \/ msg_config m = empty_config).
Proof.
  intros Hwf Hl m. assert (slice_ok (encode_transaction t)) as Hbt by ulia.
  assert (len (encode_message m) <= len (encode_transaction t)) as Hlm.
  { unfold encode_transaction, m. destruct (msg_version (tx_message t)); len_lia. }
  assert (slice_ok (encode_message m)) as Hbm by ulia.
  assert (forall T : Target,
    (exists v, TransactionView_try_new_unsanitized (encode_transaction t) = Ok v) <-> mask_is_read m) as Ht.
  { intros T. unfold m. rewrite <- documented_holds by done. split.
    - intros (v & (t' & Hh & _)%try_new_unsanitized_holds); [by exists t'|done].
    - intros (t' & Hh). exists (view_of (encode_transaction t) t').
      apply try_new_unsanitized_holds; [done|]. by exists t'. }
  assert (forall T : Target,
    (exists v, MessageView_try_new_unsanitized (encode_message m) = Ok v) <-> mask_is_read m) as Hm.
  { intros T. rewrite <- documented_holds_message by (apply Hwf || lia). split.
    - intros (v & (m' & Hh & _)%message_try_new_unsanitized_holds); [by exists m'|done].
    - intros (m' & Hh). exists (message_view_of (encode_message m) m').
      apply message_try_new_unsanitized_holds; [done|]. by exists m'. }
  split_and!; [apply Ht; by left|apply Hm; by left|rewrite Ht|rewrite Hm]; unfold mask_is_read;
    (split; [intros [[=]|Hr]; exact Hr|by right]).
Qed.

Example big_endian_mask_is_misread_witness :
  ~ exists v, TransactionView_try_new_unsanitized (H := BigEndian) (sample_bytes V1) = Ok v.
Proof.
  intros Hv. pose proof (big_endian_mask_is_misread (sample_transaction V1)
    (sample_transaction_wf V1) (sample_transaction_len V1)) as (_ & _ & Ht & _).
  destruct (proj1 Ht Hv) as [Hn|[=]]. by apply Hn.
Defined.
