(* ===== verification/ResolvedTransactionView.v ===== *)
(** * resolved_transaction_view.rs: transactions with resolved address lookups

    The resolution of address table lookups, the cache of writable accounts, and
    what [is_writable] means for an account of the transaction. *)

From stdpp Require Import base list numbers gmap.
From Stdlib Require Import ZArith Lia Strings.Byte.
From S2P Require Import Prelude Cursor RustIterator Bytes SignatureFrame MessageHeaderFrame.
From S2P Require Import StaticAccountKeysFrame AddressTableLookupFrame InstructionsFrame.
From S2P Require Import TransactionConfigView MessageFrame Message TransactionFrame Views.
From S2P Require Import Sanitize Samples TransactionView SvmStaticMessage MessageView.
Local Open Scope Z_scope.
Local Open Scope rust_scope.

(** [solana_message::v0::LoadedAddressesView]. *)
Record LoadedAddressesView := {
  writable : list (list byte);
  readonly : list (list byte) }.

(** A source of resolved addresses: [LoadedAddressesView: From<&A>]. *)
Class LoadedAddressesSource (A : Type) := loaded_addresses_view_from : A -> LoadedAddressesView.

(** [solana_message::v0::LoadedAddresses], the default source. *)
Record LoadedAddresses := {
  la_writable : list (list byte);
  la_readonly : list (list byte) }.

#[global] Instance LoadedAddresses_source : LoadedAddressesSource LoadedAddresses := fun a =>
  {| writable := la_writable a; readonly := la_readonly a |}.

(** The parts of the solana crates that the code calls: the iteration of
    [solana_message::AccountKeys] and the address [bpf_loader_upgradeable::ID]. *)
Class SolanaCrates := {
  account_keys_iter : list (list byte) -> option LoadedAddressesView -> list (list byte);
  bpf_loader_upgradeable_ID : list byte }.

(** [AccountKeys] documents its order: the static keys, then the loaded writable
    addresses, then the loaded read-only addresses. *)
Definition account_keys_in_order `{SolanaCrates} : Prop :=
  forall static loaded, account_keys_iter static loaded =
    static ++ match loaded with Some l => writable l ++ readonly l | None => [] end.

Record ResolvedTransactionView (D A : Type) := {
  rv_view : TransactionView true D;
  rv_resolved_addresses : option A;
  rv_writable_cache : list bool }.
Arguments rv_view {D A} _.
Arguments rv_resolved_addresses {D A} _.
Arguments rv_writable_cache {D A} _.

(** [iter().enumerate()], from a first index. *)
Fixpoint enumerate {A} (i : Z) (xs : list A) : list (Z * A) :=
  match xs with
  | [] => []
  | x :: xs => (i, x) :: enumerate (i + 1) xs
  end.

Section Resolve.
  Context `{Target} `{SolanaCrates} `{AsRef D} `{LoadedAddressesSource A}.
  Implicit Type view : TransactionView true D.

(** [is_requested_write] of the account at [index]. *)
Definition is_requested_write (num_static_account_keys num_writable_lookup_accounts
    num_signed_accounts num_writable_unsigned_static_accounts
    num_writable_signed_static_accounts index : Z) : bool :=
  if num_static_account_keys <=? index then
    let loaded_address_index := wrapping_sub USIZE index num_static_account_keys in
    loaded_address_index <? num_writable_lookup_accounts
  else if num_signed_accounts <=? index then
    let unsigned_account_index := wrapping_sub USIZE index num_signed_accounts in
    unsigned_account_index <? num_writable_unsigned_static_accounts
  else index <? num_writable_signed_static_accounts.

(** One round over the instructions: a writable program account is demoted,
    unless the upgradeable loader is among the keys; the search for it is made
    once, when it is first needed. *)
Definition demote_program (account_keys : list (list byte)) (s : list bool * option bool)
    (ix : SVMInstruction) : Result (list bool * option bool) :=
  let '(is_writable_cache, is_upgradable_loader_present) := s in
  let? is_writable := index is_writable_cache (program_id_index ix) in
  if (is_writable : bool) then
    let present :=
      match is_upgradable_loader_present with
      | Some present => present
      | None => existsb (fun key => bool_decide (key = bpf_loader_upgradeable_ID)) account_keys
      end in
    if present then Ok (is_writable_cache, Some present)
    else
      let? is_writable_cache := index_set is_writable_cache (program_id_index ix) false in
      Ok (is_writable_cache, Some present)
  else Ok (is_writable_cache, is_upgradable_loader_present).

Definition cache_is_writable view (resolved_addresses : option LoadedAddressesView)
    (reserved_account_keys : gset (list byte)) : Result (list bool) :=
  let? static_account_keys := TransactionView_static_account_keys view in
  let account_keys := account_keys_iter static_account_keys resolved_addresses in
  let num_static_account_keys := TransactionView_num_static_account_keys view in
  let num_writable_lookup_accounts := TransactionView_total_writable_lookup_accounts view in
  let num_signed_accounts := TransactionView_num_required_signatures view in
  let? num_writable_unsigned_static_accounts :=
    TransactionView_num_writable_unsigned_static_accounts view in
  let? num_writable_signed_static_accounts :=
    TransactionView_num_writable_signed_static_accounts view in
  let? is_writable_cache := ofold (fun cache '(index, key) =>
      index_set cache index
        (is_requested_write num_static_account_keys num_writable_lookup_accounts
           num_signed_accounts num_writable_unsigned_static_accounts
           num_writable_signed_static_accounts index &&
         negb (bool_decide (key ∈ reserved_account_keys))))
    (replicate 256 false) (enumerate 0 account_keys) in
  let? instructions := TransactionView_instructions_iter view in
  let? s := for_each (demote_program account_keys) (is_writable_cache, None) instructions in
  Ok s.1.

Definition ResolvedTransactionView_try_new_with_source view (resolved_addresses : option A)
    (reserved_account_keys : gset (list byte)) : Result (ResolvedTransactionView D A) :=
  let resolved_addresses_view := loaded_addresses_view_from <$> resolved_addresses in
  let? _ := err_if (match TransactionView_version view, resolved_addresses_view with
                    | V0, None => true
                    | _, _ => false
                    end) AddressLookupMismatch in
  let? _ := match resolved_addresses_view with
            | Some loaded_addresses_view =>
                err_if (negb (len (writable loaded_addresses_view) =?
                              TransactionView_total_writable_lookup_accounts view) ||
                        negb (len (readonly loaded_addresses_view) =?
                              TransactionView_total_readonly_lookup_accounts view))
                  AddressLookupMismatch
            | None =>
                err_if (negb (TransactionView_total_writable_lookup_accounts view =? 0) ||
                        negb (TransactionView_total_readonly_lookup_accounts view =? 0))
                  AddressLookupMismatch
            end in
  let? writable_cache := cache_is_writable view resolved_addresses_view reserved_account_keys in
  Ok {| rv_view := view; rv_resolved_addresses := resolved_addresses;
        rv_writable_cache := writable_cache |}.

Implicit Type self : ResolvedTransactionView D A.

(** [Deref], which makes the methods of the view available. *)
Definition ResolvedTransactionView_deref self : TransactionView true D := rv_view self.
Definition ResolvedTransactionView_into_view self : TransactionView true D := rv_view self.

Definition ResolvedTransactionView_loaded_addresses_view self : option LoadedAddressesView :=
  loaded_addresses_view_from <$> rv_resolved_addresses self.

Definition ResolvedTransactionView_account_keys self : Result (list (list byte)) :=
  let? static_account_keys := TransactionView_static_account_keys (rv_view self) in
  Ok (account_keys_iter static_account_keys (ResolvedTransactionView_loaded_addresses_view self)).

Definition ResolvedTransactionView_is_writable self (index : Z) : bool :=
  default false (get (rv_writable_cache self) index).

Definition ResolvedTransactionView_signature self : Result (list byte) :=
  let? signatures := TransactionView_signatures (rv_view self) in index signatures 0.

Definition ResolvedTransactionView_signatures self : Result (list (list byte)) :=
  TransactionView_signatures (rv_view self).
End Resolve.

Definition ResolvedTransactionView_try_new `{Target} `{SolanaCrates} `{AsRef D}
    (view : TransactionView true D) (resolved_addresses : option LoadedAddresses)
    (reserved_account_keys : gset (list byte)) :
    Result (ResolvedTransactionView D LoadedAddresses) :=
  ResolvedTransactionView_try_new_with_source view resolved_addresses reserved_account_keys.

#[global] Instance ResolvedTransactionView_SVMStaticMessage `{Target} `{AsRef D} {A} :
    SVMStaticMessage (ResolvedTransactionView D A) := {
  svm_version self := TransactionVersion_into (TransactionView_version (rv_view self));
  svm_num_transaction_signatures self := TransactionView_num_required_signatures (rv_view self);
  svm_num_write_locks self := TransactionView_num_requested_write_locks (rv_view self);
  svm_num_readonly_signed_static_accounts self :=
    TransactionView_num_readonly_signed_static_accounts (rv_view self);
  svm_num_readonly_unsigned_static_accounts self :=
    TransactionView_num_readonly_unsigned_static_accounts (rv_view self);
  svm_recent_blockhash self := TransactionView_recent_blockhash (rv_view self);
  svm_num_instructions self := TransactionView_num_instructions (rv_view self);
  svm_instructions_iter self := TransactionView_instructions_iter (rv_view self);
  svm_program_instructions_iter self :=
    TransactionView_program_instructions_iter (rv_view self);
  svm_static_account_keys self := TransactionView_static_account_keys (rv_view self);
  svm_fee_payer self :=
    let? keys := TransactionView_static_account_keys (rv_view self) in index keys 0;
  svm_num_lookup_tables self := TransactionView_num_address_table_lookups (rv_view self);
  svm_message_address_table_lookups self :=
    TransactionView_address_table_lookup_iter (rv_view self);
  svm_is_signer self index := index <? TransactionView_num_required_signatures (rv_view self);
  svm_is_invoked self key_index :=
    any_program_id_index (TransactionView_instructions_iter (rv_view self)) key_index }.

#[global, program] Instance ResolvedTransactionView_spec `{Target} `{AsRef D} {A} :
    SVMStaticMessageSpec (ResolvedTransactionView D A) := {
  svm_content r m := svm_content (rv_view r) m }.
Next Obligation. intros ???? r m Hr. exact (svm_content_sane (rv_view r) m Hr). Qed.
Next Obligation.
  intros ???? r m Hr. destruct (svm_correct (rv_view r) m Hr). by split.
Qed.

#[global] Instance ResolvedTransactionView_SVMStaticTransaction `{AsRef D} {A} :
    SVMStaticTransaction (ResolvedTransactionView D A) := {
  svm_signature self := ResolvedTransactionView_signature self;
  svm_signatures self := ResolvedTransactionView_signatures self }.

(** ** The two loops *)

Lemma get_insert {A} (l : list A) i j b :
  0 <= i < len l -> 0 <= j ->
  get (<[Z.to_nat i := b]> l) j = if i =? j then Some b else get l j.
Proof.
  intros Hi Hj. unfold get, len in *. rewrite length_insert.
  destruct (Z.eqb_spec i j) as [->|Hne].
  - destruct (Z.ltb_spec j (Z.of_nat (length l))); [|lia]. rewrite list_lookup_insert_eq; [done|lia].
  - by rewrite list_lookup_insert_ne by lia.
Qed.

Lemma len_insert {A} (l : list A) i b : len (<[i := b]> l) = len l.
Proof. unfold len. by rewrite length_insert. Qed.

Lemma index_set_Ok {E A} (l : list A) i b :
  i < len l -> index_set (E := E) l i b = Ok (<[Z.to_nat i := b]> l).
Proof. intros. unfold index_set. by zcase; [|lia]. Qed.

(** The first loop writes [f index key] for every key. *)
Lemma fill_cache (f : Z -> list byte -> bool) keys i cache :
  0 <= i -> i + len keys <= len cache ->
  exists cache', ofold (E := TransactionViewError)
      (fun cache '(index, key) => index_set cache index (f index key)) cache (enumerate i keys) =
      Ok cache' /\ len cache' = len cache /\
    forall j, 0 <= j -> get cache' j =
      if (i <=? j) && (j <? i + len keys) then f j <$> get keys (j - i) else get cache j.
Proof.
  revert i cache. induction keys as [|k keys IH]; intros i cache Hi Hl; simpl.
  - exists cache. split_and!; try done. intros j Hj. change (len []) with 0.
    repeat zcase; (done || lia).
  - autorewrite with len in Hl. pose proof (len_nonneg keys).
    rewrite index_set_Ok by lia. simpl.
    destruct (IH (i + 1) (<[Z.to_nat i := f i k]> cache)) as (cache' & Hc & Hlen & Hget);
      [lia|rewrite len_insert; lia|].
    exists cache'. split_and!; [done|by rewrite Hlen, len_insert|].
    intros j Hj. rewrite Hget, get_insert, len_cons by lia.
    destruct (Z.eqb_spec i j) as [->|Hne].
    + rewrite Z.sub_diag, get_cons_0. repeat zcase; (done || lia).
    + repeat zcase; simpl; try lia; try done. rewrite get_cons_S by lia. do 2 f_equal. lia.
Qed.

(** The second loop clears the programs, unless the loader is present. *)
Lemma demote_programs `{SolanaCrates} keys ixs cache present :
  let loader := existsb (fun key => bool_decide (key = bpf_loader_upgradeable_ID)) keys in
  Forall (fun ix => 0 <= program_id_index ix < len cache) ixs ->
  (present = None \/ present = Some loader) ->
  exists cache' present', ofold (demote_program keys) (cache, present) ixs =
      Ok (cache', present') /\ len cache' = len cache /\
    forall j, 0 <= j -> get cache' j =
      if negb loader && existsb (fun ix => program_id_index ix =? j) ixs
      then (fun _ => false) <$> get cache j else get cache j.
Proof.
  intros loader Hixs. revert cache present Hixs.
  induction ixs as [|ix ixs IH]; intros cache present Hixs Hp; simpl.
  { exists cache, present. split_and!; try done. intros j Hj. by rewrite andb_false_r. }
  apply List.Forall_cons_iff in Hixs as [Hix Hixs].
  destruct (get cache (program_id_index ix)) as [b|] eqn:Hg; [|apply get_None in Hg; lia].
  rewrite (index_Ok _ _ b) by (done || lia). simpl.
  assert (match present with Some p => p | None => loader end = loader) as Hload
    by by destruct Hp as [->| ->].
  destruct b.
  - fold loader. rewrite Hload. destruct loader eqn:Hl; simpl.
    + destruct (IH cache (Some true)) as (c' & p' & Hc & Hlen & Hget); [done|by right|].
      exists c', p'. done.
    + rewrite index_set_Ok by lia. simpl.
      destruct (IH (<[Z.to_nat (program_id_index ix) := false]> cache) (Some false))
        as (c' & p' & Hc & Hlen & Hget); [by rewrite len_insert|by right|].
      exists c', p'. split_and!; [done|by rewrite Hlen, len_insert|]. simpl in *.
      intros j Hj. rewrite Hget, get_insert by done.
      destruct (Z.eqb_spec (program_id_index ix) j) as [<-|Hne]; simpl; [|done].
      rewrite Hg. simpl. by repeat case_match.
  - destruct (IH cache present) as (c' & p' & Hc & Hlen & Hget); [done..|].
    exists c', p'. split_and!; [done..|]. intros j Hj. rewrite Hget by done.
    destruct (Z.eqb_spec (program_id_index ix) j) as [<-|Hne]; simpl; [|done].
    rewrite Hg. simpl. destruct loader; simpl; by repeat case_match.
Qed.

(** ** Writable accounts *)

(** The keys of all accounts of a message. *)
Definition all_keys (m : Message) (loaded : option LoadedAddressesView) : list (list byte) :=
  msg_account_keys m ++ match loaded with Some l => writable l ++ readonly l | None => [] end.

(** The message asks for write access to the account: a writable signer, a
    writable non-signer, or an account loaded for writing. *)
Definition requests_write (m : Message) (i : Z) : Prop :=
  let h := msg_header m in
  let n := len (msg_account_keys m) in
  0 <= i < num_required_signatures h - num_readonly_signed_accounts h \/
  num_required_signatures h <= i < n - num_readonly_unsigned_accounts h \/
  n <= i < n + total_writable (msg_address_table_lookups m).

(** ... and the runtime grants it: the key is not reserved, and the account is
    not a program the transaction invokes, unless the upgradeable loader is present. *)
Definition grants_write `{SolanaCrates} (m : Message) (loaded : option LoadedAddressesView)
    (reserved : gset (list byte)) (i : Z) : Prop :=
  requests_write m i /\
  (exists key, get (all_keys m loaded) i = Some key /\ key ∉ reserved) /\
  (invokes m i = false \/ bpf_loader_upgradeable_ID ∈ all_keys m loaded).

(** The resolved addresses match the lookups of the message. *)
Definition lookups_match (m : Message) (loaded : option LoadedAddressesView) : Prop :=
  match loaded with
  | Some l => len (writable l) = total_writable (msg_address_table_lookups m) /\
      len (readonly l) = total_readonly (msg_address_table_lookups m)
  | None => msg_version m <> V0
  end.

Section Cache.
  Context `{Target} `{SolanaCrates} `{AsRef D}.
  Context (view : TransactionView true D) (t : Transaction) (rest : list byte).
  Context (loaded : option LoadedAddressesView) (reserved : gset (list byte)).
Let m := tx_message t.
  Hypothesis Hcrates : account_keys_in_order.
  Hypothesis Hview : views_transaction view t rest.
  Hypothesis Hsane : sane_transaction t.
  Hypothesis Hmatch : lookups_match m loaded.

Lemma message_facts :
  wf_message (len rest) m /\ sane_message m /\ views_message (transaction_ref true t) m.
Proof.
  destruct Hview as (_ & _ & Hwf & Hend & _). split_and!; [apply Hwf|apply Hsane|].
  by eapply views_transaction_ref.
Qed.

Lemma len_all_keys : len (all_keys m loaded) = num_accounts m.
Proof.
  destruct message_facts as (Hwf & _). unfold all_keys, num_accounts, lookups_match in *.
  destruct loaded as [l|].
  - destruct Hmatch as [<- <-]. autorewrite with len. lia.
  - rewrite (lookups_only_v0 _ _ Hwf Hmatch). rewrite app_nil_r. change (total_writable []) with 0.
    change (total_readonly []) with 0. lia.
Qed.

Lemma is_requested_write_iff i :
  0 <= i < num_accounts m ->
  is_requested_write (len (msg_account_keys m)) (total_writable (msg_address_table_lookups m))
    (num_required_signatures (msg_header m))
    (len (msg_account_keys m) - num_required_signatures (msg_header m) -
       num_readonly_unsigned_accounts (msg_header m))
    (num_required_signatures (msg_header m) - num_readonly_signed_accounts (msg_header m)) i = true
  <-> requests_write m i.
Proof.
  intros Hi. destruct message_facts as (Hwf & [F Hd N _ _] & _).
  pose proof (header_range _ _ Hwf) as (? & ? & ? & ?). pose proof (lookup_totals_range _ _ Hwf).
  unfold is_requested_write, requests_write. uints.
  destruct (Z.leb_spec (len (msg_account_keys m)) i);
    [|destruct (Z.leb_spec (num_required_signatures (msg_header m)) i)];
    rewrite ?wrapping_sub_small by (uints; lia); rewrite Z.ltb_lt; lia.
Qed.

(** What the loops leave at an index is the specification. *)
Lemma cache_entry f i :
  0 <= i ->
  (forall key, 0 <= i < num_accounts m -> f i key = true <-> requests_write m i /\ key ∉ reserved) ->
  let loader := existsb (fun key => bool_decide (key = bpf_loader_upgradeable_ID))
    (all_keys m loaded) in
  let filled := if (0 <=? i) && (i <? 0 + num_accounts m)
    then f i <$> get (all_keys m loaded) (i - 0) else get (replicate 256 false) i in
  default false (if negb loader && existsb (fun ix => program_id_index ix =? i) (msg_instructions m)
    then (fun _ => false) <$> filled else filled) = true <-> grants_write m loaded reserved i.
Proof.
  intros Hi Hf loader filled. unfold grants_write.
  assert (loader = true <-> bpf_loader_upgradeable_ID ∈ all_keys m loaded) as Hload.
  { unfold loader. rewrite existsb_exists. split.
    - intros (k & Hk & He%bool_decide_eq_true). subst k. by apply list_elem_of_In.
    - intros Hk%list_elem_of_In. eexists. split; [done|]. by apply bool_decide_eq_true. }
  assert (default false filled = true <-> requests_write m i /\
    exists key, get (all_keys m loaded) i = Some key /\ key ∉ reserved) as Hfill.
  { unfold filled. rewrite Z.sub_0_r, Z.add_0_l. destruct (Z.leb_spec 0 i); [|lia]. cbn [andb].
    destruct (Z.ltb_spec i (num_accounts m)) as [Hlt|Hge].
    - destruct (get (all_keys m loaded) i) as [key|] eqn:Hk.
      + simpl. rewrite Hf by lia. split; [intros []; eauto|]. by intros (? & ? & [= <-] & ?).
      + apply get_None in Hk; [|done]. rewrite len_all_keys in Hk. lia.
    - assert (get (all_keys m loaded) i = None) as ->
        by (apply get_None; [done|rewrite len_all_keys; lia]).
      assert (default false (get (replicate 256 false) i) = false) as ->.
      { unfold get. zcase; [|done]. by rewrite lookup_replicate_2
          by (unfold len in *; rewrite length_replicate in *; lia). }
      split; [done|]. by intros (_ & k & ? & _). }
  fold (invokes m i). destruct loader.
  - simpl. rewrite Hfill. intuition.
  - destruct (invokes m i) eqn:Hinv; simpl; [|rewrite Hfill; intuition].
    assert (~ bpf_loader_upgradeable_ID ∈ all_keys m loaded) by (rewrite <- Hload; done).
    split; [by destruct filled|intuition congruence].
Qed.

Lemma cache_is_writable_spec :
  exists cache, cache_is_writable view loaded reserved = Ok cache /\ len cache = 256 /\
    forall i, 0 <= i -> default false (get cache i) = true <-> grants_write m loaded reserved i.
Proof.
  destruct message_facts as (Hwf & Hs & Hr). pose proof len_all_keys as Hlen.
  pose proof (views_message_accessors _ _ Hr) as Ha.
  destruct (writable_counts_Ok _ _ _ Hr Hs Hwf) as [Hws Hwu].
  pose proof (TransactionView_message_Ok _ _ _ Hview) as Hm.
  destruct Hview as (_ & _ & _ & _ & Hf).
  unfold cache_is_writable, TransactionView_static_account_keys,
    TransactionView_num_writable_unsigned_static_accounts,
    TransactionView_num_writable_signed_static_accounts, TransactionView_instructions_iter.
  rewrite Hm. cbn [omap obind]. rewrite (ar_static_account_keys _ _ Ha), Hws, Hwu. cbn [obind].
  rewrite Hcrates. fold (all_keys m loaded).
  unfold TransactionView_num_static_account_keys, TransactionView_num_required_signatures,
    TransactionView_total_writable_lookup_accounts. rewrite Hf.
  change (MessageFrame_num_static_account_keys _) with (len (msg_account_keys m)).
  change (MessageFrame_num_required_signatures _) with (num_required_signatures (msg_header m)).
  change (MessageFrame_total_writable_lookup_accounts _)
    with (MessageViewRef_total_writable_lookup_accounts (transaction_ref true t)).
  rewrite (ar_total_writable _ _ Ha). fold m.
  set (f := fun index (key : list byte) =>
    is_requested_write (len (msg_account_keys m)) (total_writable (msg_address_table_lookups m))
      (num_required_signatures (msg_header m))
      (len (msg_account_keys m) - num_required_signatures (msg_header m) -
         num_readonly_unsigned_accounts (msg_header m))
      (num_required_signatures (msg_header m) - num_readonly_signed_accounts (msg_header m)) index &&
    negb (bool_decide (key ∈ reserved))).
  destruct (fill_cache f (all_keys m loaded) 0 (replicate 256 false)) as (c1 & Hc1 & Hl1 & Hg1);
    [done|rewrite Hlen, len_replicate; apply Hs|]. rewrite len_replicate in Hl1.
  change (ofold _ _ _) with (ofold (E := TransactionViewError)
    (fun cache '(index, key) => index_set cache index (f index key)) (replicate 256 false)
    (enumerate 0 (all_keys m loaded))). rewrite Hc1. cbn [obind].
  rewrite (for_each_yields _ _ _ _ (ar_instructions _ _ Ha)).
  destruct (demote_programs (all_keys m loaded) (msg_instructions m) c1 None)
    as (c2 & p2 & Hc2 & Hl2 & Hg2); [|by left|].
  { eapply Forall_impl; [apply (program_ids_wf _ _ Hwf)|]. intros ix Hix. rewrite Hl1. apply Hix. }
  rewrite Hc2. cbn [obind fst]. exists c2. split; [done|]. split; [by rewrite Hl2, Hl1|].
  intros i Hi. rewrite Hg2, Hg1, Hlen by done. apply cache_entry; [done|].
  intros key Hrange. unfold f. rewrite andb_true_iff, is_requested_write_iff by done.
  rewrite negb_true_iff, bool_decide_eq_false. done.
Qed.
End Cache.

#[global] Instance lookups_match_dec m loaded : Decision (lookups_match m loaded).
Proof. unfold lookups_match. destruct loaded; apply _. Defined.

Section Resolved.
  Context `{Target} `{SolanaCrates} `{AsRef D} `{LoadedAddressesSource A}.

(** The checks on the number of resolved addresses. *)
Lemma try_new_with_source_checks (view : TransactionView true D) t rest (resolved : option A)
    reserved :
  views_transaction view t rest ->
  let loaded := loaded_addresses_view_from <$> resolved in
  ResolvedTransactionView_try_new_with_source view resolved reserved =
  if decide (lookups_match (tx_message t) loaded) then
    omap (fun cache => {| rv_view := view; rv_resolved_addresses := resolved;
                          rv_writable_cache := cache |}) (cache_is_writable view loaded reserved)
  else Err AddressLookupMismatch.
Proof.
  intros Hview loaded. destruct Hview as (_ & _ & Hwf & Hend & Hf).
  pose proof (views_message_accessors _ _ (views_transaction_ref (S := true) _ _ Hwf Hend)) as Ha.
  unfold ResolvedTransactionView_try_new_with_source, TransactionView_version,
    TransactionView_total_writable_lookup_accounts, TransactionView_total_readonly_lookup_accounts.
  rewrite Hf. change (MessageFrame_version _) with (msg_version (tx_message t)).
  pose proof (ar_total_writable _ _ Ha) as Hw. pose proof (ar_total_readonly _ _ Ha) as Hr.
  unfold MessageViewRef_total_writable_lookup_accounts in Hw.
  unfold MessageViewRef_total_readonly_lookup_accounts in Hr.
  cbn [transaction_ref mr_message_frame transaction_frame tf_message] in *. rewrite Hw, Hr.
  fold loaded. destruct (decide (lookups_match (tx_message t) loaded)) as [Hm|Hm];
    destruct loaded as [l|]; unfold lookups_match in Hm.
  - destruct Hm as [-> ->]. rewrite !Z.eqb_refl. by destruct (msg_version _).
  - rewrite (lookups_only_v0 _ _ (proj1 Hwf) Hm). by destruct (msg_version (tx_message t)).
  - replace (match msg_version (tx_message t) with V0 => false | _ => false end) with false
      by by destruct (msg_version _).
    simpl. repeat (zcase; simpl); try done. by destruct Hm.
  - assert (msg_version (tx_message t) = V0) as ->; [|done].
    destruct (decide (msg_version (tx_message t) = V0)); [done|by destruct Hm].
Qed.
End Resolved.

(** ** Properties *)

(** C2: Specification of [ResolvedTransactionView::try_new_with_source] on a
    sanitized view: it fails with [AddressLookupMismatch] exactly when the
    resolved addresses do not match the lookups of the transaction, and otherwise
    returns, without a panic in its array accesses, a view whose [is_writable]
    holds for exactly the accounts the runtime grants write access to: requested
    by the header or a lookup, not reserved, and not an invoked program unless the
    upgradeable loader is among the keys. *)
Theorem resolved_try_new_spec `{Target} `{SolanaCrates} `{AsRef D} `{LoadedAddressesSource A}
    (data : D) v (resolved : option A) reserved :
  account_keys_in_order -> slice_ok (as_ref data) ->
  TransactionView_try_new_sanitized data = Ok v ->
  let loaded := loaded_addresses_view_from <$> resolved in
  exists t, as_ref data = native_transaction t /\
    let m := tx_message t in
    (~ lookups_match m loaded ->
     ResolvedTransactionView_try_new_with_source v resolved reserved = Err AddressLookupMismatch) /\
    (lookups_match m loaded ->
     exists r, ResolvedTransactionView_try_new_with_source v resolved reserved = Ok r /\
       rv_view r = v /\ ResolvedTransactionView_account_keys r = Ok (all_keys m loaded) /\
       forall i, 0 <= i ->
         ResolvedTransactionView_is_writable r i = true <-> grants_write m loaded reserved i).
Proof.
  intros Hc Hb Hv loaded. apply try_new_sanitized_holds in Hv as (t & Hh & Hs & ->); [|done].
  pose proof (holds_views (S := true) _ _ _ Hh) as Hviews. destruct Hh as (_ & Hd & Hwf & Hend).
  exists t. split; [by rewrite app_nil_r in Hd|]. cbv zeta.
  pose proof (try_new_with_source_checks _ _ _ resolved reserved Hviews) as Heq. fold loaded in Heq.
  split; intros Hm; rewrite Heq; (destruct (decide _); [|done]); [done|].
  destruct (cache_is_writable_spec _ _ _ loaded reserved Hc Hviews Hs Hm) as (cache & -> & _ & Hw).
  eexists. split; [done|]. split; [done|]. split; [|exact Hw].
  unfold ResolvedTransactionView_account_keys, TransactionView_static_account_keys. simpl.
  rewrite (TransactionView_message_Ok _ _ _ Hviews). cbn [obind].
  rewrite (ar_static_account_keys _ _ (views_message_accessors _ _
    (views_transaction_ref (S := true) _ _ Hwf Hend))). cbn [obind]. by rewrite Hc.
Qed.

(** The documented behaviour of the solana crates, as a concrete function. *)
#[local] Instance sample_crates : SolanaCrates := {
  account_keys_iter static loaded :=
    static ++ match loaded with Some l => writable l ++ readonly l | None => [] end;
  bpf_loader_upgradeable_ID := sample_key 200 }.

Definition sample_loaded : LoadedAddresses :=
  {| la_writable := [sample_key 50]; la_readonly := [sample_key 51; sample_key 52] |}.

Example resolved_try_new_spec_witness :
  let v : TransactionView true (list byte) :=
    {| tv_data := sample_bytes V0; tv_frame := transaction_frame (sample_transaction V0) |} in
  let loaded := loaded_addresses_view_from <$> Some sample_loaded in
  exists t, sample_bytes V0 = native_transaction t /\
    let m := tx_message t in
    (~ lookups_match m loaded ->
     ResolvedTransactionView_try_new_with_source v (Some sample_loaded) {[sample_key 1]} =
       Err AddressLookupMismatch) /\
    (lookups_match m loaded ->
     exists r, ResolvedTransactionView_try_new_with_source v (Some sample_loaded) {[sample_key 1]}
       = Ok r /\
       rv_view r = v /\ ResolvedTransactionView_account_keys r = Ok (all_keys m loaded) /\
       forall i, 0 <= i ->
         ResolvedTransactionView_is_writable r i = true <->
         grants_write m loaded {[sample_key 1]} i).
Proof.
  refine (resolved_try_new_spec (sample_bytes V0) _ (Some sample_loaded) {[sample_key 1]} _ _ _);
    [intros static loaded; reflexivity|vm_compute; discriminate|vm_compute; reflexivity].
Defined.

(** C7: What the runtime may rely on for every view it is given, whichever type it has:
    a view of a buffer that [TransactionView::try_new_sanitized] or
    [MessageView::try_new_sanitized] accepted, a reference to one, or a resolved view.
    Through the methods of [SVMStaticMessage]: the fee payer is the first account, signs,
    is not read-only and is not invoked by any instruction; the signers are the first
    accounts, and all are static keys; only other static accounts are invoked, and every
    instruction comes with the key of its program; there are 1 to 256 write locks. *)
Theorem svm_interface_guarantees `{Target} `{SolanaCrates} `{AsRef D} `{LoadedAddressesSource A}
    (data : D) :
  slice_ok (as_ref data) ->
  (forall v, TransactionView_try_new_sanitized data = Ok v ->
     svm_guarantees v /\ svm_guarantees {| deref := v |} /\
     forall (resolved : option A) reserved r,
       ResolvedTransactionView_try_new_with_source v resolved reserved = Ok r -> svm_guarantees r) /\
  (forall v, MessageView_try_new_sanitized data = Ok v -> svm_guarantees v).
Proof.
  intros Hb. split.
  - intros v (t & Hh & Hs & ->)%try_new_sanitized_holds; [|done].
    pose proof (holds_views (S := true) _ _ _ Hh) as Hviews. destruct Hh as (_ & _ & [Hwf _] & _).
    assert (svm_content (view_of (S := true) data t) (tx_message t)) as Hcont by by exists t, [].
    split_and!; [by eapply spec_guarantees|by apply (spec_guarantees (T := Ref (TransactionView true D)) {| deref := view_of data t |} (tx_message t) 0)|].
    intros resolved reserved r Hr. rewrite (try_new_with_source_checks _ _ _ _ _ Hviews) in Hr.
    destruct (decide _); [|done]. destruct (cache_is_writable _ _ _); [|done..].
    injection Hr as <-. by apply (spec_guarantees _ (tx_message t) 0).
  - intros v (m & Hh & _ & Hs & ->)%message_try_new_sanitized_holds; [|done].
    pose proof (holds_message_views (S := true) _ _ Hh) as Hviews. destruct Hh as (_ & _ & Hwf & _).
    eapply spec_guarantees; [|exact Hwf]. by split.
Qed.

Example svm_interface_guarantees_witness :
  svm_guarantees {| tv_data := sample_bytes V1; tv_frame := transaction_frame (sample_transaction V1) |}.
Proof.
  refine (proj1 (proj1 (svm_interface_guarantees (A := LoadedAddresses) (sample_bytes V1) _) _ _));
    [vm_compute; discriminate|vm_compute; reflexivity].
Defined.

(** The fee payer pays: in a resolved view, account 0 is writable unless
    its key is reserved, whatever programs the transaction invokes. *)
Theorem fee_payer_is_writable `{Target} `{SolanaCrates} `{AsRef D} `{LoadedAddressesSource A}
    (data : D) v (resolved : option A) reserved r :
  account_keys_in_order -> slice_ok (as_ref data) ->
  TransactionView_try_new_sanitized data = Ok v ->
  ResolvedTransactionView_try_new_with_source v resolved reserved = Ok r ->
  exists payer, svm_fee_payer r = Ok payer /\
    (ResolvedTransactionView_is_writable r 0 = true <-> payer ∉ reserved).
Proof.
  intros Hc Hb Hv Hr. apply try_new_sanitized_holds in Hv as (t & Hh & Hs & ->); [|done].
  pose proof (holds_views (S := true) _ _ _ Hh) as Hviews.
  assert (svm_content (view_of (S := true) data t) (tx_message t)) as Hcont by by exists t, [].
  rewrite (try_new_with_source_checks _ _ _ resolved reserved Hviews) in Hr.
  destruct (decide _) as [Hm|]; [|done].
  destruct (cache_is_writable_spec _ _ _ _ reserved Hc Hviews Hs Hm) as (cache & Hcache & _ & Hw).
  rewrite Hcache in Hr. injection Hr as <-.
  destruct (si_fee_payer _ _ (svm_correct _ _ Hcont)) as (k & ks & Hk & Hpay).
  exists k. split; [exact Hpay|]. unfold ResolvedTransactionView_is_writable. simpl. rewrite Hw by done.
  pose proof (sane_tx_message _ Hs) as [F Hd _ Hi _].
  unfold grants_write, all_keys. rewrite Hk. simpl. rewrite get_cons_0. split.
  - by intros (_ & (key & [= <-] & ?) & _).
  - intros Hnr. split_and!; [|by exists k|].
    + left. destruct Hh as (_ & _ & ((? & ? & ?) & _) & _). uints. lia.
    + left. apply not_true_is_false. intros (ix & Hin & Heq%Z.eqb_eq)%existsb_exists.
      rewrite List.Forall_forall in Hi. destruct (Hi ix Hin) as [? _]. lia.
Qed.

Example fee_payer_is_writable_witness :
  let v : TransactionView true (list byte) :=
    {| tv_data := sample_bytes V1; tv_frame := transaction_frame (sample_transaction V1) |} in
  let r : ResolvedTransactionView (list byte) LoadedAddresses :=
    {| rv_view := v; rv_resolved_addresses := None;
       rv_writable_cache := [true; true] ++ replicate 254 false |} in
  exists payer, svm_fee_payer r = Ok payer /\
    (ResolvedTransactionView_is_writable r 0 = true <-> payer ∉ (∅ : gset (list byte))).
Proof.
  refine (fee_payer_is_writable (A := LoadedAddresses) (sample_bytes V1) _ None ∅ _ _ _ _ _);
    [intros static loaded; reflexivity|vm_compute; discriminate|vm_compute; reflexivity|
     vm_compute; reflexivity].
Defined.
