(* ===== verification/RustStr.v ===== *)
(** * Rust strings

    The [str] operations of the Rust standard library that the event system
    uses.  A string is the list of its characters (Unicode scalar values);
    [as_bytes] is its UTF-8 encoding, and the lengths that Rust reports are
    lengths of that encoding. *)

From Stdlib Require Import ZArith Lia Strings.String DecimalString DecimalN DecimalPos.
From stdpp Require Import base list numbers.
From S2P Require Import Prelude.
Local Open Scope Z_scope.

Definition char : Type := Z.
Definition str : Type := list char.

Definition is_scalar_value (c : char) : bool :=
  ((0 <=? c) && (c <? 0xD800)) || ((0xE000 <=? c) && (c <=? 0x10FFFF)).

(** The type invariant of [str]. *)
Definition valid_str (s : str) : Prop := Forall (fun c => is_scalar_value c = true) s.

(** A string literal of ASCII characters. *)
Definition lit (s : string) : str := map Z_of_byte (String.list_byte_of_string s).

(** ** UTF-8 *)

Definition encode_utf8 (c : char) : list Z :=
  if c <? 0x80 then [c]
  else if c <? 0x800 then [0xC0 + c / 64; 0x80 + c mod 64]
  else if c <? 0x10000 then [0xE0 + c / 4096; 0x80 + (c / 64) mod 64; 0x80 + c mod 64]
  else [0xF0 + c / 262144; 0x80 + (c / 4096) mod 64; 0x80 + (c / 64) mod 64; 0x80 + c mod 64].

Definition as_bytes (s : str) : list Z := flat_map encode_utf8 s.

(** [s.len()], in bytes. *)
Definition str_len (s : str) : Z := len (as_bytes s).

(** ** Characters *)

(** [char::is_whitespace], the Unicode property White_Space. *)
Definition is_whitespace (c : char) : bool :=
  ((0x9 <=? c) && (c <=? 0xD)) || (c =? 0x20) || (c =? 0x85) || (c =? 0xA0) || (c =? 0x1680)
  || ((0x2000 <=? c) && (c <=? 0x200A)) || (c =? 0x2028) || (c =? 0x2029) || (c =? 0x202F)
  || (c =? 0x205F) || (c =? 0x3000).

Definition is_ascii_alphanumeric (b : Z) : bool :=
  ((0x30 <=? b) && (b <=? 0x39)) || ((0x41 <=? b) && (b <=? 0x5A))
  || ((0x61 <=? b) && (b <=? 0x7A)).

Definition to_ascii_lowercase (c : char) : char :=
  if (0x41 <=? c) && (c <=? 0x5A) then c + 0x20 else c.

(** ** Strings *)

Definition str_is_empty (s : str) : bool := str_len s =? 0.

Fixpoint trim_start (s : str) : str :=
  match s with
  | [] => []
  | c :: s' => if is_whitespace c then trim_start s' else s
  end.

Definition trim_end (s : str) : str := rev (trim_start (rev s)).
Definition trim (s : str) : str := trim_end (trim_start s).

(** [s.split(d)] for a one-character pattern: always at least one piece. *)
Fixpoint split (d : char) (s : str) : list str :=
  match s with
  | [] => [[]]
  | c :: s' =>
      if c =? d then [] :: split d s'
      else match split d s' with
           | piece :: pieces => (c :: piece) :: pieces
           | [] => [[c]]
           end
  end.

(** [s.split_once(d)] for a one-character pattern: at its first occurrence. *)
Fixpoint split_once (d : char) (s : str) : option (str * str) :=
  match s with
  | [] => None
  | c :: s' =>
      if c =? d then Some ([], s')
      else match split_once d s' with
           | Some (before, after) => Some (c :: before, after)
           | None => None
           end
  end.

Fixpoint starts_with (s prefix : str) : bool :=
  match prefix, s with
  | [], _ => true
  | p :: prefix', c :: s' => (c =? p) && starts_with s' prefix'
  | _ :: _, [] => false
  end.

Definition eq_ignore_ascii_case (a b : str) : bool :=
  bool_decide (map to_ascii_lowercase a = map to_ascii_lowercase b).

(** [str::cmp], the lexicographic order. *)
Fixpoint str_cmp (a b : str) : comparison :=
  match a, b with
  | [], [] => Eq
  | [], _ :: _ => Lt
  | _ :: _, [] => Gt
  | x :: a', y :: b' =>
      match x ?= y with
      | Eq => str_cmp a' b'
      | c => c
      end
  end.

(** ** Lemmas *)

Lemma lit_valid_bound s c : In c (lit s) -> 0 <= c < 256.
Proof.
  unfold lit. rewrite in_map_iff. intros (b & <- & _). apply Z_of_byte_range.
Qed.

Lemma encode_utf8_ascii c : c < 0x80 -> encode_utf8 c = [c].
Proof. intros H. unfold encode_utf8. by rewrite (proj2 (Z.ltb_lt _ _) H). Qed.

(** A character outside of ASCII starts with a byte outside of ASCII. *)
Lemma encode_utf8_wide c : 0x80 <= c -> exists b bs, encode_utf8 c = b :: bs /\ 0xC0 <= b.
Proof.
  intros H. unfold encode_utf8.
  destruct (Z.ltb_spec c 0x80); [lia|].
  pose proof (Z.div_pos c 64). pose proof (Z.div_pos c 4096). pose proof (Z.div_pos c 262144).
  repeat case_match; eexists _, _; (split; [reflexivity|lia]).
Qed.

Lemma encode_utf8_len c : 1 <= len (encode_utf8 c).
Proof. unfold encode_utf8, len. repeat case_match; simpl; lia. Qed.

Lemma str_len_cons c s : str_len (c :: s) = len (encode_utf8 c) + str_len s.
Proof. unfold str_len, as_bytes, len. simpl. rewrite length_app. lia. Qed.

Lemma str_len_app a b : str_len (a ++ b) = str_len a + str_len b.
Proof. unfold str_len, as_bytes, len. rewrite flat_map_app, length_app. lia. Qed.

Lemma str_len_nonneg s : 0 <= str_len s.
Proof. unfold str_len, len. lia. Qed.

Lemma str_len_zero s : str_len s = 0 <-> s = [].
Proof.
  destruct s as [|c s]; [done|]. rewrite str_len_cons.
  pose proof (encode_utf8_len c). pose proof (str_len_nonneg s). split; [lia|done].
Qed.

Lemma str_is_empty_spec s : str_is_empty s = bool_decide (s = []).
Proof.
  unfold str_is_empty. case_bool_decide as H.
  - by apply Z.eqb_eq, str_len_zero.
  - apply Z.eqb_neq. by rewrite str_len_zero.
Qed.

Lemma starts_with_spec s p : starts_with s p = true <-> exists t, s = p ++ t.
Proof.
  revert s. induction p as [|x p IH]; intros s.
  - split; [by exists s|by destruct s].
  - destruct s as [|c s]; [split; [done|by intros [t ?]]|]. simpl.
    rewrite andb_true_iff, Z.eqb_eq, IH. split.
    + intros [-> [t ->]]. by exists t.
    + intros [t [= -> ->]]. eauto.
Qed.

(** Two prefixes of one string that have the same length are equal. *)
Lemma prefixes_same_len s p q :
  starts_with s p = true -> starts_with s q = true -> str_len p = str_len q -> p = q.
Proof.
  rewrite !starts_with_spec. intros [t ->] [u Hu].
  destruct (app_eq_inv _ _ _ _ Hu) as [(k & -> & _)|(k & -> & _)];
    rewrite str_len_app; intros Hlen;
    assert (k = []) as -> by (apply str_len_zero; lia); by rewrite app_nil_r.
Qed.

Lemma str_cmp_eq a b : str_cmp a b = Eq <-> a = b.
Proof.
  revert b. induction a as [|x a IH]; intros [|y b]; simpl; try done.
  destruct (Z.compare_spec x y) as [->|H|H].
  - rewrite IH. split; [by intros ->|by intros [= ->]].
  - split; [done|intros [= -> ->]; lia].
  - split; [done|intros [= -> ->]; lia].
Qed.

Lemma str_cmp_antisym a b : str_cmp b a = CompOpp (str_cmp a b).
Proof.
  revert b. induction a as [|x a IH]; intros [|y b]; simpl; try done.
  rewrite (Z.compare_antisym x y), IH. by destruct (x ?= y).
Qed.

Lemma str_cmp_lt_trans a b c : str_cmp a b = Lt -> str_cmp b c = Lt -> str_cmp a c = Lt.
Proof.
  revert b c. induction a as [|x a IH]; intros [|y b] [|z c]; simpl; try done.
  destruct (Z.compare_spec x y) as [->|Hxy|Hxy]; [|intros _|done].
  - destruct (y ?= z); [apply IH|done|done].
  - destruct (Z.compare_spec y z) as [->|Hyz|Hyz]; [intros _|intros _|done];
      by rewrite (proj2 (Z.compare_lt_iff _ _)) by lia.
Qed.

(** *** Trimming *)

(** A string that trimming leaves as it is. *)
Definition trimmed (s : str) : Prop :=
  match s with
  | [] => True
  | c :: _ => is_whitespace c = false /\ is_whitespace (List.last s 0) = false
  end.

Lemma trim_start_no_ws c s : is_whitespace c = false -> trim_start (c :: s) = c :: s.
Proof. simpl. by intros ->. Qed.

Lemma trim_trimmed s : trimmed s -> trim s = s.
Proof.
  destruct s as [|c s]; [done|]. intros [Hc Hl]. unfold trim.
  rewrite trim_start_no_ws by done. unfold trim_end.
  destruct (exists_last (l := c :: s)) as (s' & x & Hx); [done|]. rewrite Hx in *.
  rewrite last_last in Hl. rewrite rev_app_distr. cbn [rev app].
  rewrite trim_start_no_ws by done. cbn [rev]. by rewrite rev_involutive.
Qed.

Lemma trim_start_all s : forallb is_whitespace s = true <-> trim_start s = [].
Proof.
  induction s as [|c s IH]; simpl; [done|].
  destruct (is_whitespace c); [done|]. by split.
Qed.

Lemma trim_start_suffix s : exists t, s = t ++ trim_start s /\ forallb is_whitespace t = true.
Proof.
  induction s as [|c s (t & IH & Ht)]; [by exists []|]. simpl.
  destruct (is_whitespace c) eqn:Hc; [|by exists []].
  exists (c :: t). simpl. rewrite Hc. split; [by f_equal|done].
Qed.

Lemma trim_start_head c s t : trim_start s = c :: t -> is_whitespace c = false.
Proof.
  induction s as [|x s IH]; simpl; [done|].
  destruct (is_whitespace x) eqn:Hx; [done|by intros [= -> _]].
Qed.

Lemma trim_is_trimmed s : trimmed (trim s).
Proof.
  unfold trim, trim_end. set (u := trim_start s).
  destruct (trim_start_suffix (rev u)) as (t & Ht & Hws).
  destruct (trim_start (rev u)) as [|c v] eqn:Hv; [done|].
  assert (Hu : u = rev (c :: v) ++ rev t) by (by rewrite <- rev_app_distr, <- Ht, rev_involutive).
  destruct (rev (c :: v)) as [|d w] eqn:Hw.
  { by apply app_eq_nil in Hw as [_ ?]. }
  split.
  - apply (trim_start_head d s (w ++ rev t)). exact Hu.
  - rewrite <- Hw. simpl. rewrite last_last. by apply trim_start_head in Hv.
Qed.

(** *** Splitting *)

Lemma split_not_nil d s : split d s <> [].
Proof. destruct s as [|c s]; simpl; [done|]. repeat case_match; done. Qed.

Lemma split_free d s : ~ In d s -> split d s = [s].
Proof.
  induction s as [|c s IH]; simpl; [done|]. intros H.
  rewrite (proj2 (Z.eqb_neq c d)), IH by naive_solver. done.
Qed.

Lemma split_app d a b : ~ In d a -> split d (a ++ d :: b) = a :: split d b.
Proof.
  induction a as [|c a IH]; simpl.
  - by rewrite Z.eqb_refl.
  - intros H. by rewrite (proj2 (Z.eqb_neq c d)), IH by naive_solver.
Qed.

Lemma split_pieces_free d s piece : In piece (split d s) -> ~ In d piece.
Proof.
  revert piece. induction s as [|c s IH]; simpl; intros piece.
  - intros [<-|[]]. by intros [].
  - destruct (Z.eqb_spec c d) as [->|Hne].
    + intros [<-|H]; [by intros []|by apply IH].
    + destruct (split d s) as [|p ps] eqn:Hs; [by destruct (split_not_nil d s)|].
      intros [<-|H]; [|apply IH; by right].
      intros [->|Hin]; [done|]. apply (IH p); [by left|done].
Qed.

Lemma split_once_free d s : ~ In d s -> split_once d s = None.
Proof.
  induction s as [|c s IH]; simpl; [done|]. intros H.
  by rewrite (proj2 (Z.eqb_neq c d)), IH by naive_solver.
Qed.

Lemma split_once_app d a b : ~ In d a -> split_once d (a ++ d :: b) = Some (a, b).
Proof.
  induction a as [|c a IH]; simpl.
  - by rewrite Z.eqb_refl.
  - intros H. by rewrite (proj2 (Z.eqb_neq c d)), IH by naive_solver.
Qed.

(** ** Decoding

    [String::from_utf8_lossy]: each maximal prefix of a character that is not
    completed by the bytes after it becomes one replacement character.  A sequence
    under way holds the bits so far, the range of the next byte and the number of
    bytes after that. *)

Definition REPLACEMENT_CHARACTER : char := 0xFFFD.

Record Sequence := {
  sq_bits : Z;
  sq_low : Z;
  sq_high : Z;
  sq_more : nat
}.

(** The first byte of a character. *)
Definition lead_byte (b : Z) : str * option Sequence :=
  if b <? 0x80 then ([b], None)
  else if (0xC2 <=? b) && (b <=? 0xDF) then ([], Some (Build_Sequence (b - 0xC0) 0x80 0xBF 0))
  else if b =? 0xE0 then ([], Some (Build_Sequence 0 0xA0 0xBF 1))
  else if b =? 0xED then ([], Some (Build_Sequence 13 0x80 0x9F 1))
  else if (0xE1 <=? b) && (b <=? 0xEF) then ([], Some (Build_Sequence (b - 0xE0) 0x80 0xBF 1))
  else if b =? 0xF0 then ([], Some (Build_Sequence 0 0x90 0xBF 2))
  else if (0xF1 <=? b) && (b <=? 0xF3) then ([], Some (Build_Sequence (b - 0xF0) 0x80 0xBF 2))
  else if b =? 0xF4 then ([], Some (Build_Sequence 4 0x80 0x8F 2))
  else ([REPLACEMENT_CHARACTER], None).

Definition lossy_step (pending : option Sequence) (b : Z) : str * option Sequence :=
  match pending with
  | None => lead_byte b
  | Some sq =>
      if (sq_low sq <=? b) && (b <=? sq_high sq) then
        let bits := 64 * sq_bits sq + (b - 0x80) in
        match sq_more sq with
        | O => ([bits], None)
        | S n => ([], Some (Build_Sequence bits 0x80 0xBF n))
        end
      else let (out, pending) := lead_byte b in (REPLACEMENT_CHARACTER :: out, pending)
  end.

Fixpoint lossy (pending : option Sequence) (bytes : list Z) : str :=
  match bytes with
  | [] => match pending with Some _ => [REPLACEMENT_CHARACTER] | None => [] end
  | b :: bytes => let (out, pending) := lossy_step pending b in out ++ lossy pending bytes
  end.

Definition from_utf8_lossy (bytes : list Z) : str := lossy None bytes.

(** The base-64 digits of a character. *)
Lemma utf8_digits c :
  0 <= c ->
  c = 64 * (c / 64) + c mod 64 /\ 0 <= c mod 64 < 64 /\
  c / 64 = 64 * (c / 4096) + (c / 64) mod 64 /\ 0 <= (c / 64) mod 64 < 64 /\
  c / 4096 = 64 * (c / 262144) + (c / 4096) mod 64 /\ 0 <= (c / 4096) mod 64 < 64 /\
  0 <= c / 262144.
Proof.
  intros Hc. replace (c / 4096) with (c / 64 / 64) by (rewrite Z.div_div; [done|lia|lia]).
  replace (c / 262144) with (c / 64 / 64 / 64) by (rewrite !Z.div_div; [done|lia|lia|lia|lia]).
  pose proof (Z.div_mod c 64 ltac:(lia)). pose proof (Z.mod_pos_bound c 64 ltac:(lia)).
  pose proof (Z.div_mod (c / 64) 64 ltac:(lia)). pose proof (Z.mod_pos_bound (c / 64) 64 ltac:(lia)).
  pose proof (Z.div_mod (c / 64 / 64) 64 ltac:(lia)).
  pose proof (Z.mod_pos_bound (c / 64 / 64) 64 ltac:(lia)). lia.
Qed.

Lemma is_scalar_value_spec c :
  is_scalar_value c = true <-> 0 <= c < 0xD800 \/ 0xE000 <= c <= 0x10FFFF.
Proof. unfold is_scalar_value. rewrite orb_true_iff, !andb_true_iff, !Z.leb_le, !Z.ltb_lt. lia. Qed.

(** Follows the decoder through the bytes of a character, by its range. *)
Ltac run_lossy :=
  repeat first
    [ progress cbn [app take lossy sq_low sq_high sq_more sq_bits andb length]
    | progress unfold lossy_step, lead_byte
    | match goal with
      | |- context [?a <? ?b] => destruct (Z.ltb_spec a b); try lia
      | |- context [?a <=? ?b] => destruct (Z.leb_spec a b); try lia
      | |- context [?a =? ?b] => destruct (Z.eqb_spec a b); try lia
      end ].

(** The decoder on a character: complete, or cut off after its first bytes. *)
Lemma lossy_encode c rest :
  is_scalar_value c = true -> lossy None (encode_utf8 c ++ rest) = c :: lossy None rest.
Proof.
  intros Hc%is_scalar_value_spec. pose proof (utf8_digits c ltac:(lia)) as Hd. unfold encode_utf8.
  revert Hd. generalize (c / 64) (c mod 64) (c / 4096) ((c / 64) mod 64) (c / 262144) ((c / 4096) mod 64).
  intros a b d e f g Hd. run_lossy; f_equal; lia.
Qed.

Lemma lossy_cut c n :
  is_scalar_value c = true -> (0 < n < length (encode_utf8 c))%nat ->
  lossy None (take n (encode_utf8 c)) = [REPLACEMENT_CHARACTER].
Proof.
  intros Hc%is_scalar_value_spec. pose proof (utf8_digits c ltac:(lia)) as Hd. unfold encode_utf8.
  revert Hd. generalize (c / 64) (c mod 64) (c / 4096) ((c / 64) mod 64) (c / 262144) ((c / 4096) mod 64).
  intros a b d e f g Hd.
  destruct n as [|[|[|[|n]]]]; run_lossy; intros Hn; try lia; done.
Qed.

Lemma as_bytes_range s : valid_str s -> Forall (fun b => 0 <= b < 256) (as_bytes s).
Proof.
  unfold as_bytes. induction 1 as [|c s Hc%is_scalar_value_spec _ IH]; simpl; [done|].
  apply Forall_app. split; [|done]. pose proof (utf8_digits c ltac:(lia)). unfold encode_utf8.
  repeat case_match; rewrite ?Z.ltb_lt, ?Z.ltb_ge in *; repeat constructor; lia.
Qed.

Lemma from_utf8_lossy_as_bytes s : valid_str s -> from_utf8_lossy (as_bytes s) = s.
Proof.
  unfold from_utf8_lossy, as_bytes. induction 1 as [|c s Hc _ IH]; simpl; [done|].
  by rewrite lossy_encode, IH.
Qed.

(** Cutting the encoding of a string at the byte [n] keeps the characters that fit, and
    leaves a replacement character for the one that is cut, if any. *)
Lemma from_utf8_lossy_take s n :
  valid_str s -> 0 <= n < str_len s ->
  exists k, str_len (take k s) <= n < str_len (take (S k) s) /\
    from_utf8_lossy (take (Z.to_nat n) (as_bytes s)) =
      take k s ++ (if str_len (take k s) =? n then [] else [REPLACEMENT_CHARACTER]).
Proof.
  intros Hs. revert n. induction Hs as [|c s Hc _ IH]; intros n Hn; [change (str_len []) with 0 in Hn; lia|].
  pose proof (encode_utf8_len c) as Hlc. rewrite str_len_cons in Hn.
  unfold from_utf8_lossy in *. change (as_bytes (c :: s)) with (encode_utf8 c ++ as_bytes s).
  destruct (Z.le_gt_cases (len (encode_utf8 c)) n) as [Hle|Hlt].
  - destruct (IH (n - len (encode_utf8 c))) as (k & Hk & He); [lia|]. exists (S k).
    cbn [take]. rewrite !str_len_cons. split; [change (take (S k) s) with (firstn (S k) s) in *; lia|].
    rewrite take_app_ge by (unfold len in *; lia). rewrite lossy_encode by done.
    replace (Z.to_nat n - length (encode_utf8 c))%nat with (Z.to_nat (n - len (encode_utf8 c)))
      by (unfold len; lia).
    rewrite He. cbn. f_equal. f_equal.
    destruct (Z.eqb_spec (str_len (take k s)) (n - len (encode_utf8 c)));
      destruct (Z.eqb_spec (len (encode_utf8 c) + str_len (take k s)) n); (done || lia).
  - exists 0%nat. cbn [take]. rewrite str_len_cons. change (str_len []) with 0.
    change (take 0 s) with (@nil Z). change (str_len []) with 0. split; [lia|]. rewrite take_app_le by (unfold len in *; lia).
    destruct (Z.eqb_spec 0 n) as [<-|Hne]; [done|].
    by rewrite lossy_cut by (done || unfold len in *; lia).
Qed.

(** [String::from_utf8]: the bytes are valid if decoding loses nothing. *)
Definition from_utf8 (bytes : list Z) : option str :=
  let s := from_utf8_lossy bytes in
  if bool_decide (as_bytes s = bytes) then Some s else None.

Lemma from_utf8_as_bytes s : valid_str s -> from_utf8 (as_bytes s) = Some s.
Proof.
  intros Hs. unfold from_utf8. rewrite from_utf8_lossy_as_bytes by done.
  by rewrite bool_decide_eq_true_2.
Qed.

Lemma from_utf8_Some bytes s : from_utf8 bytes = Some s -> as_bytes s = bytes.
Proof. unfold from_utf8. case_bool_decide; [|done]. by intros [= <-]. Qed.

(** ** Decimal numbers *)

(** Decimal notation, [format!("{n}")]. *)
Definition display (n : Z) : str := lit (NilZero.string_of_uint (N.to_uint (Z.to_N n))).

Fixpoint parse_digits (s : str) (acc : Z) : option Z :=
  match s with
  | [] => Some acc
  | c :: s =>
      if (0x30 <=? c) && (c <=? 0x39) then
        match checked_mul U64 acc 10 with
        | None => None
        | Some acc =>
            match checked_add U64 acc (c - 0x30) with
            | None => None
            | Some acc => parse_digits s acc
            end
        end
      else None
  end.

(** [s.parse::<u64>()]: digits, after an optional plus sign. *)
Definition parse_u64 (s : str) : option Z :=
  match s with
  | [] => None
  | [c] => if c =? 0x2B then None else parse_digits s 0
  | c :: rest => if c =? 0x2B then parse_digits rest 0 else parse_digits s 0
  end.

(** [s.strip_prefix(prefix)]. *)
Fixpoint strip_prefix (s prefix : str) {struct prefix} : option str :=
  match prefix, s with
  | [], _ => Some s
  | p :: prefix, c :: s => if c =? p then strip_prefix s prefix else None
  | _ :: _, [] => None
  end.

Lemma strip_prefix_app prefix s : strip_prefix (prefix ++ s) prefix = Some s.
Proof. induction prefix as [|p prefix IH]; simpl; [done|]. by rewrite Z.eqb_refl. Qed.

Lemma strip_prefix_Some s prefix rest : strip_prefix s prefix = Some rest <-> s = prefix ++ rest.
Proof.
  revert s. induction prefix as [|p prefix IH]; intros s; simpl.
  - split; [by intros [= ->]|by intros ->].
  - destruct s as [|c s]; [done|]. destruct (Z.eqb_spec c p) as [->|Hne]; [|split; [done|congruence]].
    rewrite IH. split; [by intros ->|by intros [= ->]].
Qed.

(** The digits of a decimal number and their value. *)
Fixpoint digits (d : Decimal.uint) : str :=
  match d with
  | Decimal.Nil => []
  | Decimal.D0 d => 0x30 :: digits d
  | Decimal.D1 d => 0x31 :: digits d
  | Decimal.D2 d => 0x32 :: digits d
  | Decimal.D3 d => 0x33 :: digits d
  | Decimal.D4 d => 0x34 :: digits d
  | Decimal.D5 d => 0x35 :: digits d
  | Decimal.D6 d => 0x36 :: digits d
  | Decimal.D7 d => 0x37 :: digits d
  | Decimal.D8 d => 0x38 :: digits d
  | Decimal.D9 d => 0x39 :: digits d
  end.

Definition decimal_value (s : str) (acc : Z) : Z := fold_left (fun acc c => 10 * acc + (c - 0x30)) s acc.

Lemma lit_digits d : lit (NilEmpty.string_of_uint d) = digits d.
Proof. unfold lit. induction d; simpl; try done; by f_equal. Qed.

Lemma digits_ascii d : Forall (fun c => 0x30 <= c <= 0x39) (digits d).
Proof. induction d; simpl; repeat (constructor; try lia); done. Qed.

Lemma decimal_value_pos d p : decimal_value (digits d) (Z.pos p) = Z.pos (Pos.of_uint_acc d p).
Proof.
  revert p. induction d; intros p; simpl; [done|rewrite <- IHd; unfold decimal_value; simpl; f_equal; lia..].
Qed.

Lemma decimal_value_digits d : decimal_value (digits d) 0 = Z.of_N (N.of_uint d).
Proof. induction d; simpl; [done|done|unfold decimal_value; simpl; apply decimal_value_pos..]. Qed.

Lemma decimal_value_ge s acc :
  Forall (fun c => 0x30 <= c <= 0x39) s -> 0 <= acc -> acc <= decimal_value s acc.
Proof.
  intros Hs. revert acc. induction Hs as [|c s Hc _ IH]; intros acc Ha; [done|].
  unfold decimal_value. simpl. fold (decimal_value s (10 * acc + (c - 0x30))).
  specialize (IH (10 * acc + (c - 0x30))). lia.
Qed.

Lemma parse_digits_value s acc :
  Forall (fun c => 0x30 <= c <= 0x39) s -> 0 <= acc -> decimal_value s acc < modulus U64 ->
  parse_digits s acc = Some (decimal_value s acc).
Proof.
  intros Hs. revert acc. induction Hs as [|c s Hc Hs IH]; intros acc Ha Hv; [done|].
  unfold decimal_value in Hv |- *. cbn [fold_left parse_digits] in Hv |- *. fold (decimal_value s (10 * acc + (c - 0x30))) in *.
  pose proof (decimal_value_ge s (10 * acc + (c - 0x30)) Hs ltac:(lia)) as Hge.
  rewrite (proj2 (Z.leb_le 0x30 c)), (proj2 (Z.leb_le c 0x39)) by lia. cbn [andb].
  rewrite (proj2 (checked_mul_Some U64 acc 10 (10 * acc))) by lia.
  rewrite (proj2 (checked_add_Some U64 (10 * acc) (c - 0x30) _)) by (split; [done|lia]).
  apply IH; [lia|done].
Qed.

Lemma display_digits n :
  0 <= n -> exists d, d <> Decimal.Nil /\ display n = digits d /\ decimal_value (digits d) 0 = n.
Proof.
  intros Hn. unfold display. set (u := N.to_uint (Z.to_N n)).
  assert (Hu : N.of_uint u = Z.to_N n) by apply DecimalN.Unsigned.of_to.
  assert (Hcase : u = Decimal.Nil \/ NilZero.string_of_uint u = NilEmpty.string_of_uint u /\ u <> Decimal.Nil)
    by (destruct u; [by left|by right..]).
  destruct Hcase as [E|[Hs Hne]].
  - exists (Decimal.D0 Decimal.Nil). rewrite E in Hu |- *. split; [done|]. split; [done|].
    change (0%N = Z.to_N n) in Hu. change (0 = n). lia.
  - exists u. split; [done|]. split; [by rewrite Hs, lit_digits|].
    rewrite decimal_value_digits, Hu. lia.
Qed.

(** Numbers are read back. *)
Lemma parse_u64_display n : in_width U64 n -> parse_u64 (display n) = Some n.
Proof.
  intros [Hn Hlt]. destruct (display_digits n Hn) as (d & Hd & -> & Hv).
  assert (Hp : parse_digits (digits d) 0 = Some n).
  { rewrite parse_digits_value; [by rewrite Hv|apply digits_ascii|done|by rewrite Hv]. }
  pose proof (digits_ascii d) as Ha. unfold parse_u64.
  destruct (digits d) as [|c [|c' s]] eqn:E; [by destruct d|..];
    rewrite List.Forall_cons_iff in Ha; destruct Ha as [Hc _]; (destruct (Z.eqb_spec c 0x2B); [lia|done]).
Qed.

Lemma display_ascii n : 0 <= n -> Forall (fun c => 0x30 <= c <= 0x39) (display n).
Proof. intros Hn. destruct (display_digits n Hn) as (d & _ & -> & _). apply digits_ascii. Qed.
