(* ===== verification/QueueCell.v ===== *)
(** * Events and their queue cells
      (event-system/src/queue_cell.rs, event_metadata.rs, lib.rs and
       event-system-derive/src/lib.rs)

    The attribute macro [event] gives a type a fixed-size queue cell, computed
    during compilation from the serialized size that the external crate [wincode]
    reports and from the bound in the attribute.  A panic of constant evaluation is
    an error of compilation. *)

From Stdlib Require Import ZArith Lia Strings.Byte Strings.String.
From stdpp Require Import base list numbers gmap.
From S2P Require Import Prelude RustStr.
Local Open Scope Z_scope.
Local Open Scope rust_scope.

(** ** The size of a cell *)

(** [wincode_dynamic::SerializedSize]. *)
Inductive SerializedSize :=
| Static (size : Z)
| Dynamic (lower_bound : Z).

Definition event_queue_cell_size {E} (size : SerializedSize) (max_serialized_size : option Z) :
    Outcome E Z :=
  match size with
  | Static size => Ok size
  | Dynamic lower_bound =>
      match max_serialized_size with
      | Some max_serialized_size =>
          if lower_bound <? max_serialized_size then Ok max_serialized_size else Panic
      | None => Panic
      end
  end.

(** ** The attribute macro *)

Inductive SynError :=
| GenericType
| DuplicateMaxSerializedSize
| UnsupportedAttribute
| ExpectedValue
| ExpectedInteger
| IntegerOutOfRange
| CrateNotFound.

(** An argument of the attribute as [syn] parses it: a path and what follows it.  The
    value of an integer literal is any integer; a literal can have a minus sign. *)
Inductive MetaValue := NoValue | NotAnInteger | LitInt (value : Z).

Record Meta := {
  meta_path : str;
  meta_value : MetaValue
}.

(** [meta.value()?.parse::<LitInt>()?.base10_parse::<usize>()?]: the digits are parsed
    with [usize::from_str], which takes no minus sign. *)
Definition meta_usize (value : MetaValue) : Outcome SynError Z :=
  match value with
  | NoValue => Err ExpectedValue
  | NotAnInteger => Err ExpectedInteger
  | LitInt value =>
      if value <? 0 then Err IntegerOutOfRange
      else ok_or (try_from USIZE value) IntegerOutOfRange
  end.

(** The closure that parses one argument. *)
Definition event_arg (max_serialized_size : option Z) (meta : Meta) : Outcome SynError (option Z) :=
  if bool_decide (meta_path meta = lit "max_serialized_size") then
    match max_serialized_size with
    | Some _ => Err DuplicateMaxSerializedSize
    | None => let? value := meta_usize (meta_value meta) in Ok (Some value)
    end
  else Err UnsupportedAttribute.

Definition event_args (args : list Meta) : Outcome SynError (option Z) := ofold event_arg None args.

(** [proc_macro_crate::crate_name]. *)
Inductive FoundCrate := Itself | CrateName (name : str).

Definition event_system_crate (found : option FoundCrate) : Outcome SynError str :=
  match found with
  | Some Itself => Ok (lit "::agave_event_system")
  | Some (CrateName name) =>
      Ok (lit "::" ++ map (fun c => if c =? 0x2D then 0x5F else c) name)
  | None => Err CrateNotFound
  end.

(** The type that the attribute is on. *)
Record DeriveInput := {
  di_ident : str;
  di_generics : list str
}.

(** The generated implementation: of which trait, for which type, and the bound
    that is passed to [event_queue_cell_size]. *)
Record EventImpl := {
  ei_crate : str;
  ei_ident : str;
  ei_max_serialized_size : option Z
}.

Definition event_impl (found : option FoundCrate) (args : list Meta) (input : DeriveInput) :
    Outcome SynError EventImpl :=
  match di_generics input with
  | _ :: _ => Err GenericType
  | [] =>
      let? max_serialized_size := event_args args in
      let? event_system_crate := event_system_crate found in
      Ok {| ei_crate := event_system_crate; ei_ident := di_ident input;
            ei_max_serialized_size := max_serialized_size |}
  end.

(** The associated type [QueueCell] of the implementation is [[u8; N]] with this
    [N]. *)
Definition queue_cell_len (serialized_size : SerializedSize) (impl : EventImpl) :
    Outcome SynError Z :=
  event_queue_cell_size serialized_size (ei_max_serialized_size impl).

(** The attribute on a type, down to the length of the cell. *)
Definition event (found : option FoundCrate) (serialized_size : SerializedSize) (args : list Meta)
    (input : DeriveInput) : Outcome SynError Z :=
  let? impl := event_impl found args input in queue_cell_len serialized_size impl.

(** ** Serialization *)

(** What the code uses of [wincode] for an event type: the encoding of an event,
    [serialize_into] on a cell, and [deserialize]. *)
Class Wincode (E : Type) := {
  encode : E -> list byte;
  serialized_size : SerializedSize;
  serialize_into_cell : list byte -> E -> option (list byte);
  deserialize : list byte -> option E
}.

(** Its documented behaviour: the encoding is written to the front of the cell, if
    there is room for it; reading stops at its end; and the reported size is exact
    or a strict lower bound on what an event needs besides its dynamic part. *)
Class WincodeSpec (E : Type) `{Wincode E} := {
  serialize_into_spec : forall cell e,
    serialize_into_cell cell e =
      if len (encode e) <=? len cell then Some (encode e ++ drop (length (encode e)) cell) else None;
  deserialize_spec : forall e rest, deserialize (encode e ++ rest) = Some e;
  serialized_size_spec : forall e,
    match serialized_size with Static n => len (encode e) = n | Dynamic n => n <= len (encode e) end
}.

(** ** Which attributes compile *)

(** No argument, or one bound. *)
Definition valid_arguments (args : list Meta) (m : option Z) : Prop :=
  match m with
  | None => args = []
  | Some n => exists meta, args = [meta] /\ meta_path meta = lit "max_serialized_size" /\
      meta_value meta = LitInt n /\ in_width USIZE n
  end.

Lemma meta_usize_Ok value n : meta_usize value = Ok n <-> value = LitInt n /\ in_width USIZE n.
Proof.
  unfold in_width. destruct value as [| |k]; cbn [meta_usize]; [split; [done|by intros [? _]]..|].
  destruct (Z.ltb_spec k 0); [split; [done|intros [E ?]; injection E as ->; lia]|].
  destruct (try_from USIZE k) as [k'|] eqn:Hk; cbn [ok_or].
  - apply try_from_Some in Hk as [-> ?]. split; [by intros [= <-]|by intros [[= ->] _]].
  - split; [done|]. intros [[= ->] ?]. by rewrite (proj2 (try_from_Some USIZE n n)) in Hk by lia.
Qed.

Lemma event_args_Ok args m : event_args args = Ok m <-> valid_arguments args m.
Proof.
  unfold valid_arguments.
  assert (Hsome : forall x meta rest, ofold event_arg (Some x) (meta :: rest) <> Ok m).
  { intros x meta rest. cbn [ofold]. unfold event_arg. by case_bool_decide. }
  unfold event_args. destruct args as [|meta rest].
  { split; [by intros [= <-]|]. destruct m; [by intros (? & [=] & _)|done]. }
  cbn [ofold]. unfold event_arg at 1. case_bool_decide as Hp; cbn [obind].
  2: { split; [done|]. destruct m; [|done]. by intros (meta' & [= <- _] & Hp' & _). }
  destruct (meta_usize (meta_value meta)) as [k| | | |] eqn:Hn; cbn [obind].
  2-5: split; [done|]; destruct m as [m|]; [|done]; intros (meta' & [= <- _] & _ & Hv);
    apply meta_usize_Ok in Hv; congruence.
  destruct rest as [|meta2 rest].
  - cbn [ofold]. apply meta_usize_Ok in Hn as [Hv Hlt]. split; [intros [= <-]; by exists meta|].
    destruct m as [m|]; [|done]. intros (meta' & [= <-] & _ & Hv' & _). congruence.
  - split; [by intros ?%Hsome|]. destruct m; [|done]. by intros (? & [=] & _).
Qed.

Lemma cell_size_Ok {E} size max (n : Z) :
  event_queue_cell_size (E := E) size max = Ok n <->
  match size with
  | Static s => n = s
  | Dynamic lower => max = Some n /\ lower < n
  end.
Proof.
  destruct size as [s|lower]; simpl; [split; [by intros [= ->]|by intros ->]|].
  destruct max as [m|]; [|split; [done|by intros [? _]]].
  destruct (Z.ltb_spec lower m); split; try done; [by intros [= <-]|by intros [[= ->] _]|].
  intros [[= ->] ?]. lia.
Qed.

Lemma event_Ok found size args input n :
  found <> None ->
  event found size args input = Ok n <->
  di_generics input = [] /\ exists m, valid_arguments args m /\
    match size with Static s => n = s | Dynamic lower => m = Some n /\ lower < n end.
Proof.
  intros Hf. unfold event, event_impl. destruct (di_generics input) eqn:Hg; [|split; [done|by intros [? _]]].
  assert (exists c, event_system_crate found = Ok c) as [c ->] by (destruct found as [[|]|]; [by eexists..|done]).
  split.
  - destruct (event_args args) as [m| | | |] eqn:Ha; try done. cbn [obind]. intros Hn%cell_size_Ok.
    split; [done|]. exists m. by rewrite <- event_args_Ok.
  - intros (_ & m & Ha%event_args_Ok & Hn). rewrite Ha. cbn [obind]. by apply cell_size_Ok.
Qed.

(** C25: A type with the attribute [event] compiles exactly if it has no generic
    parameters, the only argument is at most one [max_serialized_size] that is a
    [usize] (and neither negative nor too large), and, when its serialized size is dynamic, the argument is there and
    exceeds the lower bound.  Then its cells have room: an event of static size
    always fills its cell exactly, one of dynamic size is accepted exactly up to the
    bound, and what is in the cell decodes to the event, whatever the cell held
    before. *)
Theorem event_cells_have_room `{WincodeSpec E} found args input :
  found <> None ->
  (forall n, event found serialized_size args input = Ok n <->
     di_generics input = [] /\ exists m, valid_arguments args m /\
       match serialized_size with
       | Static size => n = size
       | Dynamic lower => m = Some n /\ lower < n
       end) /\
  forall n cell e, event found serialized_size args input = Ok n -> len cell = n ->
    (len (encode e) <= n ->
       exists cell', serialize_into_cell cell e = Some cell' /\ len cell' = n /\
         deserialize cell' = Some e) /\
    (n < len (encode e) -> serialize_into_cell cell e = None) /\
    match serialized_size with
    | Static _ => serialize_into_cell cell e = Some (encode e)
    | Dynamic _ => True
    end.
Proof.
  intros Hf. split; [intros n; by apply event_Ok|].
  intros n cell e (_ & m & _ & Hn)%event_Ok Hlen; [|done]. rewrite serialize_into_spec, Hlen. split_and!.
  - intros Hle. rewrite (proj2 (Z.leb_le _ _) Hle). eexists. split; [done|]. split; [|apply deserialize_spec].
    rewrite len_app. unfold len in *. rewrite length_drop. lia.
  - intros Hlt. by rewrite (proj2 (Z.leb_gt _ _) Hlt).
  - pose proof (serialized_size_spec e) as Hs. destruct serialized_size as [s|]; [|done]. subst n.
    rewrite (proj2 (Z.leb_le _ _)) by lia. rewrite drop_ge by (unfold len in *; lia). by rewrite app_nil_r.
Qed.

(** ** A sample event type: an optional byte after its tag *)

Definition sample_encode (e : option byte) : list byte :=
  match e with None => [x00] | Some b => [x01; b] end.

#[export] Instance sample_wincode : Wincode (option byte) | 10 := {
  encode := sample_encode;
  serialized_size := Dynamic 1;
  serialize_into_cell cell e :=
    if len (sample_encode e) <=? len cell
    then Some (sample_encode e ++ drop (length (sample_encode e)) cell) else None;
  deserialize bytes :=
    match bytes with
    | x00 :: _ => Some None
    | x01 :: b :: _ => Some (Some b)
    | _ => None
    end
}.

#[export] Instance sample_wincode_spec : WincodeSpec (option byte).
Proof. by constructor; [intros cell e|intros [b|] rest|intros [b|]]. Qed.

Definition sample_args : list Meta :=
  [{| meta_path := lit "max_serialized_size"; meta_value := LitInt 2 |}].
Definition sample_input : DeriveInput := {| di_ident := lit "Sample"; di_generics := [] |}.

Example negative_bound_is_rejected :
  event (Some Itself) (Dynamic 1)
    [{| meta_path := lit "max_serialized_size"; meta_value := LitInt (-5) |}] sample_input =
  Err IntegerOutOfRange.
Proof. by vm_compute. Qed.

Lemma event_cells_have_room_witness :
  event (Some Itself) serialized_size sample_args sample_input = Ok 2 /\
  exists cell', serialize_into_cell [xff; xff] (Some x05) = Some cell' /\ deserialize cell' = Some (Some x05).
Proof.
  assert (Hev : event (Some Itself) serialized_size sample_args sample_input = Ok 2) by by vm_compute.
  split; [exact Hev|].
  destruct (event_cells_have_room (Some Itself) sample_args sample_input) as [_ H]; [discriminate|].
  destruct (H 2 [xff; xff] (Some x05) Hev eq_refl) as [Hok _].
  destruct Hok as (cell' & H1 & _ & H2); [by vm_compute|]. exists cell'. split; [exact H1|exact H2].
Defined.

(** ** Metadata of events (event_metadata.rs) *)

(** The time of the clock in seconds and nanoseconds, unless it cannot be read. *)
Definition monotonic_timestamp_ns {E} (clock : option (Z * Z)) : Outcome E Z :=
  match clock with
  | None => Panic
  | Some (seconds, nanoseconds) =>
      match try_from U64 (seconds * 1000000000 + nanoseconds) with
      | Some timestamp => Ok timestamp
      | None => Panic
      end
  end.

(** The ids that each thread cached; [ids] are those that the operating system
    reports now. *)
Definition cached_thread_and_process_id (thread : nat) (ids : Z * Z) (cache : gmap nat (Z * Z)) :
    (Z * Z) * gmap nat (Z * Z) :=
  match cache !! thread with
  | Some cached => (cached, cache)
  | None => (ids, <[thread := ids]> cache)
  end.

(** A thread keeps the ids of its first call, also if they change (after a fork). *)
Lemma cached_ids_are_stable thread ids ids' cache :
  let '(first, cache') := cached_thread_and_process_id thread ids cache in
  cached_thread_and_process_id thread ids' cache' = (first, cache').
Proof.
  unfold cached_thread_and_process_id. destruct (cache !! thread) as [c|] eqn:Hc; [by rewrite Hc|].
  by rewrite lookup_insert_eq.
Qed.

(** The clock is read without a panic for more than five centuries after boot. *)
Lemma timestamp_returns {E} seconds nanoseconds :
  0 <= seconds < 584 * 365 * 86400 -> 0 <= nanoseconds < 1000000000 ->
  monotonic_timestamp_ns (E := E) (Some (seconds, nanoseconds)) = Ok (seconds * 1000000000 + nanoseconds).
Proof.
  intros Hs Hn. unfold monotonic_timestamp_ns.
  rewrite (proj2 (try_from_Some U64 _ (seconds * 1000000000 + nanoseconds))); [done|].
  split; [done|]. cbn [modulus]. lia.
Qed.
