(* ===== verification/StreamName.v ===== *)
(** * Stream names (event-system/src/stream_name.rs)

    The validated names of event streams, which are used as directory names
    and matched against the prefixes of a stream policy. *)

From Stdlib Require Import ZArith Lia Strings.String.
From stdpp Require Import base list numbers.
From S2P Require Import Prelude RustStr.
Local Open Scope Z_scope.

Inductive StreamNameValidationError := Empty | ReservedDirectoryName | InvalidCharacter.

Record StreamName := { name_str : str }.

#[global] Instance StreamName_eq_dec : EqDecision StreamName.
Proof. solve_decision. Defined.

(** ['.', '-', ':', '_'] *)
Definition VALID_SPECIAL_CHARACTERS : list char := [0x2E; 0x2D; 0x3A; 0x5F].

Fixpoint is_valid_special_character_loop (byte : Z) (chars : list char) : bool :=
  match chars with
  | ch :: rest => if byte =? ch then true else is_valid_special_character_loop byte rest
  | [] => false
  end.

Definition is_valid_special_character (byte : Z) : bool :=
  is_valid_special_character_loop byte VALID_SPECIAL_CHARACTERS.

Fixpoint validate_bytes (bytes : list Z) : Outcome StreamNameValidationError unit :=
  match bytes with
  | byte :: rest =>
      if negb (is_ascii_alphanumeric byte || is_valid_special_character byte)
      then Err InvalidCharacter
      else validate_bytes rest
  | [] => Ok tt
  end.

Definition validate_stream_name (stream_name : str) : Outcome StreamNameValidationError unit :=
  match as_bytes stream_name with
  | [] => Err Empty
  | stream_name_bytes =>
      if bool_decide (stream_name_bytes = [0x2E]) || bool_decide (stream_name_bytes = [0x2E; 0x2E])
      then Err ReservedDirectoryName
      else validate_bytes stream_name_bytes
  end.

Definition StreamName_try_new (name : str) : Outcome StreamNameValidationError StreamName :=
  obind (validate_stream_name name) (fun _ => Ok {| name_str := name |}).

Definition StreamName_as_str (self : StreamName) : str := name_str self.

(** The function behind the macro [stream_name!]: a panic during constant
    evaluation is a compile error. *)
Definition stream_name (name : str) : Outcome StreamNameValidationError StreamName :=
  match validate_stream_name name with
  | Ok _ => Ok {| name_str := name |}
  | _ => Panic
  end.

(** ** Specification *)

(** The characters of the documentation: ASCII alphanumeric characters and
    [-], [.], [:], [_]. *)
Definition name_char (c : char) : Prop :=
  0x30 <= c <= 0x39 \/ 0x41 <= c <= 0x5A \/ 0x61 <= c <= 0x7A \/
  c = 0x2D \/ c = 0x2E \/ c = 0x3A \/ c = 0x5F.

Definition reserved_name (s : str) : Prop := s = lit "." \/ s = lit "..".

Definition valid_name (s : str) : Prop :=
  s <> [] /\ ~ reserved_name s /\ Forall name_char s.

(** The type invariant of [StreamName]: its field is private, and [try_new] and
    the macro are its only constructors. *)
Definition wf_name (n : StreamName) : Prop := valid_name (name_str n).

Lemma byte_check_spec b :
  is_ascii_alphanumeric b || is_valid_special_character b = true <-> name_char b.
Proof.
  unfold is_valid_special_character, VALID_SPECIAL_CHARACTERS, is_ascii_alphanumeric, name_char.
  cbn [is_valid_special_character_loop].
  repeat match goal with |- context [if ?x =? ?y then _ else _] => destruct (Z.eqb_spec x y) end;
    rewrite ?orb_true_iff, ?andb_true_iff, ?Z.leb_le; lia.
Qed.

Lemma name_char_ascii c : name_char c -> 0 <= c < 0x80.
Proof. unfold name_char. lia. Qed.

Lemma validate_bytes_spec bs :
  validate_bytes bs = (if forallb (fun b => is_ascii_alphanumeric b || is_valid_special_character b) bs
                       then Ok tt else Err InvalidCharacter).
Proof. induction bs as [|b bs IH]; simpl; [done|]. rewrite IH. by destruct (_ || _). Qed.

Lemma as_bytes_names s :
  Forall name_char (as_bytes s) <-> Forall name_char s.
Proof.
  induction s as [|c s IH]; [done|]. unfold as_bytes. simpl. fold (as_bytes s).
  rewrite Forall_app, List.Forall_cons_iff, IH.
  destruct (Z.lt_ge_cases c 0x80) as [Hc|Hc].
  - rewrite encode_utf8_ascii by done. rewrite List.Forall_cons_iff. split; [naive_solver|].
    intros [? ?]. auto.
  - destruct (encode_utf8_wide c Hc) as (b & bs & -> & Hb). rewrite List.Forall_cons_iff.
    split; intros [H _]; [destruct H as [H _]|]; apply name_char_ascii in H; lia.
Qed.

(** The encoding of a string is one or two dots only for the string of dots. *)
Lemma as_bytes_dots s n : as_bytes s = replicate n 0x2E <-> s = replicate n 0x2E.
Proof.
  split; [|intros ->; unfold as_bytes; by induction n as [|n IH]; simpl; [|rewrite IH]].
  revert n. induction s as [|c s IH]; intros n; [by destruct n|].
  unfold as_bytes. simpl. fold (as_bytes s). intros H.
  destruct (Z.lt_ge_cases c 0x80) as [Hc|Hc].
  - rewrite encode_utf8_ascii in H by done. destruct n; [done|]. injection H as -> H.
    simpl. f_equal. by apply IH.
  - destruct (encode_utf8_wide c Hc) as (b & bs & Heq & Hb). rewrite Heq in H.
    destruct n; [done|]. simpl in H. injection H as ? ?. lia.
Qed.

Lemma validate_stream_name_spec s :
  validate_stream_name s =
    (if bool_decide (s = []) then Err Empty
     else if bool_decide (s = lit ".") || bool_decide (s = lit "..") then Err ReservedDirectoryName
     else if forallb (fun b => is_ascii_alphanumeric b || is_valid_special_character b) (as_bytes s)
          then Ok tt else Err InvalidCharacter).
Proof.
  unfold validate_stream_name.
  destruct (as_bytes s) as [|b bs] eqn:Hs.
  { apply (as_bytes_dots s 0) in Hs. by rewrite bool_decide_eq_true_2. }
  rewrite (bool_decide_eq_false_2 (s = [])).
  2:{ intros ->. done. }
  rewrite validate_bytes_spec, <- Hs.
  assert (Hd : forall n, bool_decide (as_bytes s = replicate n 0x2E) = bool_decide (s = replicate n 0x2E))
    by (intros n; apply bool_decide_ext, as_bytes_dots).
  pose proof (Hd 1%nat) as H1. pose proof (Hd 2%nat) as H2. simpl in H1, H2. by rewrite H1, H2.
Qed.

Lemma bytes_check_spec s :
  forallb (fun b => is_ascii_alphanumeric b || is_valid_special_character b) (as_bytes s) = true <->
  Forall name_char s.
Proof.
  rewrite <- as_bytes_names, forallb_forall, List.Forall_forall.
  split; intros H b Hb; apply byte_check_spec, H, Hb.
Qed.

Lemma try_new_ok s n : StreamName_try_new s = Ok n <-> name_str n = s /\ valid_name s.
Proof.
  unfold StreamName_try_new, valid_name, reserved_name. rewrite validate_stream_name_spec.
  case_bool_decide; simpl; [naive_solver|].
  case_bool_decide; simpl; [naive_solver|]. case_bool_decide; simpl; [naive_solver|].
  rewrite <- bytes_check_spec. destruct (forallb _ _); simpl; [|naive_solver].
  destruct n as [s']; simpl. split; [intros [= ->]; naive_solver|intros [-> _]; done].
Qed.

Lemma wf_name_chars n : wf_name n -> Forall name_char (name_str n).
Proof. by intros (_ & _ & ?). Qed.

(** ** Properties *)

(** [StreamName::try_new] accepts exactly the documented names (non-empty,
    not [.] or [..], only ASCII alphanumeric characters and the four special
    ones), rejects every other string with the error for its first defect (empty,
    then reserved, then a disallowed character, including every character outside
    of ASCII) and never panics; the macro [stream_name!] builds the same names
    and panics on the others. *)
Theorem stream_name_try_new_spec s :
  (forall n, StreamName_try_new s = Ok n <-> StreamName_as_str n = s /\ valid_name s) /\
  (forall n, stream_name s = Ok n <-> StreamName_try_new s = Ok n) /\
  (~ valid_name s -> stream_name s = Panic) /\
  (StreamName_try_new s = Err Empty <-> s = []) /\
  (StreamName_try_new s = Err ReservedDirectoryName <-> reserved_name s) /\
  (StreamName_try_new s = Err InvalidCharacter <->
     s <> [] /\ ~ reserved_name s /\ Exists (fun c => ~ name_char c) s) /\
  returns (StreamName_try_new s).
Proof.
  assert (Hex : Exists (fun c => ~ name_char c) s <-> ~ Forall name_char s)
    by (apply List.Exists_Forall_neg; unfold name_char; lia).
  split; [intros n; apply try_new_ok|].
  rewrite Hex, <- bytes_check_spec. unfold valid_name, reserved_name. rewrite <- bytes_check_spec.
  unfold StreamName_try_new, stream_name. rewrite validate_stream_name_spec.
  repeat case_bool_decide; simplify_eq/=; try destruct (forallb _ _); naive_solver.
Qed.

(** A stream name is one normal component of a path: it contains no path
    separator and no NUL byte and is none of the special directory names, so
    joining it to a directory names an entry of that directory.  It contains no
    delimiter of the policy syntax and no white space either. *)
Theorem stream_name_is_path_component s n :
  StreamName_try_new s = Ok n ->
  let bytes := as_bytes (StreamName_as_str n) in
  bytes = StreamName_as_str n /\ bytes <> [] /\ bytes <> lit "." /\ bytes <> lit ".." /\
  Forall (fun b => 0 < b < 0x80 /\ b <> 0x2F /\ b <> 0x2C /\ b <> 0x3D /\ is_whitespace b = false)
    bytes.
Proof.
  rewrite try_new_ok. intros (Hn & Hne & Hres & Hall). unfold StreamName_as_str. rewrite Hn.
  assert (Hb : as_bytes s = s).
  { clear -Hall. induction Hall as [|c s Hc _ IH]; [done|]. apply name_char_ascii in Hc.
    unfold as_bytes. simpl. fold (as_bytes s). rewrite encode_utf8_ascii by lia. by rewrite IH. }
  cbv zeta. rewrite Hb. unfold reserved_name in Hres. split_and!; [done|done|tauto|tauto|].
  eapply List.Forall_impl; [|exact Hall]. unfold name_char, is_whitespace.
  intros c Hc. lia.
Qed.

Lemma stream_name_is_path_component_witness :
  StreamName_try_new (lit "slot.events:v1") = Ok {| name_str := lit "slot.events:v1" |} /\
  as_bytes (lit "slot.events:v1") = lit "slot.events:v1".
Proof.
  split; [by vm_compute|].
  exact (proj1 (stream_name_is_path_component (lit "slot.events:v1") {| name_str := lit "slot.events:v1" |}
    ltac:(by vm_compute))).
Defined.
