(* ===== verification/StreamPolicy.v ===== *)
(** * Stream policies (event-system/src/stream_policy.rs)

    The policy language that decides which streams publish events: its parser,
    the normal form it produces and the rule lookup by longest prefix. *)

From Stdlib Require Import ZArith Lia Sorted Permutation Strings.String.
From stdpp Require Import base list numbers sorting.
From S2P Require Import Prelude RustStr StreamName.
Local Open Scope Z_scope.
Local Open Scope rust_scope.

Definition DIRECTIVE_DELIMITER : char := 0x2C.
Definition PREFIX_RULE_ASSIGNMENT : char := 0x3D.
Definition ON : str := lit "on".
Definition OFF : str := lit "off".

Inductive ParseStreamFilterError := InvalidStreamRuleValue (value : str).

Inductive StreamRule := On | Off.

#[global] Instance StreamRule_eq_dec : EqDecision StreamRule.
Proof. solve_decision. Defined.

Definition StreamRule_default : StreamRule := Off.

Definition StreamRule_from_str (value : str) : Outcome ParseStreamFilterError StreamRule :=
  if eq_ignore_ascii_case value ON then Ok On
  else if eq_ignore_ascii_case value OFF then Ok Off
  else Err (InvalidStreamRuleValue value).

(** [Display]. *)
Definition StreamRule_fmt (self : StreamRule) : str :=
  match self with On => ON | Off => OFF end.

Record PrefixStreamRule := {
  pr_prefix : str;
  pr_stream_state : StreamRule
}.

#[global] Instance PrefixStreamRule_eq_dec : EqDecision PrefixStreamRule.
Proof. solve_decision. Defined.

Definition PrefixStreamRule_from_str (input : str) :
    Outcome ParseStreamFilterError PrefixStreamRule :=
  let '(prefix, rule_value) :=
    match split_once PREFIX_RULE_ASSIGNMENT input with
    | Some pieces => pieces
    | None => (input, [])
    end in
  let prefix := trim prefix in
  let rule_value := trim rule_value in
  let? stream_state :=
    if str_is_empty rule_value then Ok On else StreamRule_from_str rule_value in
  Ok {| pr_prefix := prefix; pr_stream_state := stream_state |}.

Record StreamPolicy := {
  default_rule : StreamRule;
  prefix_rules_sorted_by_length : list PrefixStreamRule
}.

Definition StreamPolicy_default : StreamPolicy :=
  {| default_rule := StreamRule_default; prefix_rules_sorted_by_length := [] |}.

Definition stream_rule (self : StreamPolicy) (name : StreamName) : StreamRule :=
  let best_match :=
    pr_stream_state <$>
      find (fun rule => starts_with (StreamName_as_str name) (pr_prefix rule))
        (rev (prefix_rules_sorted_by_length self)) in
  default (default_rule self) best_match.

(** The rule replaces the previous rule of the same prefix, in its place, or is
    pushed to the end. *)
Fixpoint replace_or_push (prefix_rules : list PrefixStreamRule) (prefix_rule : PrefixStreamRule) :
    list PrefixStreamRule :=
  match prefix_rules with
  | [] => [prefix_rule]
  | rule :: rules =>
      if bool_decide (pr_prefix rule = pr_prefix prefix_rule) then prefix_rule :: rules
      else rule :: replace_or_push rules prefix_rule
  end.

(** One round of the loop over the directives. *)
Definition directive_step (s : list PrefixStreamRule * StreamRule) (directive : str) :
    Outcome ParseStreamFilterError (list PrefixStreamRule * StreamRule) :=
  let '(prefix_rules, default_rule) := s in
  if str_is_empty directive then Ok (prefix_rules, default_rule)
  else
    match StreamRule_from_str directive with
    | Ok parsed_default_rule => Ok (prefix_rules, parsed_default_rule)
    | _ =>
        let? prefix_rule := PrefixStreamRule_from_str directive in
        if str_is_empty (pr_prefix prefix_rule)
        then Ok (prefix_rules, pr_stream_state prefix_rule)
        else Ok (replace_or_push prefix_rules prefix_rule, default_rule)
    end.

(** The comparison given to [sort_by]. *)
Definition compare_rules (left right : PrefixStreamRule) : comparison :=
  match str_len (pr_prefix left) ?= str_len (pr_prefix right) with
  | Eq => str_cmp (pr_prefix left) (pr_prefix right)
  | c => c
  end.

(** A stable sort. *)
Fixpoint insert_rule (rule : PrefixStreamRule) (rules : list PrefixStreamRule) :
    list PrefixStreamRule :=
  match rules with
  | [] => [rule]
  | rule' :: rules' =>
      match compare_rules rule rule' with
      | Gt => rule' :: insert_rule rule rules'
      | _ => rule :: rules
      end
  end.

Definition sort_rules (rules : list PrefixStreamRule) : list PrefixStreamRule :=
  foldr insert_rule [] rules.

Definition StreamPolicy_from_str (input : str) : Outcome ParseStreamFilterError StreamPolicy :=
  if str_is_empty (trim input) then Ok StreamPolicy_default
  else
    let? s := ofold directive_step ([], StreamRule_default)
                (map trim (split DIRECTIVE_DELIMITER input)) in
    Ok {| default_rule := s.2; prefix_rules_sorted_by_length := sort_rules s.1 |}.

(** ** Specification

    A policy text is a list of directives.  A directive assigns a rule to a
    prefix; the default rule is the rule of the empty prefix. *)

Definition keyword (s : str) (r : StreamRule) : Prop :=
  eq_ignore_ascii_case s (StreamRule_fmt r) = true.

(** The value after [=]. *)
Definition rule_value (v : str) (r : StreamRule) : Prop :=
  trim v = [] /\ r = On \/ keyword (trim v) r.

(** The text after the first [=] of a directive, if there is one. *)
Definition assigns (t p v : str) : Prop :=
  trim t = p ++ PREFIX_RULE_ASSIGNMENT :: v /\ ~ In PREFIX_RULE_ASSIGNMENT p.

(** [on | off | prefix[=[rule]]], with white space around every part. *)
Inductive denotes (t : str) : option (str * StreamRule) -> Prop :=
| denotes_blank : trim t = [] -> denotes t None
| denotes_default r : keyword (trim t) r -> denotes t (Some ([], r))
| denotes_bare : trim t <> [] -> (forall r, ~ keyword (trim t) r) ->
    ~ In PREFIX_RULE_ASSIGNMENT (trim t) -> denotes t (Some (trim t, On))
| denotes_rule p v r : assigns t p v -> rule_value v r -> denotes t (Some (trim p, r)).

(** A directive whose rule value [v] is not a rule. *)
Definition malformed (t v : str) : Prop :=
  exists p w, assigns t p w /\ v = trim w /\ v <> [] /\ forall r, ~ keyword v r.

(** The last rule assigned to the prefix [p]. *)
Definition last_assignment (p : str) (asgs : list (str * StreamRule)) : option StreamRule :=
  foldl (fun acc a => if bool_decide (a.1 = p) then Some a.2 else acc) None asgs.

(** What decides the rule of [name]: the last assignment to the longest prefix
    of the name, and [off] where no assignment applies. *)
Definition governs (asgs : list (str * StreamRule)) (name : str) (r : StreamRule) : Prop :=
  (exists p, starts_with name p = true /\ last_assignment p asgs = Some r /\
     forall p' r', starts_with name p' = true -> last_assignment p' asgs = Some r' ->
       str_len p' <= str_len p) \/
  ((forall p, starts_with name p = true -> last_assignment p asgs = None) /\ r = Off).

Definition rule_lt (a b : PrefixStreamRule) : Prop := compare_rules a b = Lt.

(** The type invariant of [StreamPolicy]: non-empty prefixes, sorted by length and
    then lexicographically, without duplicates. *)
Definition wf_policy (pol : StreamPolicy) : Prop :=
  StronglySorted rule_lt (prefix_rules_sorted_by_length pol) /\
  Forall (fun rule => pr_prefix rule <> []) (prefix_rules_sorted_by_length pol).

(** The policy holds the last assignment of every prefix. *)
Definition policy_holds (pol : StreamPolicy) (asgs : list (str * StreamRule)) : Prop :=
  default_rule pol = default Off (last_assignment [] asgs) /\
  forall p r, In {| pr_prefix := p; pr_stream_state := r |} (prefix_rules_sorted_by_length pol) <->
    p <> [] /\ last_assignment p asgs = Some r.

(** ** The order of the rules *)

#[local] Instance rule_lt_trans : Transitive rule_lt.
Proof.
  intros a b c. unfold rule_lt, compare_rules.
  destruct (Z.compare_spec (str_len (pr_prefix a)) (str_len (pr_prefix b))),
    (Z.compare_spec (str_len (pr_prefix b)) (str_len (pr_prefix c))); try done; intros H1 H2.
  - rewrite (proj2 (Z.compare_eq_iff _ _)) by lia. by apply str_cmp_lt_trans with (pr_prefix b).
  - by rewrite (proj2 (Z.compare_lt_iff _ _)) by lia.
  - by rewrite (proj2 (Z.compare_lt_iff _ _)) by lia.
  - by rewrite (proj2 (Z.compare_lt_iff _ _)) by lia.
Qed.

Lemma rule_lt_irrefl a : ~ rule_lt a a.
Proof.
  unfold rule_lt, compare_rules. by rewrite Z.compare_refl, (proj2 (str_cmp_eq _ _) eq_refl).
Qed.

Lemma rule_lt_len a b : rule_lt a b -> str_len (pr_prefix a) <= str_len (pr_prefix b).
Proof.
  unfold rule_lt, compare_rules.
  destruct (Z.compare_spec (str_len (pr_prefix a)) (str_len (pr_prefix b))); [lia|lia|done].
Qed.

Lemma compare_rules_eq a b : compare_rules a b = Eq -> pr_prefix a = pr_prefix b.
Proof. unfold compare_rules. case_match; try done. apply str_cmp_eq. Qed.

Lemma compare_rules_gt a b : compare_rules a b = Gt -> rule_lt b a.
Proof.
  unfold rule_lt, compare_rules. rewrite Z.compare_antisym, str_cmp_antisym.
  destruct (str_len (pr_prefix b) ?= str_len (pr_prefix a)); simpl; try done.
  by destruct (str_cmp (pr_prefix b) (pr_prefix a)).
Qed.

Lemma insert_rule_perm r rs : Permutation (insert_rule r rs) (r :: rs).
Proof.
  induction rs as [|r' rs IH]; simpl; [done|]. case_match; try done.
  rewrite IH. apply perm_swap.
Qed.

Lemma sort_rules_perm rs : Permutation (sort_rules rs) rs.
Proof. induction rs as [|r rs IH]; simpl; [done|]. by rewrite insert_rule_perm, IH. Qed.

Lemma insert_rule_sorted r rs :
  Forall (fun r' => pr_prefix r' <> pr_prefix r) rs ->
  StronglySorted rule_lt rs -> StronglySorted rule_lt (insert_rule r rs).
Proof.
  intros Hne Hs. induction Hs as [|r' rs Hs IH Hr']; simpl; [by repeat constructor|].
  apply List.Forall_cons_iff in Hne as [Hne' Hne].
  destruct (compare_rules r r') eqn:Hc.
  - by apply compare_rules_eq in Hc.
  - constructor; [by constructor|]. constructor; [done|].
    eapply List.Forall_impl; [|exact Hr']. intros a. by transitivity r'.
  - constructor; [by apply IH|]. rewrite insert_rule_perm. constructor; [|done].
    by apply compare_rules_gt.
Qed.

Lemma sort_rules_sorted rs :
  List.NoDup (map pr_prefix rs) -> StronglySorted rule_lt (sort_rules rs).
Proof.
  induction rs as [|r rs IH]; simpl; [by constructor|]. intros [Hin Hnd]%List.NoDup_cons_iff.
  apply insert_rule_sorted; [|by apply IH]. rewrite sort_rules_perm, List.Forall_forall.
  intros r' Hr' Heq. apply Hin. rewrite <- Heq. by apply in_map.
Qed.

Lemma sorted_unique rs rs' :
  StronglySorted rule_lt rs -> StronglySorted rule_lt rs' ->
  (forall r, In r rs <-> In r rs') -> rs = rs'.
Proof.
  assert (Hnd : forall l, StronglySorted rule_lt l -> List.NoDup l).
  { intros l. induction 1 as [|a l _ IH Ha]; constructor; [|done]. intros Hin.
    rewrite List.Forall_forall in Ha. by apply (rule_lt_irrefl a), Ha. }
  assert (AntiSymm (=) rule_lt).
  { intros a b Hab Hba. destruct (rule_lt_irrefl a). by transitivity b. }
  intros H1 H2 Hin. apply (StronglySorted_unique rule_lt); [done|done|].
  by apply Stdlib.Sorting.Permutation.NoDup_Permutation; [apply Hnd|apply Hnd|].
Qed.

(** ** Directives *)

Lemma ON_OFF : map to_ascii_lowercase ON <> map to_ascii_lowercase OFF.
Proof. by vm_compute. Qed.

Lemma keyword_fun s r r' : keyword s r -> keyword s r' -> r = r'.
Proof.
  unfold keyword, eq_ignore_ascii_case. rewrite !bool_decide_eq_true.
  pose proof ON_OFF. destruct r, r'; simpl; congruence.
Qed.

Lemma rule_from_str_Ok s r : StreamRule_from_str s = Ok r <-> keyword s r.
Proof.
  unfold StreamRule_from_str, keyword, eq_ignore_ascii_case. pose proof ON_OFF as Hne.
  destruct r; simpl; repeat case_bool_decide; split; intros; congruence.
Qed.

Lemma rule_from_str_cases s :
  (exists r, keyword s r /\ StreamRule_from_str s = Ok r) \/
  ((forall r, ~ keyword s r) /\ StreamRule_from_str s = Err (InvalidStreamRuleValue s)).
Proof.
  destruct (StreamRule_from_str s) as [r|e| | |] eqn:H;
    [left; exists r; by rewrite <- rule_from_str_Ok| |exfalso..].
  - right. split; [intros r; by rewrite <- rule_from_str_Ok, H|].
    revert H. unfold StreamRule_from_str. repeat case_match; congruence.
  - revert H. unfold StreamRule_from_str. repeat case_match; congruence.
  - revert H. unfold StreamRule_from_str. repeat case_match; congruence.
  - revert H. unfold StreamRule_from_str. repeat case_match; congruence.
Qed.

(** The letters of a keyword contain no [=]. *)
Lemma keyword_no_assignment s r : keyword s r -> ~ In PREFIX_RULE_ASSIGNMENT s.
Proof.
  unfold keyword, eq_ignore_ascii_case. rewrite bool_decide_eq_true. intros H Hin.
  apply (in_map to_ascii_lowercase) in Hin. rewrite H in Hin. revert Hin.
  destruct r; vm_compute; intuition discriminate.
Qed.

Lemma keyword_not_nil r : ~ keyword [] r.
Proof. by destruct r. Qed.

(** One assignment, as the parser records it. *)
Definition assign (s : list PrefixStreamRule * StreamRule) (a : str * StreamRule) :
    list PrefixStreamRule * StreamRule :=
  if bool_decide (a.1 = []) then (s.1, a.2)
  else (replace_or_push s.1 {| pr_prefix := a.1; pr_stream_state := a.2 |}, s.2).

Definition assign_opt (s : list PrefixStreamRule * StreamRule) (d : option (str * StreamRule)) :=
  match d with Some a => assign s a | None => s end.

Lemma in_dec_char (c : char) (s : str) : In c s \/ ~ In c s.
Proof. destruct (in_dec Z.eq_dec c s); tauto. Qed.

Lemma split_at_first (c : char) (s : str) : In c s -> exists p v, s = p ++ c :: v /\ ~ In c p.
Proof.
  induction s as [|x s IH]; [by intros []|]. destruct (Z.eq_dec x c) as [->|Hne].
  - intros _. exists [], s. split; [done|intros []].
  - intros [->|Hin]; [done|]. destruct (IH Hin) as (p & v & -> & Hp).
    exists (x :: p), v. split; [done|]. by intros [?|?].
Qed.

Lemma directive_step_cases s t :
  (exists d, denotes t d /\ directive_step s (trim t) = Ok (assign_opt s d)) \/
  (exists v, malformed t v /\ directive_step s (trim t) = Err (InvalidStreamRuleValue v)).
Proof.
  destruct s as [rules dflt]. unfold directive_step. rewrite str_is_empty_spec.
  case_bool_decide as Hblank; [left; exists None; split; [by constructor|done]|].
  destruct (rule_from_str_cases (trim t)) as [(r & Hr & ->)|[Hr ->]].
  { left. exists (Some ([], r)). split; [by constructor|done]. }
  unfold PrefixStreamRule_from_str.
  destruct (in_dec_char PREFIX_RULE_ASSIGNMENT (trim t)) as [Hin|Hin].
  - destruct (split_at_first _ _ Hin) as (p & v & Heq & Hp). rewrite Heq, split_once_app by done.
    rewrite str_is_empty_spec.
    assert (Ha : assigns t p v) by done.
    case_bool_decide as Hv.
    { left. exists (Some (trim p, On)). split; [econstructor; [done|by left]|]. simpl.
      rewrite str_is_empty_spec. unfold assign_opt, assign. simpl. by case_bool_decide. }
    destruct (rule_from_str_cases (trim v)) as [(r & Hk & ->)|[Hk ->]]; simpl.
    + left. exists (Some (trim p, r)). split; [econstructor; [done|by right]|].
      rewrite str_is_empty_spec. unfold assign_opt, assign. simpl. by case_bool_decide.
    + right. exists (trim v). split; [|done]. by exists p, v.
  - rewrite split_once_free by done. simpl. left. exists (Some (trim t, On)).
    rewrite (trim_trimmed (trim t)) by apply trim_is_trimmed.
    split; [by constructor|]. rewrite str_is_empty_spec. unfold assign_opt, assign. simpl. by rewrite !bool_decide_eq_false_2.
Qed.

Lemma assigns_fun t p v p' v' : assigns t p v -> assigns t p' v' -> p = p' /\ v = v'.
Proof.
  intros [H1 Hp] [H2 Hp']. pose proof (split_once_app _ p v Hp) as E1.
  pose proof (split_once_app _ p' v' Hp') as E2. rewrite <- H1, H2, E2 in E1. by simplify_eq.
Qed.

Lemma assigns_in t p v : assigns t p v -> In PREFIX_RULE_ASSIGNMENT (trim t).
Proof. intros [-> _]. apply in_or_app. right. by left. Qed.

Lemma rule_value_fun v r r' : rule_value v r -> rule_value v r' -> r = r'.
Proof.
  intros [[H ->]|H] [[H' ->]|H']; [done| | |by eapply keyword_fun].
  - rewrite H in H'. by apply keyword_not_nil in H'.
  - rewrite H' in H. by apply keyword_not_nil in H.
Qed.

Lemma denotes_fun t d d' : denotes t d -> denotes t d' -> d = d'.
Proof.
  assert (Hk : forall r p v, keyword (trim t) r -> assigns t p v -> False).
  { intros r p v Hk Ha. apply keyword_no_assignment in Hk. by apply assigns_in in Ha. }
  assert (Hn : forall p v, trim t = [] -> assigns t p v -> False).
  { intros p v E Ha. apply assigns_in in Ha. by rewrite E in Ha. }
  assert (Hb : forall r, trim t = [] -> keyword (trim t) r -> False).
  { intros r ->. apply keyword_not_nil. }
  intros [|r H1| |p v r H1 H2] [|r' H3| |p' v' r' H3 H4];
    try done; try (exfalso; unfold not in *; by eauto using assigns_in).
  - by rewrite (keyword_fun _ _ _ H1 H3).
  - destruct (assigns_fun _ _ _ _ _ H1 H3) as [-> ->]. by rewrite (rule_value_fun _ _ _ H2 H4).
Qed.

Lemma denotes_malformed t d v : denotes t d -> malformed t v -> False.
Proof.
  intros Hd (p & w & Ha & -> & Hne & Hk). pose proof (assigns_in _ _ _ Ha) as Hin.
  destruct Hd as [Hb|r Hr|_ _ Hno|p' w' r Ha' [[Hw _]|Hw]].
  - by rewrite Hb in Hin.
  - by apply keyword_no_assignment in Hr.
  - done.
  - destruct (assigns_fun _ _ _ _ _ Ha Ha') as [-> ->]. done.
  - destruct (assigns_fun _ _ _ _ _ Ha Ha') as [-> ->]. by apply (Hk r).
Qed.

Lemma malformed_fun t v v' : malformed t v -> malformed t v' -> v = v'.
Proof.
  intros (p & w & Ha & -> & _) (p' & w' & Ha' & -> & _).
  by destruct (assigns_fun _ _ _ _ _ Ha Ha') as [-> ->].
Qed.

(** ** Assignments *)

Lemma last_assignment_snoc p asgs a :
  last_assignment p (asgs ++ [a]) =
    if bool_decide (a.1 = p) then Some a.2 else last_assignment p asgs.
Proof. unfold last_assignment. by rewrite foldl_app. Qed.

Lemma replace_or_push_in rs r x :
  List.NoDup (map pr_prefix rs) ->
  In x (replace_or_push rs r) <-> x = r \/ In x rs /\ pr_prefix x <> pr_prefix r.
Proof.
  induction rs as [|r' rs IH]; simpl.
  - intros _. split; [intros [<-|[]]; by left|intros [->|[[] _]]; by left].
  - intros [Hin Hnd]%List.NoDup_cons_iff. case_bool_decide as Heq; simpl; [|rewrite IH by done].
    + assert (Hx : In x rs -> pr_prefix x <> pr_prefix r).
      { intros Hx E. apply Hin. rewrite Heq, <- E. by apply in_map. }
      split; [intros [<-|H]; auto|]. intros [->|[[<-|H] Hne]]; [by left|done|by right].
    + split; [intros [<-|[->|[H Hne]]]; auto|]. intros [->|[[<-|H] Hne]]; auto.
Qed.

Lemma replace_or_push_nodup rs r :
  List.NoDup (map pr_prefix rs) -> List.NoDup (map pr_prefix (replace_or_push rs r)).
Proof.
  induction rs as [|r' rs IH]; simpl; [intros _; constructor; [intros []|constructor]|].
  intros [Hin Hnd]%List.NoDup_cons_iff. case_bool_decide as Heq; simpl.
  - rewrite <- Heq. by constructor.
  - constructor; [|by apply IH]. rewrite in_map_iff. intros (x & Hx & Hx').
    apply replace_or_push_in in Hx' as [->|[Hx' _]]; [done| |done].
    apply Hin. rewrite <- Hx. by apply in_map.
Qed.

Definition loop_inv (asgs : list (str * StreamRule)) (s : list PrefixStreamRule * StreamRule) :
    Prop :=
  List.NoDup (map pr_prefix s.1) /\ s.2 = default Off (last_assignment [] asgs) /\
  forall p r, In {| pr_prefix := p; pr_stream_state := r |} s.1 <->
    p <> [] /\ last_assignment p asgs = Some r.

Lemma assign_inv asgs s a : loop_inv asgs s -> loop_inv (asgs ++ [a]) (assign s a).
Proof.
  destruct a as [p r]. intros (Hnd & Hd & Hin). unfold loop_inv, assign. simpl.
  setoid_rewrite last_assignment_snoc. simpl.
  destruct (decide (p = [])) as [->|Hp]; case_bool_decide; try done; simpl.
  - split_and!; [done..|]. intros p' r'. rewrite Hin.
    case_bool_decide as E; [subst p'|]; split; intros [? ?]; done.
  - split_and!; [by apply replace_or_push_nodup|by rewrite bool_decide_eq_false_2|].
    intros p' r'. rewrite replace_or_push_in, Hin by done. simpl.
    case_bool_decide as E; [subst p'|].
    + split; [intros [[= ->]|[_ ?]]; done|]. intros [_ [= ->]]. by left.
    + split; [intros [[= -> ->]|[? _]]; done|]. intros [? ?]. by right.
Qed.

Lemma assign_all_inv asgs : loop_inv asgs (foldl assign ([], Off) asgs).
Proof.
  induction asgs as [|a asgs IH] using rev_ind.
  - split_and!; [constructor|done|]. intros p r. split; [intros []|by intros [_ ?]].
  - rewrite foldl_app. by apply assign_inv.
Qed.

(** The directives of a text, up to the first that is malformed. *)
Definition directives (ts : list str) (ds : list (option (str * StreamRule))) : Prop :=
  Forall2 denotes ts ds.

Definition assignments (ds : list (option (str * StreamRule))) : list (str * StreamRule) :=
  base.omap id ds.

Lemma directives_fun ts ds ds' : directives ts ds -> directives ts ds' -> ds = ds'.
Proof.
  intros H. revert ds'. induction H as [|t d ts ds Ht _ IH]; intros ds'; inversion_clear 1; [done|].
  f_equal; [by eapply denotes_fun|by apply IH].
Qed.

Definition first_malformed (ts : list str) (v : str) : Prop :=
  exists before t after ds,
    ts = before ++ t :: after /\ directives before ds /\ malformed t v.

Lemma directives_malformed ts ds v : directives ts ds -> first_malformed ts v -> False.
Proof.
  intros H (before & t & after & _ & -> & _ & Hm).
  apply Forall2_app_inv_l in H as (ds1 & ds2 & _ & H & _). inversion H; subst.
  by eapply denotes_malformed.
Qed.

Lemma first_malformed_fun ts v v' : first_malformed ts v -> first_malformed ts v' -> v = v'.
Proof.
  intros (b & t & a & ds & -> & Hd & Hm) (b' & t' & a' & ds' & Heq & Hd' & Hm').
  assert (Hmal : forall u w ds1 v1, directives (u ++ w) ds1 -> forall x y, w = x :: y -> malformed x v1 -> False).
  { intros u w ds1 v1 H x y -> Hx. apply (directives_malformed _ _ v1 H). unfold first_malformed.
    apply Forall2_app_inv_l in H as (d1 & d2 & H & _). by exists u, x, y, d1. }
  destruct (app_eq_inv _ _ _ _ Heq) as [(k & -> & Hk)|(k & -> & Hk)];
    destruct k as [|x k]; simplify_eq/=; rewrite ?app_nil_r in *;
    try (by eapply malformed_fun); exfalso.
  - by eapply Hmal.
  - by eapply Hmal.
Qed.

Lemma parse_loop_cases ts s :
  (exists ds, directives ts ds /\
     ofold directive_step s (map trim ts) = Ok (foldl assign s (assignments ds))) \/
  (exists v, first_malformed ts v /\
     ofold directive_step s (map trim ts) = Err (InvalidStreamRuleValue v)).
Proof.
  revert s. induction ts as [|t ts IH]; intros s; simpl; [left; exists []; split; [constructor|done]|].
  destruct (directive_step_cases s t) as [(d & Hd & ->)|(v & Hv & ->)]; simpl.
  2:{ right. exists v. split; [|done]. exists [], t, ts, []. split_and!; [done|constructor|done]. }
  destruct (IH (assign_opt s d)) as [(ds & Hds & ->)|(v & Hv & ->)].
  - left. exists (d :: ds). split; [by constructor|]. by destruct d.
  - right. exists v. split; [|done]. destruct Hv as (b & t' & a & ds & -> & Hds & Hm).
    exists (t :: b), t', a, (d :: ds). split_and!; [done|by constructor|done].
Qed.

Lemma trim_nil_free s : trim s = [] -> ~ In DIRECTIVE_DELIMITER s.
Proof.
  intros H Hin. unfold trim, trim_end in H.
  assert (Hs : trim_start s = []).
  { destruct (trim_start s) as [|c t] eqn:E; [done|]. pose proof (trim_start_head _ _ _ E) as Hc.
    apply (f_equal (@rev char)) in H. rewrite rev_involutive in H. simpl in H.
    apply trim_start_all in H. rewrite forallb_app in H. simpl in H. by rewrite Hc, andb_false_r in H. }
  apply trim_start_all in Hs. rewrite forallb_forall in Hs. by apply Hs in Hin.
Qed.

Lemma policy_of_state asgs s :
  loop_inv asgs s ->
  wf_policy {| default_rule := s.2; prefix_rules_sorted_by_length := sort_rules s.1 |} /\
  policy_holds {| default_rule := s.2; prefix_rules_sorted_by_length := sort_rules s.1 |} asgs.
Proof.
  intros (Hnd & Hd & Hin). split; split; simpl.
  - by apply sort_rules_sorted.
  - rewrite sort_rules_perm. apply List.Forall_forall. intros [p r] Hp. by apply Hin in Hp as [? _].
  - done.
  - intros p r. rewrite <- Hin. apply Permutation_in' ; [done|apply sort_rules_perm].
Qed.

Lemma from_str_cases input :
  (exists ds pol, directives (split DIRECTIVE_DELIMITER input) ds /\
     StreamPolicy_from_str input = Ok pol /\ wf_policy pol /\ policy_holds pol (assignments ds)) \/
  (exists v, first_malformed (split DIRECTIVE_DELIMITER input) v /\
     StreamPolicy_from_str input = Err (InvalidStreamRuleValue v)).
Proof.
  unfold StreamPolicy_from_str. rewrite str_is_empty_spec. case_bool_decide as Hblank.
  - left. rewrite split_free by (by apply trim_nil_free).
    exists [None], StreamPolicy_default. split_and!; [|done|split; constructor|split; [done|]].
    + constructor; [by constructor|constructor].
    + intros p r. split; [intros []|by intros [_ ?]].
  - destruct (parse_loop_cases (split DIRECTIVE_DELIMITER input) ([], StreamRule_default))
      as [(ds & Hds & ->)|(v & Hv & ->)]; [left|right; by exists v].
    exists ds. eexists. split; [done|]. split; [done|]. apply policy_of_state, assign_all_inv.
Qed.

Lemma policy_unique pol pol' asgs asgs' :
  wf_policy pol -> wf_policy pol' -> policy_holds pol asgs -> policy_holds pol' asgs' ->
  default Off (last_assignment [] asgs) = default Off (last_assignment [] asgs') ->
  (forall p, p <> [] -> last_assignment p asgs = last_assignment p asgs') ->
  pol = pol'.
Proof.
  destruct pol as [d rs], pol' as [d' rs']. unfold wf_policy, policy_holds. simpl.
  intros [Hs _] [Hs' _] [-> Hin] [-> Hin'] -> Heq. f_equal. apply sorted_unique; [done..|].
  intros [p r]. rewrite Hin, Hin'. split; intros [Hp H]; (split; [done|]); by rewrite <- H, Heq.
Qed.

(** ** Rule lookup *)

Lemma find_app {A} (f : A -> bool) l k :
  find f (l ++ k) = match find f l with Some x => Some x | None => find f k end.
Proof. induction l as [|x l IH]; simpl; [done|]. by destruct (f x). Qed.

(** In a sorted list the last match is the longest. *)
Lemma find_rev_longest f rs :
  StronglySorted rule_lt rs ->
  match find f (rev rs) with
  | Some r => In r rs /\ f r = true /\
      forall r', In r' rs -> f r' = true -> str_len (pr_prefix r') <= str_len (pr_prefix r)
  | None => forall r, In r rs -> f r = false
  end.
Proof.
  intros Hs. destruct (find f (rev rs)) as [r|] eqn:Hf.
  2:{ intros r Hr. apply (find_none _ _ Hf). by apply -> in_rev. }
  pose proof (find_some _ _ Hf) as [Hr Hfr]. apply in_rev in Hr. split_and!; [done..|].
  clear Hfr. revert r Hf Hr. induction Hs as [|a rs Hs IH Ha]; [done|]. simpl.
  intros r Hf Hr r' Hr' Hfr'. rewrite List.Forall_forall in Ha.
  rewrite find_app in Hf. destruct (find f (rev rs)) as [b|] eqn:Hb.
  - injection Hf as ->. pose proof (find_some _ _ Hb) as [Hin _]. apply in_rev in Hin.
    destruct Hr' as [<-|Hr']; [by apply rule_lt_len, Ha|by apply (IH r)].
  - destruct Hr' as [<-|Hr'].
    + simpl in Hf. rewrite Hfr' in Hf. by simplify_eq.
    + pose proof (find_none _ _ Hb r') as H. rewrite H in Hfr'; [done|by apply -> in_rev].
Qed.

Lemma stream_rule_governs pol asgs name :
  wf_policy pol -> policy_holds pol asgs ->
  governs asgs (StreamName_as_str name) (stream_rule pol name).
Proof.
  intros [Hs _] [Hd Hin]. unfold stream_rule, governs.
  pose proof (find_rev_longest
    (fun rule => starts_with (StreamName_as_str name) (pr_prefix rule)) _ Hs) as Hf.
  destruct (find _ _) as [[p r]|]; simpl in Hf |- *.
  - destruct Hf as (Hp & Hpre & Hmax). apply Hin in Hp as [Hne Hp]. left. exists p.
    split_and!; [done..|]. intros p' r' Hpre' Hp'.
    destruct (decide (p' = [])) as [->|Hne']; [apply str_len_nonneg|].
    apply (Hmax {| pr_prefix := p'; pr_stream_state := r' |}); [by apply Hin|done].
  - assert (Hnone : forall p, p <> [] -> starts_with (StreamName_as_str name) p = true ->
      last_assignment p asgs = None).
    { intros p Hne Hp. destruct (last_assignment p asgs) as [r|] eqn:Hr; [|done].
      specialize (Hf {| pr_prefix := p; pr_stream_state := r |}). simpl in Hf.
      rewrite Hf in Hp; [done|by apply Hin]. }
    rewrite Hd. destruct (last_assignment [] asgs) as [r|] eqn:Hr; simpl.
    + left. exists []. split_and!; [by destruct (StreamName_as_str name)|done|].
      intros p r' Hp Hl. destruct (decide (p = [])) as [->|Hne]; [done|].
      by rewrite Hnone in Hl.
    + right. split; [|done]. intros p Hp. destruct (decide (p = [])) as [->|Hne]; [done|by apply Hnone].
Qed.

Lemma governs_fun asgs name r r' : governs asgs name r -> governs asgs name r' -> r = r'.
Proof.
  intros [(p & Hp & Hr & Hmax)|[Hnone ->]] [(p' & Hp' & Hr' & Hmax')|[Hnone' ->]].
  - assert (p = p') as <-.
    { apply (prefixes_same_len name); [done..|].
      pose proof (Hmax _ _ Hp' Hr'). pose proof (Hmax' _ _ Hp Hr). lia. }
    congruence.
  - rewrite (Hnone' _ Hp) in Hr. done.
  - rewrite (Hnone _ Hp') in Hr'. done.
  - done.
Qed.

(** ** Directives that the syntax can express *)

(** A prefix that the syntax can express. *)
Definition writable_prefix (p : str) : Prop :=
  p <> [] /\ trimmed p /\ ~ In DIRECTIVE_DELIMITER p /\ ~ In PREFIX_RULE_ASSIGNMENT p.

(** The directive for a rule. *)
Definition directive_text (rule : PrefixStreamRule) : str :=
  pr_prefix rule ++ PREFIX_RULE_ASSIGNMENT :: StreamRule_fmt (pr_stream_state rule).

Lemma last_suffix (a b : str) : b <> [] -> List.last (a ++ b) 0 = List.last b 0.
Proof.
  intros Hb. destruct (exists_last Hb) as (b' & x & ->). by rewrite app_assoc, !last_last.
Qed.

Lemma fmt_keyword r : keyword (trim (StreamRule_fmt r)) r.
Proof. by destruct r. Qed.

Lemma fmt_free r : ~ In DIRECTIVE_DELIMITER (StreamRule_fmt r).
Proof. destruct r; vm_compute; intuition discriminate. Qed.

Lemma directive_text_free rule :
  writable_prefix (pr_prefix rule) -> ~ In DIRECTIVE_DELIMITER (directive_text rule).
Proof.
  intros (_ & _ & Hp & _). unfold directive_text. rewrite in_app_iff. simpl.
  pose proof (fmt_free (pr_stream_state rule)). intros [?|[?|?]]; done.
Qed.

Lemma directive_text_denotes rule :
  writable_prefix (pr_prefix rule) ->
  denotes (directive_text rule) (Some (pr_prefix rule, pr_stream_state rule)).
Proof.
  destruct rule as [p r]. unfold directive_text. simpl. intros (Hne & Ht & _ & Hp).
  rewrite <- (trim_trimmed p) at 2 by done.
  apply denotes_rule with (StreamRule_fmt r); [|right; apply fmt_keyword].
  split; [|done]. apply trim_trimmed. destruct p as [|c p]; [done|]. destruct Ht as [Hc _].
  split; [done|]. change (is_whitespace (List.last ((c :: p) ++ PREFIX_RULE_ASSIGNMENT :: StreamRule_fmt r) 0) = false). rewrite last_suffix by done. by destruct r.
Qed.

Lemma name_writable s : valid_name s -> writable_prefix s.
Proof.
  intros (Hne & _ & Hall). rewrite List.Forall_forall in Hall.
  assert (Hc : forall c, In c s -> is_whitespace c = false /\ c <> DIRECTIVE_DELIMITER /\
    c <> PREFIX_RULE_ASSIGNMENT).
  { intros c Hin. specialize (Hall c Hin). unfold name_char in Hall.
    unfold is_whitespace, DIRECTIVE_DELIMITER, PREFIX_RULE_ASSIGNMENT. lia. }
  split_and!; [done| |intros H; by apply Hc in H as (_ & ? & _)|intros H; by apply Hc in H as (_ & _ & ?)].
  destruct s as [|c s]; [done|]. split; [apply Hc; by left|]. apply Hc.
  destruct (exists_last (l := c :: s)) as (s' & x & Hx); [done|]. rewrite Hx, last_last.
  apply in_or_app. right. by left.
Qed.

Definition rule_assignment (rule : PrefixStreamRule) : str * StreamRule :=
  (pr_prefix rule, pr_stream_state rule).

Lemma sorted_prefixes_nodup rs : StronglySorted rule_lt rs -> List.NoDup (map pr_prefix rs).
Proof.
  induction 1 as [|r rs _ IH Hr]; simpl; constructor; [|done].
  rewrite in_map_iff. intros (r' & Heq & Hin). rewrite List.Forall_forall in Hr.
  specialize (Hr r' Hin). unfold rule_lt, compare_rules in Hr. rewrite Heq in Hr.
  by rewrite Z.compare_refl, (proj2 (str_cmp_eq _ _) eq_refl) in Hr.
Qed.

Lemma from_str_Ok input pol ds :
  directives (split DIRECTIVE_DELIMITER input) ds -> wf_policy pol ->
  policy_holds pol (assignments ds) -> StreamPolicy_from_str input = Ok pol.
Proof.
  intros Hds Hwf Hh. destruct (from_str_cases input) as [(ds' & pol' & Hds' & -> & Hwf' & Hh')|(v & Hv & _)].
  - rewrite (directives_fun _ _ _ Hds' Hds) in Hh'. f_equal. by eapply policy_unique.
  - by destruct (directives_malformed _ _ _ Hds Hv).
Qed.

Lemma assignments_Some asgs : assignments (map Some asgs) = asgs.
Proof. unfold assignments. induction asgs as [|a asgs IH]; simpl; [done|]. by f_equal. Qed.

(** ** Properties *)

(** C9: [StreamPolicy::from_str] implements the documented syntax and normal
    form.  It returns a policy exactly when every comma-separated directive is
    blank, a keyword or [prefix[=[rule]]] with a rule [on] or [off] in any case;
    the policy then holds the last assignment of every prefix and of the
    default, its prefixes are non-empty, distinct and sorted by length and then
    lexicographically.  It fails exactly when a directive is malformed, with the
    rule value of the first such directive, and never panics. *)
Theorem policy_from_str_spec input :
  (forall pol, StreamPolicy_from_str input = Ok pol <->
     exists ds, directives (split DIRECTIVE_DELIMITER input) ds /\
       wf_policy pol /\ policy_holds pol (assignments ds)) /\
  (forall v, StreamPolicy_from_str input = Err (InvalidStreamRuleValue v) <->
     first_malformed (split DIRECTIVE_DELIMITER input) v) /\
  returns (StreamPolicy_from_str input).
Proof.
  destruct (from_str_cases input) as [(ds & pol & Hds & -> & Hwf & Hh)|(v & Hv & ->)];
    split_and!; try done.
  - intros pol'. split; [intros [= <-]; by exists ds|].
    intros (ds' & Hds' & Hwf' & Hh'). rewrite (directives_fun _ _ _ Hds Hds') in Hh.
    f_equal. by eapply policy_unique.
  - intros v. split; [done|]. intros Hv. by destruct (directives_malformed _ _ _ Hds Hv).
  - intros pol. split; [done|]. intros (ds & Hds & _). by destruct (directives_malformed _ _ _ Hds Hv).
  - intros v'. split; [by intros [= <-]|]. intros Hv'. by rewrite (first_malformed_fun _ _ _ Hv Hv').
Qed.

(** C8: Rule precedence: under a parsed policy the rule of a stream is the last
    one assigned to the longest prefix of its name (the default rule being the
    rule of the empty prefix), and [off] when no directive applies; this
    determines the rule. *)
Theorem stream_rule_precedence input pol ds name r :
  StreamPolicy_from_str input = Ok pol ->
  directives (split DIRECTIVE_DELIMITER input) ds ->
  stream_rule pol name = r <-> governs (assignments ds) (StreamName_as_str name) r.
Proof.
  intros Hp Hds. destruct (from_str_cases input) as [(ds' & pol' & Hds' & Hp' & Hwf & Hh)|(v & _ & Hv)];
    [|congruence].
  assert (pol' = pol) as -> by congruence. rewrite (directives_fun _ _ _ Hds' Hds) in Hh.
  pose proof (stream_rule_governs _ _ name Hwf Hh) as Hg.
  split; [by intros <-|intros Hr; by eapply governs_fun].
Qed.

(** Parsing normalizes: two policy texts give equal policies exactly when
    their last assignments agree, for the default rule and for every prefix; so
    order, repetition, white space and letter case of rules do not matter. *)
Theorem policy_normal_form a b pa pb da db :
  StreamPolicy_from_str a = Ok pa -> StreamPolicy_from_str b = Ok pb ->
  directives (split DIRECTIVE_DELIMITER a) da -> directives (split DIRECTIVE_DELIMITER b) db ->
  pa = pb <->
  default Off (last_assignment [] (assignments da)) =
    default Off (last_assignment [] (assignments db)) /\
  forall p, p <> [] -> last_assignment p (assignments da) = last_assignment p (assignments db).
Proof.
  intros Ha Hb Hda Hdb.
  destruct (from_str_cases a) as [(? & ? & Hda' & Ha' & Hwa & Hha)|(? & _ & ?)]; [|congruence].
  destruct (from_str_cases b) as [(? & ? & Hdb' & Hb' & Hwb & Hhb)|(? & _ & ?)]; [|congruence].
  rewrite (directives_fun _ _ _ Hda' Hda) in Hha. rewrite (directives_fun _ _ _ Hdb' Hdb) in Hhb.
  rewrite Ha in Ha'. rewrite Hb in Hb'. simplify_eq.
  split; [intros <-|intros [? ?]; by eapply policy_unique].
  destruct Hha as [Hd Hin], Hhb as [Hd' Hin']. split; [congruence|]. intros p Hp.
  apply option_eq. intros r. split; intros Hr.
  - apply Hin', Hin. done.
  - apply Hin, Hin'. done.
Qed.

(** Every stream can be addressed by a policy: for a valid stream name the
    text [name=rule] parses, and gives the rule to exactly the streams whose names
    start with that name, and [off] to all others. *)
Theorem every_stream_is_addressable s n r :
  StreamName_try_new s = Ok n ->
  exists pol,
    StreamPolicy_from_str (s ++ PREFIX_RULE_ASSIGNMENT :: StreamRule_fmt r) = Ok pol /\
    stream_rule pol n = r /\
    forall m, stream_rule pol m = if starts_with (StreamName_as_str m) s then r else Off.
Proof.
  intros Hn. apply try_new_ok in Hn as (Hs & Hv). pose proof Hv as (Hne & _ & Hall).
  set (rule := {| pr_prefix := s; pr_stream_state := r |}).
  set (pol := {| default_rule := Off; prefix_rules_sorted_by_length := [rule] |}).
  assert (Hw : writable_prefix s) by (apply name_writable, Hv).
  assert (Hrule : forall m, stream_rule pol m = if starts_with (StreamName_as_str m) s then r else Off)
    by (intros m; unfold stream_rule; simpl; by case_match).
  exists pol. split_and!; [|rewrite Hrule|done].
  - change (_ ++ _) with (directive_text rule).
    apply from_str_Ok with (map Some [rule_assignment rule]).
    + rewrite split_free by (by apply directive_text_free). constructor; [|constructor].
      by apply directive_text_denotes.
    + by repeat constructor.
    + rewrite assignments_Some. split; [|intros p r'].
      * unfold last_assignment. simpl. by rewrite bool_decide_eq_false_2.
      * unfold last_assignment. simpl. case_bool_decide as E; [subst p|].
        -- split; [intros [[= <-]|[]]; done|intros [_ [= <-]]; by left].
        -- split; [intros [[= <- _]|[]]; done|by intros [_ ?]].
  - unfold StreamName_as_str. rewrite Hs.
    by rewrite (proj2 (starts_with_spec s s)) by (exists []; by rewrite app_nil_r).
Qed.

(** ** Sample policies *)

Definition sample_policy_text : str := lit "off, network.=on, network.repair= OFF".

Definition sample_policy : StreamPolicy :=
  {| default_rule := Off;
     prefix_rules_sorted_by_length :=
       [ {| pr_prefix := lit "network."; pr_stream_state := On |};
         {| pr_prefix := lit "network.repair"; pr_stream_state := Off |} ] |}.

Definition sample_directives : list (option (str * StreamRule)) :=
  [Some ([], Off); Some (lit "network.", On); Some (lit "network.repair", Off)].

Example sample_policy_parses : StreamPolicy_from_str sample_policy_text = Ok sample_policy.
Proof. by vm_compute. Qed.

Example sample_last_rule_wins :
  StreamPolicy_from_str (lit "off, network.=on, on, network.=off") =
  StreamPolicy_from_str (lit "on, network.=off").
Proof. by vm_compute. Qed.

Example sample_rejects_double_assignment :
  StreamPolicy_from_str (lit "on,network.=on=off") =
  Err (InvalidStreamRuleValue (lit "on=off")).
Proof. by vm_compute. Qed.

Lemma not_in_dec (c : char) (s : str) : bool_decide (c ∈ s) = false -> ~ In c s.
Proof. rewrite bool_decide_eq_false, list_elem_of_In. done. Qed.

Lemma sample_directives_ok :
  directives (split DIRECTIVE_DELIMITER sample_policy_text) sample_directives.
Proof.
  unfold directives.
  replace (split DIRECTIVE_DELIMITER sample_policy_text)
    with [lit "off"; lit " network.=on"; lit " network.repair= OFF"] by (by vm_compute).
  constructor; [apply denotes_default; by vm_compute|].
  constructor.
  { apply (denotes_rule _ (lit "network.") (lit "on")); [|right; by vm_compute].
    split; [by vm_compute|]. apply not_in_dec. by vm_compute. }
  constructor; [|constructor].
  apply (denotes_rule _ (lit "network.repair") (lit " OFF")); [|right; by vm_compute].
  split; [by vm_compute|]. apply not_in_dec. by vm_compute.
Qed.

Lemma stream_rule_precedence_witness :
  governs (assignments sample_directives) (lit "network.gossip") On.
Proof.
  apply (proj1 (stream_rule_precedence sample_policy_text sample_policy sample_directives
    {| name_str := lit "network.gossip" |} On ltac:(by vm_compute) sample_directives_ok)).
  by vm_compute.
Defined.

(** The same policy, written differently. *)
Definition sample_policy_text' : str := lit " network.repair =off ,network.,".

Definition sample_directives' : list (option (str * StreamRule)) :=
  [Some (lit "network.repair", Off); Some (lit "network.", On); None].

Lemma sample_directives_ok' :
  directives (split DIRECTIVE_DELIMITER sample_policy_text') sample_directives'.
Proof.
  unfold directives.
  replace (split DIRECTIVE_DELIMITER sample_policy_text')
    with [lit " network.repair =off "; lit "network."; []] by (by vm_compute).
  constructor.
  { apply (denotes_rule _ (lit "network.repair ") (lit "off")); [|right; by vm_compute].
    split; [by vm_compute|]. apply not_in_dec. by vm_compute. }
  constructor; [|constructor; [by constructor|constructor]].
  apply (denotes_bare (lit "network.")); [by vm_compute|intros []; by vm_compute|].
  apply not_in_dec. by vm_compute.
Qed.

Lemma policy_normal_form_witness :
  last_assignment (lit "network.") (assignments sample_directives) =
  last_assignment (lit "network.") (assignments sample_directives').
Proof.
  apply (proj1 (policy_normal_form sample_policy_text sample_policy_text' sample_policy
    sample_policy sample_directives sample_directives' ltac:(by vm_compute) ltac:(by vm_compute)
    sample_directives_ok sample_directives_ok') eq_refl).
  discriminate.
Defined.

Lemma every_stream_is_addressable_witness :
  exists pol, StreamPolicy_from_str (lit "network.gossip=on") = Ok pol /\
    stream_rule pol {| name_str := lit "network.gossip" |} = On /\
    stream_rule pol {| name_str := lit "network" |} = Off.
Proof.
  destruct (every_stream_is_addressable (lit "network.gossip") {| name_str := lit "network.gossip" |} On
    ltac:(by vm_compute)) as (pol & H1 & H2 & H3).
  exists pol. split; [exact H1|]. split; [exact H2|]. rewrite H3. by vm_compute.
Defined.
