(* ===== verification/FileSystem.v ===== *)
(** * The file system

    The part of [std::fs] that the event system uses: a tree of directories,
    regular files and symbolic links, the system calls that change it, and the
    states that a concurrent reader can observe while they run. *)

From Stdlib Require Import ZArith Lia Strings.Byte Strings.String.
From stdpp Require Import base list numbers.
From S2P Require Import Prelude RustStr.
Local Open Scope Z_scope.

Inductive Node :=
| Directory (entries : list (str * Node))
| RegularFile (contents : list byte)
| Symlink (target : str).

(** A path is the list of its components. *)
Definition path : Type := list str.

Fixpoint lookup_entry (name : str) (entries : list (str * Node)) : option Node :=
  match entries with
  | [] => None
  | (n, node) :: entries =>
      if bool_decide (n = name) then Some node else lookup_entry name entries
  end.

Definition remove_entry (name : str) (entries : list (str * Node)) : list (str * Node) :=
  List.filter (fun e => negb (bool_decide (e.1 = name))) entries.

(** Puts a node under a name, in place of the previous one. *)
Definition set_entry (name : str) (node : Node) (entries : list (str * Node)) :
    list (str * Node) :=
  (name, node) :: remove_entry name entries.

Fixpoint get_node (p : path) (node : Node) : option Node :=
  match p with
  | [] => Some node
  | c :: p =>
      match node with
      | Directory entries =>
          match lookup_entry c entries with
          | Some node => get_node p node
          | None => None
          end
      | _ => None
      end
  end.

(** The entries of the directory at [p]. *)
Definition entries_at (p : path) (root : Node) : option (list (str * Node)) :=
  match get_node p root with
  | Some (Directory entries) => Some entries
  | _ => None
  end.

(** Replaces the entries of the directory at [p]; no effect where there is none. *)
Fixpoint set_entries (p : path) (es : list (str * Node)) (node : Node) : Node :=
  match node with
  | Directory entries =>
      match p with
      | [] => Directory es
      | c :: p =>
          match lookup_entry c entries with
          | Some child => Directory (set_entry c (set_entries p es child) entries)
          | None => node
          end
      end
  | _ => node
  end.

(** ** Lemmas *)

Lemma lookup_remove_same name es : lookup_entry name (remove_entry name es) = None.
Proof.
  induction es as [|[n node] es IH]; simpl; [done|].
  case_bool_decide; simpl; [done|]. by rewrite bool_decide_eq_false_2.
Qed.

Lemma lookup_remove_other name name' es :
  name' <> name -> lookup_entry name' (remove_entry name es) = lookup_entry name' es.
Proof.
  intros Hne. induction es as [|[n node] es IH]; simpl; [done|].
  case_bool_decide; subst; simpl; [by rewrite bool_decide_eq_false_2|].
  by rewrite IH.
Qed.

Lemma lookup_set_same name node es : lookup_entry name (set_entry name node es) = Some node.
Proof. simpl. by rewrite bool_decide_eq_true_2. Qed.

Lemma lookup_set_other name name' node es :
  name' <> name -> lookup_entry name' (set_entry name node es) = lookup_entry name' es.
Proof.
  intros Hne. simpl. rewrite bool_decide_eq_false_2 by done. by apply lookup_remove_other.
Qed.

Lemma entries_at_set_same p es root entries :
  entries_at p root = Some entries -> entries_at p (set_entries p es root) = Some es.
Proof.
  unfold entries_at. revert root. induction p as [|c p IH]; intros [es'| |]; simpl; try done.
  destruct (lookup_entry c es') as [child|] eqn:Hc; [|done].
  intros H. simpl. rewrite bool_decide_eq_true_2 by done. by apply IH.
Qed.

(** Two directories neither of which contains the other. *)
Definition apart (p q : path) : Prop :=
  exists r c d p' q', p = r ++ c :: p' /\ q = r ++ d :: q' /\ c <> d.

Lemma apart_sym p q : apart p q -> apart q p.
Proof. intros (r & c & d & p' & q' & -> & -> & Hne). by exists r, d, c, q', p'. Qed.

Lemma get_node_set_apart p q es root :
  apart p q -> get_node q (set_entries p es root) = get_node q root.
Proof.
  intros (r & c & d & p' & q' & -> & -> & Hne). revert root.
  induction r as [|x r IH]; intros [es'| |]; simpl; try done.
  - destruct (lookup_entry c es') as [child|] eqn:Hc; [|done].
    simpl. rewrite bool_decide_eq_false_2, lookup_remove_other by done. done.
  - destruct (lookup_entry x es') as [child|] eqn:Hc; [|by rewrite Hc].
    simpl. rewrite bool_decide_eq_true_2 by done. apply IH.
Qed.

Lemma entries_at_set_apart p q es root :
  apart p q -> entries_at q (set_entries p es root) = entries_at q root.
Proof. intros H. unfold entries_at. by rewrite get_node_set_apart. Qed.

Lemma get_node_app p q root :
  get_node (p ++ q) root = match get_node p root with Some n => get_node q n | None => None end.
Proof.
  revert root. induction p as [|c p IH]; intros [es| |]; simpl; try done.
  destruct (lookup_entry c es); [apply IH|done].
Qed.

(** An entry of a directory. *)
Lemma entries_at_child p name root es :
  entries_at p root = Some es ->
  get_node (p ++ [name]) root = lookup_entry name es.
Proof.
  unfold entries_at. rewrite get_node_app. destruct (get_node p root) as [[es'| |]|]; try done.
  intros [= ->]. simpl. by destruct (lookup_entry name es).
Qed.

Lemma entries_at_set_child p c es fs pes ces :
  entries_at p fs = Some pes -> lookup_entry c pes = Some (Directory ces) ->
  entries_at p (set_entries (p ++ [c]) es fs) = Some (set_entry c (Directory es) pes).
Proof.
  unfold entries_at. revert fs. induction p as [|x p IH]; intros [es'| |]; simpl; try done.
  - intros [= ->] Hc. by rewrite Hc.
  - destruct (lookup_entry x es') as [child|] eqn:Hx; [|done]. intros Hp Hc. simpl.
    rewrite bool_decide_eq_true_2 by done. by apply IH.
Qed.

(** ** Input and output

    Every system call can fail for reasons that the program does not control;
    [fault t] says whether call number [t] does.  A call that fails midway leaves
    a part of its work behind. *)
Inductive IoError := Injected | AlreadyExists | NotFound | NotADirectory | DirectoryNotEmpty.

Class SystemCalls := {
  fault : nat -> bool;
  (** how many bytes, or entries, a failing call completed *)
  partial_work : nat -> nat
}.

Record IoWorld := {
  io_fs : Node;
  io_calls : nat;
  (** the states a reader could have observed, the latest first *)
  io_history : list Node
}.

Definition IO (E A : Type) : Type := IoWorld -> Outcome E A * IoWorld.

Definition io_ret {E A} (a : A) : IO E A := fun w => (Ok a, w).
Definition io_err {E A} (e : E) : IO E A := fun w => (Err e, w).

Definition io_bind {E A B} (m : IO E A) (k : A -> IO E B) : IO E B := fun w =>
  match m w with
  | (Ok a, w') => k a w'
  | (Err e, w') => (Err e, w')
  | (Panic, w') => (Panic, w')
  | (UB, w') => (UB, w')
  | (Diverge, w') => (Diverge, w')
  end.

(** [map_err], as the conversion in [?] does it. *)
Definition io_map_err {E E' A} (f : E -> E') (m : IO E A) : IO E' A := fun w =>
  match m w with
  | (Ok a, w') => (Ok a, w')
  | (Err e, w') => (Err (f e), w')
  | (Panic, w') => (Panic, w')
  | (UB, w') => (UB, w')
  | (Diverge, w') => (Diverge, w')
  end.

(** [let _ = m], which drops the result. *)
Definition io_ignore {E E' A} (m : IO E A) : IO E' unit := fun w => (Ok tt, (m w).2).

Declare Scope io_scope.
Delimit Scope io_scope with io.
Notation "x <- m ;; k" := (io_bind m (fun x => k))
  (at level 100, m at next level, right associativity) : io_scope.
Notation "m ;; k" := (io_bind m (fun _ => k))
  (at level 100, right associativity) : io_scope.

(** One more call, which leaves the file system in the state [fs]. *)
Definition called (fs : Node) (w : IoWorld) : IoWorld :=
  {| io_fs := fs; io_calls := S (io_calls w); io_history := fs :: io_history w |}.

(** A call that fails without effect, or does [f] at once. *)
Definition system_call `{SystemCalls} (f : Node -> Outcome IoError Node) : IO IoError unit :=
  fun w =>
    if fault (io_calls w) then (Err Injected, called (io_fs w) w)
    else match f (io_fs w) with
         | Ok fs => (Ok tt, called fs w)
         | Err e => (Err e, called (io_fs w) w)
         | _ => (Panic, w)
         end.

Section Calls.
  Context `{SystemCalls}.

(** A new entry of an existing directory. *)
Definition create_entry (node : Node) (parent : path) (name : str) : IO IoError unit :=
  system_call (fun fs =>
    match entries_at parent fs with
    | None => Err NotFound
    | Some es =>
        match lookup_entry name es with
        | Some _ => Err AlreadyExists
        | None => Ok (set_entries parent (set_entry name node es) fs)
        end
    end).

Definition create_dir : path -> str -> IO IoError unit := create_entry (Directory []).

(** [OpenOptions::new().write(true).create_new(true).open(path)]. *)
Definition create_new_file : path -> str -> IO IoError unit := create_entry (RegularFile []).

Definition symlink (target : str) : path -> str -> IO IoError unit :=
  create_entry (Symlink target).

Definition set_contents (parent : path) (name : str) (contents : list byte) (fs : Node) : Node :=
  match entries_at parent fs with
  | Some es => set_entries parent (set_entry name (RegularFile contents) es) fs
  | None => fs
  end.

(** [file.write_all(contents)] on a new file: a failure leaves a part of it. *)
Definition write_all (parent : path) (name : str) (contents : list byte) : IO IoError unit :=
  fun w =>
    let written := if fault (io_calls w) then take (partial_work (io_calls w)) contents
                   else contents in
    ((if fault (io_calls w) then Err Injected else Ok tt),
     called (set_contents parent name written (io_fs w)) w).

(** [std::fs::rename] of a directory: the destination may only exist as an empty
    directory. *)
Definition rename (from : path) (from_name : str) (to : path) (to_name : str) :
    IO IoError unit :=
  system_call (fun fs =>
    match entries_at from fs with
    | None => Err NotFound
    | Some from_entries =>
        match lookup_entry from_name from_entries with
        | None => Err NotFound
        | Some node =>
            let moved := set_entries from (remove_entry from_name from_entries) fs in
            match entries_at to moved with
            | None => Err NotFound
            | Some to_entries =>
                match lookup_entry to_name to_entries with
                | None | Some (Directory []) =>
                    Ok (set_entries to (set_entry to_name node to_entries) moved)
                | Some (Directory (_ :: _)) => Err DirectoryNotEmpty
                | Some _ => Err NotADirectory
                end
            end
        end
    end).

(** [std::fs::remove_dir], of an empty directory. *)
Definition remove_dir (parent : path) (name : str) : IO IoError unit :=
  system_call (fun fs =>
    match entries_at parent fs with
    | None => Err NotFound
    | Some es =>
        match lookup_entry name es with
        | Some (Directory []) => Ok (set_entries parent (remove_entry name es) fs)
        | Some (Directory (_ :: _)) => Err DirectoryNotEmpty
        | Some _ => Err NotADirectory
        | None => Err NotFound
        end
    end).

(** [remove_dir_all] removes the entries one by one and then the directory; a
    failure stops it. *)
Fixpoint remove_entries (n : nat) (parent : path) (name : str) (w : IoWorld) : IoWorld :=
  match n with
  | O => w
  | S n =>
      match entries_at (parent ++ [name]) (io_fs w) with
      | Some (_ :: es) =>
          remove_entries n parent name (called (set_entries (parent ++ [name]) es (io_fs w)) w)
      | _ => w
      end
  end.

Definition remove_dir_all (parent : path) (name : str) : IO IoError unit := fun w =>
  match entries_at (parent ++ [name]) (io_fs w), entries_at parent (io_fs w) with
  | Some es, Some _ =>
      if fault (io_calls w) then
        (Err Injected,
         remove_entries (Nat.min (partial_work (io_calls w)) (length es)) parent name
           (called (io_fs w) w))
      else
        let w' := remove_entries (length es) parent name w in
        match entries_at parent (io_fs w') with
        | Some parent_entries =>
            (Ok tt, called (set_entries parent (remove_entry name parent_entries) (io_fs w')) w')
        | None => (Panic, w')
        end
  | _, _ => (Err NotFound, called (io_fs w) w)
  end.

End Calls.

(** ** Reasoning about calls *)

(** Every state from the start to the end of [m] satisfies [I], if the first one
    does; readers see no other state. *)
Definition keeps {E A} (I : Node -> Prop) (m : IO E A) : Prop :=
  forall w, I (io_fs w) ->
    I (io_fs (m w).2) /\ exists states, io_history (m w).2 = states ++ io_history w /\ Forall I states.

Section Keeps.
  Context {I : Node -> Prop}.

Lemma keeps_ret {E A} (a : A) : keeps (E := E) I (io_ret a).
Proof. intros w Hw. split; [done|]. by exists []. Qed.

Lemma keeps_err {E A} (e : E) : keeps (A := A) I (io_err e).
Proof. intros w Hw. split; [done|]. by exists []. Qed.

Lemma keeps_bind_dep {E A B} (m : IO E A) (k : A -> IO E B) :
  keeps I m -> (forall a w w', m w = (Ok a, w') -> keeps I (k a)) -> keeps I (io_bind m k).
Proof.
  intros Hm Hk w Hw. unfold io_bind. specialize (Hm w Hw).
  destruct (m w) as [[a|e| | |] w'] eqn:Hmw; simpl in *; try done.
  destruct Hm as (Hw' & states & Hh & Hs).
  destruct (Hk a w w' Hmw w' Hw') as (Hw'' & states' & Hh' & Hs').
  split; [done|]. exists (states' ++ states). rewrite Hh', Hh, app_assoc. split; [done|].
  by apply Forall_app.
Qed.

Lemma keeps_bind {E A B} (m : IO E A) (k : A -> IO E B) :
  keeps I m -> (forall a, keeps I (k a)) -> keeps I (io_bind m k).
Proof. intros Hm Hk. apply keeps_bind_dep; [done|]. intros a _ _ _. apply Hk. Qed.

Lemma keeps_map_err {E E' A} (f : E -> E') (m : IO E A) : keeps I m -> keeps I (io_map_err f m).
Proof.
  intros Hm w Hw. unfold io_map_err. specialize (Hm w Hw).
  by destruct (m w) as [[a|e| | |] w'].
Qed.

Lemma keeps_ignore {E E' A} (m : IO E A) : keeps I m -> keeps (E := E') I (io_ignore m).
Proof. intros Hm w Hw. by apply Hm. Qed.

Lemma keeps_called fs w :
  I fs -> I (io_fs (called fs w)) /\
  exists states, io_history (called fs w) = states ++ io_history w /\ Forall I states.
Proof. intros Hfs. split; [done|]. exists [fs]. split; [done|by constructor]. Qed.

Context `{SystemCalls}.

Lemma keeps_system_call f :
  (forall fs fs', I fs -> f fs = Ok fs' -> I fs') -> keeps I (system_call f).
Proof.
  intros Hf w Hw. unfold system_call. destruct (fault _); [by apply keeps_called|].
  destruct (f (io_fs w)) as [fs| | | |] eqn:Hfs; try (by apply keeps_called).
  - apply keeps_called. by eapply Hf.
  - split; [done|]. by exists [].
  - split; [done|]. by exists [].
  - split; [done|]. by exists [].
Qed.

(** An invariant that changes below the directory [p] do not affect. *)
Definition unaffected (p : path) : Prop := forall es fs, I fs -> I (set_entries p es fs).

Lemma keeps_create_entry node parent name :
  unaffected parent -> keeps I (create_entry node parent name).
Proof.
  intros Hp. apply keeps_system_call. intros fs fs' HI.
  repeat case_match; try done. intros [= <-]. by apply Hp.
Qed.

Lemma keeps_write_all parent name contents :
  unaffected parent -> keeps I (write_all parent name contents).
Proof.
  intros Hp w Hw. apply keeps_called. unfold set_contents.
  case_match; [by apply Hp|done].
Qed.

Lemma keeps_remove_entries n parent name w :
  unaffected (parent ++ [name]) -> I (io_fs w) ->
  I (io_fs (remove_entries n parent name w)) /\
  exists states, io_history (remove_entries n parent name w) = states ++ io_history w /\
    Forall I states.
Proof.
  intros Hp. revert w. induction n as [|n IH]; intros w Hw; simpl; [split; [done|by exists []]|].
  destruct (entries_at _ _) as [[|e es]|]; try (split; [done|by exists []]).
  edestruct (IH (called (set_entries (parent ++ [name]) es (io_fs w)) w)) as (H1 & states & H2 & H3).
  { by apply Hp. }
  split; [done|]. exists (states ++ [set_entries (parent ++ [name]) es (io_fs w)]).
  rewrite H2. simpl. rewrite <- app_assoc. split; [done|]. apply Forall_app. split; [done|].
  constructor; [by apply Hp|constructor].
Qed.

Lemma keeps_remove_dir_all parent name :
  unaffected parent -> unaffected (parent ++ [name]) -> keeps I (remove_dir_all parent name).
Proof.
  intros Hp Hpn w Hw. unfold remove_dir_all.
  destruct (entries_at (parent ++ [name]) _) as [es|]; [|by apply keeps_called].
  destruct (entries_at parent (io_fs w)) as [pes|]; [|by apply keeps_called].
  destruct (fault _).
  - edestruct (keeps_remove_entries (Nat.min (partial_work (io_calls w)) (length es)) parent name
      (called (io_fs w) w)) as (H1 & states & H2 & H3); [done|done|].
    split; [done|]. exists (states ++ [io_fs w]). simpl. rewrite H2. simpl.
    rewrite <- app_assoc. split; [done|]. apply Forall_app. split; [done|]. by repeat constructor.
  - edestruct (keeps_remove_entries (length es) parent name w) as (H1 & states & H2 & H3); [done|done|].
    destruct (entries_at parent _) as [pes'|]; [|by eauto]. simpl.
    split; [by apply Hp|]. eexists (_ :: states). rewrite H2. split; [done|].
    constructor; [by apply Hp|done].
Qed.

End Keeps.

Lemma io_bind_Ok {E A B} (m : IO E A) (k : A -> IO E B) w b w' :
  io_bind m k w = (Ok b, w') <-> exists a w1, m w = (Ok a, w1) /\ k a w1 = (Ok b, w').
Proof.
  unfold io_bind. split.
  - destruct (m w) as [[a|e| | |] w1] eqn:Hm; try done. by exists a, w1.
  - by intros (a & w1 & -> & Hk).
Qed.

Lemma io_bind_assoc {E A B C} (m : IO E A) (f : A -> IO E B) (g : B -> IO E C) w :
  io_bind (io_bind m f) g w = io_bind m (fun a => io_bind (f a) g) w.
Proof. unfold io_bind. by destruct (m w) as [[a|e| | |] w1]. Qed.

Lemma io_bind_ext {E A B} (m : IO E A) (f g : A -> IO E B) w :
  (forall a w, f a w = g a w) -> io_bind m f w = io_bind m g w.
Proof. intros Hfg. unfold io_bind. destruct (m w) as [[a|e| | |] w1]; by rewrite ?Hfg. Qed.

Lemma io_map_err_Ok {E E' A} (f : E -> E') (m : IO E A) w a w' :
  io_map_err f m w = (Ok a, w') <-> m w = (Ok a, w').
Proof. unfold io_map_err. destruct (m w) as [[?|e| | |] w1]; split; by intros [= -> ->]. Qed.

Section Effects.
  Context `{SystemCalls}.

(** A call that fails has no effect. *)
Lemma system_call_fails f w :
  (forall w', system_call f w <> (Ok tt, w')) ->
  io_fs (system_call f w).2 = io_fs w /\
  exists states, io_history (system_call f w).2 = states ++ io_history w /\
    Forall (fun fs => fs = io_fs w) states.
Proof.
  intros Hf. unfold system_call in *. destruct (fault _).
  { split; [done|]. exists [io_fs w]. split; [done|by repeat constructor]. }
  destruct (f (io_fs w)); [by edestruct Hf|..]; (split; [done|]);
    [exists [io_fs w]; split; [done|by repeat constructor]|by exists []..].
Qed.

Lemma create_entry_Ok node parent name w w' :
  create_entry node parent name w = (Ok tt, w') ->
  exists es, entries_at parent (io_fs w) = Some es /\ lookup_entry name es = None /\
    io_fs w' = set_entries parent (set_entry name node es) (io_fs w).
Proof.
  unfold create_entry, system_call. destruct (fault _); [done|].
  destruct (entries_at parent _) as [es|] eqn:He; [|done].
  destruct (lookup_entry name es) eqn:Hl; [done|]. intros [= <-]. by exists es.
Qed.

Lemma write_all_Ok parent name contents w w' :
  write_all parent name contents w = (Ok tt, w') ->
  io_fs w' = set_contents parent name contents (io_fs w).
Proof. unfold write_all. destruct (fault _); [done|]. by intros [= <-]. Qed.

Lemma rename_Ok from fname to tname w w' :
  rename from fname to tname w = (Ok tt, w') -> apart from to ->
  exists fes node tes,
    entries_at from (io_fs w) = Some fes /\ lookup_entry fname fes = Some node /\
    entries_at to (io_fs w) = Some tes /\
    (lookup_entry tname tes = None \/ lookup_entry tname tes = Some (Directory [])) /\
    io_fs w' = set_entries to (set_entry tname node tes)
      (set_entries from (remove_entry fname fes) (io_fs w)) /\
    io_history w' = io_fs w' :: io_history w.
Proof.
  unfold rename, system_call. intros Hr Ha. destruct (fault _); [done|].
  destruct (entries_at from _) as [fes|] eqn:Hf; [|done].
  destruct (lookup_entry fname fes) as [node|] eqn:Hn; [|done].
  rewrite entries_at_set_apart in Hr by done.
  destruct (entries_at to _) as [tes|] eqn:Ht; [|done].
  exists fes, node, tes. split_and!; try done.
  all: destruct (lookup_entry tname tes) as [[[|]| |]|]; try done; eauto.
  all: by injection Hr as <-.
Qed.

End Effects.
