(* ===== verification/StreamQueue.v ===== *)
(** * Published queues (event-system/src/backend/linux.rs)

    The directory layout of an event system and the staged publication of a
    stream's queue: the schema and the link to the queue are prepared in a staging
    directory, which is renamed into place.  The queue itself lives in the external
    crate [shaq]. *)

From Stdlib Require Import ZArith Lia Strings.Byte Strings.String.
From stdpp Require Import base list numbers.
From S2P Require Import Prelude RustStr StreamName FileSystem.
Local Open Scope Z_scope.
Local Open Scope io_scope.

Definition QUEUE_FILE_NAME_PREFIX : str := lit "queue-".
Definition SCHEMA_FILE_NAME : str := lit "schema".
Definition STAGING_DIRECTORY_NAME : str := lit "tmp".
Definition STREAMS_DIRECTORY_NAME : str := lit "event-streams".

Record StreamConfig := {
  capacity : Z;
  publisher_slots : Z;
  subscriber_slots : Z
}.

Inductive CreateStreamError :=
| FailedToSerializeSchema
| FileSystemError (e : IoError)
| StreamNameAlreadyInUse
| Queue
| OsRngFailure.

(** What the code gets from the operating system and from [shaq], as the results
    of call number [t]. *)
Class QueueCalls := {
  random_u64 : nat -> option Z;
  memfd_create : nat -> option Z;
  create_with_identifier : nat -> StreamConfig -> Z -> bool;
  add_seals : nat -> bool;
  process_id : Z
}.

(** The result of a call that does not touch the directory. *)
Definition external_call {E A} (f : nat -> A) : IO E A := fun w =>
  (Ok (f (io_calls w)), called (io_fs w) w).

(** A queue; [bc_id] tells the queues of a run apart. *)
Record Broadcast := {
  bc_id : nat;
  bc_queue_identifier : Z;
  bc_producer_slots : Z
}.

Section Publication.
  Context `{SystemCalls} `{QueueCalls}.

Definition create_sealed_queue (stream_config : StreamConfig) (queue_identifier : Z) :
    IO CreateStreamError (Broadcast * Z) :=
  queue_fd <- external_call memfd_create ;;
  match queue_fd with
  | None => io_err (FileSystemError Injected)
  | Some queue_fd =>
      broadcast <- external_call (fun t =>
        (create_with_identifier t stream_config queue_identifier,
         {| bc_id := t; bc_queue_identifier := queue_identifier;
            bc_producer_slots := publisher_slots stream_config |})) ;;
      if negb broadcast.1 then io_err Queue
      else
        seal_result <- external_call add_seals ;;
        if negb seal_result then io_err (FileSystemError Injected)
        else io_ret (broadcast.2, queue_fd)
  end.

(** ** The staging directory *)

Record StagingDirectory := {
  sd_parent : path;
  sd_name : str;
  sd_cleanup : bool
}.

Definition StagingDirectory_new (parent : path) (name : str) : IO IoError StagingDirectory :=
  create_dir parent name ;;
  io_ret {| sd_parent := parent; sd_name := name; sd_cleanup := true |}.

Definition StagingDirectory_path (self : StagingDirectory) : path :=
  sd_parent self ++ [sd_name self].

Definition StagingDirectory_drop {E} (self : StagingDirectory) : IO E unit :=
  if sd_cleanup self then io_ignore (remove_dir_all (sd_parent self) (sd_name self))
  else io_ret tt.

(** Code that owns the directory: an early return drops it. *)
Definition with_staging {E A} (self : StagingDirectory) (body : IO E A) : IO E A := fun w =>
  match body w with
  | (Ok a, w') => (Ok a, w')
  | (result, w') => (result, (StagingDirectory_drop (E := E) self w').2)
  end.

(** Consumes the directory, so it is dropped at the end in any case. *)
Definition StagingDirectory_publish (self : StagingDirectory) (destination : path) (name : str) :
    IO IoError unit :=
  with_staging self (rename (sd_parent self) (sd_name self) destination name) ;;
  StagingDirectory_drop
    {| sd_parent := sd_parent self; sd_name := sd_name self; sd_cleanup := false |}.

(** ** The queue of a stream *)

Record StreamQueue := {
  sq_broadcast : Broadcast;
  sq_directory_parent : path;
  sq_directory_name : str
}.

(** [encoded_schema] is the result of [wincode::serialize(&E::schema())]. *)
Definition prepare_queue (staging : StagingDirectory) (stream_config : StreamConfig)
    (encoded_schema : option (list byte)) : IO CreateStreamError Broadcast :=
  io_map_err FileSystemError (create_new_file (StagingDirectory_path staging) SCHEMA_FILE_NAME) ;;
  match encoded_schema with
  | None => io_err FailedToSerializeSchema
  | Some encoded_schema =>
      io_map_err FileSystemError
        (write_all (StagingDirectory_path staging) SCHEMA_FILE_NAME encoded_schema) ;;
      queue_identifier <- external_call random_u64 ;;
      match queue_identifier with
      | None => io_err OsRngFailure
      | Some queue_identifier =>
          queue <- create_sealed_queue stream_config queue_identifier ;;
          let queue_file_name := QUEUE_FILE_NAME_PREFIX ++ display queue_identifier in
          let proc_fd_path :=
            lit "/proc/" ++ display process_id ++ lit "/fd/" ++ display queue.2 in
          io_map_err FileSystemError
            (symlink proc_fd_path (StagingDirectory_path staging) queue_file_name) ;;
          io_ret queue.1
      end
  end.

Definition StreamQueue_create (event_system_directory : path) (stream_name : StreamName)
    (stream_config : StreamConfig) (encoded_schema : option (list byte)) :
    IO CreateStreamError StreamQueue :=
  let name := StreamName_as_str stream_name in
  let streams_directory := event_system_directory ++ [STREAMS_DIRECTORY_NAME] in
  let staging_directory := event_system_directory ++ [STAGING_DIRECTORY_NAME] in
  staging <- io_map_err FileSystemError (StagingDirectory_new staging_directory name) ;;
  broadcast <- with_staging staging (prepare_queue staging stream_config encoded_schema) ;;
  io_map_err FileSystemError (StagingDirectory_publish staging streams_directory name) ;;
  io_ret {| sq_broadcast := broadcast;
            sq_directory_parent := streams_directory;
            sq_directory_name := name |}.

Definition StreamQueue_drop {E} (self : StreamQueue) : IO E unit :=
  io_ignore (remove_dir_all (sq_directory_parent self) (sq_directory_name self)).

(** ** The event-system directory

    [canonical] is the result of canonicalizing a path that [create_dir_all]
    created; both depend on the rest of the file system. *)
Definition EventSystemDirectory_create (canonical : option path) : IO IoError path :=
  match canonical with
  | None => io_err NotFound
  | Some path =>
      create_dir path STAGING_DIRECTORY_NAME ;;
      fun w =>
        match create_dir path STREAMS_DIRECTORY_NAME w with
        | (Ok _, w') => (Ok path, w')
        | (Err error, w') => (Err error, (remove_dir path STAGING_DIRECTORY_NAME w').2)
        | (_, w') => (Panic, w')
        end
  end.

Definition EventSystemDirectory_drop {E} (path : path) : IO E unit :=
  io_ignore (remove_dir_all path STAGING_DIRECTORY_NAME) ;;
  io_ignore (remove_dir_all path STREAMS_DIRECTORY_NAME).

End Publication.

(** ** Specification *)

(** The directory of a published queue. *)
Definition published_queue (encoded_schema : list byte) (queue_identifier : Z) (target : str) :
    Node :=
  Directory [(QUEUE_FILE_NAME_PREFIX ++ display queue_identifier, Symlink target);
             (SCHEMA_FILE_NAME, RegularFile encoded_schema)].

Definition streams_directory (dir : path) : path := dir ++ [STREAMS_DIRECTORY_NAME].
Definition staging_directory (dir : path) : path := dir ++ [STAGING_DIRECTORY_NAME].

Lemma staging_apart dir : apart (staging_directory dir) (streams_directory dir).
Proof. exists dir, STAGING_DIRECTORY_NAME, STREAMS_DIRECTORY_NAME, [], []. by vm_compute. Qed.

Lemma staging_child_apart dir name :
  apart (staging_directory dir ++ [name]) (streams_directory dir).
Proof.
  exists dir, STAGING_DIRECTORY_NAME, STREAMS_DIRECTORY_NAME, [name], [].
  unfold staging_directory. by rewrite <- app_assoc.
Qed.

Section KeepsQueue.
  Context `{SystemCalls} `{QueueCalls} {I : Node -> Prop}.

Lemma keeps_external_call {E A} (f : nat -> A) : keeps (E := E) I (external_call f).
Proof. intros w Hw. by apply keeps_called. Qed.

Lemma keeps_create_sealed_queue cfg id : keeps I (create_sealed_queue cfg id).
Proof.
  apply keeps_bind; [apply keeps_external_call|]. intros [fd|]; [|apply keeps_err].
  apply keeps_bind; [apply keeps_external_call|]. intros [b bc]. destruct (negb _); [apply keeps_err|].
  apply keeps_bind; [apply keeps_external_call|]. intros s. destruct (negb s); [apply keeps_err|apply keeps_ret].
Qed.

Lemma keeps_prepare_queue staging cfg schema :
  unaffected (I := I) (StagingDirectory_path staging) ->
  keeps I (prepare_queue staging cfg schema).
Proof.
  intros Hs. apply keeps_bind; [by apply keeps_map_err, keeps_create_entry|]. intros _.
  destruct schema as [enc|]; [|apply keeps_err].
  apply keeps_bind; [by apply keeps_map_err, keeps_write_all|]. intros _.
  apply keeps_bind; [apply keeps_external_call|]. intros [id|]; [|apply keeps_err].
  apply keeps_bind; [apply keeps_create_sealed_queue|]. intros [bc fd].
  apply keeps_bind; [by apply keeps_map_err, keeps_create_entry|]. intros _. apply keeps_ret.
Qed.

Lemma keeps_with_staging {E A} staging (body : IO E A) :
  unaffected (I := I) (sd_parent staging) -> unaffected (I := I) (StagingDirectory_path staging) ->
  keeps I body -> keeps I (with_staging staging body).
Proof.
  intros Hp Hs Hb w Hw. unfold with_staging. specialize (Hb w Hw).
  assert (Hd : keeps (E := E) I (StagingDirectory_drop staging)).
  { unfold StagingDirectory_drop. destruct (sd_cleanup staging); [|apply keeps_ret].
    by apply keeps_ignore, keeps_remove_dir_all. }
  destruct Hb as (Hw' & states & Hh & Hs').
  destruct (Hd (body w).2 Hw') as (H1 & states' & H2 & H3).
  destruct (body w) as [[a|e| | |] w']; simpl in *; [by eauto|..];
    (split; [done|]; exists (states' ++ states); rewrite H2, Hh, app_assoc;
     split; [done|by apply Forall_app]).
Qed.

Lemma keeps_StagingDirectory_new parent name :
  unaffected (I := I) parent -> keeps I (StagingDirectory_new parent name).
Proof.
  intros Hp. apply keeps_bind; [by apply keeps_create_entry|]. intros _. apply keeps_ret.
Qed.

End KeepsQueue.

Section Effects.
  Context `{SystemCalls} `{QueueCalls}.

Lemma external_call_Ok {E A} (f : nat -> A) w a w' :
  external_call (E := E) f w = (Ok a, w') -> io_fs w' = io_fs w.
Proof. by intros [= _ <-]. Qed.

Lemma create_sealed_queue_Ok cfg id w q w' :
  create_sealed_queue cfg id w = (Ok q, w') ->
  io_fs w' = io_fs w /\ bc_queue_identifier q.1 = id /\
  bc_producer_slots q.1 = publisher_slots cfg.
Proof.
  unfold create_sealed_queue. rewrite io_bind_Ok. intros (fd & w1 & H1%external_call_Ok & Hk).
  destruct fd as [fd|]; [|done].
  apply io_bind_Ok in Hk as ([b bc] & w2 & H2 & Hk). injection H2 as H2 Hbc Hw2.
  destruct (negb _); [done|].
  apply io_bind_Ok in Hk as (s & w3 & H3%external_call_Ok & Hk). destruct (negb s); [done|].
  injection Hk as <- <-. subst. simpl in *. split; [congruence|done].
Qed.

Lemma with_staging_Ok {E A} staging (body : IO E A) w a w' :
  with_staging staging body w = (Ok a, w') <-> body w = (Ok a, w').
Proof. unfold with_staging. destruct (body w) as [[?|e| | |] w1]; split; by intros [= -> ->]. Qed.

Lemma prepare_queue_Ok staging cfg schema w bc w' :
  prepare_queue staging cfg schema w = (Ok bc, w') ->
  entries_at (StagingDirectory_path staging) (io_fs w) = Some [] ->
  exists enc target, schema = Some enc /\ bc_producer_slots bc = publisher_slots cfg /\
    get_node (StagingDirectory_path staging) (io_fs w') =
      Some (published_queue enc (bc_queue_identifier bc) target).
Proof.
  set (p := StagingDirectory_path staging). intros Hp Hempty. unfold prepare_queue in Hp. fold p in Hp.
  apply io_bind_Ok in Hp as ([] & w1 & H1 & Hp). apply io_map_err_Ok, create_entry_Ok in H1
    as (es & He & _ & Hw1). rewrite Hempty in He. injection He as <-.
  pose proof (entries_at_set_same p [(SCHEMA_FILE_NAME, RegularFile [])] _ _ Hempty) as E1.
  change (set_entry SCHEMA_FILE_NAME _ []) with [(SCHEMA_FILE_NAME, RegularFile [])] in Hw1.
  rewrite <- Hw1 in E1. destruct schema as [enc|]; [|done].
  apply io_bind_Ok in Hp as ([] & w2 & H2 & Hp). apply io_map_err_Ok, write_all_Ok in H2.
  unfold set_contents in H2. rewrite E1 in H2.
  pose proof (entries_at_set_same p [(SCHEMA_FILE_NAME, RegularFile enc)] _ _ E1) as E2.
  change (set_entry SCHEMA_FILE_NAME _ _) with [(SCHEMA_FILE_NAME, RegularFile enc)] in H2.
  rewrite <- H2 in E2.
  apply io_bind_Ok in Hp as ([id|] & w3 & H3%external_call_Ok & Hp); [|done].
  apply io_bind_Ok in Hp as ([b fd] & w4 & (H4 & Hid & Hslots)%create_sealed_queue_Ok & Hp).
  apply io_bind_Ok in Hp as ([] & w5 & H5 & Hp). injection Hp as <- <-.
  apply io_map_err_Ok, create_entry_Ok in H5 as (es & He & Hnew & Hw5).
  rewrite <- H3, <- H4 in E2. rewrite E2 in He. injection He as <-.
  exists enc. eexists. split; [done|]. split; [done|].
  apply (entries_at_set_same p (set_entry (QUEUE_FILE_NAME_PREFIX ++ display id)
    (Symlink (lit "/proc/" ++ display process_id ++ lit "/fd/" ++ display fd))
    [(SCHEMA_FILE_NAME, RegularFile enc)])) in E2.
  cbn [snd] in Hw5. rewrite <- Hw5 in E2. cbn [fst] in Hid |- *. rewrite Hid. unfold entries_at in E2.
  destruct (get_node p (io_fs w5)) as [[es| |]|]; try done. injection E2 as ->.
  unfold published_queue, set_entry. do 3 f_equal.
Qed.

(** The states of the streams directory that are visible while [m] runs. *)
Definition sees (dir : path) (es : list (str * Node)) (fs : Node) : Prop :=
  entries_at (streams_directory dir) fs = Some es.

Lemma sees_unaffected dir es name :
  unaffected (I := sees dir es) (staging_directory dir) /\
  unaffected (I := sees dir es) (staging_directory dir ++ [name]).
Proof.
  split; intros es' fs; unfold sees; rewrite entries_at_set_apart; try done.
  - apply staging_apart.
  - apply staging_child_apart.
Qed.

(** The creation of a queue up to its publication. *)
Definition create_unpublished (dir : path) (stream_name : StreamName) (cfg : StreamConfig)
    (schema : option (list byte)) : IO CreateStreamError (StagingDirectory * Broadcast) :=
  staging <- io_map_err FileSystemError
    (StagingDirectory_new (staging_directory dir) (StreamName_as_str stream_name)) ;;
  broadcast <- with_staging staging (prepare_queue staging cfg schema) ;;
  io_ret (staging, broadcast).

Definition publish_prepared (dir : path) (stream_name : StreamName)
    (prepared : StagingDirectory * Broadcast) : IO CreateStreamError StreamQueue :=
  io_map_err FileSystemError
    (StagingDirectory_publish prepared.1 (streams_directory dir) (StreamName_as_str stream_name)) ;;
  io_ret {| sq_broadcast := prepared.2; sq_directory_parent := streams_directory dir;
            sq_directory_name := StreamName_as_str stream_name |}.

Lemma StreamQueue_create_split dir name cfg schema w :
  StreamQueue_create dir name cfg schema w =
  io_bind (create_unpublished dir name cfg schema) (publish_prepared dir name) w.
Proof.
  unfold StreamQueue_create, create_unpublished. rewrite io_bind_assoc.
  apply io_bind_ext. intros st w1. by rewrite io_bind_assoc.
Qed.

Lemma StagingDirectory_new_Ok parent name w st w' :
  StagingDirectory_new parent name w = (Ok st, w') ->
  st = {| sd_parent := parent; sd_name := name; sd_cleanup := true |} /\
  exists es, entries_at parent (io_fs w) = Some es /\ lookup_entry name es = None /\
    io_fs w' = set_entries parent (set_entry name (Directory []) es) (io_fs w).
Proof.
  unfold StagingDirectory_new. rewrite io_bind_Ok. intros ([] & w1 & H1%create_entry_Ok & Hr).
  by injection Hr as <- <-.
Qed.

Lemma keeps_create_unpublished dir name cfg schema I :
  unaffected (I := I) (staging_directory dir) ->
  unaffected (I := I) (staging_directory dir ++ [StreamName_as_str name]) ->
  keeps I (create_unpublished dir name cfg schema).
Proof.
  intros Hp Hc. apply keeps_bind_dep; [by apply keeps_map_err, keeps_StagingDirectory_new|].
  intros st w w' [-> _]%io_map_err_Ok%StagingDirectory_new_Ok.
  apply keeps_bind; [|intros; apply keeps_ret].
  by apply keeps_with_staging; [| |by apply keeps_prepare_queue].
Qed.

(** A publication that fails leaves the directory to its cleanup. *)
Lemma publish_fails dir name st bc I w r w' :
  publish_prepared dir name (st, bc) w = (r, w') -> (forall q, r <> Ok q) ->
  unaffected (I := I) (sd_parent st) -> unaffected (I := I) (StagingDirectory_path st) ->
  I (io_fs w) ->
  exists w1, io_fs w1 = io_fs w /\ w' = (StagingDirectory_drop (E := IoError) st w1).2 /\
    I (io_fs w') /\ exists states, io_history w' = states ++ io_history w /\ Forall I states.
Proof.
  intros Hr Hnot Hp Hs Hw. unfold publish_prepared, StagingDirectory_publish in Hr. simpl in Hr.
  set (m := rename (sd_parent st) (sd_name st) (streams_directory dir) (StreamName_as_str name)) in Hr.
  assert (Hm : forall w1, m w <> (Ok tt, w1)).
  { intros w1 Hm. unfold io_bind, io_map_err, with_staging in Hr. rewrite Hm in Hr. simpl in Hr.
    injection Hr as <- <-. by eapply Hnot. }
  assert (Hd : w' = (StagingDirectory_drop (E := IoError) st (m w).2).2).
  { unfold io_bind, io_map_err, with_staging in Hr.
    destruct (m w) as [[[]|e| | |] w1]; [by destruct (Hm w1)|by injection Hr as <- <-..]. }
  assert (io_fs (m w).2 = io_fs w /\ exists states, io_history (m w).2 = states ++ io_history w /\
    Forall (fun fs => fs = io_fs w) states) as (Hfs & states & Hh & Hall)
    by exact (system_call_fails _ w Hm).
  exists (m w).2. split; [done|]. split; [done|].
  assert (Hk : keeps (E := IoError) I (StagingDirectory_drop st)).
  { unfold StagingDirectory_drop. destruct (sd_cleanup st); [|apply keeps_ret].
    by apply keeps_ignore, keeps_remove_dir_all. }
  destruct (Hk (m w).2) as (H1 & states' & H2 & H3); [by rewrite Hfs|]. rewrite Hd.
  split; [done|]. exists (states' ++ states). rewrite H2, Hh, app_assoc. split; [done|].
  apply Forall_app. split; [done|]. eapply List.Forall_impl; [|exact Hall]. by intros fs ->.
Qed.

Lemma create_unpublished_Ok dir name cfg schema w st bc w' :
  create_unpublished dir name cfg schema w = (Ok (st, bc), w') ->
  st = {| sd_parent := staging_directory dir; sd_name := StreamName_as_str name;
          sd_cleanup := true |} /\
  exists enc target, schema = Some enc /\ bc_producer_slots bc = publisher_slots cfg /\
    get_node (staging_directory dir ++ [StreamName_as_str name]) (io_fs w') =
      Some (published_queue enc (bc_queue_identifier bc) target).
Proof.
  unfold create_unpublished. rewrite io_bind_Ok.
  intros (st' & w1 & (-> & es & Hes & _ & Hw1)%io_map_err_Ok%StagingDirectory_new_Ok & Hk).
  apply io_bind_Ok in Hk as (bc' & w2 & Hp%with_staging_Ok & Hr). injection Hr as <- <- <-.
  split; [done|]. apply (prepare_queue_Ok _ _ _ _ _ _ Hp).
  pose proof (entries_at_set_same _ (set_entry (StreamName_as_str name) (Directory []) es) _ _ Hes) as E.
  rewrite <- Hw1 in E. unfold entries_at, StagingDirectory_path. simpl.
  rewrite (entries_at_child _ _ _ _ E). by rewrite lookup_set_same.
Qed.

(** Successful creation: the reader sees the entries [es] before the rename and
    the published queue after it. *)
Lemma create_publishes dir name cfg schema w q w' es :
  StreamQueue_create dir name cfg schema w = (Ok q, w') -> sees dir es (io_fs w) ->
  exists enc target states,
    schema = Some enc /\
    sq_directory_parent q = streams_directory dir /\
    sq_directory_name q = StreamName_as_str name /\
    bc_producer_slots (sq_broadcast q) = publisher_slots cfg /\
    (lookup_entry (StreamName_as_str name) es = None \/
     lookup_entry (StreamName_as_str name) es = Some (Directory [])) /\
    io_history w' = io_fs w' :: states ++ io_history w /\ Forall (sees dir es) states /\
    sees dir (set_entry (StreamName_as_str name)
      (published_queue enc (bc_queue_identifier (sq_broadcast q)) target) es) (io_fs w').
Proof.
  rewrite StreamQueue_create_split, io_bind_Ok. intros ([st bc] & w1 & Hc & Hp) Hw.
  destruct (sees_unaffected dir es (StreamName_as_str name)) as [U1 U2].
  destruct (keeps_create_unpublished dir name cfg schema _ U1 U2 w Hw) as (H1 & states & Hh & Hs).
  rewrite Hc in H1, Hh. simpl in H1, Hh.
  apply create_unpublished_Ok in Hc as (-> & enc & target & -> & Hslots & Hn).
  apply io_bind_Ok in Hp as ([] & w2 & Hp%io_map_err_Ok & Hr). injection Hr as <- <-.
  apply io_bind_Ok in Hp as ([] & w3 & Hp%with_staging_Ok & Hr). injection Hr as <-. simpl in *.
  apply rename_Ok in Hp as (fes & node & tes & Hfes & Hnode & Htes & Hdst & Hfs & Hhist);
    [|apply staging_apart].
  rewrite (entries_at_child _ _ _ _ Hfes), Hnode in Hn. injection Hn as ->.
  unfold sees in H1. rewrite H1 in Htes. injection Htes as <-.
  exists enc, target, states. split_and!; try done.
  - by rewrite Hhist, Hh.
  - unfold sees. rewrite Hfs. eapply entries_at_set_same.
    rewrite entries_at_set_apart; [exact H1|apply staging_apart].
Qed.

Lemma create_slots dir name cfg schema w q w' :
  StreamQueue_create dir name cfg schema w = (Ok q, w') ->
  bc_producer_slots (sq_broadcast q) = publisher_slots cfg.
Proof.
  rewrite StreamQueue_create_split, io_bind_Ok.
  intros ([st bc] & w1 & (_ & _ & _ & _ & Hslots & _)%create_unpublished_Ok & Hp).
  apply io_bind_Ok in Hp as ([] & w2 & _ & Hr). by injection Hr as <- _.
Qed.

Lemma create_fails dir name cfg schema w r w' es :
  StreamQueue_create dir name cfg schema w = (r, w') -> (forall q, r <> Ok q) ->
  sees dir es (io_fs w) ->
  sees dir es (io_fs w') /\
  exists states, io_history w' = states ++ io_history w /\ Forall (sees dir es) states.
Proof.
  rewrite StreamQueue_create_split. unfold io_bind. intros Hr Hnot Hw.
  destruct (sees_unaffected dir es (StreamName_as_str name)) as [U1 U2].
  pose proof (keeps_create_unpublished dir name cfg schema _ U1 U2 w Hw) as Hk.
  destruct (create_unpublished dir name cfg schema w) as [[[st bc]|e| | |] w1] eqn:Hc;
    simpl in Hk; try (by injection Hr as <- <-).
  apply create_unpublished_Ok in Hc as (-> & _). destruct Hk as (H1 & states & Hh & Hs).
  eapply publish_fails in Hr as (_ & _ & _ & H2 & states' & Hh' & Hs'); try done.
  split; [done|]. exists (states' ++ states). rewrite Hh', Hh, app_assoc. split; [done|].
  by apply Forall_app.
Qed.

(** ** Cleaning up *)

Definition no_faults : Prop := forall t, fault t = false.

(** The directory [p] has the entries [es] and a subdirectory [name]. *)
Definition has_extra (p : path) (name : str) (es : list (str * Node)) (fs : Node) : Prop :=
  exists pes ces, entries_at p fs = Some pes /\ lookup_entry name pes = Some (Directory ces) /\
    forall n, n <> name -> lookup_entry n pes = lookup_entry n es.

(** The directory [p] has the entries [es], in some order. *)
Definition has_entries (p : path) (es : list (str * Node)) (fs : Node) : Prop :=
  exists pes, entries_at p fs = Some pes /\ forall n, lookup_entry n pes = lookup_entry n es.

Lemma has_extra_unaffected p name es :
  unaffected (I := has_extra p name es) (p ++ [name]).
Proof.
  intros ces' fs (pes & ces & Hp & Hn & Ho). exists (set_entry name (Directory ces') pes), ces'.
  split_and!; [by eapply entries_at_set_child|apply lookup_set_same|].
  intros n Hne. rewrite lookup_set_other by done. by apply Ho.
Qed.

Lemma has_extra_removed p name es fs :
  has_extra p name es fs -> lookup_entry name es = None ->
  forall pes, entries_at p fs = Some pes ->
  has_entries p es (set_entries p (remove_entry name pes) fs).
Proof.
  intros (pes & ces & Hp & Hn & Ho) Hnone pes' Hp'. rewrite Hp in Hp'. injection Hp' as <-.
  exists (remove_entry name pes). split; [by eapply entries_at_set_same|]. intros n.
  destruct (decide (n = name)) as [->|Hne]; [by rewrite lookup_remove_same, Hnone|].
  rewrite lookup_remove_other by done. by apply Ho.
Qed.

Lemma remove_dir_all_removes p name es w :
  fault (io_calls w) = false -> has_extra p name es (io_fs w) -> lookup_entry name es = None ->
  has_entries p es (io_fs (remove_dir_all p name w).2).
Proof.
  intros Hnf Hx Hnone. unfold remove_dir_all. rewrite Hnf. pose proof Hx as (pes & ces & Hp & Hn & _).
  assert (entries_at (p ++ [name]) (io_fs w) = Some ces) as ->
    by (unfold entries_at; by rewrite (entries_at_child _ _ _ _ Hp), Hn).
  rewrite Hp.
  destruct (keeps_remove_entries (length ces) p name w (has_extra_unaffected p name es) Hx) as [Hx' _].
  pose proof Hx' as (pes' & _ & Hp' & _). rewrite Hp'. simpl. by apply (has_extra_removed p name).
Qed.

Lemma remove_dir_all_restores p name es w :
  no_faults -> has_extra p name es (io_fs w) -> lookup_entry name es = None ->
  has_entries p es (io_fs (remove_dir_all p name w).2).
Proof. intros Hnf. by apply remove_dir_all_removes. Qed.

Lemma StagingDirectory_new_fails parent name w r w' :
  StagingDirectory_new parent name w = (r, w') -> (forall st, r <> Ok st) -> io_fs w' = io_fs w.
Proof.
  intros Hr Hnot. unfold StagingDirectory_new, io_bind in Hr.
  pose proof (system_call_fails (fun fs => match entries_at parent fs with
    | None => Err NotFound
    | Some es => match lookup_entry name es with
                 | Some _ => Err AlreadyExists
                 | None => Ok (set_entries parent (set_entry name (Directory []) es) fs)
                 end
    end) w) as Hf. fold (create_entry (Directory []) parent name) in Hf. fold (create_dir parent name) in Hf.
  destruct (create_dir parent name w) as [[[]|e| | |] w1];
    injection Hr as <- <-; [by edestruct Hnot|apply Hf; intros ? ?; congruence..].
Qed.

(** Without failing system calls, the staging directory ends as it was, whether
    or not the queue is created. *)
Lemma create_restores_staging dir name cfg schema w r w' es :
  no_faults -> entries_at (staging_directory dir) (io_fs w) = Some es ->
  StreamQueue_create dir name cfg schema w = (r, w') ->
  has_entries (staging_directory dir) es (io_fs w').
Proof.
  intros Hnf Hes. rewrite StreamQueue_create_split. set (n := StreamName_as_str name).
  set (p := staging_directory dir) in *. unfold create_unpublished. rewrite io_bind_assoc. fold p n.
  destruct (StagingDirectory_new p n w) as [r1 w1] eqn:Hnew.
  unfold io_bind at 1, io_map_err at 1. rewrite Hnew. destruct r1 as [st|e| | |].
  2-5: intros [= <- <-]; apply StagingDirectory_new_fails in Hnew; [|done]; exists es; by rewrite Hnew.
  apply StagingDirectory_new_Ok in Hnew as (-> & es' & Hes' & Hnone & Hw1).
  rewrite Hes in Hes'. injection Hes' as <-.
  assert (Hx1 : has_extra p n es (io_fs w1)).
  { exists (set_entry n (Directory []) es), []. rewrite Hw1. split_and!; [by eapply entries_at_set_same| |].
    - apply lookup_set_same.
    - intros m Hm. by apply lookup_set_other. }
  set (st := {| sd_parent := p; sd_name := n; sd_cleanup := true |}).
  pose proof (keeps_prepare_queue st cfg schema (has_extra_unaffected p n es) w1 Hx1) as [Hx2 _].
  rewrite io_bind_assoc. unfold io_bind at 1, with_staging.
  destruct (prepare_queue st cfg schema w1) as [[bc|e| | |] w2]; simpl in Hx2 |- *.
  2-5: intros [= <- <-]; by apply remove_dir_all_restores.
  change (publish_prepared dir name (st, bc) w2 = (r, w') -> has_entries p es (io_fs w')).
  destruct r as [q|e| | |]; intros Hp.
  2-5: eapply (publish_fails _ _ _ _ (fun _ => True)) in Hp as (w3 & Hw3 & -> & _); try done;
    apply remove_dir_all_restores; [done|by rewrite Hw3|done].
  apply io_bind_Ok in Hp as ([] & w3 & Hp%io_map_err_Ok & Hr). injection Hr as _ <-.
  apply io_bind_Ok in Hp as ([] & w4 & Hp%with_staging_Ok & Hr). injection Hr as <-.
  apply rename_Ok in Hp as (fes & node & tes & Hfes & _ & _ & _ & Hfs & _); [|apply staging_apart].
  destruct (has_extra_removed p n es _ Hx2 Hnone fes Hfes) as (pes & Hpes & Hl).
  exists pes. split; [|done]. rewrite Hfs.
  rewrite entries_at_set_apart; [exact Hpes|apply apart_sym, staging_apart].
Qed.

(** ** Every call returns *)

Definition io_returns {E A} (m : IO E A) : Prop := forall w, returns (m w).1.

Lemma io_returns_bind {E A B} (m : IO E A) (k : A -> IO E B) :
  io_returns m -> (forall a, io_returns (k a)) -> io_returns (io_bind m k).
Proof.
  intros Hm Hk w. unfold io_bind. specialize (Hm w). destruct (m w) as [[a|e| | |] w']; try done.
  apply Hk.
Qed.

Lemma io_returns_map_err {E E' A} (f : E -> E') (m : IO E A) :
  io_returns m -> io_returns (io_map_err f m).
Proof. intros Hm w. unfold io_map_err. specialize (Hm w). by destruct (m w) as [[a|e| | |] w']. Qed.

Lemma io_returns_with_staging {E A} st (m : IO E A) : io_returns m -> io_returns (with_staging st m).
Proof. intros Hm w. unfold with_staging. specialize (Hm w). by destruct (m w) as [[a|e| | |] w']. Qed.

Lemma io_returns_system_call f : (forall fs, returns (f fs)) -> io_returns (system_call f).
Proof.
  intros Hf w. unfold system_call. destruct (fault _); [done|]. specialize (Hf (io_fs w)).
  by destruct (f (io_fs w)).
Qed.

Lemma StreamQueue_create_returns dir name cfg schema :
  io_returns (StreamQueue_create dir name cfg schema).
Proof.
  assert (Hc : forall node p n, io_returns (create_entry node p n))
    by (intros; apply io_returns_system_call; intros; by repeat case_match).
  apply io_returns_bind; [apply io_returns_map_err, io_returns_bind; [apply Hc|done]|]. intros st.
  apply io_returns_bind; [apply io_returns_with_staging, io_returns_bind|intros bc].
  - apply io_returns_map_err, Hc.
  - intros _. destruct schema as [enc|]; [|done]. apply io_returns_bind.
    { apply io_returns_map_err. intros w. unfold write_all. by destruct (fault _). }
    intros _. apply io_returns_bind; [done|]. intros [id|]; [|done].
    apply io_returns_bind; [|intros [b fd]; apply io_returns_bind; [apply io_returns_map_err, Hc|done]].
    apply io_returns_bind; [done|]. intros [fd|]; [|done].
    apply io_returns_bind; [done|]. intros [b bc]. destruct (negb _); [done|].
    apply io_returns_bind; [done|]. intros s. by destruct (negb s).
  - apply io_returns_bind; [|done]. apply io_returns_map_err, io_returns_bind; [|done].
    apply io_returns_with_staging, io_returns_system_call. intros fs. cbv zeta. repeat case_match; try exact I.
Qed.
End Effects.

(** ** Properties *)

(** C16: Publication is atomic: whatever system calls fail, creating a queue
    returns, and every state of the streams directory that a reader can observe
    meanwhile has either the old entries or, in addition, the complete directory
    of the queue, with the encoded schema and the link named by the queue's
    identifier; the latter exactly from the point of success on, and never when
    the creation fails.  An existing non-empty directory is never replaced. *)
Theorem queue_publication_is_atomic `{SystemCalls} `{QueueCalls} dir name cfg schema w r w' es :
  StreamQueue_create dir name cfg schema w = (r, w') -> sees dir es (io_fs w) ->
  returns r /\
  exists states, io_history w' = states ++ io_history w /\
  match r with
  | Ok q =>
      exists enc target, schema = Some enc /\
        (lookup_entry (StreamName_as_str name) es = None \/
         lookup_entry (StreamName_as_str name) es = Some (Directory [])) /\
        let published := set_entry (StreamName_as_str name)
          (published_queue enc (bc_queue_identifier (sq_broadcast q)) target) es in
        sees dir published (io_fs w') /\
        Forall (fun fs => sees dir es fs \/ sees dir published fs) states
  | _ => sees dir es (io_fs w') /\ Forall (sees dir es) states
  end.
Proof.
  intros Hr Hw. split.
  { pose proof (StreamQueue_create_returns dir name cfg schema w) as H1. by rewrite Hr in H1. }
  destruct r as [q|e| | |].
  2-5: eapply create_fails in Hr as (? & states & ? & ?); try done; by exists states.
  eapply create_publishes in Hr as (enc & target & states & -> & _ & _ & _ & Hd & Hh & Hs & Hp); [|done].
  exists (io_fs w' :: states). split; [done|]. exists enc, target. cbv zeta. split_and!; try done.
  constructor; [by right|]. eapply List.Forall_impl; [|exact Hs]. intros fs. by left.
Qed.

(** Creating a queue leaves nothing behind in the staging directory: as long
    as no system call fails (the schema, the random number or the queue may), the
    staging directory ends with the entries it had, on success and on error. *)
Theorem queue_creation_cleans_up `{SystemCalls} `{QueueCalls} dir name cfg schema w r w' es :
  no_faults -> entries_at (staging_directory dir) (io_fs w) = Some es ->
  StreamQueue_create dir name cfg schema w = (r, w') ->
  exists es', entries_at (staging_directory dir) (io_fs w') = Some es' /\
    forall n, lookup_entry n es' = lookup_entry n es.
Proof. apply create_restores_staging. Qed.

(** ** Samples *)

#[global] Instance sample_system_calls : SystemCalls | 10 :=
  {| fault := fun _ => false; partial_work := fun _ => O |}.

#[global] Instance sample_queue_calls : QueueCalls | 10 :=
  {| random_u64 := fun _ => Some 42; memfd_create := fun _ => Some 5;
     create_with_identifier := fun _ _ _ => true; add_seals := fun _ => true; process_id := 123 |}.

Definition sample_stream_config : StreamConfig :=
  {| capacity := 8; publisher_slots := 2; subscriber_slots := 4 |}.

Definition sample_name : StreamName := {| name_str := lit "slot.events" |}.

Definition sample_world : IoWorld :=
  {| io_fs := Directory [(STAGING_DIRECTORY_NAME, Directory []);
                         (STREAMS_DIRECTORY_NAME, Directory [])];
     io_calls := O; io_history := [] |}.

Example sample_queue_is_published :
  sees [] [(lit "slot.events",
            Directory [(lit "queue-42", Symlink (lit "/proc/123/fd/5"));
                       (lit "schema", RegularFile [x01; x02])])]
    (io_fs (StreamQueue_create [] sample_name sample_stream_config (Some [x01; x02]) sample_world).2).
Proof. by vm_compute. Qed.

Lemma queue_publication_is_atomic_witness :
  sees [] [] (io_fs (StreamQueue_create [] sample_name sample_stream_config None sample_world).2).
Proof.
  destruct (queue_publication_is_atomic [] sample_name sample_stream_config None sample_world
    (Err FailedToSerializeSchema)
    (StreamQueue_create [] sample_name sample_stream_config None sample_world).2 []
    ltac:(by vm_compute) ltac:(by vm_compute)) as (_ & states & _ & H & _).
  exact H.
Defined.

Lemma queue_creation_cleans_up_witness :
  exists es', entries_at (staging_directory []) (io_fs (StreamQueue_create [] sample_name
      sample_stream_config None sample_world).2) = Some es' /\
    lookup_entry (lit "slot.events") es' = None.
Proof.
  destruct (queue_creation_cleans_up (H := sample_system_calls) [] sample_name sample_stream_config None sample_world
    (Err FailedToSerializeSchema)
    (StreamQueue_create [] sample_name sample_stream_config None sample_world).2 []
    ltac:(intros t; reflexivity) ltac:(by vm_compute) ltac:(by vm_compute)) as (es' & H1 & H2).
  exists es'. split; [exact H1|exact (H2 (lit "slot.events"))].
Defined.
