(* ===== verification/EventStream.v ===== *)
(** * Event streams and publishers
      (event-system/src/backend/linux.rs and linux/publisher.rs)

    A stream has a queue only while its policy enables it.  Publishers keep a
    producer on the queue they last saw and notice a change by comparing
    generations, without a lock.  The stream and its publishers form a state
    machine whose steps are the atomic sections of the code. *)

From Stdlib Require Import ZArith Lia Strings.Byte Strings.String.
From stdpp Require Import base list numbers gmap.
From S2P Require Import Prelude RustStr StreamName StreamPolicy FileSystem StreamQueue.
Local Open Scope Z_scope.

(** ** The stream *)

Record StreamState := {
  ss_queue : option StreamQueue;
  ss_remaining_publisher_slots : Z
}.

Record EventStream := {
  es_queue_generation : Z;
  es_stream_name : StreamName;
  es_stream_config : StreamConfig;
  es_state : StreamState;
  es_event_system_directory : path;
  (** the result of serializing the schema of the event type *)
  es_encoded_schema : option (list byte)
}.

Definition EventStream_new (event_system_directory : path) (stream_name : StreamName)
    (stream_config : StreamConfig) (encoded_schema : option (list byte)) : EventStream :=
  {| es_queue_generation := 0;
     es_stream_name := stream_name;
     es_stream_config := stream_config;
     es_state := {| ss_queue := None;
                    ss_remaining_publisher_slots := publisher_slots stream_config |};
     es_event_system_directory := event_system_directory;
     es_encoded_schema := encoded_schema |}.

Definition set_queue (self : EventStream) (queue : option StreamQueue) (generation : Z) :
    EventStream :=
  {| es_queue_generation := generation;
     es_stream_name := es_stream_name self;
     es_stream_config := es_stream_config self;
     es_state := {| ss_queue := queue;
                    ss_remaining_publisher_slots :=
                      ss_remaining_publisher_slots (es_state self) |};
     es_event_system_directory := es_event_system_directory self;
     es_encoded_schema := es_encoded_schema self |}.

Definition set_remaining (self : EventStream) (remaining : Z) : EventStream :=
  {| es_queue_generation := es_queue_generation self;
     es_stream_name := es_stream_name self;
     es_stream_config := es_stream_config self;
     es_state := {| ss_queue := ss_queue (es_state self);
                    ss_remaining_publisher_slots := remaining |};
     es_event_system_directory := es_event_system_directory self;
     es_encoded_schema := es_encoded_schema self |}.

Definition enabled (self : EventStream) : bool :=
  match ss_queue (es_state self) with Some _ => true | None => false end.

(** [fetch_add(1)] wraps around. *)
Definition next_generation (self : EventStream) : Z :=
  wrapping_add U64 (es_queue_generation self) 1.

Section Stream.
  Context `{SystemCalls} `{QueueCalls}.

(** Runs while the state is locked for writing. *)
Definition EventStream_apply_stream_rule (self : EventStream) (rule : StreamRule) (w : IoWorld) :
    Outcome CreateStreamError unit * EventStream * IoWorld :=
  match rule, ss_queue (es_state self) with
  | On, None =>
      match StreamQueue_create (es_event_system_directory self) (es_stream_name self)
              (es_stream_config self) (es_encoded_schema self) w with
      | (Ok queue, w') => (Ok tt, set_queue self (Some queue) (next_generation self), w')
      | (Err e, w') => (Err e, self, w')
      | (_, w') => (Panic, self, w')
      end
  | Off, Some queue =>
      (Ok tt, set_queue self None (next_generation self),
       (StreamQueue_drop (E := IoError) queue w).2)
  | On, Some _ | Off, None => (Ok tt, self, w)
  end.
End Stream.

(** ** Publishers *)

(** What the code uses of [shaq]: the outcome of [Broadcast::producer] on a queue
    with [live] producers out of [slots], and whether [count] more events can be
    reserved on a queue to which the events [sent] were published. *)
Class Shaq := {
  producer_available : forall (live slots : Z), bool;
  can_reserve : forall (queue : nat) (sent : list (list byte)) (count : Z), bool
}.

(** The documented behaviour: a producer can be created while fewer than
    [producer_slots] are alive. *)
Definition producers_up_to_slots `{Shaq} : Prop :=
  forall live slots, 0 <= live < slots -> producer_available live slots = true.

Inductive PublishError := Serialization | FailedToSend.

(** A publisher is between calls, or between the two atomic parts of
    [replace_producer] or of its drop. *)
Inductive Phase := Ready | Replacing | Dropping.

#[global] Instance Phase_eq_dec : EqDecision Phase.
Proof. solve_decision. Defined.

Record Publisher := {
  pub_queue_generation : Z;
  (** the queue that the producer belongs to *)
  pub_producer : option nat;
  pub_phase : Phase
}.

(** A stream with its live publishers. *)
Record StreamWorld := {
  sw_stream : EventStream;
  sw_publishers : gmap nat Publisher;
  (** the events sent, each with its queue, in order *)
  sw_sent : list (nat * list byte);
  sw_io : IoWorld
}.

Definition with_stream (w : StreamWorld) (s : EventStream) : StreamWorld :=
  {| sw_stream := s; sw_publishers := sw_publishers w; sw_sent := sw_sent w; sw_io := sw_io w |}.

Definition with_publishers (w : StreamWorld) (ps : gmap nat Publisher) : StreamWorld :=
  {| sw_stream := sw_stream w; sw_publishers := ps; sw_sent := sw_sent w; sw_io := sw_io w |}.

Definition with_io (w : StreamWorld) (io : IoWorld) : StreamWorld :=
  {| sw_stream := sw_stream w; sw_publishers := sw_publishers w; sw_sent := sw_sent w; sw_io := io |}.

(** The number of live producers on the queue [b]. *)
Definition live_producers (ps : gmap nat Publisher) (b : nat) : Z :=
  Z.of_nat (size (filter (fun '(_, p) => pub_producer p = Some b) ps)).

Section Publishers.
  Context `{SystemCalls} `{QueueCalls} `{Shaq}.

(** [StreamState::create_producer]. *)
Definition create_producer (state : StreamState) (ps : gmap nat Publisher) : option nat :=
  match ss_queue state with
  | None => None
  | Some queue =>
      let b := bc_id (sq_broadcast queue) in
      if producer_available (live_producers ps b) (bc_producer_slots (sq_broadcast queue))
      then Some b else None
  end.

(** [PublisherFactory::try_create_publisher], under the write lock; the new
    publisher gets the handle [id]. *)
Definition try_create_publisher (id : nat) (w : StreamWorld) : option StreamWorld :=
  let stream := sw_stream w in
  match checked_sub (ss_remaining_publisher_slots (es_state stream)) 1 with
  | None => None
  | Some remaining =>
      let producer := create_producer (es_state stream) (sw_publishers w) in
      Some {| sw_stream := set_remaining stream remaining;
              sw_publishers := <[id := {| pub_queue_generation := es_queue_generation stream;
                                          pub_producer := producer;
                                          pub_phase := Ready |}]> (sw_publishers w);
              sw_sent := sw_sent w;
              sw_io := sw_io w |}
  end.

(** The first part of [producer]: the load of the generation and, if it has
    changed, the start of [replace_producer], which releases the previous queue. *)
Definition producer_check (id : nat) (p : Publisher) (w : StreamWorld) : StreamWorld :=
  if es_queue_generation (sw_stream w) =? pub_queue_generation p then w
  else with_publishers w
    (<[id := {| pub_queue_generation := pub_queue_generation p;
                pub_producer := None; pub_phase := Replacing |}]> (sw_publishers w)).

(** The second part of [replace_producer], under the read lock. *)
Definition replace_producer (id : nat) (w : StreamWorld) : StreamWorld :=
  let stream := sw_stream w in
  with_publishers w
    (<[id := {| pub_queue_generation := es_queue_generation stream;
                pub_producer := create_producer (es_state stream) (sw_publishers w);
                pub_phase := Ready |}]> (sw_publishers w)).

(** [Publisher::producer] run without interruption. *)
Definition Publisher_producer (id : nat) (w : StreamWorld) : option nat * StreamWorld :=
  match sw_publishers w !! id with
  | None => (None, w)
  | Some p =>
      let w1 := producer_check id p w in
      let w2 := match sw_publishers w1 !! id with
                | Some p1 => match pub_phase p1 with
                             | Replacing => replace_producer id w1
                             | _ => w1
                             end
                | None => w1
                end in
      (match sw_publishers w2 !! id with Some p2 => pub_producer p2 | None => None end, w2)
  end.

Definition Publisher_is_enabled (id : nat) (w : StreamWorld) : bool * StreamWorld :=
  let '(producer, w') := Publisher_producer id w in
  (match producer with Some _ => true | None => false end, w').

(** The events sent to the queue [b]. *)
Definition sent_to (b : nat) (w : StreamWorld) : list (list byte) :=
  map snd (List.filter (fun e => Nat.eqb e.1 b) (sw_sent w)).

Definition send (b : nat) (cells : list (list byte)) (w : StreamWorld) : StreamWorld :=
  {| sw_stream := sw_stream w; sw_publishers := sw_publishers w;
     sw_sent := sw_sent w ++ map (pair b) cells; sw_io := sw_io w |}.

(** [serialize] stands for [wincode::serialize_into] on the event type. *)
Definition serialize_into {E} (serialize : E -> option (list byte)) (event : E) :
    Outcome PublishError (list byte) :=
  ok_or (serialize event) Serialization.

Definition Publisher_publish {E} (serialize : E -> option (list byte)) (id : nat) (event : E)
    (w : StreamWorld) : Outcome PublishError unit * StreamWorld :=
  let '(producer, w1) := Publisher_producer id w in
  match producer with
  | None => (Ok tt, w1)
  | Some b =>
      if can_reserve b (sent_to b w1) 1 then
        match serialize_into serialize event with
        | Ok cell => (Ok tt, send b [cell] w1)
        | Err e => (Err e, w1)
        | _ => (Panic, w1)
        end
      else (Err FailedToSend, w1)
  end.

(** The loop that fills the reserved cells. *)
Definition fill_cells {E} (serialize : E -> option (list byte)) (events : list E) :
    Outcome PublishError (list (list byte)) :=
  ofold (fun cells event => omap (fun cell => cells ++ [cell]) (serialize_into serialize event))
    [] events.

Definition Publisher_publish_batch {E} (serialize : E -> option (list byte)) (id : nat)
    (events : list E) (w : StreamWorld) : Outcome PublishError unit * StreamWorld :=
  match events with
  | [] => (Ok tt, w)
  | _ =>
      let '(producer, w1) := Publisher_producer id w in
      match producer with
      | None => (Ok tt, w1)
      | Some b =>
          if can_reserve b (sent_to b w1) (len events) then
            match fill_cells serialize events with
            | Ok cells => (Ok tt, send b cells w1)
            | Err e => (Err e, w1)
            | _ => (Panic, w1)
            end
          else (Err FailedToSend, w1)
      end
  end.

(** [Drop]: the producer lane is released first ... *)
Definition drop_producer (id : nat) (p : Publisher) (w : StreamWorld) : StreamWorld :=
  with_publishers w
    (<[id := {| pub_queue_generation := pub_queue_generation p;
                pub_producer := None; pub_phase := Dropping |}]> (sw_publishers w)).

(** ... then the slot is given back, under the write lock. *)
Definition release_slot (id : nat) (w : StreamWorld) : StreamWorld :=
  let remaining := saturating_add USIZE
                     (ss_remaining_publisher_slots (es_state (sw_stream w))) 1 in
  {| sw_stream := set_remaining (sw_stream w) remaining;
     sw_publishers := delete id (sw_publishers w);
     sw_sent := sw_sent w;
     sw_io := sw_io w |}.

Definition apply_rule (rule : StreamRule) (w : StreamWorld) : StreamWorld :=
  let '(_, stream, io) := EventStream_apply_stream_rule (sw_stream w) rule (sw_io w) in
  {| sw_stream := stream; sw_publishers := sw_publishers w; sw_sent := sw_sent w; sw_io := io |}.

(** ** The steps of the stream and its publishers *)

Inductive publisher_step : StreamWorld -> StreamWorld -> Prop :=
| step_create id w w' :
    sw_publishers w !! id = None -> try_create_publisher id w = Some w' -> publisher_step w w'
| step_check id p w :
    sw_publishers w !! id = Some p -> pub_phase p = Ready -> publisher_step w (producer_check id p w)
| step_replace id p w :
    sw_publishers w !! id = Some p -> pub_phase p = Replacing ->
    publisher_step w (replace_producer id w)
| step_send id p b cells w :
    sw_publishers w !! id = Some p -> pub_phase p = Ready -> pub_producer p = Some b ->
    publisher_step w (send b cells w)
| step_drop id p w :
    sw_publishers w !! id = Some p -> pub_phase p = Ready -> publisher_step w (drop_producer id p w)
| step_release id p w :
    sw_publishers w !! id = Some p -> pub_phase p = Dropping -> publisher_step w (release_slot id w).

(** The policy manager applies a rule, a publisher makes a step, or something else
    happens in the file system. *)
Inductive step : StreamWorld -> StreamWorld -> Prop :=
| step_apply rule w : step w (apply_rule rule w)
| step_publisher w w' : publisher_step w w' -> step w w'
| step_environment io w : step w (with_io w io).

Definition initial (w : StreamWorld) : Prop :=
  exists dir name config schema,
    sw_stream w = EventStream_new dir name config schema /\ sw_publishers w = ∅ /\
    0 <= publisher_slots config < modulus USIZE.

(** Whether a step enabled or disabled the stream. *)
Definition toggled (w w' : StreamWorld) : nat :=
  if bool_decide (es_queue_generation (sw_stream w) = es_queue_generation (sw_stream w'))
  then 0%nat else 1%nat.

(** States reachable with [n] toggles. *)
Inductive reachable : nat -> StreamWorld -> Prop :=
| reachable_initial w : initial w -> reachable 0 w
| reachable_step n w w' : reachable n w -> step w w' -> reachable (n + toggled w w')%nat w'.

End Publishers.

(** ** Invariant *)

Section Invariant.
  Context `{SystemCalls} `{QueueCalls} `{Shaq}.

(** The queue that a publisher should hold a producer on. *)
Definition current_queue (s : EventStream) : option nat :=
  (fun q => bc_id (sq_broadcast q)) <$> ss_queue (es_state s).

(** A publisher saw generation number [g] of at most [n]; if it is the current
    one, its producer is on the current queue. *)
Definition publisher_ok (n : nat) (s : EventStream) (p : Publisher) : Prop :=
  (pub_phase p <> Ready -> pub_producer p = None) /\
  exists g : nat, (g <= n)%nat /\ pub_queue_generation p = cast U64 (Z.of_nat g) /\
    (g = n -> pub_phase p = Ready -> pub_producer p = current_queue s).

Record inv (n : nat) (w : StreamWorld) : Prop := {
  inv_slots : ss_remaining_publisher_slots (es_state (sw_stream w)) +
    Z.of_nat (size (sw_publishers w)) = publisher_slots (es_stream_config (sw_stream w));
  inv_remaining : 0 <= ss_remaining_publisher_slots (es_state (sw_stream w));
  inv_width : publisher_slots (es_stream_config (sw_stream w)) < modulus USIZE;
  inv_generation : es_queue_generation (sw_stream w) = cast U64 (Z.of_nat n);
  inv_queue : forall q, ss_queue (es_state (sw_stream w)) = Some q ->
    bc_producer_slots (sq_broadcast q) = publisher_slots (es_stream_config (sw_stream w));
  inv_publishers : forall id p, sw_publishers w !! id = Some p -> publisher_ok n (sw_stream w) p
}.

Lemma live_producers_le ps b : live_producers ps b <= Z.of_nat (size ps).
Proof.
  unfold live_producers. apply inj_le, map_subseteq_size, map_filter_subseteq.
Qed.

(** A publisher without a producer on [b] leaves a slot free. *)
Lemma live_producers_lt ps b id p :
  ps !! id = Some p -> pub_producer p <> Some b -> live_producers ps b < Z.of_nat (size ps).
Proof.
  intros Hp Hb. unfold live_producers.
  assert (size (filter (fun '(_, p) => pub_producer p = Some b) ps) <= size (delete id ps))%nat.
  { apply map_subseteq_size, map_subseteq_spec. intros i q Hq.
    apply map_lookup_filter_Some in Hq as [Hq HP].
    rewrite lookup_delete_ne; [done|]. intros <-. rewrite Hp in Hq. by injection Hq as <-. }
  rewrite map_size_delete_Some in * by done.
  assert (size ps <> 0%nat) by (intros E; apply map_size_empty_inv in E; by subst).
  lia.
Qed.

Context (Hshaq : producers_up_to_slots).

Lemma create_producer_current n w ps :
  inv n w ->
  (forall b, live_producers ps b < publisher_slots (es_stream_config (sw_stream w))) ->
  create_producer (es_state (sw_stream w)) ps = current_queue (sw_stream w).
Proof.
  intros [_ _ _ _ Hq _] Hlive. unfold create_producer, current_queue.
  destruct (ss_queue _) as [q|]; [|done]. simpl. rewrite Hshaq; [done|].
  rewrite (Hq q eq_refl). split; [unfold live_producers; lia|apply Hlive].
Qed.

Lemma inv_initial w : initial w -> inv 0 w.
Proof.
  intros (dir & name & cfg & schema & Hs & Hp & Hc).
  constructor; rewrite ?Hs, ?Hp; unfold EventStream_new; cbn; try done; try lia.
  - rewrite map_size_empty. lia.
  - apply Hc.
Qed.

Lemma wrapping_succ (n : nat) :
  wrapping_add U64 (cast U64 (Z.of_nat n)) 1 = cast U64 (Z.of_nat (n + 1)).
Proof.
  unfold wrapping_add, cast. rewrite Zplus_mod_idemp_l. f_equal. lia.
Qed.

Lemma wrapping_succ_neq (n : nat) :
  cast U64 (Z.of_nat n) <> cast U64 (Z.of_nat (n + 1)).
Proof.
  unfold cast. rewrite Nat2Z.inj_add. intros Heq.
  pose proof (Z.mod_pos_bound (Z.of_nat n) (modulus U64) ltac:(done)).
  pose proof (Z_div_mod_eq_full (Z.of_nat n) (modulus U64)).
  pose proof (Z_div_mod_eq_full (Z.of_nat n + Z.of_nat 1) (modulus U64)).
  change (modulus U64) with 18446744073709551616 in *. lia.
Qed.

(** What applying a rule does to the stream: nothing, or a toggle. *)
Lemma apply_stream_rule_cases s rule w r s' w' :
  EventStream_apply_stream_rule s rule w = (r, s', w') ->
  (s' = s /\ (r = Ok tt -> enabled s = bool_decide (rule = On)) /\
   (r <> Ok tt -> rule = On /\ enabled s = false)) \/
  (exists queue, s' = set_queue s queue (next_generation s) /\ r = Ok tt /\
     enabled s' = bool_decide (rule = On) /\ enabled s <> enabled s' /\
     forall q, queue = Some q ->
       bc_producer_slots (sq_broadcast q) = publisher_slots (es_stream_config s)).
Proof.
  unfold EventStream_apply_stream_rule. assert (He : enabled s = match ss_queue (es_state s) with
    Some _ => true | None => false end) by done. rewrite He.
  destruct rule, (ss_queue (es_state s)) as [q|].
  - intros [= <- <- <-]. by left.
  - destruct (StreamQueue_create _ _ _ _ w) as [[q|e| | |] w1] eqn:Hc; intros [= <- <- <-].
    2-5: left; by split_and!.
    right. exists (Some q). split_and!; try done. intros q' [= <-]. by eapply create_slots.
  - intros [= <- <- <-]. right. exists None. by split_and!.
  - intros [= <- <- <-]. by left.
Qed.

Lemma publisher_ok_stream n s s' p :
  current_queue s' = current_queue s -> publisher_ok n s p -> publisher_ok n s' p.
Proof. unfold publisher_ok. by intros ->. Qed.

Lemma publisher_ok_toggle n s s' p : publisher_ok n s p -> publisher_ok (n + 1) s' p.
Proof.
  intros (Hn & g & Hg & Heq & _). split; [done|]. exists g. split_and!; [lia|done|lia].
Qed.

Lemma inv_apply n w rule :
  inv n w -> inv (n + toggled w (apply_rule rule w)) (apply_rule rule w).
Proof.
  intros [Hs Hr Hw Hg Hq Hp]. unfold apply_rule, toggled.
  destruct (EventStream_apply_stream_rule (sw_stream w) rule (sw_io w)) as [[r s'] io'] eqn:Ha.
  apply apply_stream_rule_cases in Ha as [(-> & _)|(queue & -> & _ & _ & _ & Hslots)]; simpl.
  - rewrite bool_decide_eq_true_2, Nat.add_0_r by done. by constructor.
  - unfold next_generation. rewrite Hg, wrapping_succ.
    rewrite bool_decide_eq_false_2 by apply wrapping_succ_neq.
    constructor; simpl; try done. intros id p Hid. eapply publisher_ok_toggle, Hp, Hid.
Qed.

Lemma inv_create n w id w' :
  sw_publishers w !! id = None -> try_create_publisher id w = Some w' -> inv n w -> inv n w'.
Proof.
  intros Hid Hc Hi. pose proof Hi as [Hs Hr Hw Hg Hq Hp]. unfold try_create_publisher, checked_sub in Hc.
  destruct (Z.leb_spec 1 (ss_remaining_publisher_slots (es_state (sw_stream w)))); [|done].
  injection Hc as <-. constructor; simpl; try done; try lia.
  - rewrite map_size_insert_None by done. lia.
  - intros i p. rewrite lookup_insert_Some. intros [[<- <-]|[Hne Hp']]; [|by apply (Hp i)].
    split; [done|]. exists n. simpl. split_and!; [lia|done|]. intros _ _.
    apply (create_producer_current n); [done|]. intros b. pose proof (live_producers_le (sw_publishers w) b). lia.
Qed.

(** Changing one publisher. *)
Lemma inv_update n w id p p' :
  sw_publishers w !! id = Some p -> publisher_ok n (sw_stream w) p' -> inv n w ->
  inv n (with_publishers w (<[id := p']> (sw_publishers w))).
Proof.
  intros Hid Hok [Hs Hr Hw Hg Hq Hp]. constructor; simpl; try done.
  - by rewrite map_size_insert_Some by done.
  - intros i q. rewrite lookup_insert_Some. intros [[<- <-]|[_ Hq']]; [done|by apply (Hp i)].
Qed.

Lemma inv_check n w id p :
  sw_publishers w !! id = Some p -> inv n w -> inv n (producer_check id p w).
Proof.
  intros Hid Hi. unfold producer_check. destruct (_ =? _); [done|].
  apply (inv_update n w id p); [done| |done]. destruct (inv_publishers n w Hi id p Hid) as (_ & g & Hg & Heq & _).
  split; [done|]. exists g. by split_and!.
Qed.

Lemma inv_replace n w id p :
  sw_publishers w !! id = Some p -> pub_phase p = Replacing -> inv n w -> inv n (replace_producer id w).
Proof.
  intros Hid Hph Hi. apply (inv_update n w id p); [done| |done].
  split; [done|]. exists n. simpl. split_and!; [lia|by destruct Hi|]. intros _ _.
  apply (create_producer_current n); [done|]. intros b.
  destruct (inv_publishers n w Hi id p Hid) as (Hnone & _).
  pose proof (live_producers_lt (sw_publishers w) b id p Hid). rewrite Hnone in * by congruence.
  pose proof (inv_slots n w Hi). pose proof (inv_remaining n w Hi). specialize (H2 ltac:(done)). lia.
Qed.

Lemma inv_drop n w id p :
  sw_publishers w !! id = Some p -> inv n w -> inv n (drop_producer id p w).
Proof.
  intros Hid Hi. apply (inv_update n w id p); [done| |done].
  destruct (inv_publishers n w Hi id p Hid) as (_ & g & Hg & Heq & _).
  split; [done|]. exists g. by split_and!.
Qed.

Lemma inv_release n w id p :
  sw_publishers w !! id = Some p -> inv n w -> inv n (release_slot id w).
Proof.
  intros Hid [Hs Hr Hw Hg Hq Hp].
  assert (size (sw_publishers w) <> 0%nat).
  { intros E. apply map_size_empty_inv in E. by rewrite E, lookup_empty in Hid. }
  constructor; simpl; try done; unfold saturating_add, umax.
  - rewrite map_size_delete_Some by done. lia.
  - lia.
  - intros i q Hq'. apply lookup_delete_Some in Hq' as [_ Hq']. by apply (Hp i).
Qed.

Lemma inv_reachable n w : reachable n w -> inv n w.
Proof.
  induction 1 as [w Hw|n w w' _ IH Hs]; [by apply inv_initial|].
  assert (Hsame : sw_stream w' = sw_stream w \/ es_queue_generation (sw_stream w') =
    es_queue_generation (sw_stream w) -> (n + toggled w w')%nat = n).
  { unfold toggled. intros [->|Heq]; rewrite bool_decide_eq_true_2 by done; lia. }
  destruct Hs as [rule w|w w' Hs|io w]; [by apply inv_apply| |rewrite Hsame; [by destruct IH|by left]].
  destruct Hs as [id w w' Hid Hc|id p w Hid Hph|id p w Hid Hph|id p b cells w Hid Hph Hb|id p w Hid Hph|id p w Hid Hph].
  - rewrite Hsame; [by eapply inv_create|]. right. unfold try_create_publisher in Hc.
    destruct (checked_sub _ _); [|done]. by injection Hc as <-.
  - rewrite Hsame; [by apply inv_check|]. left. unfold producer_check. by destruct (_ =? _).
  - rewrite Hsame; [by eapply inv_replace|by left].
  - rewrite Hsame; [by destruct IH|by left].
  - rewrite Hsame; [by apply inv_drop|by left].
  - rewrite Hsame; [by eapply inv_release|by right].
Qed.
End Invariant.

(** ** Properties *)

Section Properties.
  Context `{SystemCalls} `{QueueCalls} `{Shaq}.

Lemma producer_current n w id p :
  producers_up_to_slots -> reachable n w -> Z.of_nat n < modulus U64 ->
  sw_publishers w !! id = Some p -> pub_phase p = Ready ->
  exists w', Publisher_producer id w = (current_queue (sw_stream w), w') /\
    sw_stream w' = sw_stream w /\ sw_sent w' = sw_sent w /\ reachable n w' /\ sw_io w' = sw_io w /\
    exists p', sw_publishers w' !! id = Some p' /\ pub_phase p' = Ready.
Proof.
  intros Hsh Hr Hn Hid Hph. pose proof (inv_reachable Hsh n w Hr) as Hi.
  assert (Hstep : forall w', step w w' -> sw_stream w' = sw_stream w -> reachable n w').
  { intros w' Hs Heq. pose proof (reachable_step n w w' Hr Hs) as H2. unfold toggled in H2.
    rewrite Heq, bool_decide_eq_true_2, Nat.add_0_r in H2 by done. done. }
  unfold Publisher_producer. rewrite Hid.
  destruct (inv_publishers n w Hi id p Hid) as (_ & g & Hg & Hgen & Hcur).
  pose proof (inv_generation n w Hi) as Hs. pose proof (step_publisher _ _ (step_check id p w Hid Hph)) as Hc.
  unfold producer_check in *. destruct (Z.eqb_spec (es_queue_generation (sw_stream w)) (pub_queue_generation p)) as [Heq|Hne].
  - assert (g = n) as ->.
    { rewrite Hs, Hgen in Heq. unfold cast in Heq. rewrite !Z.mod_small in Heq by lia. lia. }
    rewrite Hid, Hph, Hid, Hcur by done. exists w. split_and!; [done..|]. by exists p.
  - cbn [sw_publishers with_publishers]. rewrite lookup_insert_eq. cbn [pub_phase].
    set (w1 := with_publishers w _) in *.
    assert (Hr1 : reachable n w1) by (by apply Hstep).
    pose proof (inv_reachable Hsh n w1 Hr1) as Hi1.
    set (p1 := {| pub_queue_generation := pub_queue_generation p; pub_producer := None; pub_phase := Replacing |}).
    assert (Hid1 : sw_publishers w1 !! id = Some p1) by apply lookup_insert_eq.
    assert (Hcr : create_producer (es_state (sw_stream w1)) (sw_publishers w1) = current_queue (sw_stream w)).
    { apply (create_producer_current Hsh n w1); [done|]. intros b.
      pose proof (live_producers_lt (sw_publishers w1) b id p1 Hid1 ltac:(done)).
      pose proof (inv_slots n w1 Hi1). pose proof (inv_remaining n w1 Hi1). lia. }
    exists (replace_producer id w1). cbn [sw_publishers replace_producer with_publishers].
    rewrite lookup_insert_eq. cbn [pub_producer]. rewrite Hcr. split_and!; [done..| |done|by eexists].
    pose proof (reachable_step n w1 _ Hr1 (step_publisher _ _ (step_replace id p1 w1 Hid1 eq_refl))) as H2.
    unfold toggled in H2. cbn [sw_stream replace_producer with_publishers] in H2.
    by rewrite bool_decide_eq_true_2, Nat.add_0_r in H2.
Qed.
End Properties.

(** C14: Publishers follow the stream: in every state that the interleaved steps
    of the stream and its publishers reach (before the 64-bit generation counter
    has wrapped around), [Publisher::producer] returns a producer on the queue that
    the stream has now, and none exactly while the stream is disabled; so
    [is_enabled] is right.  A producer can always be created, because the slot
    accounting never lets the queue run out of lanes. *)
Theorem publisher_follows_stream `{SystemCalls} `{QueueCalls} `{Shaq} n w id p :
  producers_up_to_slots -> reachable n w -> Z.of_nat n < modulus U64 ->
  sw_publishers w !! id = Some p -> pub_phase p = Ready ->
  exists w', Publisher_producer id w = (current_queue (sw_stream w), w') /\
    Publisher_is_enabled id w = (enabled (sw_stream w), w') /\
    sw_stream w' = sw_stream w /\ sw_sent w' = sw_sent w /\ reachable n w'.
Proof.
  intros Hsh Hr Hn Hid Hph. destruct (producer_current n w id p Hsh Hr Hn Hid Hph) as (w' & Hp & ? & ? & ? & _).
  exists w'. split; [done|]. split; [|done]. unfold Publisher_is_enabled. rewrite Hp.
  unfold current_queue, enabled. by destruct (ss_queue _).
Qed.

(** C24: Slot accounting: in every reachable state the free slots and the live
    publishers (including those being dropped) add up to the configured slots,
    so there are never more publishers, nor producers on any queue, than slots;
    [try_create_publisher] fails exactly when all slots are taken, also while the
    stream is disabled. *)
Theorem publisher_slots_accounting `{SystemCalls} `{QueueCalls} `{Shaq} n w :
  producers_up_to_slots -> reachable n w ->
  let slots := publisher_slots (es_stream_config (sw_stream w)) in
  let publishers := Z.of_nat (size (sw_publishers w)) in
  ss_remaining_publisher_slots (es_state (sw_stream w)) + publishers = slots /\
  publishers <= slots /\
  (forall b, live_producers (sw_publishers w) b <= slots) /\
  (forall id, try_create_publisher id w = None <-> publishers = slots).
Proof.
  intros Hsh Hr. pose proof (inv_reachable Hsh n w Hr) as [Hs Hrem _ _ _ _]. cbv zeta.
  split_and!; [done|lia| |].
  - intros b. pose proof (live_producers_le (sw_publishers w) b). lia.
  - intros id. unfold try_create_publisher, checked_sub.
    destruct (Z.leb_spec 1 (ss_remaining_publisher_slots (es_state (sw_stream w)))); (split; [|done || lia]); try done; lia.
Qed.

Lemma fill_cells_spec {E} (serialize : E -> option (list byte)) events cells :
  ofold (fun cells event => omap (fun cell => cells ++ [cell]) (serialize_into serialize event))
    cells events =
  match mapM serialize events with
  | Some new => Ok (cells ++ new)
  | None => Err Serialization
  end.
Proof.
  revert cells. induction events as [|e events IH]; intros cells; simpl; [by rewrite app_nil_r|].
  unfold serialize_into. destruct (serialize e) as [c|]; simpl; [|done]. rewrite IH.
  destruct (mapM serialize events); simpl; [|done]. by rewrite <- app_assoc.
Qed.

(** The outcome of publishing a batch on the stream [w]. *)
Definition batch_sent {E} `{Shaq} (serialize : E -> option (list byte)) (events : list E) (w w' : StreamWorld)
    (r : Outcome PublishError unit) : Prop :=
  match current_queue (sw_stream w), events with
  | _, [] | None, _ => r = Ok tt /\ sw_sent w' = sw_sent w
  | Some b, _ =>
      if can_reserve b (sent_to b w) (len events) then
        match mapM serialize events with
        | Some cells => r = Ok tt /\ sw_sent w' = sw_sent w ++ map (pair b) cells
        | None => r = Err Serialization /\ sw_sent w' = sw_sent w
        end
      else r = Err FailedToSend /\ sw_sent w' = sw_sent w
  end.

Lemma publish_batch_result `{SystemCalls} `{QueueCalls} `{Shaq} {E}
    (serialize : E -> option (list byte)) n w id p events :
  producers_up_to_slots -> reachable n w -> Z.of_nat n < modulus U64 ->
  sw_publishers w !! id = Some p -> pub_phase p = Ready ->
  exists r w', Publisher_publish_batch serialize id events w = (r, w') /\
    sw_stream w' = sw_stream w /\ batch_sent serialize events w w' r.
Proof.
  intros Hsh Hr Hn Hid Hph. unfold batch_sent.
  destruct (producer_current n w id p Hsh Hr Hn Hid Hph) as (w' & Hp & Hst & Hsent & _).
  unfold Publisher_publish_batch.
  destruct events as [|e events]; [exists (Ok tt), w; by destruct (current_queue _)|].
  rewrite Hp. destruct (current_queue (sw_stream w)) as [b|]; [|by exists (Ok tt), w'].
  assert (sent_to b w' = sent_to b w) as -> by (unfold sent_to; by rewrite Hsent).
  destruct (can_reserve _ _ _); [|by exists (Err FailedToSend), w'].
  unfold fill_cells. rewrite fill_cells_spec. destruct (mapM serialize (e :: events)) as [cells|].
  - exists (Ok tt), (send b cells w'). split_and!; try done. simpl. by rewrite Hsent.
  - by exists (Err Serialization), w'.
Qed.

Lemma publish_is_batch `{SystemCalls} `{QueueCalls} `{Shaq} {E} (serialize : E -> option (list byte)) id event w :
  Publisher_publish serialize id event w = Publisher_publish_batch serialize id [event] w.
Proof.
  unfold Publisher_publish, Publisher_publish_batch.
    destruct (Publisher_producer id w) as [[b|] w1]; [|done]. change (len [event]) with 1.
    destruct (can_reserve _ _ _); [|done]. unfold fill_cells. simpl. unfold serialize_into.
    by destruct (serialize event).
Qed.

(** C23: Publishing a batch is all or nothing: an empty batch and a disabled
    stream send nothing and succeed; otherwise the batch is sent as a whole, in
    order, to the current queue of the stream, unless the queue is full or an
    event fails to serialize, in which case nothing is sent.  Publishing one event
    is publishing a batch of one. *)
Theorem publish_batch_is_atomic `{SystemCalls} `{QueueCalls} `{Shaq} {E}
    (serialize : E -> option (list byte)) n w id p events :
  producers_up_to_slots -> reachable n w -> Z.of_nat n < modulus U64 ->
  sw_publishers w !! id = Some p -> pub_phase p = Ready ->
  (exists r w', Publisher_publish_batch serialize id events w = (r, w') /\
     sw_stream w' = sw_stream w /\
     batch_sent serialize events w w' r) /\
  forall event, Publisher_publish serialize id event w = Publisher_publish_batch serialize id [event] w.
Proof.
  intros Hsh Hr Hn Hid Hph. split; [by eapply publish_batch_result|]. intros event. apply publish_is_batch.
Qed.

(** ** Samples *)

#[global] Instance sample_shaq : Shaq | 10 :=
  {| producer_available := fun live slots => live <? slots; can_reserve := fun _ _ _ => true |}.

Lemma sample_shaq_ok : producers_up_to_slots (H := sample_shaq).
Proof. intros live slots [_ Hlt]. by apply Z.ltb_lt. Qed.

Definition sample_stream_world : StreamWorld :=
  {| sw_stream := EventStream_new [] sample_name sample_stream_config (Some [x01]);
     sw_publishers := ∅; sw_sent := []; sw_io := sample_world |}.

Definition sample_publisher : Publisher :=
  {| pub_queue_generation := 0; pub_producer := None; pub_phase := Ready |}.

(** A publisher created while the stream was disabled, and enabled since. *)
Definition sample_enabled_world : StreamWorld :=
  apply_rule On (default sample_stream_world (try_create_publisher 0 sample_stream_world)).

Lemma sample_reachable : reachable 1 sample_enabled_world.
Proof.
  pose proof (reachable_initial sample_stream_world) as H0.
  pose proof (reachable_step 0 _ (default sample_stream_world
    (try_create_publisher 0 sample_stream_world)) (H0 ltac:(by repeat eexists))
    ltac:(by apply step_publisher, (step_create 0))) as H1.
  pose proof (reachable_step _ _ _ H1 (step_apply On _)) as H2. exact H2.
Qed.

Lemma publisher_follows_stream_witness :
  exists w', Publisher_is_enabled 0 sample_enabled_world = (true, w').
Proof.
  destruct (publisher_follows_stream 1 sample_enabled_world 0 sample_publisher sample_shaq_ok
    sample_reachable ltac:(by vm_compute) ltac:(by vm_compute) eq_refl) as (w' & _ & H & _).
  exists w'. exact H.
Defined.

Lemma publisher_slots_accounting_witness :
  ss_remaining_publisher_slots (es_state (sw_stream sample_enabled_world)) + 1 = 2.
Proof.
  exact (proj1 (publisher_slots_accounting 1 sample_enabled_world sample_shaq_ok sample_reachable)).
Defined.

Lemma publish_batch_is_atomic_witness :
  Publisher_publish Some 0 [x07] sample_enabled_world =
  Publisher_publish_batch Some 0 [[x07]] sample_enabled_world.
Proof.
  exact (proj2 (publish_batch_is_atomic Some 1 sample_enabled_world 0 sample_publisher [] sample_shaq_ok
    sample_reachable ltac:(by vm_compute) ltac:(by vm_compute) eq_refl) [x07]).
Defined.
