(* ===== verification/StreamPolicyManager.v ===== *)
(** * The policy manager (event-system/src/backend/linux/stream_policy.rs)

    The manager keeps weak references to the streams of an event system and
    applies the policy to them.  It is written, and verified here, against the
    trait [PolicyControlledStream]. *)

From Stdlib Require Import ZArith Lia Strings.String.
From stdpp Require Import base list numbers.
From S2P Require Import Prelude RustStr StreamName StreamPolicy FileSystem StreamQueue.

(** ** The trait

    Streams are shared objects: [St] is the type of references to them and [W]
    the memory in which they live.  A weak reference can be upgraded while the
    stream is alive. *)
Class PolicyControlledStream (W St : Type) := {
  stream_name_of : W -> St -> StreamName;
  apply_stream_rule : St -> StreamRule -> W -> Outcome CreateStreamError unit * W;
  alive : W -> St -> bool
}.

(** What a stream promises to the manager. *)
Class PolicyControlledStreamSpec (W St : Type) `{PolicyControlledStream W St} := {
  is_published : W -> St -> bool;
  apply_result w s rule : alive w s = true ->
    match (apply_stream_rule s rule w).1 with
    | Ok _ => is_published (apply_stream_rule s rule w).2 s = bool_decide (rule = On)
    | Err _ => rule = On /\ is_published (apply_stream_rule s rule w).2 s = false
    | _ => False
    end;
  apply_alive w s rule s' : alive (apply_stream_rule s rule w).2 s' = alive w s';
  apply_name w s rule s' : stream_name_of (apply_stream_rule s rule w).2 s' = stream_name_of w s';
  apply_other w s rule s' : s' <> s ->
    is_published (apply_stream_rule s rule w).2 s' = is_published w s'
}.

Record StreamPolicyManager (St : Type) := {
  pm_streams : list St;
  pm_stream_policy : StreamPolicy
}.
Arguments pm_streams {St} _.
Arguments pm_stream_policy {St} _.

Definition StreamPolicyManager_default {St} : StreamPolicyManager St :=
  {| pm_streams := []; pm_stream_policy := StreamPolicy_default |}.

Section Manager.
  Context `{PolicyControlledStream W St}.
  Implicit Type self : StreamPolicyManager St.

Definition prune_dead_streams self (w : W) : StreamPolicyManager St :=
  {| pm_streams := List.filter (alive w) (pm_streams self);
     pm_stream_policy := pm_stream_policy self |}.

(** Applies the policy to the streams that are still alive; a stream whose queue
    cannot be created stays disabled. *)
Fixpoint apply_policy (policy : StreamPolicy) (streams : list St) (w : W) : W :=
  match streams with
  | [] => w
  | stream :: streams =>
      apply_policy policy streams
        (if alive w stream
         then (apply_stream_rule stream (stream_rule policy (stream_name_of w stream)) w).2
         else w)
  end.

Definition set_stream_policy self (new_stream_policy : StreamPolicy) (w : W) :
    StreamPolicyManager St * W :=
  let self := prune_dead_streams self w in
  let self := {| pm_streams := pm_streams self; pm_stream_policy := new_stream_policy |} in
  (self, apply_policy (pm_stream_policy self) (pm_streams self) w).

Definition register_new_stream self (stream : St) (w : W) :
    Outcome CreateStreamError unit * StreamPolicyManager St * W :=
  let self := prune_dead_streams self w in
  let stream_name_is_in_use :=
    existsb (fun registered_stream => alive w registered_stream &&
               bool_decide (stream_name_of w registered_stream = stream_name_of w stream))
      (pm_streams self) in
  if stream_name_is_in_use then (Err StreamNameAlreadyInUse, self, w)
  else
    let rule := stream_rule (pm_stream_policy self) (stream_name_of w stream) in
    match apply_stream_rule stream rule w with
    | (Ok _, w') =>
        (Ok tt, {| pm_streams := pm_streams self ++ [stream];
                   pm_stream_policy := pm_stream_policy self |}, w')
    | (result, w') => (result, self, w')
    end.
End Manager.

(** ** Lemmas, against the interface *)

Section Lemmas.
  Context `{PolicyControlledStreamSpec W St}.
  Implicit Types (self : StreamPolicyManager St) (w : W) (s : St).

(** The names of the streams that are alive are distinct. *)
Definition names_distinct (streams : list St) w : Prop :=
  forall s s', In s streams -> In s' streams -> alive w s = true -> alive w s' = true ->
    stream_name_of w s = stream_name_of w s' -> s = s'.

Lemma apply_policy_frame policy streams w s :
  alive (apply_policy policy streams w) s = alive w s /\
  stream_name_of (apply_policy policy streams w) s = stream_name_of w s /\
  (~ In s streams -> is_published (apply_policy policy streams w) s = is_published w s).
Proof.
  revert w. induction streams as [|t streams IH]; intros w; simpl; [done|].
  destruct (alive w t) eqn:Ht; [|destruct (IH w) as (? & ? & ?); split_and!; auto].
  edestruct (IH (apply_stream_rule t (stream_rule policy (stream_name_of w t)) w).2) as (-> & -> & Hi).
  rewrite apply_alive, apply_name. split_and!; [done|done|]. intros Hs.
  rewrite Hi by tauto. apply apply_other. intros ->. tauto.
Qed.

(** A stream follows the policy in [w'] as far as the call of
    [apply_stream_rule] made for it, in [w], has succeeded: it is published
    exactly if its rule is [on]; the call can only fail for the rule [on], and then
    the stream is unpublished. *)
Definition follows_policy (policy : StreamPolicy) (s : St) (w w' : W) : Prop :=
  let rule := stream_rule policy (stream_name_of w s) in
  match (apply_stream_rule s rule w).1 with
  | Ok _ => is_published w' s = bool_decide (rule = On)
  | Err _ => rule = On /\ is_published w' s = false
  | _ => False
  end.

Lemma apply_policy_app policy streams streams' w :
  apply_policy policy (streams ++ streams') w = apply_policy policy streams' (apply_policy policy streams w).
Proof. revert w. induction streams as [|s streams IH]; intros w; simpl; [done|apply IH]. Qed.

Lemma apply_policy_follows policy streams s streams' w :
  List.NoDup (streams ++ s :: streams') -> alive w s = true ->
  follows_policy policy s (apply_policy policy streams w) (apply_policy policy (streams ++ s :: streams') w).
Proof.
  intros Hnd Hs. apply List.NoDup_remove_2 in Hnd.
  rewrite apply_policy_app. set (w1 := apply_policy policy streams w).
  assert (Hs1 : alive w1 s = true) by (unfold w1; by rewrite (proj1 (apply_policy_frame _ _ _ _))).
  cbn [apply_policy]. rewrite Hs1. unfold follows_policy.
  set (rule := stream_rule policy (stream_name_of w1 s)).
  assert (Hp : ~ In s streams') by (intros Hin; apply Hnd, in_or_app; by right).
  apply (apply_policy_frame policy streams' (apply_stream_rule s rule w1).2 s) in Hp as ->.
  by apply apply_result.
Qed.

Lemma apply_policy_published policy streams w s :
  List.NoDup streams -> In s streams -> alive w s = true ->
  is_published (apply_policy policy streams w) s = true ->
  stream_rule policy (stream_name_of (apply_policy policy streams w) s) = On.
Proof.
  intros Hnd (before & after & ->)%in_split Hs Hpub.
  pose proof (apply_policy_follows policy before s after w Hnd Hs) as Hf. unfold follows_policy in Hf.
  rewrite (proj1 (proj2 (apply_policy_frame policy (before ++ s :: after) w s))).
  rewrite (proj1 (proj2 (apply_policy_frame policy before w s))) in Hf.
  set (rule := stream_rule _ _) in *. rewrite Hpub in Hf.
  destruct (apply_stream_rule _ _ _).1; try done.
  - symmetry in Hf. by apply bool_decide_eq_true_1 in Hf.
  - by destruct Hf.
Qed.

Lemma names_distinct_incl streams streams' w w' :
  (forall s, In s streams' -> In s streams) ->
  (forall s, alive w' s = true -> alive w s = true) ->
  (forall s, stream_name_of w' s = stream_name_of w s) ->
  names_distinct streams w -> names_distinct streams' w'.
Proof.
  intros Hi Ha Hn Hd s s' Hs Hs' Has Has'. rewrite !Hn. apply Hd; auto.
Qed.

Lemma in_pruned self w t :
  In t (pm_streams (prune_dead_streams self w)) <-> In t (pm_streams self) /\ alive w t = true.
Proof. apply filter_In. Qed.

(** The name is in use, or the policy is applied to the new stream, which is
    registered on success. *)
Lemma register_cases self s w r self' w' :
  alive w s = true -> register_new_stream self s w = (r, self', w') ->
  let pruned := prune_dead_streams self w in
  let rule := stream_rule (pm_stream_policy self) (stream_name_of w s) in
  (r = Err StreamNameAlreadyInUse /\ self' = pruned /\ w' = w /\
     exists t, In t (pm_streams self) /\ alive w t = true /\ stream_name_of w t = stream_name_of w s) \/
  ((forall t, In t (pm_streams self) -> alive w t = true -> stream_name_of w t <> stream_name_of w s) /\
   w' = (apply_stream_rule s rule w).2 /\
   (r = Ok tt /\ pm_streams self' = pm_streams pruned ++ [s] /\
      pm_stream_policy self' = pm_stream_policy self /\ is_published w' s = bool_decide (rule = On) \/
    exists e, r = Err e /\ self' = pruned)).
Proof.
  intros Ha. unfold register_new_stream. cbv zeta. set (used := existsb _ _).
  assert (Hused : used = true <-> exists t, In t (pm_streams self) /\ alive w t = true /\
    stream_name_of w t = stream_name_of w s).
  { unfold used. rewrite existsb_exists. setoid_rewrite in_pruned. setoid_rewrite andb_true_iff.
    setoid_rewrite bool_decide_eq_true. split; intros (t & Ht); exists t; tauto. }
  destruct used; [intros [= <- <- <-]; left; split_and!; try done; by apply Hused|]. right.
  split; [intros t Ht Hat Heq; assert (false = true) by (apply Hused; eauto); done|].
  simpl in *. set (rule := stream_rule _ _) in *. pose proof (apply_result w s rule Ha) as Hr.
  destruct (apply_stream_rule s rule w) as [[[]|e| | |] w1]; simpl in *; try done;
    injection H1 as <- <- <-; (split; [done|]); [by left|right; by exists e].
Qed.
End Lemmas.

(** ** Properties *)

(** C22: [set_stream_policy] makes every live stream of the manager follow the new
    policy: it applies to each in turn the rule that the policy has for its name;
    where that call succeeds the stream is published at the end exactly if its rule
    is [on]; the call can only fail for the rule [on], and that stream is unpublished
    at the end.  The policy is kept for streams to come, dead streams are forgotten, and
    other streams are not touched.  Proved against the trait, for any implementation
    that keeps its promises. *)
Theorem set_stream_policy_spec `{PolicyControlledStreamSpec W St} (self : StreamPolicyManager St)
    policy (w : W) self' w' :
  List.NoDup (pm_streams self) -> set_stream_policy self policy w = (self', w') ->
  pm_stream_policy self' = policy /\
  (forall s, In s (pm_streams self') <-> In s (pm_streams self) /\ alive w s = true) /\
  (forall before s after, pm_streams self' = before ++ s :: after ->
     follows_policy policy s (apply_policy policy before w) w') /\
  (forall s, alive w' s = alive w s /\ stream_name_of w' s = stream_name_of w s /\
     (~ In s (pm_streams self) -> is_published w' s = is_published w s)).
Proof.
  intros Hnd. unfold set_stream_policy. intros [= <- <-]. cbn [pm_streams pm_stream_policy prune_dead_streams].
  split_and!; [done|..].
  - intros s. apply filter_In.
  - intros before s after E. assert (Hs : In s (List.filter (alive w) (pm_streams self)))
      by (rewrite E; apply in_or_app; right; by left).
    rewrite E. apply apply_policy_follows; [rewrite <- E; by apply List.NoDup_filter|].
    by apply filter_In in Hs as [_ Hs].
  - intros s. edestruct (apply_policy_frame policy) as (Ha & Hn & Hp). split_and!; [exact Ha|exact Hn|].
    intros Hs. apply Hp. rewrite filter_In. tauto.
Qed.

(** [register_new_stream] keeps the names of live streams distinct: it fails
    with [StreamNameAlreadyInUse], without effect on any stream, exactly when a
    live registered stream has the name; otherwise it applies the current policy
    to the new stream and registers it, or reports the error of creating its
    queue and leaves it unregistered. *)
Theorem register_new_stream_spec `{PolicyControlledStreamSpec W St} (self : StreamPolicyManager St)
    (s : St) (w : W) r self' w' :
  alive w s = true -> ~ In s (pm_streams self) -> names_distinct (pm_streams self) w ->
  register_new_stream self s w = (r, self', w') ->
  names_distinct (pm_streams self') w' /\ pm_stream_policy self' = pm_stream_policy self /\
  (r = Err StreamNameAlreadyInUse /\ w' = w \/
     forall t, In t (pm_streams self) -> alive w t = true -> stream_name_of w t <> stream_name_of w s) /\
  ((exists t, In t (pm_streams self) /\ alive w t = true /\ stream_name_of w t = stream_name_of w s) ->
     r = Err StreamNameAlreadyInUse) /\
  match r with
  | Ok _ => In s (pm_streams self') /\
      is_published w' s = bool_decide (stream_rule (pm_stream_policy self) (stream_name_of w s) = On)
  | Err _ => ~ In s (pm_streams self')
  | _ => False
  end.
Proof.
  intros Ha Hs Hd Hr. apply register_cases in Hr
    as [(-> & -> & -> & t & Ht & Hat & Heq)|(Hfree & -> & Hr)]; [| |done]; cbv zeta in *.
  - split_and!; try done; [|by left|by intros [? _]%in_pruned].
    eapply names_distinct_incl; [| | |exact Hd]; try done. by intros t' [? _]%in_pruned.
  - assert (Hnot : ~ exists t, In t (pm_streams self) /\ alive w t = true /\
      stream_name_of w t = stream_name_of w s) by (intros (t & Ht & Hat & Heq); by destruct (Hfree t Ht Hat)).
    destruct Hr as [(-> & Hst & Hpol & Hpub)|(e & -> & ->)].
    + split_and!; try done; [|by right|rewrite Hst; apply in_or_app; right; by left].
      intros t t' Ht Ht'. rewrite !apply_alive, !apply_name, Hst in *.
      intros Hat Hat' Heq. apply in_app_or in Ht, Ht'.
      destruct Ht as [Ht|[<-|[]]], Ht' as [Ht'|[<-|[]]]; rewrite ?in_pruned in *; try done.
      * apply Hd; tauto.
      * destruct (Hfree t); tauto.
      * destruct (Hfree t'); [tauto..|done].
    + split_and!; try done; [|by right|by intros [? _]%in_pruned].
      eapply names_distinct_incl; [| | |exact Hd].
      * by intros t [? _]%in_pruned.
      * intros t. by rewrite apply_alive.
      * intros t. by rewrite apply_name.
Qed.
