(* ===== verification/EventSystem.v ===== *)
(** * The event system (event-system/src/backend/linux.rs)

    An event system owns its directory and its policy manager; its streams live as
    long as a publisher factory or a publisher refers to them.  This file
    implements the manager's trait with the event streams and shows what holds in
    every state of the system. *)

From Stdlib Require Import ZArith Lia Strings.Byte Strings.String.
From stdpp Require Import base list numbers gmap.
From S2P Require Import Prelude RustStr StreamName StreamPolicy FileSystem StreamQueue.
From S2P Require Import EventStream StreamPolicyManager.
Local Open Scope Z_scope.

(** The live streams, by their addresses, and the file system. *)
Record SystemWorld := {
  sy_streams : gmap nat EventStream;
  sy_io : IoWorld
}.

Definition no_name : StreamName := {| name_str := [] |}.

(** ** Event streams implement the trait *)

#[global] Instance EventStream_PolicyControlledStream `{SystemCalls} `{QueueCalls} :
  PolicyControlledStream SystemWorld nat := {
  stream_name_of w id :=
    match sy_streams w !! id with Some s => es_stream_name s | None => no_name end;
  apply_stream_rule id rule w :=
    match sy_streams w !! id with
    | None => (UB, w)
    | Some s =>
        let '(r, s', io) := EventStream_apply_stream_rule s rule (sy_io w) in
        (r, {| sy_streams := <[id := s']> (sy_streams w); sy_io := io |})
    end;
  alive w id := bool_decide (is_Some (sy_streams w !! id))
}.

#[global] Program Instance EventStream_PolicyControlledStreamSpec `{SystemCalls} `{QueueCalls} :
  PolicyControlledStreamSpec SystemWorld nat := {
  is_published w id := match sy_streams w !! id with Some s => enabled s | None => false end
}.
Next Obligation.
  intros ? ? w id rule Ha. apply bool_decide_eq_true in Ha as [s Hs]. simpl. rewrite Hs.
  destruct (EventStream_apply_stream_rule s rule (sy_io w)) as [[r s'] io] eqn:Happ. simpl.
  rewrite lookup_insert_eq. pose proof Happ as Hc. apply apply_stream_rule_cases in Hc.
  destruct r as [[]|e| | |]; [destruct Hc as [(-> & He & _)|(q & _ & _ & He & _)]; [by apply He|done]|..].
  - destruct Hc as [(-> & _ & He)|(q & _ & Hr & _)]; [by apply He|done].
  - unfold EventStream_apply_stream_rule in Happ.
    pose proof (StreamQueue_create_returns (es_event_system_directory s) (es_stream_name s)
      (es_stream_config s) (es_encoded_schema s) (sy_io w)) as Hret.
    destruct rule, (ss_queue (es_state s)); try done.
    destruct (StreamQueue_create _ _ _ _ (sy_io w)) as [[| | | |] ?]; done.
  - destruct Hc as [(_ & _ & He)|(q & _ & Hr & _)]; [|done].
    unfold EventStream_apply_stream_rule in Happ. repeat case_match; done.
  - unfold EventStream_apply_stream_rule in Happ. repeat case_match; done.
Qed.
Next Obligation.
  intros ? ? w id rule id'. simpl. destruct (sy_streams w !! id) as [s|] eqn:Hs; [|done].
  destruct (EventStream_apply_stream_rule s rule (sy_io w)) as [[r s'] io]. simpl.
  apply bool_decide_ext. destruct (decide (id = id')) as [<-|Hne].
  - rewrite lookup_insert_eq, Hs. split; eauto.
  - by rewrite lookup_insert_ne.
Qed.
Next Obligation.
  intros ? ? w id rule id'. simpl. destruct (sy_streams w !! id) as [s|] eqn:Hs; [|done].
  destruct (EventStream_apply_stream_rule s rule (sy_io w)) as [[r s'] io] eqn:Happ. simpl.
  destruct (decide (id = id')) as [<-|Hne]; [|by rewrite lookup_insert_ne].
  rewrite lookup_insert_eq, Hs. by apply apply_stream_rule_cases in Happ as [[-> _]|(q & -> & _)].
Qed.
Next Obligation.
  intros ? ? w id rule id' Hne. simpl. destruct (sy_streams w !! id) as [s|] eqn:Hs; [|done].
  destruct (EventStream_apply_stream_rule s rule (sy_io w)) as [[r s'] io]. simpl.
  by rewrite lookup_insert_ne.
Qed.

(** ** Operations *)

Record EventSystem := {
  ev_event_system_directory : path;
  ev_stream_policy_manager : StreamPolicyManager nat;
  ev_world : SystemWorld
}.

Section Operations.
  Context `{SystemCalls} `{QueueCalls}.

(** [canonical] is the canonicalized path of the directory. *)
Definition EventSystem_new (canonical : option path) (io : IoWorld) :
    Outcome IoError EventSystem * IoWorld :=
  match EventSystemDirectory_create canonical io with
  | (Ok directory, io') =>
      (Ok {| ev_event_system_directory := directory;
             ev_stream_policy_manager := StreamPolicyManager_default;
             ev_world := {| sy_streams := ∅; sy_io := io' |} |}, io')
  | (Err e, io') => (Err e, io')
  | (_, io') => (Panic, io')
  end.

(** The last reference to a stream is dropped, and its queue with it. *)
Definition drop_stream (id : nat) (w : SystemWorld) : SystemWorld :=
  {| sy_streams := delete id (sy_streams w);
     sy_io := match sy_streams w !! id with
              | Some s => match ss_queue (es_state s) with
                          | Some queue => (StreamQueue_drop (E := IoError) queue (sy_io w)).2
                          | None => sy_io w
                          end
              | None => sy_io w
              end |}.

(** The new stream is allocated at [id]; the factory that is returned refers to
    it. *)
Definition EventSystem_create_stream (id : nat) (self : EventSystem) (stream_name : StreamName)
    (stream_config : StreamConfig) (encoded_schema : option (list byte)) :
    Outcome CreateStreamError nat * EventSystem :=
  let stream := EventStream_new (ev_event_system_directory self) stream_name stream_config
                  encoded_schema in
  let w := {| sy_streams := <[id := stream]> (sy_streams (ev_world self));
              sy_io := sy_io (ev_world self) |} in
  match register_new_stream (ev_stream_policy_manager self) id w with
  | (Ok _, manager, w') =>
      (Ok id, {| ev_event_system_directory := ev_event_system_directory self;
                 ev_stream_policy_manager := manager; ev_world := w' |})
  | (Err e, manager, w') =>
      (Err e, {| ev_event_system_directory := ev_event_system_directory self;
                 ev_stream_policy_manager := manager; ev_world := drop_stream id w' |})
  | (_, manager, w') =>
      (Panic, {| ev_event_system_directory := ev_event_system_directory self;
                 ev_stream_policy_manager := manager; ev_world := w' |})
  end.

Definition EventSystem_set_stream_policy (self : EventSystem) (new_stream_policy : StreamPolicy) :
    EventSystem :=
  let '(manager, w) :=
    set_stream_policy (ev_stream_policy_manager self) new_stream_policy (ev_world self) in
  {| ev_event_system_directory := ev_event_system_directory self;
     ev_stream_policy_manager := manager; ev_world := w |}.

Definition EventSystem_drop_stream (id : nat) (self : EventSystem) : EventSystem :=
  {| ev_event_system_directory := ev_event_system_directory self;
     ev_stream_policy_manager := ev_stream_policy_manager self;
     ev_world := drop_stream id (ev_world self) |}.

(** ** The steps of the system

    A weak reference keeps its allocation, so a new stream gets an address that
    no live stream and no reference of the manager has. *)
Inductive system_step : EventSystem -> EventSystem -> Prop :=
| system_create id name config schema sys :
    sy_streams (ev_world sys) !! id = None ->
    ~ In id (pm_streams (ev_stream_policy_manager sys)) ->
    system_step sys (EventSystem_create_stream id sys name config schema).2
| system_policy policy sys : system_step sys (EventSystem_set_stream_policy sys policy)
| system_drop id sys : system_step sys (EventSystem_drop_stream id sys).

Inductive system_reachable : EventSystem -> Prop :=
| system_initial canonical io sys io' :
    EventSystem_new canonical io = (Ok sys, io') -> system_reachable sys
| system_next sys sys' : system_reachable sys -> system_step sys sys' -> system_reachable sys'.

(** ** Invariant *)

Record system_inv (sys : EventSystem) : Prop := {
  si_nodup : List.NoDup (pm_streams (ev_stream_policy_manager sys));
  si_names : names_distinct (pm_streams (ev_stream_policy_manager sys)) (ev_world sys);
  si_registered : forall id, alive (ev_world sys) id = true ->
    In id (pm_streams (ev_stream_policy_manager sys));
  si_policy : forall id, is_published (ev_world sys) id = true ->
    stream_rule (pm_stream_policy (ev_stream_policy_manager sys))
      (stream_name_of (ev_world sys) id) = On
}.

Lemma NoDup_app_snoc {A} (l : list A) x : List.NoDup l -> ~ In x l -> List.NoDup (l ++ [x]).
Proof.
  intros Hl Hx. induction Hl as [|y l Hy _ IH]; simpl; [constructor; [done|constructor]|].
  constructor; [|apply IH; intros ?; apply Hx; by right].
  rewrite in_app_iff. intros [?|[->|[]]]; [done|]. apply Hx. by left.
Qed.

Lemma published_alive (w : SystemWorld) (id : nat) : is_published w id = true -> alive w id = true.
Proof. simpl. destruct (sy_streams w !! id); [|done]. intros _. by apply bool_decide_eq_true. Qed.

Lemma system_inv_initial canonical io sys io' :
  EventSystem_new canonical io = (Ok sys, io') -> system_inv sys.
Proof.
  unfold EventSystem_new. destruct (EventSystemDirectory_create canonical io) as [[d|e| | |] w]; try done.
  intros [= <- <-]. constructor; simpl; [constructor|by intros ? ?|..]; intros id; by rewrite lookup_empty.
Qed.

Lemma drop_stream_lookup id id' w :
  sy_streams (drop_stream id w) !! id' = if bool_decide (id = id') then None else sy_streams w !! id'.
Proof.
  simpl. case_bool_decide as E; [subst; apply lookup_delete_eq|by apply lookup_delete_ne].
Qed.

(** Dropping a stream hides it and changes no other. *)
Lemma drop_stream_frame id id' w :
  alive (drop_stream id w) id' = true ->
  id <> id' /\ alive w id' = true /\
  stream_name_of (drop_stream id w) id' = stream_name_of w id' /\
  is_published (drop_stream id w) id' = is_published w id'.
Proof.
  cbn -[drop_stream]. rewrite bool_decide_eq_true, drop_stream_lookup.
  case_bool_decide as E; [by intros [? ?]|]. intros Ha. split_and!; try done. by apply bool_decide_eq_true.
Qed.

Lemma system_inv_drop id sys : system_inv sys -> system_inv (EventSystem_drop_stream id sys).
Proof.
  intros [Hnd Hn Hr Hp]. constructor; cbn [EventSystem_drop_stream ev_world ev_stream_policy_manager].
  - done.
  - intros s s' Hs Hs' (_ & Ha & -> & _)%drop_stream_frame (_ & Ha' & -> & _)%drop_stream_frame.
    by apply Hn.
  - intros s (_ & Ha & _)%drop_stream_frame. by apply Hr.
  - intros s Hpub. destruct (drop_stream_frame _ _ _ (published_alive _ _ Hpub)) as (_ & _ & -> & Heq).
    apply Hp. by rewrite <- Heq.
Qed.

Lemma system_inv_policy policy sys :
  system_inv sys -> system_inv (EventSystem_set_stream_policy sys policy).
Proof.
  intros [Hnd Hn Hr Hp]. unfold EventSystem_set_stream_policy, set_stream_policy.
  set (streams := pm_streams (prune_dead_streams _ _)).
  assert (Hin : forall s, In s streams <-> In s (pm_streams (ev_stream_policy_manager sys)) /\
    alive (ev_world sys) s = true) by (intros s; apply in_pruned).
  assert (Hf : forall s, alive (apply_policy policy streams (ev_world sys)) s = alive (ev_world sys) s /\
    stream_name_of (apply_policy policy streams (ev_world sys)) s = stream_name_of (ev_world sys) s)
    by (intros s; destruct (apply_policy_frame policy streams (ev_world sys) s) as (? & ? & _); done).
  assert (Hnd' : List.NoDup streams) by (by apply List.NoDup_filter).
  constructor; cbn [ev_world ev_stream_policy_manager pm_streams pm_stream_policy].
  - done.
  - eapply names_distinct_incl; [| | |exact Hn].
    + by intros s [? _]%Hin.
    + intros s. by rewrite (proj1 (Hf s)).
    + intros s. apply Hf.
  - intros s Ha. rewrite (proj1 (Hf s)) in Ha. apply Hin. auto.
  - intros s Hpub. pose proof (published_alive _ _ Hpub) as Ha. rewrite (proj1 (Hf s)) in Ha.
    apply apply_policy_published; [done|apply Hin; auto|done|done].
Qed.

(** A new stream in the world. *)
Lemma insert_stream_frame id s w i :
  let w' := {| sy_streams := <[id := s]> (sy_streams w); sy_io := sy_io w |} in
  alive w' i = (bool_decide (i = id) || alive w i) /\
  (i <> id -> stream_name_of w' i = stream_name_of w i /\ is_published w' i = is_published w i).
Proof.
  cbn. destruct (decide (i = id)) as [->|Hne].
  - rewrite lookup_insert_eq, (bool_decide_eq_true_2 (id = id)) by done.
    split; [|done]. apply bool_decide_eq_true_2. eauto.
  - rewrite lookup_insert_ne by done. by rewrite (bool_decide_eq_false_2 (i = id)).
Qed.

(** A stream that could not be registered is dropped again. *)
Lemma system_inv_unregistered id sys w w' :
  let m := ev_stream_policy_manager sys in
  system_inv sys ->
  (forall i, alive w' i = (bool_decide (i = id) || alive (ev_world sys) i)) ->
  (forall i, alive w' i = alive w i) ->
  names_distinct (pm_streams m) w' ->
  (forall i, i <> id -> is_published w' i = true ->
     stream_rule (pm_stream_policy m) (stream_name_of w' i) = On) ->
  system_inv {| ev_event_system_directory := ev_event_system_directory sys;
                ev_stream_policy_manager := prune_dead_streams m w; ev_world := drop_stream id w' |}.
Proof.
  intros m [Hnd _ Hr _] Hal Haw Hdist Hpubold.
  constructor; cbn [ev_world ev_stream_policy_manager].
  - by apply List.NoDup_filter.
  - intros i j [Hi _]%in_pruned [Hj _]%in_pruned
      (_ & Ha & -> & _)%drop_stream_frame (_ & Ha' & -> & _)%drop_stream_frame. by apply Hdist.
  - intros i (Hne & Ha & _)%drop_stream_frame. apply in_pruned. rewrite <- Haw. split; [|done].
    apply Hr. rewrite Hal in Ha. by rewrite bool_decide_eq_false_2 in Ha.
  - intros i Hpub. destruct (drop_stream_frame _ _ _ (published_alive _ _ Hpub)) as (Hne & _ & -> & Heq).
    apply Hpubold; [done|by rewrite <- Heq].
Qed.

Lemma system_inv_create id name cfg schema sys :
  sy_streams (ev_world sys) !! id = None ->
  ~ In id (pm_streams (ev_stream_policy_manager sys)) -> system_inv sys ->
  system_inv (EventSystem_create_stream id sys name cfg schema).2.
Proof.
  intros Hid Hnot Hinv. pose proof Hinv as [Hnd Hn Hr Hp]. unfold EventSystem_create_stream.
  set (s := EventStream_new _ _ _ _).
  set (w := {| sy_streams := <[id := s]> (sy_streams (ev_world sys)); sy_io := _ |}).
  set (m := ev_stream_policy_manager sys) in *.
  assert (Hal : forall i, alive w i = (bool_decide (i = id) || alive (ev_world sys) i))
    by (intros i; apply insert_stream_frame).
  assert (Hold : forall i, i <> id -> stream_name_of w i = stream_name_of (ev_world sys) i /\
    is_published w i = is_published (ev_world sys) i) by (intros i; apply insert_stream_frame).
  assert (Hself : alive w id = true) by (rewrite Hal; by rewrite bool_decide_eq_true_2).
  assert (Hfresh : forall i, In i (pm_streams m) -> i <> id) by (intros i Hi ->; done).
  destruct (register_new_stream m id w) as [[r m'] w'] eqn:Hreg.
  apply register_cases in Hreg; [|done]. cbv zeta in Hreg. set (rule := stream_rule _ _) in Hreg.
  assert (Hframe : forall i, alive w' i = alive w i /\ stream_name_of w' i = stream_name_of w i /\
    (i <> id -> is_published w' i = is_published w i)).
  { intros i. destruct Hreg as [(_ & _ & -> & _)|(_ & -> & _)]; [done|].
    split_and!; [apply apply_alive|apply apply_name|apply apply_other]. }
  assert (Hdist : names_distinct (pm_streams m) w').
  { intros i j Hi Hj. destruct (Hframe i) as (-> & -> & _), (Hframe j) as (-> & -> & _).
    rewrite !Hal, !bool_decide_eq_false_2 by (by apply Hfresh). cbn [orb].
    rewrite (proj1 (Hold _ (Hfresh _ Hi))), (proj1 (Hold _ (Hfresh _ Hj))). by apply Hn. }
  assert (Hpubold : forall i, i <> id -> is_published w' i = true ->
    stream_rule (pm_stream_policy m) (stream_name_of w' i) = On).
  { intros i Hne. destruct (Hframe i) as (_ & -> & Heq). rewrite Heq by done.
    destruct (Hold i Hne) as [-> ->]. apply Hp. }
  assert (Herr := system_inv_unregistered id sys w w' Hinv
    (fun i => eq_trans (proj1 (Hframe i)) (Hal i)) (fun i => proj1 (Hframe i)) Hdist Hpubold).
  destruct Hreg as [(-> & -> & _)|(Hfree & _ & [(-> & Hst & Hpol & Hpub)|(e & -> & ->)])]; try done.
  constructor; cbn [snd ev_world ev_stream_policy_manager]; rewrite ?Hst, ?Hpol.
  - apply NoDup_app_snoc; [by apply List.NoDup_filter|by intros [? _]%in_pruned].
  - intros i j Hi Hj Hai Haj Heq. destruct (Hframe i) as (Ei & Ni & _), (Hframe j) as (Ej & Nj & _).
    apply in_app_or in Hi, Hj.
    destruct Hi as [Hi|[<-|[]]], Hj as [Hj|[<-|[]]]; rewrite ?in_pruned in *; try done.
    + apply Hdist; tauto.
    + destruct (Hfree i); [tauto..|congruence].
    + destruct (Hfree j); [tauto..|congruence].
  - intros i Ha. destruct (Hframe i) as (Hai & _). rewrite Hai, Hal in Ha. apply in_or_app.
    destruct (decide (i = id)) as [->|Hne]; [right; by left|left].
    rewrite bool_decide_eq_false_2 in Ha by done. apply in_pruned. split; [by apply Hr|].
    by rewrite Hal, bool_decide_eq_false_2.
  - intros i Hi. destruct (decide (i = id)) as [->|Hne]; [|by apply Hpubold].
    rewrite Hpub in Hi. destruct (Hframe id) as (_ & -> & _). by apply bool_decide_eq_true in Hi.
Qed.

Lemma system_inv_reachable sys : system_reachable sys -> system_inv sys.
Proof.
  induction 1 as [canonical io sys io' Hnew|sys sys' _ IH Hs]; [by eapply system_inv_initial|].
  destruct Hs; [by apply system_inv_create|by apply system_inv_policy|by apply system_inv_drop].
Qed.
End Operations.

(** ** Properties *)

(** In every state of an event system, a stream that is published is one that
    the current policy enables, two live streams never have the same name (so
    never the same directory), and every live stream is known to the manager, so
    that it follows later policies. *)
Theorem published_streams_follow_policy `{SystemCalls} `{QueueCalls} sys :
  system_reachable sys ->
  (forall id s, sy_streams (ev_world sys) !! id = Some s -> enabled s = true ->
     stream_rule (pm_stream_policy (ev_stream_policy_manager sys)) (es_stream_name s) = On) /\
  (forall id id' s s', sy_streams (ev_world sys) !! id = Some s ->
     sy_streams (ev_world sys) !! id' = Some s' -> es_stream_name s = es_stream_name s' -> id = id') /\
  (forall id s, sy_streams (ev_world sys) !! id = Some s ->
     In id (pm_streams (ev_stream_policy_manager sys))).
Proof.
  intros [_ Hn Hr Hp]%system_inv_reachable.
  assert (Ha : forall id s, sy_streams (ev_world sys) !! id = Some s -> alive (ev_world sys) id = true)
    by (intros id s Hs; apply bool_decide_eq_true; by exists s).
  split_and!.
  - intros id s Hs He. specialize (Hp id). cbn in Hp. rewrite Hs in Hp. by apply Hp.
  - intros id id' s s' Hs Hs' Heq. apply Hn; try (by eauto). cbn. by rewrite Hs, Hs'.
  - intros id s Hs. by apply Hr, (Ha id s).
Qed.

(** ** Samples *)

Definition on_policy : StreamPolicy :=
  {| default_rule := On; prefix_rules_sorted_by_length := [] |}.

Definition empty_directory : IoWorld :=
  {| io_fs := Directory []; io_calls := O; io_history := [] |}.

Definition sample_event_system : EventSystem :=
  {| ev_event_system_directory := [];
     ev_stream_policy_manager := StreamPolicyManager_default;
     ev_world := {| sy_streams := ∅; sy_io := (EventSystemDirectory_create (Some []) empty_directory).2 |} |}.

(** A system with a stream that the policy enables. *)
Definition sample_running_system : EventSystem :=
  (EventSystem_create_stream 0 (EventSystem_set_stream_policy sample_event_system on_policy)
     sample_name sample_stream_config (Some [x01])).2.

Lemma sample_system_reachable : system_reachable sample_running_system.
Proof.
  eapply system_next; [eapply system_next; [eapply (system_initial (Some []) empty_directory
    sample_event_system); reflexivity|apply (system_policy on_policy)]|].
  apply (system_create 0); [reflexivity|intros []].
Qed.

Lemma published_streams_follow_policy_witness :
  In 0%nat (pm_streams (ev_stream_policy_manager sample_running_system)).
Proof.
  destruct (published_streams_follow_policy sample_running_system sample_system_reachable) as (_ & _ & H).
  destruct (sy_streams (ev_world sample_running_system) !! 0%nat) as [s|] eqn:Hs.
  - exact (H 0%nat s Hs).
  - vm_compute in Hs. discriminate.
Defined.

Lemma set_stream_policy_spec_witness :
  is_published (set_stream_policy (ev_stream_policy_manager sample_running_system) StreamPolicy_default
    (ev_world sample_running_system)).2 0%nat = false.
Proof.
  destruct (set_stream_policy_spec (ev_stream_policy_manager sample_running_system)
    StreamPolicy_default (ev_world sample_running_system) _ _
    ltac:(vm_compute; repeat constructor; intros []) (surjective_pairing _)) as (_ & _ & H & _).
  apply (H [] 0%nat []). by vm_compute.
Defined.

(** A second stream of the same name. *)
Definition sample_duplicate_world : SystemWorld :=
  {| sy_streams := <[1%nat := EventStream_new [] sample_name sample_stream_config None]>
       (sy_streams (ev_world sample_running_system));
     sy_io := sy_io (ev_world sample_running_system) |}.

Lemma register_new_stream_spec_witness :
  (register_new_stream (ev_stream_policy_manager sample_running_system) 1%nat sample_duplicate_world).1.1
  = Err StreamNameAlreadyInUse.
Proof.
  destruct (register_new_stream (ev_stream_policy_manager sample_running_system) 1%nat
    sample_duplicate_world) as [[r m] w] eqn:Hr.
  destruct (register_new_stream_spec (ev_stream_policy_manager sample_running_system) 1%nat
    sample_duplicate_world r m w ltac:(by vm_compute)
    ltac:(vm_compute; intros [?|[]]; discriminate)
    ltac:(intros s s' [<-|[]] [<-|[]] _ _ _; reflexivity) Hr) as (_ & _ & _ & H & _).
  apply H. exists 0%nat. split; [vm_compute; by left|]. split; by vm_compute.
Defined.
