(* ===== verification/EventApi.v ===== *)
(** * The public event-system interface
      (event-system/src/event_system.rs, publisher_factory.rs, publisher.rs and
       backend/stub.rs)

    The public types hold either the platform's implementation or a stub and pass
    each call on.  Handles are reference counted: a stream lives as long as a
    factory or a publisher refers to it, the event-system directory as long as a
    handle of the event system or a stream does.  The state machine of this file
    composes the event system, its streams and their publishers; each stream in it
    is simulated by the state machine of EventStream.v. *)

From Stdlib Require Import ZArith Lia Strings.Byte Strings.String.
From stdpp Require Import base list numbers gmap.
From S2P Require Import Prelude RustStr StreamName StreamPolicy FileSystem StreamQueue.
From S2P Require Import EventStream StreamPolicyManager EventSystem.
Local Open Scope Z_scope.

(** ** The stub backend *)

Inductive stub_EventSystem := StubEventSystem.
Inductive stub_PublisherFactory := StubPublisherFactory.
Inductive stub_Publisher := StubPublisher.

Definition stub_EventSystem_new {D : Type} (_event_system_directory : D) :
    Outcome IoError stub_EventSystem := Ok StubEventSystem.

Definition stub_create_stream (self : stub_EventSystem) (_stream_name : StreamName)
    (_stream_config : StreamConfig) : Outcome CreateStreamError stub_PublisherFactory :=
  Ok StubPublisherFactory.

Definition stub_set_stream_policy (self : stub_EventSystem) (_new_stream_policy : StreamPolicy) : unit :=
  tt.

Definition stub_try_create_publisher (self : stub_PublisherFactory) : option stub_Publisher :=
  Some StubPublisher.

Definition stub_publish {E} (self : stub_Publisher) (_event : E) : Outcome PublishError unit := Ok tt.
Definition stub_publish_batch {E} (self : stub_Publisher) (_events : list E) :
    Outcome PublishError unit := Ok tt.
Definition stub_is_enabled (self : stub_Publisher) : bool := false.

(** ** The state behind the handles *)

Record World := {
  wo_system : EventSystem;
  (** live handles of the event system *)
  wo_handles : nat;
  (** live factories, live publishers and sent events of each stream *)
  wo_factories : gmap nat nat;
  wo_publishers : gmap nat (gmap nat Publisher);
  wo_sent : gmap nat (list (nat * list byte))
}.

Definition wo_streams (w : World) : gmap nat EventStream := sy_streams (ev_world (wo_system w)).
Definition wo_io (w : World) : IoWorld := sy_io (ev_world (wo_system w)).
Definition factories (s : nat) (w : World) : nat := default 0%nat (wo_factories w !! s).
Definition publishers (s : nat) (w : World) : gmap nat Publisher := default ∅ (wo_publishers w !! s).
Definition sent (s : nat) (w : World) : list (nat * list byte) := default [] (wo_sent w !! s).

(** The stream [s] with its publishers. *)
Definition project (s : nat) (ps : gmap nat Publisher) (events : list (nat * list byte))
    (w : SystemWorld) : option StreamWorld :=
  (fun stream => {| sw_stream := stream; sw_publishers := ps; sw_sent := events;
                    sw_io := sy_io w |}) <$> sy_streams w !! s.

Definition stream_world (s : nat) (w : World) : option StreamWorld :=
  project s (publishers s w) (sent s w) (ev_world (wo_system w)).

Definition with_streams (sys : EventSystem) (streams : gmap nat EventStream) (io : IoWorld) :
    EventSystem :=
  {| ev_event_system_directory := ev_event_system_directory sys;
     ev_stream_policy_manager := ev_stream_policy_manager sys;
     ev_world := {| sy_streams := streams; sy_io := io |} |}.

Definition put_stream_world (s : nat) (sw : StreamWorld) (w : World) : World :=
  {| wo_system := with_streams (wo_system w) (<[s := sw_stream sw]> (wo_streams w)) (sw_io sw);
     wo_handles := wo_handles w;
     wo_factories := wo_factories w;
     wo_publishers := <[s := sw_publishers sw]> (wo_publishers w);
     wo_sent := <[s := sw_sent sw]> (wo_sent w) |}.

Definition with_system (w : World) (sys : EventSystem) : World :=
  {| wo_system := sys; wo_handles := wo_handles w; wo_factories := wo_factories w;
     wo_publishers := wo_publishers w; wo_sent := wo_sent w |}.

Definition with_handles (w : World) (n : nat) : World :=
  {| wo_system := wo_system w; wo_handles := n; wo_factories := wo_factories w;
     wo_publishers := wo_publishers w; wo_sent := wo_sent w |}.

Definition with_factories (w : World) (s n : nat) : World :=
  {| wo_system := wo_system w; wo_handles := wo_handles w;
     wo_factories := <[s := n]> (wo_factories w);
     wo_publishers := wo_publishers w; wo_sent := wo_sent w |}.

(** ** Handles *)

Inductive SystemHandle := SystemPlatform | SystemStub (stub : stub_EventSystem).
Inductive FactoryHandle := FactoryPlatform (stream : nat) | FactoryStub (stub : stub_PublisherFactory).
Inductive PublisherHandle :=
| PublisherPlatform (stream publisher : nat)
| PublisherStub (stub : stub_Publisher).

Section Api.
  Context `{SystemCalls} `{QueueCalls} `{Shaq}.

Definition api_EventSystem_new (canonical : option path) (io : IoWorld) :
    Outcome IoError (SystemHandle * World) * IoWorld :=
  match EventSystem_new canonical io with
  | (Ok sys, io') =>
      (Ok (SystemPlatform, {| wo_system := sys; wo_handles := 1; wo_factories := ∅;
                              wo_publishers := ∅; wo_sent := ∅ |}), io')
  | (Err e, io') => (Err e, io')
  | (_, io') => (Panic, io')
  end.

Definition api_EventSystem_stub : SystemHandle := SystemStub StubEventSystem.

(** A new stream of the platform gets the address [s]. *)
Definition api_create_stream (s : nat) (self : SystemHandle) (stream_name : StreamName)
    (stream_config : StreamConfig) (encoded_schema : option (list byte)) (w : World) :
    Outcome CreateStreamError FactoryHandle * World :=
  match self with
  | SystemPlatform =>
      match EventSystem_create_stream s (wo_system w) stream_name stream_config encoded_schema with
      | (Ok stream, sys) => (Ok (FactoryPlatform stream), with_factories (with_system w sys) s 1)
      | (Err e, sys) => (Err e, with_system w sys)
      | (_, sys) => (Panic, with_system w sys)
      end
  | SystemStub backend => (omap FactoryStub (stub_create_stream backend stream_name stream_config), w)
  end.

Definition api_set_stream_policy (self : SystemHandle) (stream_policy : StreamPolicy) (w : World) :
    World :=
  match self with
  | SystemPlatform => with_system w (EventSystem_set_stream_policy (wo_system w) stream_policy)
  | SystemStub backend => let 'tt := stub_set_stream_policy backend stream_policy in w
  end.

(** A new publisher gets the handle [id]. *)
Definition api_try_create_publisher (id : nat) (self : FactoryHandle) (w : World) :
    option PublisherHandle * World :=
  match self with
  | FactoryPlatform s =>
      match stream_world s w with
      | Some sw =>
          match try_create_publisher id sw with
          | Some sw' => (Some (PublisherPlatform s id), put_stream_world s sw' w)
          | None => (None, w)
          end
      | None => (None, w)
      end
  | FactoryStub backend => (PublisherStub <$> stub_try_create_publisher backend, w)
  end.

(** A call on a publisher of the platform. *)
Definition on_stream {A} (s : nat) (missing : A) (f : StreamWorld -> A * StreamWorld) (w : World) :
    A * World :=
  match stream_world s w with
  | Some sw => let '(a, sw') := f sw in (a, put_stream_world s sw' w)
  | None => (missing, w)
  end.

Definition api_Publisher_stub : PublisherHandle := PublisherStub StubPublisher.

Definition api_publish {E} (serialize : E -> option (list byte)) (self : PublisherHandle) (event : E)
    (w : World) : Outcome PublishError unit * World :=
  match self with
  | PublisherPlatform s id => on_stream s UB (Publisher_publish serialize id event) w
  | PublisherStub inner => (stub_publish inner event, w)
  end.

Definition api_publish_batch {E} (serialize : E -> option (list byte)) (self : PublisherHandle)
    (events : list E) (w : World) : Outcome PublishError unit * World :=
  match self with
  | PublisherPlatform s id => on_stream s UB (Publisher_publish_batch serialize id events) w
  | PublisherStub inner => (stub_publish_batch inner events, w)
  end.

Definition api_is_enabled (self : PublisherHandle) (w : World) : bool * World :=
  match self with
  | PublisherPlatform s id => on_stream s false (Publisher_is_enabled id) w
  | PublisherStub inner => (stub_is_enabled inner, w)
  end.

(** ** Dropping handles *)

(** The directory is emptied with its last reference. *)
Definition release_directory (w : World) : World :=
  if bool_decide (wo_handles w = 0%nat) && bool_decide (wo_streams w = ∅)
  then with_system w (with_streams (wo_system w) ∅
         (EventSystemDirectory_drop (E := IoError) (ev_event_system_directory (wo_system w)) (wo_io w)).2)
  else w.

(** The stream [s] is dropped with its last reference. *)
Definition release_stream (s : nat) (w : World) : World :=
  if bool_decide (factories s w = 0%nat) && bool_decide (publishers s w = ∅)
  then release_directory (with_system w (EventSystem_drop_stream s (wo_system w)))
  else w.

Definition clone_event_system (w : World) : World := with_handles w (S (wo_handles w)).
Definition drop_event_system (w : World) : World := release_directory (with_handles w (pred (wo_handles w))).

Definition clone_factory (s : nat) (w : World) : World := with_factories w s (S (factories s w)).
Definition drop_factory (s : nat) (w : World) : World :=
  release_stream s (with_factories w s (pred (factories s w))).

(** ** The steps *)

Inductive world_step : World -> World -> Prop :=
| world_create s name config schema w :
    (0 < wo_handles w)%nat -> wo_streams w !! s = None ->
    ~ In s (pm_streams (ev_stream_policy_manager (wo_system w))) ->
    0 <= publisher_slots config < modulus USIZE ->
    world_step w (api_create_stream s SystemPlatform name config schema w).2
| world_policy policy w :
    (0 < wo_handles w)%nat -> world_step w (api_set_stream_policy SystemPlatform policy w)
| world_clone_system w : (0 < wo_handles w)%nat -> world_step w (clone_event_system w)
| world_drop_system w : (0 < wo_handles w)%nat -> world_step w (drop_event_system w)
| world_clone_factory s w : (0 < factories s w)%nat -> world_step w (clone_factory s w)
| world_drop_factory s w : (0 < factories s w)%nat -> world_step w (drop_factory s w)
(** the steps of publishers; one that is created needs a factory, one that is gone
    releases its stream *)
| world_publisher s sw sw' w :
    stream_world s w = Some sw -> publisher_step sw sw' ->
    ((size (sw_publishers sw) < size (sw_publishers sw'))%nat -> (0 < factories s w)%nat) ->
    world_step w (release_stream s (put_stream_world s sw' w)).

(** States reached in [k] steps from a new event system in the directory [canonical]. *)
Inductive world_reachable (canonical : option path) (io : IoWorld) : nat -> World -> Prop :=
| world_initial h w io' :
    api_EventSystem_new canonical io = (Ok (h, w), io') -> world_reachable canonical io 0 w
| world_next k w w' :
    world_reachable canonical io k w -> world_step w w' -> world_reachable canonical io (S k) w'.

End Api.

(** ** Each stream is simulated *)

Section Simulation.
  Context `{SystemCalls} `{QueueCalls} `{Shaq}.

(** Reached with at most [n] toggles. *)
Definition reached (n : nat) (sw : StreamWorld) : Prop := exists m, (m <= n)%nat /\ reachable m sw.

Lemma reached_step n sw sw' : reached n sw -> step sw sw' -> reached (n + 1) sw'.
Proof.
  intros (m & Hm & Hr) Hs. exists (m + toggled sw sw')%nat. split; [|by apply (reachable_step m sw)].
  unfold toggled. case_bool_decide; lia.
Qed.

Lemma reached_quiet n sw sw' :
  reached n sw -> step sw sw' ->
  es_queue_generation (sw_stream sw') = es_queue_generation (sw_stream sw) -> reached n sw'.
Proof.
  intros (m & Hm & Hr) Hs Hq. exists m. split; [done|].
  pose proof (reachable_step m sw sw' Hr Hs) as H2. unfold toggled in H2.
  by rewrite Hq, bool_decide_eq_true_2, Nat.add_0_r in H2.
Qed.

Lemma reached_le n m sw : (n <= m)%nat -> reached n sw -> reached m sw.
Proof. intros Hle (i & Hi & Hr). exists i. split; [lia|done]. Qed.

Lemma reached_environment n sw io : reached n sw -> reached n (with_io sw io).
Proof. intros Hr. eapply reached_quiet; [done|apply step_environment|done]. Qed.

(** The steps of a publisher neither enable nor disable the stream. *)
Lemma publisher_step_stream sw sw' :
  publisher_step sw sw' ->
  es_queue_generation (sw_stream sw') = es_queue_generation (sw_stream sw) /\
  es_stream_name (sw_stream sw') = es_stream_name (sw_stream sw) /\
  ss_queue (es_state (sw_stream sw')) = ss_queue (es_state (sw_stream sw)) /\
  es_event_system_directory (sw_stream sw') = es_event_system_directory (sw_stream sw) /\
  sw_io sw' = sw_io sw.
Proof.
  destruct 1 as [id w w' _ Hc| | | | |]; try done.
  - unfold try_create_publisher in Hc. destruct (checked_sub _ _); [|done]. by injection Hc as <-.
  - unfold producer_check. by destruct (_ =? _).
Qed.

Lemma project_Some s ps events w sw :
  project s ps events w = Some sw <->
  exists st, sy_streams w !! s = Some st /\
    sw = {| sw_stream := st; sw_publishers := ps; sw_sent := events; sw_io := sy_io w |}.
Proof.
  unfold project. rewrite fmap_Some. split; intros (st & Hs & E); exists st; subst; done.
Qed.

Lemma project_io s ps events w io :
  project s ps events {| sy_streams := sy_streams w; sy_io := io |} =
  (fun sw => with_io sw io) <$> project s ps events w.
Proof. unfold project. simpl. by destruct (sy_streams w !! s). Qed.

(** Applying a rule to some stream. *)
Lemma apply_simulated s s' rule ps events w n sw :
  project s ps events w = Some sw -> reached n sw ->
  exists sw', project s ps events (apply_stream_rule s' rule w).2 = Some sw' /\
    reached (n + if bool_decide (s = s') then 1 else 0) sw'.
Proof.
  intros (st & Hs & ->)%project_Some Hr. cbn [apply_stream_rule EventStream_PolicyControlledStream].
  destruct (sy_streams w !! s') as [st'|] eqn:Hs'.
  - destruct (EventStream_apply_stream_rule st' rule (sy_io w)) as [[r st1] io] eqn:Ha. simpl.
    unfold project. simpl. case_bool_decide as E.
    + subst s'. rewrite Hs in Hs'. injection Hs' as <-. rewrite lookup_insert_eq. simpl.
      eexists. split; [done|]. pose proof (reached_step _ _ _ Hr (step_apply rule _)) as Hr'.
      unfold apply_rule in Hr'. simpl in Hr'. by rewrite Ha in Hr'.
    + rewrite lookup_insert_ne by done. rewrite Hs. simpl. eexists. split; [done|].
      rewrite Nat.add_0_r. apply (reached_environment n _ io Hr).
  - simpl. unfold project. rewrite Hs. simpl. eexists. split; [done|]. eapply reached_le; [|done]. lia.
Qed.

Lemma apply_policy_simulated s policy streams ps events w n sw :
  project s ps events w = Some sw -> reached n sw ->
  exists sw', project s ps events (apply_policy policy streams w) = Some sw' /\
    reached (n + count_occ Nat.eq_dec streams s) sw'.
Proof.
  revert w n sw. induction streams as [|s' streams IH]; intros w n sw Hp Hr; cbn [apply_policy count_occ].
  { exists sw. by rewrite Nat.add_0_r. }
  destruct (alive w s').
  - destruct (apply_simulated s s' (stream_rule policy (stream_name_of w s')) ps events w n sw Hp Hr)
      as (sw1 & Hp1 & Hr1).
    destruct (IH _ _ _ Hp1 Hr1) as (sw2 & Hp2 & Hr2). exists sw2. split; [done|].
    eapply reached_le; [|done]. destruct (Nat.eq_dec s' s), (decide (s = s')); case_bool_decide; subst; lia.
  - destruct (IH _ _ _ Hp Hr) as (sw2 & Hp2 & Hr2). exists sw2. split; [done|].
    eapply reached_le; [|done]. destruct (Nat.eq_dec s' s); lia.
Qed.

Lemma set_stream_policy_simulated s m policy ps events w n sw :
  List.NoDup (pm_streams m) -> project s ps events w = Some sw -> reached n sw ->
  exists sw', project s ps events (set_stream_policy m policy w).2 = Some sw' /\ reached (n + 1) sw'.
Proof.
  intros Hnd Hp Hr. unfold set_stream_policy. cbn [snd].
  destruct (apply_policy_simulated s policy (pm_streams (prune_dead_streams m w)) ps events w n sw Hp Hr)
    as (sw' & Hp' & Hr'). exists sw'. split; [done|]. eapply reached_le; [|done].
  assert (List.NoDup (pm_streams (prune_dead_streams m w))) as Hnd' by (by apply List.NoDup_filter).
  pose proof (proj1 (NoDup_count_occ Nat.eq_dec _) Hnd' s). lia.
Qed.

Lemma register_simulated s m s' ps events w n sw :
  project s ps events w = Some sw -> reached n sw ->
  exists sw', project s ps events (register_new_stream m s' w).2 = Some sw' /\ reached (n + 1) sw'.
Proof.
  intros Hp Hr. unfold register_new_stream. destruct (existsb _ _).
  { exists sw. split; [done|]. eapply reached_le; [|done]. lia. }
  cbv zeta. set (rule := stream_rule _ _).
  destruct (apply_simulated s s' rule ps events w n sw Hp Hr) as (sw' & Hp' & Hr').
  exists sw'. split; [|eapply reached_le; [|done]; case_bool_decide; lia].
  by destruct (apply_stream_rule s' rule w) as [[| | | |] w'].
Qed.

Lemma drop_stream_simulated s s' ps events w n sw :
  s <> s' -> project s ps events w = Some sw -> reached n sw ->
  exists sw', project s ps events (drop_stream s' w) = Some sw' /\ reached n sw'.
Proof.
  intros Hne (st & Hs & ->)%project_Some Hr. eexists. split.
  - apply project_Some. exists st. rewrite drop_stream_lookup, bool_decide_eq_false_2 by done. split; done.
  - apply (reached_environment n _ (sy_io (drop_stream s' w)) Hr).
Qed.
End Simulation.

(** ** Invariant *)

Section Invariant.
  Context `{SystemCalls} `{QueueCalls} `{Shaq}.

Record world_inv (k : nat) (w : World) : Prop := {
  wi_system : system_inv (wo_system w);
  wi_referenced : forall s, is_Some (wo_streams w !! s) <->
    (0 < factories s w)%nat \/ publishers s w <> ∅;
  wi_simulated : forall s sw, stream_world s w = Some sw -> reached k sw
}.

Lemma wi_dead k w s :
  world_inv k w -> wo_streams w !! s = None -> factories s w = 0%nat /\ publishers s w = ∅.
Proof.
  intros [_ Hr _] Hs. specialize (Hr s). rewrite Hs in Hr.
  assert (~ is_Some (None : option EventStream)) as Hno by (by intros [? ?]).
  split; [destruct (factories s w); [done|]|destruct (decide (publishers s w = ∅)); [done|]];
    exfalso; apply Hno, Hr; [left; lia|by right].
Qed.

(** Changing only the event system. *)
Lemma world_inv_with_system k w sys :
  system_inv sys -> world_inv k w ->
  (forall s, is_Some (sy_streams (ev_world sys) !! s) <-> is_Some (wo_streams w !! s)) ->
  (forall s sw, stream_world s w = Some sw ->
     exists sw', project s (publishers s w) (sent s w) (ev_world sys) = Some sw' /\ reached (k + 1) sw') ->
  world_inv (k + 1) (with_system w sys).
Proof.
  intros Hsys [_ Href Hsim] Hdom Hall. constructor; [done|intros s; by rewrite Hdom|].
  intros s sw Hsw. assert (is_Some (stream_world s w)) as [sw0 Hsw0].
  { apply project_Some in Hsw as (st & Hst & _). unfold stream_world, project. apply fmap_is_Some, Hdom.
    by exists st. }
  destruct (Hall s sw0 Hsw0) as (sw' & Hp & Hr). unfold stream_world in Hsw. simpl in Hsw.
  unfold publishers, sent in *. simpl in *. congruence.
Qed.

Lemma apply_policy_dom policy streams w s :
  is_Some (sy_streams (apply_policy policy streams w) !! s) <-> is_Some (sy_streams w !! s).
Proof.
  destruct (apply_policy_frame policy streams w s) as (Ha & _). cbn in Ha.
  split; intros Hs.
  - by rewrite (bool_decide_eq_true_2 _ Hs) in Ha; symmetry in Ha; apply bool_decide_eq_true in Ha.
  - by rewrite (bool_decide_eq_true_2 _ Hs) in Ha; apply bool_decide_eq_true in Ha.
Qed.

Lemma world_inv_policy k w policy :
  world_inv k w -> world_inv (k + 1) (api_set_stream_policy SystemPlatform policy w).
Proof.
  intros Hi. pose proof Hi as [Hsys _ Hsim]. cbn [api_set_stream_policy].
  apply world_inv_with_system; [by apply system_inv_policy|done|..];
    unfold EventSystem_set_stream_policy, set_stream_policy; cbn [ev_world].
  - intros s. apply apply_policy_dom.
  - intros s sw Hsw. apply (set_stream_policy_simulated s (ev_stream_policy_manager (wo_system w)) policy
      (publishers s w) (sent s w) (ev_world (wo_system w)) k sw); [apply Hsys|done|by apply (Hsim s)].
Qed.

Lemma register_dom m s' w s :
  is_Some (sy_streams (register_new_stream m s' w).2 !! s) <-> is_Some (sy_streams w !! s).
Proof.
  unfold register_new_stream. destruct (existsb _ _); [done|]. cbv zeta. set (rule := stream_rule _ _).
  pose proof (apply_alive w s' rule s) as Ha.
  assert (is_Some (sy_streams (apply_stream_rule s' rule w).2 !! s) <-> is_Some (sy_streams w !! s)) as Hd.
  { cbn [alive EventStream_PolicyControlledStream] in Ha. split; intros Hs.
    - rewrite (bool_decide_eq_true_2 _ Hs) in Ha. symmetry in Ha. by apply bool_decide_eq_true in Ha.
    - rewrite (bool_decide_eq_true_2 _ Hs) in Ha. by apply bool_decide_eq_true in Ha. }
  by destruct (apply_stream_rule s' rule w) as [[| | | |] w'].
Qed.

(** What creating a stream does to the others, and its result. *)
Lemma create_cases s sys name config schema r sys' :
  sy_streams (ev_world sys) !! s = None -> 0 <= publisher_slots config < modulus USIZE ->
  EventSystem_create_stream s sys name config schema = (r, sys') ->
  (forall s', s' <> s ->
     (is_Some (sy_streams (ev_world sys') !! s') <-> is_Some (sy_streams (ev_world sys) !! s')) /\
     forall ps events n sw, project s' ps events (ev_world sys) = Some sw -> reached n sw ->
       exists sw', project s' ps events (ev_world sys') = Some sw' /\ reached (n + 1) sw') /\
  ((r = Ok s /\ forall events, exists sw', project s ∅ events (ev_world sys') = Some sw' /\ reached 1 sw') \/
   (exists e, r = Err e) /\ sy_streams (ev_world sys') !! s = None).
Proof.
  intros Hs Hc. unfold EventSystem_create_stream. set (st := EventStream_new _ _ _ _).
  set (w0 := {| sy_streams := <[s := st]> _; sy_io := _ |}). set (m := ev_stream_policy_manager sys).
  assert (Hother : forall s' ps events, s' <> s -> project s' ps events w0 = project s' ps events (ev_world sys)).
  { intros s' ps events Hne. unfold project. simpl. by rewrite lookup_insert_ne. }
  assert (Hdom0 : forall s', s' <> s -> sy_streams w0 !! s' = sy_streams (ev_world sys) !! s').
  { intros s' Hne. simpl. by rewrite lookup_insert_ne. }
  assert (Hnew : forall events, exists sw, project s ∅ events w0 = Some sw /\ reached 0 sw).
  { intros events. unfold project. simpl. rewrite lookup_insert_eq. eexists. split; [done|].
    exists 0%nat. split; [done|]. apply reachable_initial. by exists (ev_event_system_directory sys), name, config, schema. }
  assert (Ha : alive w0 s = true) by (apply bool_decide_eq_true_2; simpl; rewrite lookup_insert_eq; eauto).
  destruct (register_new_stream m s w0) as [[r1 m1] w1] eqn:Hreg.
  assert (Hdom : forall s', is_Some (sy_streams w1 !! s') <-> is_Some (sy_streams w0 !! s')).
  { intros s'. by rewrite <- (register_dom m s w0 s'), Hreg. }
  assert (Hsim : forall s' ps events n sw, project s' ps events w0 = Some sw -> reached n sw ->
    exists sw', project s' ps events w1 = Some sw' /\ reached (n + 1) sw').
  { intros s' ps events n sw Hp Hr. pose proof (register_simulated s' m s ps events w0 n sw Hp Hr) as Hx.
    by rewrite Hreg in Hx. }
  apply register_cases in Hreg; [|done].
  assert (Hr1 : r1 = Ok tt \/ exists e, r1 = Err e).
  { destruct Hreg as [(-> & _)|(_ & _ & [(-> & _)|(e & -> & _)])]; eauto. }
  destruct Hr1 as [->|(e & ->)]; intros [= <- <-]; cbn [ev_world].
  - split.
    + intros s' Hne. rewrite Hdom, Hdom0 by done. split; [done|]. intros ps events n sw Hp.
      rewrite <- Hother in Hp by done. by apply Hsim.
    + left. split; [done|]. intros events. destruct (Hnew events) as (sw & Hp & Hr). by apply (Hsim s ∅ events 0%nat sw).
  - split.
    + intros s' Hne. rewrite drop_stream_lookup, bool_decide_eq_false_2 by done.
      rewrite Hdom, Hdom0 by done. split; [done|]. intros ps events n sw Hp Hr.
      rewrite <- Hother in Hp by done. destruct (Hsim s' ps events n sw Hp Hr) as (sw' & Hp' & Hr').
      by apply (drop_stream_simulated s' s ps events w1 (n + 1) sw').
    + right. split; [eauto|]. by rewrite drop_stream_lookup, bool_decide_eq_true_2.
Qed.

(** A stream that keeps its name and its queue can be replaced. *)
Lemma system_inv_update s st st' io sys :
  sy_streams (ev_world sys) !! s = Some st -> es_stream_name st' = es_stream_name st ->
  enabled st' = enabled st -> system_inv sys ->
  system_inv (with_streams sys (<[s := st']> (sy_streams (ev_world sys))) io).
Proof.
  intros Hs Hname Hen [Hnd Hn Hr Hp].
  assert (Hsame : forall i, let w' := {| sy_streams := <[s := st']> (sy_streams (ev_world sys)); sy_io := io |} in
    alive w' i = alive (ev_world sys) i /\ stream_name_of w' i = stream_name_of (ev_world sys) i /\
    is_published w' i = is_published (ev_world sys) i).
  { intros i. cbn. destruct (decide (i = s)) as [->|Hne]; [|by rewrite lookup_insert_ne].
    rewrite lookup_insert_eq, Hs. split_and!; [|done..]. apply bool_decide_ext. split; eauto. }
  constructor; cbn [with_streams ev_world ev_stream_policy_manager]; try done.
  - intros i j Hi Hj. destruct (Hsame i) as (-> & -> & _), (Hsame j) as (-> & -> & _). by apply Hn.
  - intros i. destruct (Hsame i) as (-> & _). apply Hr.
  - intros i. destruct (Hsame i) as (_ & -> & ->). apply Hp.
Qed.

Lemma system_inv_io sys io : system_inv sys -> system_inv (with_streams sys (sy_streams (ev_world sys)) io).
Proof. by intros [? ? ? ?]. Qed.

Lemma world_inv_mono k w : world_inv k w -> world_inv (k + 1) w.
Proof.
  intros [Hs Hr Hsim]. constructor; try done. intros s sw Hsw. eapply reached_le; [|by apply (Hsim s)]. lia.
Qed.

Lemma world_inv_handles k w n : world_inv k w -> world_inv k (with_handles w n).
Proof. by intros [? ? ?]. Qed.

Lemma world_inv_directory k w : world_inv k w -> world_inv k (release_directory w).
Proof.
  intros Hi. unfold release_directory. destruct (bool_decide (wo_handles w = _)); [|done].
  case_bool_decide as Hemp; [|done]. destruct Hi as [Hs Hr Hsim]. unfold andb. rewrite <- Hemp. constructor.
  - by apply system_inv_io.
  - done.
  - intros s sw (st & Hst & _)%project_Some. cbn in Hst. by rewrite Hemp, lookup_empty in Hst.
Qed.

(** All but that the stream [s] is still referenced. *)
Record inv_except (s : nat) (k : nat) (w : World) : Prop := {
  ie_system : system_inv (wo_system w);
  ie_alive : is_Some (wo_streams w !! s);
  ie_referenced : forall s', s' <> s -> is_Some (wo_streams w !! s') <->
    (0 < factories s' w)%nat \/ publishers s' w <> ∅;
  ie_simulated : forall s sw, stream_world s w = Some sw -> reached k sw
}.

Lemma release_stream_inv s k w : inv_except s k w -> world_inv k (release_stream s w).
Proof.
  intros [Hsys Ha Hr Hsim]. unfold release_stream. case_bool_decide as Hf; cbn [andb]; [case_bool_decide as Hp|].
  - apply world_inv_directory. constructor; [by apply system_inv_drop|..].
    + intros s'. unfold wo_streams. cbn -[drop_stream]. rewrite drop_stream_lookup.
      case_bool_decide as E; [|by apply Hr]. subst s'.
      split; [by intros [? ?]|]. unfold factories, publishers in *. simpl. rewrite Hf, Hp. intros [?|?]; [lia|done].
    + intros s' sw Hsw. unfold stream_world in Hsw. cbn -[drop_stream] in Hsw.
      assert (s' <> s) as Hne.
      { intros ->. apply project_Some in Hsw as (st & Hst & _). rewrite drop_stream_lookup in Hst.
        by rewrite bool_decide_eq_true_2 in Hst. }
      assert (is_Some (stream_world s' w)) as [sw0 Hsw0].
      { apply project_Some in Hsw as (st & Hst & _). rewrite drop_stream_lookup, bool_decide_eq_false_2 in Hst by done.
        unfold stream_world, project. apply fmap_is_Some. by exists st. }
      destruct (drop_stream_simulated s' s _ _ _ k sw0 Hne Hsw0 (Hsim _ _ Hsw0)) as (sw' & Hp' & Hr').
      unfold publishers, sent in *. simpl in *. congruence.
  - constructor; try done. intros s'. destruct (decide (s' = s)) as [->|Hne]; [|by apply Hr].
    split; [by right|done].
  - constructor; try done. intros s'. destruct (decide (s' = s)) as [->|Hne]; [|by apply Hr].
    split; [left; lia|done].
Qed.

Lemma factories_with w s n s' :
  factories s' (with_factories w s n) = if bool_decide (s' = s) then n else factories s' w.
Proof.
  unfold factories. simpl. case_bool_decide as E; [subst; by rewrite lookup_insert_eq|by rewrite lookup_insert_ne].
Qed.

Lemma world_inv_clone_factory k w s :
  (0 < factories s w)%nat -> world_inv k w -> world_inv k (clone_factory s w).
Proof.
  intros Hf [Hs Hr Hsim]. constructor; try done. intros s'. unfold clone_factory. rewrite factories_with.
  case_bool_decide as E; [subst s'|by apply Hr]. split; [left; lia|]. intros _. apply Hr. by left.
Qed.

Lemma world_inv_drop_factory k w s :
  (0 < factories s w)%nat -> world_inv k w -> world_inv k (drop_factory s w).
Proof.
  intros Hf [Hs Hr Hsim]. apply release_stream_inv. constructor; try done.
  - apply Hr. by left.
  - intros s' Hne. rewrite factories_with, bool_decide_eq_false_2 by done. apply Hr.
Qed.

Lemma put_publishers s sw w s' :
  publishers s' (put_stream_world s sw w) = if bool_decide (s' = s) then sw_publishers sw else publishers s' w.
Proof.
  unfold publishers. simpl. case_bool_decide as E; [subst; by rewrite lookup_insert_eq|by rewrite lookup_insert_ne].
Qed.

(** Writing a stream back shows it, and changes the others by the file system only. *)
Lemma put_stream_world_lookup s sw w s' :
  stream_world s' (put_stream_world s sw w) =
  if bool_decide (s' = s) then Some sw else (fun sw' => with_io sw' (sw_io sw)) <$> stream_world s' w.
Proof.
  unfold stream_world, project, publishers, sent. simpl. case_bool_decide as E.
  - subst. rewrite !lookup_insert_eq. by destruct sw.
  - rewrite !lookup_insert_ne by done. unfold wo_streams. by destruct (sy_streams _ !! s').
Qed.

(** A stream is written back with the same name and queue. *)
Lemma inv_except_put k w s sw sw' :
  stream_world s w = Some sw -> reached k sw' ->
  es_stream_name (sw_stream sw') = es_stream_name (sw_stream sw) ->
  ss_queue (es_state (sw_stream sw')) = ss_queue (es_state (sw_stream sw)) ->
  world_inv k w -> inv_except s k (put_stream_world s sw' w).
Proof.
  intros Hsw Hreach Hn Hq [Hs Hr Hsim]. pose proof Hsw as (st & Hst & ->)%project_Some. simpl in Hn, Hq.
  constructor.
  - apply (system_inv_update s st); [done..| |done]. unfold enabled. by rewrite Hq.
  - unfold wo_streams. simpl. rewrite lookup_insert_eq. eauto.
  - intros s' Hne. rewrite put_publishers, bool_decide_eq_false_2 by done.
    etransitivity; [|apply (Hr s')]. unfold wo_streams. simpl. by rewrite lookup_insert_ne.
  - intros s' sw0. rewrite put_stream_world_lookup. case_bool_decide as E; [by intros [= <-]|].
    destruct (stream_world s' w) as [sw1|] eqn:H1'; [|done]. intros [= <-].
    apply reached_environment. by apply (Hsim s').
Qed.

Lemma world_inv_put k w s sw sw' :
  stream_world s w = Some sw -> reached k sw' ->
  es_stream_name (sw_stream sw') = es_stream_name (sw_stream sw) ->
  ss_queue (es_state (sw_stream sw')) = ss_queue (es_state (sw_stream sw)) ->
  sw_publishers sw' <> ∅ -> world_inv k w -> world_inv k (put_stream_world s sw' w).
Proof.
  intros Hsw Hreach Hn Hq Hne Hi.
  pose proof (release_stream_inv s k _ (inv_except_put k w s sw sw' Hsw Hreach Hn Hq Hi)) as Hr.
  unfold release_stream in Hr. rewrite put_publishers, (bool_decide_eq_true_2 (s = s)) in Hr by done.
  by rewrite (bool_decide_eq_false_2 (sw_publishers sw' = ∅)), andb_false_r in Hr.
Qed.

Lemma world_inv_publisher k w s sw sw' :
  stream_world s w = Some sw -> publisher_step sw sw' -> world_inv k w ->
  inv_except s k (put_stream_world s sw' w).
Proof.
  intros Hsw Hstep Hi. destruct (publisher_step_stream sw sw' Hstep) as (Hg & Hn & Hq & _).
  apply (inv_except_put k w s sw); try done.
  eapply reached_quiet; [by eapply wi_simulated|by apply step_publisher|done].
Qed.

Lemma world_inv_create k w s name config schema :
  wo_streams w !! s = None -> ~ In s (pm_streams (ev_stream_policy_manager (wo_system w))) ->
  0 <= publisher_slots config < modulus USIZE -> world_inv k w ->
  world_inv (k + 1) (api_create_stream s SystemPlatform name config schema w).2.
Proof.
  intros Hs Hin Hc Hi. destruct (wi_dead k w s Hi Hs) as [Hf Hp]. pose proof Hi as [Hsys Hr Hsim].
  pose proof (system_inv_create s name config schema (wo_system w) Hs Hin Hsys) as Hsys'.
  cbn [api_create_stream]. destruct (EventSystem_create_stream s (wo_system w) name config schema)
    as [r sys'] eqn:Hcr. simpl in Hsys'. apply create_cases in Hcr as [Hother Hnew]; [|done..].
  assert (Hall : forall s' sw, s' <> s -> project s' (publishers s' w) (sent s' w) (ev_world sys') = Some sw ->
    reached (k + 1) sw).
  { intros s' sw Hne Hsw. destruct (Hother s' Hne) as [Hdom Hsim'].
    assert (is_Some (stream_world s' w)) as [sw0 Hsw0].
    { apply project_Some in Hsw as (st & Hst & _). unfold stream_world, project. apply fmap_is_Some, Hdom. eauto. }
    destruct (Hsim' _ _ k sw0 Hsw0 (Hsim _ _ Hsw0)) as (sw' & Hp' & Hr'). congruence. }
  destruct Hnew as [(-> & Hnew)|((e & ->) & Hgone)]; cbn [snd]; constructor; try done.
  - intros s'. rewrite factories_with. unfold wo_streams. simpl. case_bool_decide as E; [subst s'|].
    + destruct (Hnew []) as (sw & (st & Hst & _)%project_Some & _). split; [left; lia|eauto].
    + destruct (Hother s' E) as [-> _]. apply Hr.
  - intros s' sw Hsw. destruct (decide (s' = s)) as [->|Hne]; [|by apply (Hall s')].
    destruct (Hnew (sent s w)) as (sw' & Hp' & Hr'). unfold stream_world in Hsw. cbn in Hsw.
    change (publishers s _) with (publishers s w) in Hsw. rewrite Hp in Hsw.
    change (sent s _) with (sent s w) in Hsw. eapply reached_le; [|rewrite Hp' in Hsw; by injection Hsw as <-]. lia.
  - intros s'. unfold wo_streams. simpl. destruct (decide (s' = s)) as [->|Hne]; [|destruct (Hother s' Hne) as [-> _]; apply Hr].
    rewrite Hgone, <- Hs. apply (Hr s).
  - intros s' sw Hsw. destruct (decide (s' = s)) as [->|Hne]; [|by apply (Hall s')].
    apply project_Some in Hsw as (st & Hst & _). simpl in Hst. congruence.
Qed.

Lemma world_inv_initial canonical io h w io' :
  api_EventSystem_new canonical io = (Ok (h, w), io') -> world_inv 0 w.
Proof.
  unfold api_EventSystem_new. destruct (EventSystem_new canonical io) as [[sys| | | |] io1] eqn:Hn; try done.
  intros [= <- <- <-]. pose proof (system_inv_initial _ _ _ _ Hn) as Hs.
  assert (sy_streams (ev_world sys) = ∅) as Hemp.
  { unfold EventSystem_new in Hn. destruct (EventSystemDirectory_create canonical io) as [[| | | |] ?]; try done.
    by injection Hn as <- <-. }
  constructor; [done|..].
  - intros s. unfold wo_streams, factories, publishers. simpl. rewrite Hemp, !lookup_empty. simpl.
    split; [by intros [? ?]|intros [?|?]; [lia|done]].
  - intros s sw (st & Hst & _)%project_Some. simpl in Hst. by rewrite Hemp, lookup_empty in Hst.
Qed.

Lemma world_inv_reachable canonical io k w : world_reachable canonical io k w -> world_inv k w.
Proof.
  induction 1 as [h w io' Hn|k w w' _ IH Hs]; [by eapply world_inv_initial|].
  rewrite <- Nat.add_1_r. destruct Hs as [s name config schema w Hh Hl Hin Hc|policy w Hh|w Hh|w Hh|s w Hf|s w Hf|s sw sw' w Hsw Hst _].
  - by apply world_inv_create.
  - by apply world_inv_policy.
  - by apply world_inv_mono, world_inv_handles.
  - by apply world_inv_mono, world_inv_directory, world_inv_handles.
  - by apply world_inv_mono, world_inv_clone_factory.
  - by apply world_inv_mono, world_inv_drop_factory.
  - apply world_inv_mono, release_stream_inv. by eapply world_inv_publisher.
Qed.
End Invariant.

(** ** Calls on a publisher *)

Lemma world_create_publisher `{SystemCalls} `{QueueCalls} `{Shaq} s id w h :
  (0 <? Z.of_nat (factories s w)) = true -> publishers s w !! id = None ->
  (api_try_create_publisher id (FactoryPlatform s) w).1 = Some h ->
  world_step w (api_try_create_publisher id (FactoryPlatform s) w).2.
Proof.
  intros Hf%Z.ltb_lt Hid. cbn [api_try_create_publisher]. destruct (stream_world s w) as [sw|] eqn:Hsw; [|done].
  destruct (try_create_publisher id sw) as [sw'|] eqn:Hc; [|done]. intros _. cbn [snd].
  replace (put_stream_world s sw' w) with (release_stream s (put_stream_world s sw' w)).
  2: { unfold release_stream. by rewrite (bool_decide_eq_false_2 (factories s _ = 0%nat)) by (unfold factories in *; simpl; lia). }
  apply (world_publisher s sw); [done| |lia]. apply (step_create id); [|done].
  apply project_Some in Hsw as (st & _ & ->). done.
Qed.

Inductive Call (E : Type) :=
| CallPublish (event : E)
| CallPublishBatch (events : list E)
| CallIsEnabled.
Arguments CallPublish {E} _.
Arguments CallPublishBatch {E} _.
Arguments CallIsEnabled {E}.

Section Calls.
  Context `{SystemCalls} `{QueueCalls} `{Shaq} {E : Type} (serialize : E -> option (list byte)).

(** The answer of a call: the result of publishing, or whether the publisher is
    enabled. *)
Definition call (self : PublisherHandle) (c : Call E) (w : World) :
    (Outcome PublishError unit + bool) * World :=
  match c with
  | CallPublish event => let '(r, w') := api_publish serialize self event w in (inl r, w')
  | CallPublishBatch events => let '(r, w') := api_publish_batch serialize self events w in (inl r, w')
  | CallIsEnabled => let '(b, w') := api_is_enabled self w in (inr b, w')
  end.

Fixpoint calls (self : PublisherHandle) (cs : list (Call E)) (w : World) :
    list (Outcome PublishError unit + bool) * World :=
  match cs with
  | [] => ([], w)
  | c :: cs =>
      let '(r, w') := call self c w in
      let '(rs, w'') := calls self cs w' in
      (r :: rs, w'')
  end.

(** The stream [s] is disabled and has the publisher [id]. *)
Definition disabled_with (k : nat) (s id : nat) (w : World) : Prop :=
  world_inv k w /\ exists sw p, stream_world s w = Some sw /\ ss_queue (es_state (sw_stream sw)) = None /\
    sw_publishers sw !! id = Some p /\ pub_phase p = Ready.

Lemma disabled_put k s id w sw sw' p' :
  world_inv k w -> stream_world s w = Some sw -> sw_stream sw' = sw_stream sw ->
  sw_sent sw' = sw_sent sw -> reached k sw' -> ss_queue (es_state (sw_stream sw)) = None ->
  sw_publishers sw' !! id = Some p' -> pub_phase p' = Ready ->
  disabled_with k s id (put_stream_world s sw' w) /\
  forall s', sent s' (put_stream_world s sw' w) = sent s' w.
Proof.
  intros Hi Hsw Hst Hsent Hr Hq Hp Hph. split.
  - split.
    + apply (world_inv_put k w s sw); try done; [by rewrite Hst..|].
      intros E0. by rewrite E0, lookup_empty in Hp.
    + exists sw', p'. rewrite put_stream_world_lookup, bool_decide_eq_true_2, Hst by done. done.
  - intros s'. unfold sent at 1. simpl. destruct (decide (s' = s)) as [->|Hne]; [|by rewrite lookup_insert_ne].
    rewrite lookup_insert_eq. simpl. apply project_Some in Hsw as (st & _ & ->). by rewrite Hsent.
Qed.

Lemma call_disabled k s id w c :
  producers_up_to_slots -> Z.of_nat k < modulus U64 -> disabled_with k s id w ->
  exists w', call (PublisherPlatform s id) c w = ((call api_Publisher_stub c w).1, w') /\
    disabled_with k s id w' /\ (forall s', sent s' w' = sent s' w) /\
    ev_stream_policy_manager (wo_system w') = ev_stream_policy_manager (wo_system w).
Proof.
  intros Hsh Hk (Hi & sw & p & Hsw & Hq & Hid & Hph).
  destruct (wi_simulated k w Hi s sw Hsw) as (n & Hn & Hr).
  destruct (producer_current n sw id p Hsh Hr ltac:(lia) Hid Hph)
    as (sw' & Hp & Hst & Hsent & Hr' & _ & p' & Hid' & Hph').
  assert (current_queue (sw_stream sw) = None) as Hcq by (unfold current_queue; by rewrite Hq).
  rewrite Hcq in Hp.
  destruct (disabled_put k s id w sw sw' p' Hi Hsw Hst Hsent ltac:(by exists n) Hq Hid' Hph') as [Hd Hse].
  destruct c as [event|events|]; cbn [call api_publish api_publish_batch api_is_enabled api_Publisher_stub];
    unfold on_stream; rewrite Hsw.
  - unfold Publisher_publish. rewrite Hp. by exists (put_stream_world s sw' w).
  - unfold Publisher_publish_batch. destruct events as [|e events].
    + exists (put_stream_world s sw w). split; [done|].
      destruct (disabled_put k s id w sw sw p Hi Hsw eq_refl eq_refl ltac:(by exists n) Hq Hid Hph). done.
    + rewrite Hp. by exists (put_stream_world s sw' w).
  - unfold Publisher_is_enabled. rewrite Hp. by exists (put_stream_world s sw' w).
Qed.

Lemma call_stub c w w' : call api_Publisher_stub c w' = ((call api_Publisher_stub c w).1, w').
Proof. by destruct c. Qed.

Lemma calls_disabled k s id w cs :
  producers_up_to_slots -> Z.of_nat k < modulus U64 -> disabled_with k s id w ->
  exists w', calls (PublisherPlatform s id) cs w = ((calls api_Publisher_stub cs w).1, w') /\
    (forall s', sent s' w' = sent s' w).
Proof.
  intros Hsh Hk. assert (Hstub : forall cs w w', (calls api_Publisher_stub cs w).1 = (calls api_Publisher_stub cs w').1).
  { clear. induction cs as [|c cs IH]; intros w w'; [done|]. cbn [calls].
    rewrite (call_stub c w w'), (call_stub c w w). specialize (IH w w').
    destruct (calls _ cs w), (calls _ cs w'). simpl in *. by subst. }
  revert w. induction cs as [|c cs IH]; intros w Hd; [by exists w|].
  cbn [calls]. destruct (call_disabled k s id w c Hsh Hk Hd) as (w1 & -> & Hd1 & Hs1 & _).
  destruct (IH w1 Hd1) as (w2 & -> & Hs2). exists w2. split.
  - rewrite (call_stub c w w). specialize (Hstub cs w w1).
    destruct (calls api_Publisher_stub cs w), (calls api_Publisher_stub cs w1). simpl in *. by subst.
  - intros s'. by rewrite Hs2.
Qed.
End Calls.

(** ** Properties *)

(** C20: While the policy of the event system turns a stream off, a publisher of the
    stream cannot be told from a stub: every sequence of calls gives the answers
    that the stub gives, and no stream sends anything.  This holds in every state
    that the handles of the event system, its streams and their publishers reach
    together (in fewer steps than the 64-bit generation counter has values). *)
Theorem disabled_publisher_is_stub `{SystemCalls} `{QueueCalls} `{Shaq} {E}
    (serialize : E -> option (list byte)) canonical io k w s st id p cs :
  producers_up_to_slots -> world_reachable canonical io k w -> Z.of_nat k < modulus U64 ->
  wo_streams w !! s = Some st ->
  stream_rule (pm_stream_policy (ev_stream_policy_manager (wo_system w))) (es_stream_name st) = Off ->
  publishers s w !! id = Some p -> pub_phase p = Ready ->
  exists w', calls serialize (PublisherPlatform s id) cs w =
    ((calls serialize api_Publisher_stub cs w).1, w') /\ forall s', sent s' w' = sent s' w.
Proof.
  intros Hsh Hr%world_inv_reachable Hk Hst Hoff Hid Hph. apply (calls_disabled serialize k); [done..|].
  split; [done|]. eexists _, p. split; [by apply project_Some; exists st|].
  split; [|done]. simpl. destruct Hr as [[_ _ _ Hpol] _ _]. specialize (Hpol s). cbn in Hpol.
  unfold wo_streams in Hst. rewrite Hst in Hpol. unfold enabled in Hpol.
  destruct (ss_queue (es_state st)); [|done]. by rewrite Hpol in Hoff.
Qed.

(** C13: The event system with all its handles refines one state machine per
    stream: the view of any stream in a reachable state is a state that the stream
    and its publishers reach alone, with the file system as their environment.  A
    stream lives exactly as long as a factory or a publisher refers to it; live
    streams have different names and are known to the policy manager, so that they
    follow later policies; only streams that the policy turns on are published, and
    [is_enabled] of a publisher tells whether its stream is published. *)
Theorem event_system_refines_streams `{SystemCalls} `{QueueCalls} `{Shaq} canonical io k w :
  producers_up_to_slots -> world_reachable canonical io k w -> Z.of_nat k < modulus U64 ->
  (forall s sw, stream_world s w = Some sw -> exists n, (n <= k)%nat /\ reachable n sw) /\
  (forall s, is_Some (wo_streams w !! s) <-> (0 < factories s w)%nat \/ publishers s w <> ∅) /\
  forall s st, wo_streams w !! s = Some st ->
    In s (pm_streams (ev_stream_policy_manager (wo_system w))) /\
    (forall s' st', wo_streams w !! s' = Some st' -> es_stream_name st' = es_stream_name st -> s' = s) /\
    (enabled st = true ->
       stream_rule (pm_stream_policy (ev_stream_policy_manager (wo_system w))) (es_stream_name st) = On) /\
    forall id p, publishers s w !! id = Some p -> pub_phase p = Ready ->
      (api_is_enabled (PublisherPlatform s id) w).1 = enabled st.
Proof.
  intros Hsh [Hsys Hr Hsim]%world_inv_reachable Hk. split_and!; [done..|]. intros s st Hst.
  assert (Ha : forall s st, wo_streams w !! s = Some st -> alive (ev_world (wo_system w)) s = true)
    by (intros s' st' Hs'; apply bool_decide_eq_true; by exists st').
  split_and!.
  - by apply Hsys, (Ha s st).
  - intros s' st' Hst' Hname. apply (si_names _ Hsys); try (by eapply Hsys, Ha); try (by eapply Ha).
    cbn. unfold wo_streams in *. by rewrite Hst, Hst'.
  - intros He. pose proof (si_policy _ Hsys s) as Hpol. cbn in Hpol. unfold wo_streams in Hst.
    rewrite Hst in Hpol. by apply Hpol.
  - intros id p Hid Hph. cbn [api_is_enabled]. unfold on_stream.
    assert (Hsw : stream_world s w = Some {| sw_stream := st; sw_publishers := publishers s w;
      sw_sent := sent s w; sw_io := wo_io w |}) by (apply project_Some; by exists st).
    rewrite Hsw. destruct (Hsim s _ Hsw) as (n & Hn & Hreach).
    destruct (producer_current n _ id p Hsh Hreach ltac:(lia) Hid Hph) as (sw' & Hp & _).
    unfold Publisher_is_enabled. rewrite Hp. unfold current_queue, enabled. simpl.
    by destruct (ss_queue (es_state st)).
Qed.

(** ** Samples *)

Definition sample_api_world (policy : StreamPolicy) : World :=
  let new := {| wo_system := sample_event_system; wo_handles := 1; wo_factories := ∅;
                wo_publishers := ∅; wo_sent := ∅ |} in
  let w := (api_create_stream 0 SystemPlatform sample_name sample_stream_config (Some [x01])
              (api_set_stream_policy SystemPlatform policy new)).2 in
  (api_try_create_publisher 0 (FactoryPlatform 0) w).2.

Lemma sample_api_reachable policy :
  policy = on_policy \/ policy = StreamPolicy_default ->
  world_reachable (Some []) empty_directory 3 (sample_api_world policy).
Proof.
  intros Hp. eapply world_next; [eapply world_next; [eapply world_next;
    [by eapply (world_initial _ _ SystemPlatform (Build_World sample_event_system 1 ∅ ∅ ∅))|]|]|].
  - apply (world_policy policy). apply Nat.lt_0_1.
  - apply (world_create 0 sample_name sample_stream_config (Some [x01]));
      [apply Nat.lt_0_1| |intros []|by vm_compute].
    by destruct Hp as [-> | ->].
  - unfold sample_api_world. cbv zeta. apply (world_create_publisher 0 0 _ (PublisherPlatform 0 0));
      destruct Hp as [-> | ->]; vm_compute; reflexivity.
Qed.

Lemma disabled_publisher_is_stub_witness :
  let w := sample_api_world StreamPolicy_default in
  exists w', calls Some (PublisherPlatform 0 0) [CallPublish [x07]; CallIsEnabled] w =
    ([inl (Ok tt); inr false], w').
Proof.
  intros w.
  destruct (wo_streams w !! 0%nat) as [st|] eqn:Hst; [|by vm_compute in Hst].
  destruct (publishers 0 w !! 0%nat) as [p|] eqn:Hp; [|by vm_compute in Hp].
  destruct (disabled_publisher_is_stub Some (Some []) empty_directory 3 w 0 st 0 p
    [CallPublish [x07]; CallIsEnabled] sample_shaq_ok
    (sample_api_reachable StreamPolicy_default ltac:(by right)) ltac:(by vm_compute) Hst
    ltac:(by vm_compute in Hst; injection Hst as <-) Hp ltac:(by vm_compute in Hp; injection Hp as <-))
    as (w' & Hc & _).
  exists w'. exact Hc.
Defined.

Lemma event_system_refines_streams_witness :
  (api_is_enabled (PublisherPlatform 0 0) (sample_api_world on_policy)).1 = true.
Proof.
  set (w := sample_api_world on_policy).
  destruct (event_system_refines_streams (Some []) empty_directory 3 w sample_shaq_ok
    (sample_api_reachable on_policy ltac:(by left)) ltac:(by vm_compute)) as (_ & _ & H).
  destruct (wo_streams w !! 0%nat) as [st|] eqn:Hst; [|by vm_compute in Hst].
  destruct (publishers 0 w !! 0%nat) as [p|] eqn:Hp; [|by vm_compute in Hp].
  destruct (H 0%nat st Hst) as (_ & _ & _ & He). unfold w in *. rewrite (He 0%nat p Hp).
  - by vm_compute in Hst; injection Hst as <-.
  - by vm_compute in Hp; injection Hp as <-.
Defined.
