(* ===== verification/EventLifetime.v ===== *)
(** * The lifetime of the event-system directory
      (event-system/src/backend/linux.rs, EventSystemDirectory)

    The directory is shared by the handles of the event system and by its streams.
    While any of them is alive it has its two subdirectories; with the last of them
    it is left as it was found. *)

From Stdlib Require Import ZArith Lia Strings.Byte Strings.String.
From stdpp Require Import base list numbers gmap.
From S2P Require Import Prelude RustStr StreamName StreamPolicy FileSystem StreamQueue.
From S2P Require Import EventStream StreamPolicyManager EventSystem EventApi.
Local Open Scope Z_scope.

(** ** The layout of the directory *)

(** Besides its two subdirectories it has the entries [others]. *)
Definition layout (dir : path) (others : list (str * Node)) (fs : Node) : Prop :=
  exists es tes ses, entries_at dir fs = Some es /\
    lookup_entry STAGING_DIRECTORY_NAME es = Some (Directory tes) /\
    lookup_entry STREAMS_DIRECTORY_NAME es = Some (Directory ses) /\
    forall n, n <> STAGING_DIRECTORY_NAME -> n <> STREAMS_DIRECTORY_NAME ->
      lookup_entry n es = lookup_entry n others.

Lemma set_entries_directory q es ces : exists ces', set_entries q es (Directory ces) = Directory ces'.
Proof. destruct q as [|c q]; simpl; [by eexists|]. destruct (lookup_entry c ces); by eexists. Qed.

Lemma entries_at_set_below p c q es fs pes ces :
  entries_at p fs = Some pes -> lookup_entry c pes = Some (Directory ces) ->
  exists ces', entries_at p (set_entries (p ++ c :: q) es fs) = Some (set_entry c (Directory ces') pes).
Proof.
  unfold entries_at. revert fs. induction p as [|x p IH]; intros [es'| |]; simpl; try done.
  - intros [= ->] Hc. rewrite Hc. destruct (set_entries_directory q es ces) as [ces' ->]. by exists ces'.
  - destruct (lookup_entry x es') as [child|]; [|done]. intros Hp Hc. simpl.
    rewrite bool_decide_eq_true_2 by done. by apply IH.
Qed.

Lemma names_differ : STAGING_DIRECTORY_NAME <> STREAMS_DIRECTORY_NAME.
Proof. by vm_compute. Qed.

(** Changes below a subdirectory keep the layout. *)
Lemma layout_unaffected dir others c q :
  c = STAGING_DIRECTORY_NAME \/ c = STREAMS_DIRECTORY_NAME ->
  unaffected (I := layout dir others) (dir ++ c :: q).
Proof.
  pose proof names_differ as Hnd. intros Hc es fs (des & tes & ses & Hd & Ht & Hs & Ho).
  assert (exists ces, lookup_entry c des = Some (Directory ces)) as [ces Hces]
    by (destruct Hc as [-> | ->]; eauto).
  destruct (entries_at_set_below dir c q es fs des ces Hd Hces) as [ces' Hd'].
  assert (Hother : forall n, n <> c -> lookup_entry n (set_entry c (Directory ces') des) = lookup_entry n des)
    by (intros n Hn; by apply lookup_set_other).
  destruct Hc as [-> | ->].
  - exists (set_entry STAGING_DIRECTORY_NAME (Directory ces') des), ces', ses.
    split_and!; [done|apply lookup_set_same|by rewrite Hother|]. intros n H1 H2. rewrite Hother by done. by apply Ho.
  - exists (set_entry STREAMS_DIRECTORY_NAME (Directory ces') des), tes, ces'.
    split_and!; [done|by rewrite Hother|apply lookup_set_same|]. intros n H1 H2. rewrite Hother by done. by apply Ho.
Qed.

Section Keeps.
  Context `{SystemCalls} `{QueueCalls}.

Lemma keeps_rename {I : Node -> Prop} from fname to tname :
  unaffected (I := I) from -> unaffected (I := I) to -> keeps I (rename from fname to tname).
Proof.
  intros Hf Ht. apply keeps_system_call. intros fs fs' HI.
  destruct (entries_at from fs) as [fes|]; [|done]. destruct (lookup_entry fname fes) as [node|]; [|done].
  cbv zeta. destruct (entries_at to _) as [tes|]; [|done].
  destruct (lookup_entry tname tes) as [[[|]| |]|]; try done; intros [= <-]; by apply Ht, Hf.
Qed.

Lemma layout_StreamQueue_create dir others name cfg schema :
  keeps (layout dir others) (StreamQueue_create dir name cfg schema).
Proof.
  assert (Hst : forall q, unaffected (I := layout dir others) (staging_directory dir ++ q)).
  { intros q. unfold staging_directory. rewrite <- app_assoc. apply layout_unaffected. by left. }
  assert (Hstr : unaffected (I := layout dir others) (streams_directory dir)).
  { apply layout_unaffected. by right. }
  pose proof (Hst []) as Hs0. rewrite app_nil_r in Hs0.
  intros w. rewrite StreamQueue_create_split. revert w. apply keeps_bind_dep.
  - by apply keeps_create_unpublished.
  - intros [st bc] w w' (-> & _)%create_unpublished_Ok. apply keeps_bind; [|intros; apply keeps_ret].
    apply keeps_map_err, keeps_bind; [|intros; apply keeps_ret].
    apply keeps_with_staging; [done|apply Hst|by apply keeps_rename].
Qed.

Lemma layout_StreamQueue_drop dir others queue :
  sq_directory_parent queue = streams_directory dir ->
  keeps (layout dir others) (StreamQueue_drop (E := IoError) queue).
Proof.
  intros Hp. apply keeps_ignore. rewrite Hp. apply keeps_remove_dir_all.
  - apply layout_unaffected. by right.
  - unfold streams_directory. rewrite <- app_assoc. apply layout_unaffected. by right.
Qed.
End Keeps.

(** ** The streams of an event system *)

Section Streams.
  Context `{SystemCalls} `{QueueCalls} `{Shaq} (dir : path) (others : list (str * Node)).

(** A stream works in the directory. *)
Definition in_directory (st : EventStream) : Prop :=
  es_event_system_directory st = dir /\
  forall q, ss_queue (es_state st) = Some q -> sq_directory_parent q = streams_directory dir.

Definition system_layout (w : SystemWorld) : Prop :=
  layout dir others (io_fs (sy_io w)) /\ forall s st, sy_streams w !! s = Some st -> in_directory st.

Lemma create_parent name cfg schema w q w' :
  StreamQueue_create dir name cfg schema w = (Ok q, w') -> sq_directory_parent q = streams_directory dir.
Proof.
  rewrite StreamQueue_create_split, io_bind_Ok. intros ([st bc] & w1 & _ & Hp).
  apply io_bind_Ok in Hp as ([] & w2 & _ & Hr). by injection Hr as <- _.
Qed.

Lemma layout_apply_rule st rule io :
  in_directory st -> layout dir others (io_fs io) ->
  let '(_, st', io') := EventStream_apply_stream_rule st rule io in
  in_directory st' /\ layout dir others (io_fs io').
Proof.
  intros [Hd Hq] Hl. unfold EventStream_apply_stream_rule.
  destruct rule, (ss_queue (es_state st)) as [q|] eqn:Hqe;
    try (split; [split; [done|by rewrite Hqe]|done]).
  - rewrite Hd. pose proof (layout_StreamQueue_create dir others (es_stream_name st) (es_stream_config st)
      (es_encoded_schema st) io Hl) as [Hk _].
    destruct (StreamQueue_create _ _ _ _ io) as [[q|e| | |] io'] eqn:Hc; (split; [|done]);
      try (split; [done|by rewrite Hqe]).
    split; [done|]. intros q' [= <-]. by eapply create_parent.
  - split; [by split|]. by apply (layout_StreamQueue_drop dir others q (Hq q eq_refl)).
Qed.

Lemma system_layout_apply s rule w :
  system_layout w -> system_layout (apply_stream_rule s rule w).2.
Proof.
  intros [Hl Hs]. cbn [apply_stream_rule EventStream_PolicyControlledStream].
  destruct (sy_streams w !! s) as [st|] eqn:Hst; [|done].
  pose proof (layout_apply_rule st rule (sy_io w) (Hs s st Hst) Hl) as Ha.
  destruct (EventStream_apply_stream_rule st rule (sy_io w)) as [[r st'] io']. destruct Ha as [Hin Hl'].
  split; [done|]. intros s' st0. simpl. rewrite lookup_insert_Some. intros [[_ <-]|[_ ?]]; [done|by eapply Hs].
Qed.

Lemma system_layout_policy policy streams w :
  system_layout w -> system_layout (apply_policy policy streams w).
Proof.
  revert w. induction streams as [|s streams IH]; intros w Hw; [done|]. cbn [apply_policy]. apply IH.
  destruct (alive w s); [by apply system_layout_apply|done].
Qed.

Lemma system_layout_register m s w :
  system_layout w -> system_layout (register_new_stream m s w).2.
Proof.
  intros Hw. unfold register_new_stream. destruct (existsb _ _); [done|]. cbv zeta. set (rule := stream_rule _ _).
  pose proof (system_layout_apply s rule w Hw). by destruct (apply_stream_rule s rule w) as [[| | | |] w'].
Qed.

Lemma remove_dir_all_calls p name io : (io_calls io <= io_calls (remove_dir_all p name io).2)%nat.
Proof.
  assert (Hre : forall n io, (io_calls io <= io_calls (remove_entries n p name io))%nat).
  { induction n as [|n IH]; intros io'; [done|]. simpl. destruct (entries_at _ _) as [[|]|]; try done.
    etransitivity; [|apply IH]. simpl. lia. }
  unfold remove_dir_all. destruct (entries_at (p ++ [name]) (io_fs io)) as [es|]; [|simpl; lia].
  destruct (entries_at p (io_fs io)); [|simpl; lia]. destruct (fault _).
  - simpl. etransitivity; [|apply Hre]. simpl. lia.
  - pose proof (Hre (length es) io). destruct (entries_at p (io_fs _)); simpl; lia.
Qed.

Lemma system_layout_drop s w :
  system_layout w ->
  system_layout (drop_stream s w) /\ (io_calls (sy_io w) <= io_calls (sy_io (drop_stream s w)))%nat.
Proof.
  intros [Hl Hs]. split.
  - split.
    + unfold drop_stream. simpl. destruct (sy_streams w !! s) as [st|] eqn:Hst; [|done].
      destruct (ss_queue (es_state st)) as [q|] eqn:Hq; [|done].
      destruct (Hs s st Hst) as [_ Hp]. by apply (layout_StreamQueue_drop dir others q (Hp q Hq)).
    + intros s' st'. rewrite drop_stream_lookup. case_bool_decide; [done|]. apply Hs.
  - simpl. destruct (sy_streams w !! s) as [st|]; [|done]. destruct (ss_queue (es_state st)); [|done].
    apply remove_dir_all_calls.
Qed.

Lemma system_layout_insert s name cfg schema w :
  system_layout w ->
  system_layout {| sy_streams := <[s := EventStream_new dir name cfg schema]> (sy_streams w); sy_io := sy_io w |}.
Proof.
  intros [Hl Hs]. split; [done|]. intros s' st. simpl. rewrite lookup_insert_Some.
  intros [[_ <-]|[_ ?]]; [by split|by eapply Hs].
Qed.

(** ** The world *)

Definition world_layout (w : World) : Prop :=
  ev_event_system_directory (wo_system w) = dir /\ system_layout (ev_world (wo_system w)).

Definition live (w : World) : Prop := (0 < wo_handles w)%nat \/ wo_streams w <> ∅.

(** The directory was dropped after call number [t]. *)
Definition dropped (t : nat) (w' : World) : Prop :=
  wo_handles w' = 0%nat /\ wo_streams w' = ∅ /\ exists io, layout dir others (io_fs io) /\ (t <= io_calls io)%nat /\
    wo_io w' = (EventSystemDirectory_drop (E := IoError) dir io).2.

Definition settled (t : nat) (w' : World) : Prop := (world_layout w' /\ live w') \/ dropped t w'.

Lemma release_directory_settled t w :
  (t <= io_calls (wo_io w))%nat -> world_layout w -> settled t (release_directory w).
Proof.
  intros Ht [Hd [Hl Hs]]. unfold release_directory. case_bool_decide as Hh; cbn [andb].
  - case_bool_decide as He.
    + right. split; [done|]. split; [done|]. exists (wo_io w). split_and!; [done..|]. cbn. by rewrite Hd.
    + left. split; [done|]. by right.
  - left. split; [done|]. left. lia.
Qed.

Lemma release_stream_settled s t w :
  is_Some (wo_streams w !! s) -> (t <= io_calls (wo_io w))%nat -> world_layout w ->
  settled t (release_stream s w).
Proof.
  intros Hs Ht [Hd Hl]. assert (live w) as Hlive.
  { right. intros E. destruct Hs as [st Hs]. by rewrite E, lookup_empty in Hs. }
  unfold release_stream. case_bool_decide; cbn [andb]; [case_bool_decide|]; try (by left).
  destruct (system_layout_drop s _ Hl) as [Hl' Hc]. apply release_directory_settled.
  - etransitivity; [exact Ht|]. exact Hc.
  - by split.
Qed.

Lemma world_layout_step k w w' :
  world_inv k w -> world_layout w -> world_step w w' -> settled (io_calls (wo_io w)) w'.
Proof.
  intros Hi [Hd Hl] Hs. destruct Hs as [s name cfg schema w Hh Hn Hin Hc|policy w Hh|w Hh|w Hh|s w Hf|s w Hf|s sw sw' w Hsw Hst _].
  - left. cbn [api_create_stream]. unfold EventSystem_create_stream. rewrite Hd.
    set (w0 := {| sy_streams := _; sy_io := _ |}).
    assert (Hl0 : system_layout w0) by (by apply system_layout_insert).
    pose proof (system_layout_register (ev_stream_policy_manager (wo_system w)) s w0 Hl0) as Hr.
    destruct (register_new_stream _ s w0) as [[[u|e| | |] m] w1];
      (split; [split; [done|]|left; done]); try done. by apply system_layout_drop.
  - left. cbn [api_set_stream_policy]. split; [split; [done|]|by left]. by apply system_layout_policy.
  - left. split; [done|]. left. simpl. lia.
  - by apply release_directory_settled.
  - left. split; [done|]. right. intros E. assert (is_Some (wo_streams w !! s)) as [st Hst].
    { apply (wi_referenced k w Hi). by left. }
    change (wo_streams (clone_factory s w)) with (wo_streams w) in E. by rewrite E, lookup_empty in Hst.
  - apply release_stream_settled; [|done..]. apply (wi_referenced k w Hi). by left.
  - destruct (publisher_step_stream sw sw' Hst) as (_ & _ & Hq & Hes & Hio).
    apply project_Some in Hsw as (st & Hlk & ->). simpl in Hq, Hes, Hio.
    apply release_stream_settled.
    + unfold wo_streams. simpl. rewrite lookup_insert_eq. eauto.
    + unfold wo_io. simpl. by rewrite Hio.
    + split; [done|]. destruct Hl as [Hly Hall]. split; [simpl; by rewrite Hio|].
      intros s' st'. simpl. rewrite lookup_insert_Some. intros [[_ <-]|[_ ?]]; [|by eapply Hall].
      destruct (Hall s st Hlk) as [H2 H3]. split; [by rewrite Hes|]. by rewrite Hq.
Qed.
End Streams.

(** ** Creation and removal *)

Section Directory.
  Context `{SystemCalls} `{QueueCalls} `{Shaq}.

Lemma create_dir_run p name io es :
  fault (io_calls io) = false -> entries_at p (io_fs io) = Some es -> lookup_entry name es = None ->
  create_dir p name io = (Ok tt, called (set_entries p (set_entry name (Directory []) es) (io_fs io)) io).
Proof. intros Hf He Hl. unfold create_dir, create_entry, system_call. by rewrite Hf, He, Hl. Qed.

Lemma directory_create_Ok dir io d io' :
  EventSystemDirectory_create (Some dir) io = (Ok d, io') ->
  d = dir /\ exists others, entries_at dir (io_fs io) = Some others /\
    lookup_entry STAGING_DIRECTORY_NAME others = None /\
    lookup_entry STREAMS_DIRECTORY_NAME others = None /\ layout dir others (io_fs io').
Proof.
  unfold EventSystemDirectory_create. rewrite io_bind_Ok. intros ([] & io1 & Hc1%create_entry_Ok & Hc2).
  destruct Hc1 as (others & He & Hst & Hfs1).
  destruct (create_dir dir STREAMS_DIRECTORY_NAME io1) as [[[]|e| | |] io2] eqn:Hc; try done.
  injection Hc2 as <- <-. split; [done|]. apply create_entry_Ok in Hc as (es & He1 & Hstr & Hfs2).
  assert (es = set_entry STAGING_DIRECTORY_NAME (Directory []) others) as ->.
  { rewrite Hfs1, (entries_at_set_same _ _ _ _ He) in He1. by injection He1 as <-. }
  rewrite lookup_set_other in Hstr by (intros E; by apply names_differ).
  exists others. split_and!; try done. rewrite Hfs2.
  eexists _, [], []. split_and!; [by eapply entries_at_set_same|..].
  - rewrite lookup_set_other by apply names_differ. apply lookup_set_same.
  - apply lookup_set_same.
  - intros n H2 H3. by rewrite !lookup_set_other.
Qed.

(** Dropping the directory removes what creating it added. *)
Lemma directory_drop_restores dir others io :
  (forall t, (io_calls io <= t)%nat -> fault t = false) ->
  lookup_entry STAGING_DIRECTORY_NAME others = None ->
  lookup_entry STREAMS_DIRECTORY_NAME others = None -> layout dir others (io_fs io) ->
  has_entries dir others (io_fs (EventSystemDirectory_drop (E := IoError) dir io).2).
Proof.
  intros Hf Ht Hs (es & tes & ses & He & Hest & Hess & Ho). pose proof names_differ as Hnd.
  set (others1 := set_entry STREAMS_DIRECTORY_NAME (Directory ses) others).
  unfold EventSystemDirectory_drop, io_bind, io_ignore. simpl.
  set (io1 := (remove_dir_all dir STAGING_DIRECTORY_NAME io).2).
  assert (H1' : has_entries dir others1 (io_fs io1)).
  { apply remove_dir_all_removes; [by apply Hf| |unfold others1; by rewrite lookup_set_other].
    exists es, tes. split_and!; [done..|]. intros n Hn. unfold others1.
    destruct (decide (n = STREAMS_DIRECTORY_NAME)) as [->|Hn']; [by rewrite lookup_set_same|].
    rewrite lookup_set_other by done. by apply Ho. }
  apply remove_dir_all_removes; [apply Hf, remove_dir_all_calls| |done].
  destruct H1' as (pes & Hpe & Hl). exists pes, ses. split_and!; [done|by rewrite Hl; apply lookup_set_same|].
  intros n Hn. rewrite Hl. unfold others1. by apply lookup_set_other.
Qed.

Lemma directory_drop_calls dir io :
  (io_calls io <= io_calls (EventSystemDirectory_drop (E := IoError) dir io).2)%nat.
Proof.
  unfold EventSystemDirectory_drop, io_bind, io_ignore. simpl.
  etransitivity; [apply remove_dir_all_calls|apply remove_dir_all_calls].
Qed.

Lemma directory_create_run dir others io :
  (forall t, (io_calls io <= t)%nat -> fault t = false) -> has_entries dir others (io_fs io) ->
  lookup_entry STAGING_DIRECTORY_NAME others = None ->
  lookup_entry STREAMS_DIRECTORY_NAME others = None ->
  exists sys io', EventSystem_new (Some dir) io = (Ok sys, io').
Proof.
  intros Hf (es & He & Hl) Ht Hs. unfold EventSystem_new, EventSystemDirectory_create, io_bind.
  rewrite (create_dir_run dir STAGING_DIRECTORY_NAME io es); [|by apply Hf|done|by rewrite Hl].
  erewrite create_dir_run; [by eexists _, _|apply Hf; simpl; lia|by eapply entries_at_set_same|].
  rewrite lookup_set_other by (intros E; by apply names_differ). by rewrite Hl.
Qed.

Lemma world_layout_initial dir io h w io' :
  api_EventSystem_new (Some dir) io = (Ok (h, w), io') ->
  exists others, entries_at dir (io_fs io) = Some others /\
    lookup_entry STAGING_DIRECTORY_NAME others = None /\
    lookup_entry STREAMS_DIRECTORY_NAME others = None /\ world_layout dir others w /\ live w.
Proof.
  unfold api_EventSystem_new, EventSystem_new.
  destruct (EventSystemDirectory_create (Some dir) io) as [[d|e| | |] io1] eqn:Hc; try done.
  intros [= <- <- <-]. apply directory_create_Ok in Hc as (-> & others & He & Ht & Hs & Hl).
  exists others. do 3 (split; [done|]). split; [|left; simpl; lia].
  split; [done|]. split; [done|]. intros s st. simpl. by rewrite lookup_empty.
Qed.

(** Only what is alive makes steps. *)
Lemma step_live k w w' : world_inv k w -> world_step w w' -> live w.
Proof.
  intros Hi Hs. assert (Hst' : forall s, is_Some (wo_streams w !! s) -> live w).
  { intros s [st Hs']. right. intros E. by rewrite E, lookup_empty in Hs'. }
  destruct Hs as [s name cfg schema w Hh _ _ _|policy w Hh|w Hh|w Hh|s w Hf|s w Hf|s sw sw' w Hsw _ _];
    try (by left).
  1,2: by apply (Hst' s), (wi_referenced k w Hi); left.
  apply (Hst' s). apply project_Some in Hsw as (st & Hlk & _). by exists st.
Qed.

Lemma world_settled dir io k w :
  world_reachable (Some dir) io k w ->
  exists others, entries_at dir (io_fs io) = Some others /\
    lookup_entry STAGING_DIRECTORY_NAME others = None /\
    lookup_entry STREAMS_DIRECTORY_NAME others = None /\
    ((world_layout dir others w /\ live w) \/ ~ live w).
Proof.
  induction 1 as [h w io' Hn|k w w' Hr IH Hs].
  { apply world_layout_initial in Hn as (others & ? & ? & ? & ?). exists others. split_and!; try done. by left. }
  destruct IH as (others & He & Ht & Hst & [[Hl Hlive]|Hdead]); exists others; split_and!; try done.
  - pose proof (world_inv_reachable _ _ _ _ Hr) as Hi.
    destruct (world_layout_step dir others k w w' Hi Hl Hs) as [?|(Hh & Hs' & _)]; [by left|right].
    intros [?|?]; [lia|done].
  - right. exfalso. apply Hdead, (step_live k w w'); [by eapply world_inv_reachable|done].
Qed.
End Directory.

(** C21: The directory is kept as long as a handle of the event system, a factory
    or a publisher is alive, and then left as it was found: in every reachable
    state that is alive it has its two subdirectories and otherwise the entries it
    had at first; and the step that drops the last reference, if no system call
    fails from then on, restores exactly those entries (none, if it was empty), so
    that a new event system can be created in it. *)
Theorem directory_is_left_as_found `{SystemCalls} `{QueueCalls} `{Shaq} dir io k w :
  world_reachable (Some dir) io k w ->
  exists others, entries_at dir (io_fs io) = Some others /\
    (live w -> layout dir others (io_fs (wo_io w))) /\
    forall w', world_step w w' -> ~ live w' ->
      (forall t, (io_calls (wo_io w) <= t)%nat -> fault t = false) ->
      has_entries dir others (io_fs (wo_io w')) /\
      exists sys io', EventSystem_new (Some dir) (wo_io w') = (Ok sys, io').
Proof.
  intros Hr. pose proof (world_inv_reachable _ _ _ _ Hr) as Hi.
  destruct (world_settled dir io k w Hr) as (others & He & Ht & Hs & Hw). exists others. split; [done|].
  split; [by destruct Hw as [[[_ [Hl _]] _]|?]|]. intros w' Hst Hdead Hf.
  destruct Hw as [[Hl Hlive]|Hno]; [|by destruct Hno; eapply step_live].
  destruct (world_layout_step dir others k w w' Hi Hl Hst) as [[_ ?]|(_ & _ & io1 & Hl1 & Hc & Hio)]; [done|].
  assert (Hf1 : forall t, (io_calls io1 <= t)%nat -> fault t = false) by (intros t Hle; apply Hf; lia).
  assert (Hent : has_entries dir others (io_fs (wo_io w'))).
  { rewrite Hio. by apply directory_drop_restores. }
  split; [done|]. apply (directory_create_run dir others); [|done..]. intros t Hle. apply Hf1.
  etransitivity; [|exact Hle]. rewrite Hio. apply directory_drop_calls.
Qed.

(** ** Sample: the only handle is dropped *)

Lemma directory_is_left_as_found_witness :
  let w := Build_World sample_event_system 1 ∅ ∅ ∅ in
  exists sys io', EventSystem_new (Some []) (wo_io (drop_event_system w)) = (Ok sys, io').
Proof.
  intros w. assert (Hr : world_reachable (Some []) empty_directory 0 w)
    by (by eapply (world_initial _ _ SystemPlatform)).
  destruct (directory_is_left_as_found [] empty_directory 0 w Hr) as (others & _ & _ & H).
  destruct (H (drop_event_system w)) as [_ Hnew]; [by apply world_drop_system, Nat.lt_0_1| |done|exact Hnew].
  intros [Hh|Hs]; [by apply Nat.lt_irrefl in Hh|]. by apply Hs.
Defined.
