(* ===== verification/RelaxedGeneration.v ===== *)
(** * The memory orders of the generation counter
      (event-system/src/backend/linux.rs and linux/publisher.rs)

    The counter of a stream is read and incremented with [Ordering::Relaxed]: a load
    may return an old value, as long as it is not older than what its thread has
    already seen.  The state machine of EventStream.v reads the latest value instead.
    This file models the relaxed operations on top of it, with the modification order
    of the counter, what each thread has seen of it, and what a thread learns by
    locking the stream's state or by synchronizing with another thread; it shows that
    nothing is lost by the weaker order. *)

From Stdlib Require Import ZArith Lia.
From stdpp Require Import base list numbers gmap.
From S2P Require Import Prelude StreamName StreamPolicy FileSystem StreamQueue EventStream.
Local Open Scope Z_scope.

(** ** The state *)

(** A view is a position in the modification order of the counter: the latest write
    that a thread knows of. *)
Definition View := nat.

Record RelaxedWorld := {
  (** the state behind the lock, with the last value of the counter, and the publishers *)
  rw_world : StreamWorld;
  (** the earlier values of the counter, in modification order *)
  rw_overwritten : list Z;
  (** what the last holder of the write lock had seen *)
  rw_lock : View;
  rw_views : gmap nat View;
  (** the thread that has each publisher *)
  rw_owners : gmap nat nat
}.

(** The modification order of the counter. *)
Definition rw_order (r : RelaxedWorld) : list Z :=
  rw_overwritten r ++ [es_queue_generation (sw_stream (rw_world r))].

Definition view (t : nat) (r : RelaxedWorld) : View := default 0%nat (rw_views r !! t).

(** What a thread has seen after it acquired the lock. *)
Definition locked_view (t : nat) (r : RelaxedWorld) : View := Nat.max (view t r) (rw_lock r).

(** A relaxed load by a thread that has seen [seen] may read any write from there on;
    this one reads the write at position [i]. *)
Definition load (seen i : View) (r : RelaxedWorld) : option Z :=
  if (seen <=? i)%nat then rw_order r !! i else None.

(** The thread [t] has seen [seen], and the world has changed to [w]. *)
Definition saw (t : nat) (seen : View) (w : StreamWorld) (r : RelaxedWorld) : RelaxedWorld :=
  {| rw_world := w; rw_overwritten := rw_overwritten r; rw_lock := rw_lock r;
     rw_views := <[t := seen]> (rw_views r); rw_owners := rw_owners r |}.

Definition with_owners (owners : gmap nat nat) (r : RelaxedWorld) : RelaxedWorld :=
  {| rw_world := rw_world r; rw_overwritten := rw_overwritten r; rw_lock := rw_lock r;
     rw_views := rw_views r; rw_owners := owners |}.

(** [t] releases the write lock. *)
Definition unlock (t : nat) (r : RelaxedWorld) : RelaxedWorld :=
  {| rw_world := rw_world r; rw_overwritten := rw_overwritten r;
     rw_lock := Nat.max (rw_lock r) (view t r);
     rw_views := rw_views r; rw_owners := rw_owners r |}.

(** ** The operations *)

Section Operations.
  Context `{SystemCalls} `{QueueCalls} `{Shaq}.

(** [EventStream::apply_stream_rule]: [fetch_add] reads the last value in the
    modification order, whatever its own order, and adds a write to it. *)
Definition relaxed_apply_stream_rule (t : nat) (rule : StreamRule) (r : RelaxedWorld) : RelaxedWorld :=
  let w := apply_rule rule (rw_world r) in
  match toggled (rw_world r) w with
  | O => unlock t (saw t (locked_view t r) w r)
  | S _ =>
      unlock t {| rw_world := w; rw_overwritten := rw_order r; rw_lock := rw_lock r;
                  rw_views := <[t := length (rw_order r)]> (rw_views r);
                  rw_owners := rw_owners r |}
  end.

(** [PublisherFactory::try_create_publisher], whose load reads the write at [i]. *)
Definition relaxed_try_create_publisher (t id : nat) (i : View) (r : RelaxedWorld) :
    option RelaxedWorld :=
  let w := rw_world r in
  let stream := sw_stream w in
  match checked_sub (ss_remaining_publisher_slots (es_state stream)) 1 with
  | None => None
  | Some remaining =>
      let producer := create_producer (es_state stream) (sw_publishers w) in
      match load (locked_view t r) i r with
      | None => None
      | Some queue_generation =>
          let w' := {| sw_stream := set_remaining stream remaining;
                       sw_publishers :=
                         <[id := {| pub_queue_generation := queue_generation;
                                    pub_producer := producer;
                                    pub_phase := Ready |}]> (sw_publishers w);
                       sw_sent := sw_sent w;
                       sw_io := sw_io w |} in
          Some (with_owners (<[id := t]> (rw_owners r)) (unlock t (saw t i w' r)))
      end
  end.

(** The comparison of [Publisher::producer], whose load reads the write at [i]. *)
Definition relaxed_check (t id : nat) (i : View) (r : RelaxedWorld) : option RelaxedWorld :=
  match sw_publishers (rw_world r) !! id, load (view t r) i r with
  | Some p, Some queue_generation =>
      Some (saw t i
        (if queue_generation =? pub_queue_generation p then rw_world r
         else with_publishers (rw_world r)
           (<[id := {| pub_queue_generation := pub_queue_generation p;
                       pub_producer := None; pub_phase := Replacing |}]>
              (sw_publishers (rw_world r)))) r)
  | _, _ => None
  end.

(** [Publisher::replace_producer], whose load under the read lock reads the write at
    [i]. *)
Definition relaxed_replace_producer (t id : nat) (i : View) (r : RelaxedWorld) :
    option RelaxedWorld :=
  match load (locked_view t r) i r with
  | Some queue_generation =>
      Some (saw t i (with_publishers (rw_world r)
        (<[id := {| pub_queue_generation := queue_generation;
                    pub_producer := create_producer (es_state (sw_stream (rw_world r)))
                                      (sw_publishers (rw_world r));
                    pub_phase := Ready |}]> (sw_publishers (rw_world r)))) r)
  | None => None
  end.

(** [Publisher::producer] without interruption by another thread, its loads reading
    the writes at [i] and [j]. *)
Definition relaxed_producer (t id : nat) (i j : View) (r : RelaxedWorld) :
    option (option nat * RelaxedWorld) :=
  r1 ← relaxed_check t id i r;
  p1 ← sw_publishers (rw_world r1) !! id;
  r2 ← match pub_phase p1 with
       | Replacing => relaxed_replace_producer t id j r1
       | _ => Some r1
       end;
  p2 ← sw_publishers (rw_world r2) !! id;
  Some (pub_producer p2, r2).

(** The second part of [Publisher::drop], under the write lock. *)
Definition relaxed_release_slot (t id : nat) (r : RelaxedWorld) : RelaxedWorld :=
  with_owners (delete id (rw_owners r))
    (unlock t (saw t (locked_view t r) (release_slot id (rw_world r)) r)).

(** The thread [t'] synchronizes with what [t] has done so far. *)
Definition synchronize (t t' : nat) (r : RelaxedWorld) : RelaxedWorld :=
  saw t' (Nat.max (view t' r) (view t r)) (rw_world r) r.

(** ** The steps

    The steps of EventStream.v, each made by some thread.  A publisher is used by one
    thread at a time, and handing it over synchronizes, which is what [Send] and
    [&mut self] ask for. *)
Inductive relaxed_step : RelaxedWorld -> RelaxedWorld -> Prop :=
| relaxed_apply t rule r : relaxed_step r (relaxed_apply_stream_rule t rule r)
| relaxed_create t id i r r' :
    sw_publishers (rw_world r) !! id = None ->
    relaxed_try_create_publisher t id i r = Some r' -> relaxed_step r r'
| relaxed_load t id i p r r' :
    sw_publishers (rw_world r) !! id = Some p -> pub_phase p = Ready ->
    rw_owners r !! id = Some t -> relaxed_check t id i r = Some r' -> relaxed_step r r'
| relaxed_replace t id i p r r' :
    sw_publishers (rw_world r) !! id = Some p -> pub_phase p = Replacing ->
    rw_owners r !! id = Some t -> relaxed_replace_producer t id i r = Some r' -> relaxed_step r r'
| relaxed_send t id p b cells r :
    sw_publishers (rw_world r) !! id = Some p -> pub_phase p = Ready ->
    pub_producer p = Some b -> rw_owners r !! id = Some t ->
    relaxed_step r (saw t (view t r) (send b cells (rw_world r)) r)
| relaxed_drop t id p r :
    sw_publishers (rw_world r) !! id = Some p -> pub_phase p = Ready ->
    rw_owners r !! id = Some t ->
    relaxed_step r (saw t (view t r) (drop_producer id p (rw_world r)) r)
| relaxed_release t id p r :
    sw_publishers (rw_world r) !! id = Some p -> pub_phase p = Dropping ->
    rw_owners r !! id = Some t -> relaxed_step r (relaxed_release_slot t id r)
| relaxed_environment t io r :
    relaxed_step r (saw t (view t r) (with_io (rw_world r) io) r)
| relaxed_synchronize t t' r : relaxed_step r (synchronize t t' r)
| relaxed_hand_over t t' id r :
    rw_owners r !! id = Some t ->
    relaxed_step r (with_owners (<[id := t']> (rw_owners r)) (synchronize t t' r)).

Definition relaxed_initial (r : RelaxedWorld) : Prop :=
  initial (rw_world r) /\ rw_overwritten r = [] /\ rw_lock r = 0%nat /\
  rw_views r = ∅ /\ rw_owners r = ∅.

(** States reachable with [n] toggles. *)
Inductive relaxed_reachable : nat -> RelaxedWorld -> Prop :=
| relaxed_reachable_initial r : relaxed_initial r -> relaxed_reachable 0 r
| relaxed_reachable_step n r r' :
    relaxed_reachable n r -> relaxed_step r r' ->
    relaxed_reachable (n + toggled (rw_world r) (rw_world r'))%nat r'.

End Operations.

(** ** Invariant *)

Section Invariant.
  Context `{SystemCalls} `{QueueCalls} `{Shaq}.

(** Whoever released the write lock had seen the last value, and a thread has seen
    the generation that its publishers recorded. *)
Record relaxed_inv (n : nat) (r : RelaxedWorld) : Prop := {
  ri_length : length (rw_overwritten r) = n;
  ri_order i v : rw_order r !! i = Some v -> v = cast U64 (Z.of_nat i);
  ri_lock : rw_lock r = n;
  ri_views t : (view t r <= n)%nat;
  ri_owners id p : sw_publishers (rw_world r) !! id = Some p ->
    exists t g, rw_owners r !! id = Some t /\ (g <= view t r)%nat /\
      pub_queue_generation p = cast U64 (Z.of_nat g)
}.

Lemma order_last r : rw_order r !! length (rw_overwritten r) =
  Some (es_queue_generation (sw_stream (rw_world r))).
Proof. unfold rw_order. by rewrite lookup_app_r, Nat.sub_diag. Qed.

Lemma latest_generation n r :
  relaxed_inv n r -> es_queue_generation (sw_stream (rw_world r)) = cast U64 (Z.of_nat n).
Proof. intros [Hl Ho _ _ _]. apply Ho. rewrite <- Hl. apply order_last. Qed.

(** A load reads one of the writes that its thread may not have seen yet. *)
Lemma load_Some n r seen i v :
  relaxed_inv n r -> load seen i r = Some v -> (seen <= i <= n)%nat /\ v = cast U64 (Z.of_nat i).
Proof.
  intros [Hl Ho _ _ _]. unfold load. destruct (Nat.leb_spec seen i) as [Hs|]; [|done].
  intros Hv. split; [|by apply Ho]. apply lookup_lt_Some in Hv. unfold rw_order in Hv.
  rewrite length_app in Hv. simpl in Hv. lia.
Qed.

(** A load under the lock reads the last value: all earlier changes of the counter
    happen before it. *)
Lemma locked_load n r t i v :
  relaxed_inv n r -> load (locked_view t r) i r = Some v ->
  i = n /\ v = es_queue_generation (sw_stream (rw_world r)).
Proof.
  intros Hi Hv. destruct (load_Some n r _ i v Hi Hv) as [Hb ->].
  unfold locked_view in Hb. rewrite (ri_lock n r Hi) in Hb.
  assert (i = n) as -> by lia. split; [done|]. by rewrite (latest_generation n r Hi).
Qed.

Lemma load_last n r t : relaxed_inv n r ->
  load (view t r) n r = Some (es_queue_generation (sw_stream (rw_world r))) /\
  load (locked_view t r) n r = Some (es_queue_generation (sw_stream (rw_world r))).
Proof.
  intros Hi. pose proof (ri_views n r Hi t). pose proof (ri_lock n r Hi).
  pose proof (order_last r) as Hlast. rewrite (ri_length n r Hi) in Hlast.
  unfold load, locked_view. by rewrite !(proj2 (Nat.leb_le _ _)) by lia.
Qed.

Lemma view_insert t t' seen r w order lock owners :
  view t' {| rw_world := w; rw_overwritten := order; rw_lock := lock;
             rw_views := <[t := seen]> (rw_views r); rw_owners := owners |} =
  if decide (t = t') then seen else view t' r.
Proof.
  unfold view. simpl. destruct (decide (t = t')) as [<-|Hne].
  - by rewrite lookup_insert_eq.
  - by rewrite lookup_insert_ne.
Qed.

Lemma view_unlock t t' r : view t' (unlock t r) = view t' r.
Proof. done. Qed.

(** A step that does not change the counter: the publishers are those from before,
    or belong to the thread [t] and recorded something that it has seen. *)
Lemma inv_frame n r t seen w lock owners :
  relaxed_inv n r ->
  es_queue_generation (sw_stream w) = es_queue_generation (sw_stream (rw_world r)) ->
  (view t r <= seen <= n)%nat -> lock = n ->
  (forall id p, sw_publishers w !! id = Some p ->
     (exists p0, sw_publishers (rw_world r) !! id = Some p0 /\
        pub_queue_generation p = pub_queue_generation p0 /\ owners !! id = rw_owners r !! id) \/
     (owners !! id = Some t /\
        exists g, (g <= seen)%nat /\ pub_queue_generation p = cast U64 (Z.of_nat g))) ->
  relaxed_inv n {| rw_world := w; rw_overwritten := rw_overwritten r; rw_lock := lock;
                   rw_views := <[t := seen]> (rw_views r); rw_owners := owners |}.
Proof.
  intros [Hl Ho Hk Hv Hp] Hg Hs Hlock Hpub. constructor; simpl; [done| |done| |].
  - intros i v. unfold rw_order. simpl. rewrite Hg. apply Ho.
  - intros t'. rewrite view_insert. destruct (decide _); [lia|apply Hv].
  - intros id p Hid. setoid_rewrite view_insert.
    destruct (Hpub id p Hid) as [(p0 & Hid0 & -> & ->)|(Hown & g & Hgs & Heq)].
    + destruct (Hp id p0 Hid0) as (t' & g & Hown & Hgv & Heq). exists t', g. split_and!; [done| |done].
      destruct (decide _) as [<-|]; lia.
    + exists t, g. rewrite decide_True by done. done.
Qed.

(** Publishers that keep their generations. *)
Definition same_generations (w w' : StreamWorld) : Prop :=
  forall id p, sw_publishers w' !! id = Some p ->
    exists p0, sw_publishers w !! id = Some p0 /\ pub_queue_generation p = pub_queue_generation p0.

Lemma inv_saw n r t seen w :
  relaxed_inv n r ->
  es_queue_generation (sw_stream w) = es_queue_generation (sw_stream (rw_world r)) ->
  (view t r <= seen <= n)%nat -> same_generations (rw_world r) w ->
  relaxed_inv n (saw t seen w r).
Proof.
  intros Hi Hg Hs Hsame. apply inv_frame; [done..|by apply (ri_lock n r Hi)|].
  intros id p Hid. destruct (Hsame id p Hid) as (p0 & ? & ?). left. by exists p0.
Qed.

Lemma inv_unlock n r t : relaxed_inv n r -> relaxed_inv n (unlock t r).
Proof.
  intros [Hl Ho Hk Hv Hp]. constructor; [done..| |done|done]. simpl. rewrite Hk. specialize (Hv t). lia.
Qed.

Lemma view_locked n r t : relaxed_inv n r -> (view t r <= locked_view t r <= n)%nat.
Proof.
  intros Hi. unfold locked_view. pose proof (ri_views n r Hi t). pose proof (ri_lock n r Hi). lia.
Qed.

Lemma same_generations_refl w : same_generations w w.
Proof. intros id p Hid. by exists p. Qed.

Lemma same_generations_io w io : same_generations w (with_io w io).
Proof. intros id p Hid. by exists p. Qed.

Lemma same_generations_send w b cells : same_generations w (send b cells w).
Proof. intros id p Hid. by exists p. Qed.

Lemma same_generations_update w id p p' :
  sw_publishers w !! id = Some p -> pub_queue_generation p' = pub_queue_generation p ->
  same_generations w (with_publishers w (<[id := p']> (sw_publishers w))).
Proof.
  intros Hid Hg i q. simpl. rewrite lookup_insert_Some.
  intros [[<- <-]|[_ Hq]]; [by exists p|by exists q].
Qed.
End Invariant.


(** ** Each step is a step of the machine that reads the latest value, or none *)

Section Simulation.
  Context `{SystemCalls} `{QueueCalls} `{Shaq}.

Lemma toggled_same w w' :
  es_queue_generation (sw_stream w') = es_queue_generation (sw_stream w) -> toggled w w' = 0%nat.
Proof. intros Heq. unfold toggled. by rewrite Heq, bool_decide_eq_true_2. Qed.

Lemma apply_rule_generation rule w :
  es_queue_generation (sw_stream (apply_rule rule w)) = es_queue_generation (sw_stream w) \/
  es_queue_generation (sw_stream (apply_rule rule w)) = next_generation (sw_stream w).
Proof.
  unfold apply_rule.
  destruct (EventStream_apply_stream_rule (sw_stream w) rule (sw_io w)) as [[res s] io] eqn:Ha.
  apply apply_stream_rule_cases in Ha as [(-> & _)|(queue & -> & _)]; simpl; auto.
Qed.

Lemma apply_rule_publishers rule w : sw_publishers (apply_rule rule w) = sw_publishers w.
Proof. unfold apply_rule. by destruct (EventStream_apply_stream_rule _ _ _) as [[? ?] ?]. Qed.

Lemma inv_apply_stream_rule n t rule r :
  relaxed_inv n r ->
  relaxed_inv (n + toggled (rw_world r) (apply_rule rule (rw_world r)))
    (relaxed_apply_stream_rule t rule r).
Proof.
  intros Hi. unfold relaxed_apply_stream_rule. set (w := apply_rule rule (rw_world r)).
  pose proof (apply_rule_publishers rule (rw_world r)) as Hpub. fold w in Hpub.
  unfold toggled. destruct (bool_decide_reflect (es_queue_generation (sw_stream (rw_world r)) =
    es_queue_generation (sw_stream w))) as [Heq|Hne].
  - rewrite Nat.add_0_r. apply inv_unlock, inv_saw; [done..|by apply view_locked|].
    intros id p. rewrite Hpub. by exists p.
  - assert (Hlen : length (rw_order r) = (n + 1)%nat).
    { unfold rw_order. rewrite length_app, (ri_length n r Hi). done. }
    destruct (apply_rule_generation rule (rw_world r)) as [Heq|Hnext]; [by fold w in Heq|].
    fold w in Hnext. unfold next_generation in Hnext.
    rewrite (latest_generation n r Hi), wrapping_succ in Hnext.
    pose proof Hi as [Hl Ho Hk Hv Hp].
    constructor; simpl; [done|..].
    + intros i v. unfold rw_order at 1. simpl. rewrite lookup_app. destruct (rw_order r !! i) eqn:Hr.
      * intros [= <-]. by apply Ho.
      * intros Hlast. apply list_lookup_singleton_Some in Hlast as [Hn <-]. rewrite Hnext.
        apply lookup_ge_None in Hr. do 2 f_equal. lia.
    + rewrite view_insert, decide_True by done. lia.
    + intros t'. rewrite view_unlock, view_insert. specialize (Hv t'). destruct (decide _); lia.
    + intros id p. rewrite Hpub. intros Hid. destruct (Hp id p Hid) as (t' & g & Hown & Hg & Heq).
      exists t', g. split_and!; [done| |done]. rewrite view_unlock, view_insert.
      specialize (Hv t'). destruct (decide _) as [<-|]; lia.
Qed.

(** While the counter has not wrapped around, a load that reads another generation than
    the one recorded tells that the counter has changed. *)
Lemma check_simulated n r t id i p r' :
  relaxed_inv n r -> Z.of_nat n < modulus U64 -> sw_publishers (rw_world r) !! id = Some p ->
  rw_owners r !! id = Some t -> relaxed_check t id i r = Some r' ->
  (view t r <= i <= n)%nat /\
  (rw_world r' = rw_world r \/ rw_world r' = producer_check id p (rw_world r)) /\
  (i = n -> rw_world r' = producer_check id p (rw_world r)) /\ relaxed_inv n r'.
Proof.
  intros Hi Hn Hid Hown. unfold relaxed_check. rewrite Hid.
  destruct (load (view t r) i r) as [v|] eqn:Hload; [|done]. intros [= <-].
  destruct (load_Some n r _ i v Hi Hload) as [Hb ->].
  destruct (ri_owners n r Hi id p Hid) as (t' & g & Hown' & Hg & Hgen).
  rewrite Hown in Hown'. injection Hown' as <-. pose proof (latest_generation n r Hi) as Hlast.
  assert (Hne : forall a b : nat, (a <= n)%nat -> (b <= n)%nat ->
    cast U64 (Z.of_nat a) = cast U64 (Z.of_nat b) -> a = b).
  { intros a b Ha Hb' Heq. rewrite !cast_small in Heq by (unfold in_width; lia). lia. }
  split; [lia|]. split; [|split]; simpl.
  - destruct (Z.eqb_spec (cast U64 (Z.of_nat i)) (pub_queue_generation p)) as [_|Hd]; [by left|right].
    unfold producer_check. rewrite (proj2 (Z.eqb_neq _ _)); [done|]. intros Heq. apply Hd.
    rewrite Hlast, Hgen in Heq. apply Hne in Heq; [|lia..]. rewrite Hgen. f_equal. lia.
  - intros ->. rewrite <- Hlast. done.
  - apply inv_saw; [done|by destruct (_ =? _)|lia|]. destruct (_ =? _); [by intros ? ? ?; eexists|].
    by eapply same_generations_update.
Qed.

Lemma replace_simulated n r t id i p r' :
  relaxed_inv n r -> sw_publishers (rw_world r) !! id = Some p -> rw_owners r !! id = Some t ->
  relaxed_replace_producer t id i r = Some r' ->
  rw_world r' = replace_producer id (rw_world r) /\ relaxed_inv n r'.
Proof.
  intros Hi Hid Hown. unfold relaxed_replace_producer.
  destruct (load _ i r) as [v|] eqn:Hload; [|done]. intros [= <-].
  destruct (locked_load n r t i v Hi Hload) as [-> ->]. split; [done|].
  apply inv_frame; [done|done|by pose proof (ri_views n r Hi t)|by apply (ri_lock n r Hi)|].
  intros id' q. simpl. rewrite lookup_insert_Some. intros [[<- <-]|[_ Hq]]; [right|left; by exists q].
  split; [done|]. exists n. split; [lia|]. by rewrite <- (latest_generation n r Hi).
Qed.

Lemma create_simulated n r t id i r' :
  relaxed_inv n r -> relaxed_try_create_publisher t id i r = Some r' ->
  try_create_publisher id (rw_world r) = Some (rw_world r') /\ relaxed_inv n r'.
Proof.
  intros Hi. unfold relaxed_try_create_publisher, try_create_publisher.
  destruct (checked_sub _ _) as [remaining|]; [|done].
  destruct (load _ i r) as [v|] eqn:Hload; [|done]. intros [= <-].
  destruct (locked_load n r t i v Hi Hload) as [-> ->]. split; [done|].
  pose proof (ri_views n r Hi t). pose proof (ri_lock n r Hi).
  unfold with_owners, unlock, saw. simpl. rewrite view_insert, decide_True by done.
  apply inv_frame; [done|done|lia|lia|].
  intros id' q. simpl. rewrite lookup_insert_Some. intros [[<- <-]|[Hne Hq]].
  - right. rewrite lookup_insert_eq. split; [done|]. exists n. split; [lia|]. 
    by rewrite <- (latest_generation n r Hi).
  - left. exists q. by rewrite lookup_insert_ne.
Qed.

Lemma release_simulated n r t id :
  relaxed_inv n r -> relaxed_inv n (relaxed_release_slot t id r).
Proof.
  intros Hi. pose proof (view_locked n r t Hi). pose proof (ri_lock n r Hi).
  unfold relaxed_release_slot, with_owners, unlock, saw. simpl. rewrite view_insert, decide_True by done.
  apply inv_frame; [done|done|lia|lia|].
  intros id' q Hq. simpl in Hq. apply lookup_delete_Some in Hq as [Hne Hq]. left. exists q.
  by rewrite lookup_delete_ne.
Qed.

Lemma synchronize_inv n r t t' : relaxed_inv n r -> relaxed_inv n (synchronize t t' r).
Proof.
  intros Hi. pose proof (ri_views n r Hi t). pose proof (ri_views n r Hi t').
  apply inv_saw; [done..|lia|by intros ? ? ?; eexists].
Qed.

(** The thread that gets a publisher knows what the previous one knew. *)
Lemma hand_over_inv n r t t' id :
  relaxed_inv n r -> rw_owners r !! id = Some t ->
  relaxed_inv n (with_owners (<[id := t']> (rw_owners r)) (synchronize t t' r)).
Proof.
  intros Hi Hown. pose proof (ri_views n r Hi t). pose proof (ri_views n r Hi t').
  unfold with_owners, synchronize, saw. simpl.
  apply inv_frame; [done|done|lia|by apply (ri_lock n r Hi)|].
  intros id' q Hq. destruct (decide (id = id')) as [<-|Hne].
  - right. rewrite lookup_insert_eq. split; [done|].
    destruct (ri_owners n r Hi id q Hq) as (t0 & g & Hown0 & Hg & Heq).
    rewrite Hown in Hown0. injection Hown0 as <-. exists g. split; [lia|done].
  - left. exists q. by rewrite lookup_insert_ne.
Qed.

Lemma relaxed_inv_initial r : relaxed_initial r -> relaxed_inv 0 r.
Proof.
  intros ((dir & name & cfg & schema & Hs & Hp & _) & Ho & Hl & Hv & Hw).
  constructor; [by rewrite Ho|..|done| |].
  - intros i v. unfold rw_order. rewrite Ho, Hs. destruct i; [by intros [= <-]|done].
  - intros t. unfold view. by rewrite Hv, lookup_empty.
  - intros id p. by rewrite Hp, lookup_empty.
Qed.

(** The invariant is kept, and a step of the relaxed machine is a step of the machine
    of EventStream.v or leaves its state as it is. *)
Lemma step_simulated n r r' :
  relaxed_inv n r -> Z.of_nat n < modulus U64 -> relaxed_step r r' ->
  relaxed_inv (n + toggled (rw_world r) (rw_world r')) r' /\
  (rw_world r' = rw_world r \/ step (rw_world r) (rw_world r')).
Proof.
  intros Hi Hn Hs. pose proof (view_locked n r) as Hlocked.
  assert (Hquiet : forall (P : Prop),
    es_queue_generation (sw_stream (rw_world r')) = es_queue_generation (sw_stream (rw_world r)) ->
    relaxed_inv n r' -> P -> relaxed_inv (n + toggled (rw_world r) (rw_world r')) r' /\ P).
  { intros P Hg Hr HP. by rewrite toggled_same, Nat.add_0_r by done. }
  destruct Hs as [t rule r|t id i r r' Hid Hc|t id i p r r' Hid Hph Hown Hc|t id i p r r' Hid Hph Hown Hc
    |t id p b cells r Hid Hph Hb Hown|t id p r Hid Hph Hown|t id p r Hid Hph Hown|t io r|t t' r|t t' id r Hown].
  - assert (rw_world (relaxed_apply_stream_rule t rule r) = apply_rule rule (rw_world r)) as ->
      by (unfold relaxed_apply_stream_rule; cbv zeta; case toggled; reflexivity).
    split; [by apply inv_apply_stream_rule|right; by apply step_apply].
  - destruct (create_simulated n r t id i r' Hi Hc) as [Hw Hr]. apply Hquiet; [|done|].
    + unfold try_create_publisher in Hw. destruct (checked_sub _ _); [|done]. by injection Hw as <-.
    + right. by eapply step_publisher, step_create.
  - destruct (check_simulated n r t id i p r' Hi Hn Hid Hown Hc) as (_ & Hw & _ & Hr).
    apply Hquiet; [|done|].
    + destruct Hw as [->| ->]; [done|]. unfold producer_check. by destruct (_ =? _).
    + destruct Hw as [Hw|Hw]; [by left|right]. rewrite Hw. by apply step_publisher, step_check.
  - destruct (replace_simulated n r t id i p r' Hi Hid Hown Hc) as [Hw Hr].
    apply Hquiet; [by rewrite Hw|done|]. right. rewrite Hw. by eapply step_publisher, step_replace.
  - apply Hquiet; [done| |right; by eapply step_publisher, step_send].
    apply inv_saw; [done..|by pose proof (ri_views n r Hi t)|by intros ? ? ?; eexists].
  - apply Hquiet; [done| |right; by eapply step_publisher, step_drop].
    apply inv_saw; [done..|by pose proof (ri_views n r Hi t)|by eapply same_generations_update].
  - apply Hquiet; [done|by apply release_simulated|right; by eapply step_publisher, step_release].
  - apply Hquiet; [done| |right; by apply step_environment].
    apply inv_saw; [done..|by pose proof (ri_views n r Hi t)|by intros ? ? ?; eexists].
  - apply Hquiet; [done|by apply synchronize_inv|by left].
  - apply Hquiet; [done|by apply hand_over_inv|by left].
Qed.

Lemma relaxed_reachable_simulated n r :
  relaxed_reachable n r -> Z.of_nat n < modulus U64 -> relaxed_inv n r /\ reachable n (rw_world r).
Proof.
  induction 1 as [r Hr|n r r' _ IH Hs]; intros Hn.
  - split; [by apply relaxed_inv_initial|]. apply reachable_initial, Hr.
  - destruct IH as [Hi Hreach]; [lia|].
    destruct (step_simulated n r r' Hi ltac:(lia) Hs) as [Hr [Heq|Hstep]]; (split; [exact Hr|]).
    + by rewrite Heq, toggled_same, Nat.add_0_r.
    + by eapply reachable_step.
Qed.
End Simulation.

(** ** Property *)

Section Property.
  Context `{SystemCalls} `{QueueCalls} `{Shaq}.

Lemma producer_check_lookup id p w :
  sw_publishers w !! id = Some p ->
  sw_publishers (producer_check id p w) !! id = Some
    (if es_queue_generation (sw_stream w) =? pub_queue_generation p then p
     else {| pub_queue_generation := pub_queue_generation p; pub_producer := None;
             pub_phase := Replacing |}).
Proof.
  intros Hid. unfold producer_check. destruct (_ =? _); [done|]. simpl. by rewrite lookup_insert_eq.
Qed.

Lemma call_simulated n r t id i j p result r' :
  relaxed_inv n r -> Z.of_nat n < modulus U64 -> sw_publishers (rw_world r) !! id = Some p ->
  pub_phase p = Ready -> rw_owners r !! id = Some t ->
  relaxed_producer t id i j r = Some (result, r') ->
  (result, rw_world r') = Publisher_producer id (rw_world r) \/
  ((view t r < n)%nat /\ result = pub_producer p /\ rw_world r' = rw_world r).
Proof.
  intros Hi Hn Hid Hph Hown. unfold relaxed_producer.
  destruct (relaxed_check t id i r) as [r1|] eqn:Hc; [|done]. simpl.
  destruct (check_simulated n r t id i p r1 Hi Hn Hid Hown Hc) as (Hb & Hw & Hlast & Hi1).
  assert (Hown1 : rw_owners r1 !! id = Some t).
  { unfold relaxed_check in Hc. rewrite Hid in Hc. destruct (load _ _ _); [|done]. by injection Hc as <-. }
  assert (rw_world r1 = producer_check id p (rw_world r) \/
    rw_world r1 = rw_world r /\ (view t r < n)%nat) as [Hw1|[Hw1 Hstale]].
  { destruct (decide (i = n)) as [->|]; [left; by apply Hlast|]. destruct Hw; [right|left; done].
    split; [done|lia]. }
  - unfold Publisher_producer. rewrite Hid, <- Hw1. cbv zeta.
    destruct (sw_publishers (rw_world r1) !! id) as [p1|] eqn:Hid1; [|done]. simpl.
    destruct (pub_phase p1) eqn:Hph1; [|destruct (relaxed_replace_producer t id j r1) as [r2|] eqn:Hr|].
    2: { destruct (replace_simulated n r1 t id j p1 r2 Hi1 Hid1 Hown1 Hr) as [Hw2 _].
         cbn [mbind option_bind]. rewrite <- Hw2. destruct (sw_publishers (rw_world r2) !! id); [|done].
         intros [= <- <-]. by left. }
    all: cbn [mbind option_bind]; rewrite ?Hid1; cbn [mbind option_bind]; intros Hres; simplify_eq; by left.
  - rewrite Hw1, Hid. simpl. rewrite Hph. simpl. rewrite Hw1, Hid. simpl.
    intros [= <- <-]. by right.
Qed.

Lemma call_exists n r t id p :
  relaxed_inv n r -> Z.of_nat n < modulus U64 -> sw_publishers (rw_world r) !! id = Some p ->
  rw_owners r !! id = Some t ->
  exists result r', relaxed_producer t id n n r = Some (result, r').
Proof.
  intros Hi Hn Hid Hown. unfold relaxed_producer.
  destruct (relaxed_check t id n r) as [r1|] eqn:Hc.
  - destruct (check_simulated n r t id n p r1 Hi Hn Hid Hown Hc) as (_ & _ & Hw & Hi1). simpl.
    rewrite Hw, producer_check_lookup by done. simpl.
    match goal with |- context [pub_phase ?q] => destruct (pub_phase q) end; simpl;
      [rewrite Hw, producer_check_lookup by done; simpl; eauto| |
       rewrite Hw, producer_check_lookup by done; simpl; eauto].
    unfold relaxed_replace_producer. rewrite (proj2 (load_last n r1 t Hi1)). simpl.
    rewrite lookup_insert_eq. simpl. eauto.
  - exfalso. unfold relaxed_check in Hc. rewrite Hid, (proj1 (load_last n r t Hi)) in Hc. done.
Qed.
End Property.

(** C15: Relaxed loads of the generation are enough.  However the loads of the counter
    are answered (by any write that is not older than what the thread has seen), the
    stream and its publishers only reach states that they reach when every load reads
    the latest generation, until the counter wraps around.  A call of
    [Publisher::producer] can always complete; it has the outcome that it has there, or
    returns the producer that the publisher had, without changing anything, and then
    the thread has not yet seen the last change of the stream.  So a thread that
    synchronized with the change always follows it.  A load under the lock always reads
    the last value, so that generation and producer are recorded together. *)
Theorem relaxed_loads_suffice `{SystemCalls} `{QueueCalls} `{Shaq} n r :
  relaxed_reachable n r -> Z.of_nat n < modulus U64 ->
  reachable n (rw_world r) /\
  (forall t id p, sw_publishers (rw_world r) !! id = Some p -> pub_phase p = Ready ->
     rw_owners r !! id = Some t ->
     (exists result r', relaxed_producer t id n n r = Some (result, r')) /\
     (forall i j result r', relaxed_producer t id i j r = Some (result, r') ->
        (result, rw_world r') = Publisher_producer id (rw_world r) \/
        ((view t r < n)%nat /\ result = pub_producer p /\ rw_world r' = rw_world r))) /\
  (forall t i v, load (locked_view t r) i r = Some v ->
     v = es_queue_generation (sw_stream (rw_world r))).
Proof.
  intros Hr Hn. destruct (relaxed_reachable_simulated n r Hr Hn) as [Hi Hreach].
  split_and!; [done| |].
  - intros t id p Hid Hph Hown. split; [by eapply call_exists|]. intros i j result r' Hc.
    by eapply call_simulated.
  - intros t i v Hv. by apply (locked_load n r t i v).
Qed.

(** ** Sample: the thread 1 has not seen that the thread 2 enabled the stream *)

Definition sample_relaxed_start : RelaxedWorld :=
  {| rw_world := sample_stream_world; rw_overwritten := []; rw_lock := 0%nat; rw_views := ∅;
     rw_owners := ∅ |}.

Definition sample_relaxed_created : RelaxedWorld :=
  default sample_relaxed_start (relaxed_try_create_publisher 1%nat 0%nat 0%nat sample_relaxed_start).

Definition sample_relaxed_enabled : RelaxedWorld :=
  relaxed_apply_stream_rule 2%nat On sample_relaxed_created.

Lemma sample_relaxed_reachable : relaxed_reachable 1 sample_relaxed_enabled.
Proof.
  assert (relaxed_initial sample_relaxed_start) as H0 by (split_and!; [by repeat eexists|done..]).
  pose proof (relaxed_reachable_step _ _ sample_relaxed_created (relaxed_reachable_initial _ H0)
    (relaxed_create 1%nat 0%nat 0%nat sample_relaxed_start _ eq_refl eq_refl)) as H1.
  exact (relaxed_reachable_step _ _ _ H1 (relaxed_apply 2%nat On _)).
Qed.

(** The first load of the thread 1 may read the old generation or the new one. *)
Example stale_call : fst <$> relaxed_producer 1%nat 0%nat 0%nat 0%nat sample_relaxed_enabled = Some None.
Proof. by vm_compute. Qed.
Example fresh_call : (is_Some (x ← relaxed_producer 1%nat 0%nat 1%nat 1%nat sample_relaxed_enabled; x.1)).
Proof. vm_compute. by eexists. Qed.

Lemma relaxed_loads_suffice_witness :
  reachable 1 (rw_world sample_relaxed_enabled) /\
  exists result r', relaxed_producer 1%nat 0%nat 1%nat 1%nat sample_relaxed_enabled = Some (result, r').
Proof.
  destruct (relaxed_loads_suffice 1 sample_relaxed_enabled sample_relaxed_reachable ltac:(done))
    as (Hreach & Hcall & _).
  split; [exact Hreach|]. apply (Hcall 1%nat 0%nat sample_publisher); by vm_compute.
Defined.
