(* ===== verification/StreamTeardown.v ===== *)
(** * Streams of one name, while earlier ones are torn down
      (event-system/src/backend/linux.rs and linux/stream_policy.rs)

    The name of a stream is free again as soon as the last reference to it is dropped,
    before the drop of its queue has removed the queue's directory; and the directory is
    known by its path only.  The event system of EventSystem.v drops a stream in one
    step.  Here the drop is taken apart into the system calls of [remove_dir_all], which
    interleave with the creation, the publication and the drop of further streams of the
    same name.  [remove_dir_all] opens the directory at the path, removes its entries
    through the open directory and then removes what is at the path, if that is an empty
    directory. *)

From Stdlib Require Import ZArith Lia Strings.String.
From stdpp Require Import base list numbers gmap.
From S2P Require Import Prelude RustStr StreamName StreamQueue.

(** ** The state *)

(** The queue of a stream: there is none, it is published, or its drop is about to open
    the directory, to remove an entry, or to remove the directory.  [dir] is the
    directory that was published; the stream itself only has the path. *)
Inductive QueueState :=
| NoQueue
| Published (dir : nat)
| Opening (dir : nat)
| Unlinking (dir : nat)
| Removing (dir : nat).

(** A stream of the name; dead, if only its drop still runs. *)
Record Holder := {
  ho_alive : bool;
  ho_queue : QueueState
}.

(** What is at the path, the entries of the directories, the streams, and whether a call
    of [remove_dir_all] failed. *)
Record NameWorld := {
  nw_path : option nat;
  nw_dirs : gmap nat (list str);
  nw_streams : gmap nat Holder;
  nw_failed : bool
}.

Definition entries_of (w : NameWorld) (dir : nat) : list str := default [] (nw_dirs w !! dir).

Definition set_stream (s : nat) (h : Holder) (w : NameWorld) : NameWorld :=
  {| nw_path := nw_path w; nw_dirs := nw_dirs w; nw_streams := <[s := h]> (nw_streams w);
     nw_failed := nw_failed w |}.

Definition set_queue_state (s : nat) (q : QueueState) (w : NameWorld) : NameWorld :=
  match nw_streams w !! s with
  | Some h => set_stream s {| ho_alive := ho_alive h; ho_queue := q |} w
  | None => w
  end.

(** ** The operations *)

(** The check of [register_new_stream] and a new stream without a queue; [None] is
    [StreamNameAlreadyInUse]. *)
Definition register_name (s : nat) (w : NameWorld) : option NameWorld :=
  let stream_name_is_in_use := existsb (fun e => ho_alive e.2) (map_to_list (nw_streams w)) in
  if stream_name_is_in_use then None
  else Some (set_stream s {| ho_alive := true; ho_queue := NoQueue |} w).

(** The end of [StreamQueue::create]: the staged directory, which has the number [dir],
    is renamed to the path. *)
Definition publish_name (s dir : nat) (w : NameWorld) : bool * NameWorld :=
  let free := match nw_path w with
              | None => true
              | Some other => match entries_of w other with [] => true | _ :: _ => false end
              end in
  if free then
    (true, set_queue_state s (Published dir)
       {| nw_path := Some dir;
          nw_dirs := <[dir := [QUEUE_FILE_NAME_PREFIX; SCHEMA_FILE_NAME]]> (nw_dirs w);
          nw_streams := nw_streams w; nw_failed := nw_failed w |})
  else (false, w).

(** [state.queue = None], or the drop of the stream: the drop of [StreamQueue] begins. *)
Definition begin_drop (alive : bool) (s : nat) (w : NameWorld) : NameWorld :=
  match nw_streams w !! s with
  | Some h => set_stream s {| ho_alive := alive;
                              ho_queue := match ho_queue h with
                                          | Published dir => Opening dir
                                          | q => q
                                          end |} w
  | None => w
  end.

(** [remove_dir_all] opens what is at the path. *)
Definition open_dir (s : nat) (w : NameWorld) : NameWorld :=
  match nw_path w with
  | Some dir => set_queue_state s (Unlinking dir) w
  | None => set_queue_state s NoQueue w
  end.

(** It removes the entries of the open directory. *)
Definition unlink_entry (dir : nat) (name : str) (w : NameWorld) : NameWorld :=
  {| nw_path := nw_path w;
     nw_dirs := <[dir := List.filter (fun n => negb (bool_decide (n = name))) (entries_of w dir)]>
                  (nw_dirs w);
     nw_streams := nw_streams w; nw_failed := nw_failed w |}.

(** It removes what is at the path, unless that is not an empty directory; the error is
    ignored. *)
Definition remove_path (s : nat) (w : NameWorld) : NameWorld :=
  set_queue_state s NoQueue
    (match nw_path w with
     | None => w
     | Some dir =>
         match entries_of w dir with
         | [] => {| nw_path := None; nw_dirs := nw_dirs w; nw_streams := nw_streams w;
                    nw_failed := nw_failed w |}
         | _ :: _ => w
         end
     end).

(** A system call of [remove_dir_all] fails; the error is ignored. *)
Definition fail_removal (s : nat) (w : NameWorld) : NameWorld :=
  set_queue_state s NoQueue
    {| nw_path := nw_path w; nw_dirs := nw_dirs w; nw_streams := nw_streams w; nw_failed := true |}.

(** ** The steps

    A stream keeps its address while its drop runs, and a directory has a number of its
    own.  A stream whose queue is being dropped by the policy manager is kept alive by
    the manager. *)
Inductive name_step : NameWorld -> NameWorld -> Prop :=
| name_register s w w' :
    nw_streams w !! s = None -> register_name s w = Some w' -> name_step w w'
| name_publish s dir w :
    nw_streams w !! s = Some {| ho_alive := true; ho_queue := NoQueue |} ->
    nw_dirs w !! dir = None -> name_step w (publish_name s dir w).2
| name_disable s dir w :
    nw_streams w !! s = Some {| ho_alive := true; ho_queue := Published dir |} ->
    name_step w (begin_drop true s w)
| name_drop s q w :
    nw_streams w !! s = Some {| ho_alive := true; ho_queue := q |} ->
    (q = NoQueue \/ exists dir, q = Published dir) -> name_step w (begin_drop false s w)
| name_open s h dir w :
    nw_streams w !! s = Some h -> ho_queue h = Opening dir -> name_step w (open_dir s w)
| name_unlink s h dir name w :
    nw_streams w !! s = Some h -> ho_queue h = Unlinking dir ->
    name_step w (unlink_entry dir name w)
| name_unlinked s h dir w :
    nw_streams w !! s = Some h -> ho_queue h = Unlinking dir -> entries_of w dir = [] ->
    name_step w (set_queue_state s (Removing dir) w)
| name_remove s h dir w :
    nw_streams w !! s = Some h -> ho_queue h = Removing dir -> name_step w (remove_path s w)
| name_fail s h dir w :
    nw_streams w !! s = Some h ->
    ho_queue h = Opening dir \/ ho_queue h = Unlinking dir \/ ho_queue h = Removing dir ->
    name_step w (fail_removal s w).

Definition no_streams : NameWorld :=
  {| nw_path := None; nw_dirs := ∅; nw_streams := ∅; nw_failed := false |}.

Inductive name_reachable : NameWorld -> Prop :=
| name_initial : name_reachable no_streams
| name_next w w' : name_reachable w -> name_step w w' -> name_reachable w'.

(** ** Invariant *)

Definition in_state (s : nat) (q : QueueState) (w : NameWorld) : Prop :=
  exists h, nw_streams w !! s = Some h /\ ho_queue h = q.
Definition live (s : nat) (w : NameWorld) : Prop :=
  exists h, nw_streams w !! s = Some h /\ ho_alive h = true.

(** The queue of [s] is published as [dir], or its drop has not begun to remove it. *)
Definition owns (s dir : nat) (w : NameWorld) : Prop :=
  in_state s (Published dir) w \/ in_state s (Opening dir) w.

(** [s] still has to do with [dir]. *)
Definition holds (s dir : nat) (w : NameWorld) : Prop :=
  owns s dir w \/ in_state s (Unlinking dir) w \/ in_state s (Removing dir) w.

Definition complete (w : NameWorld) (dir : nat) : Prop :=
  entries_of w dir = [QUEUE_FILE_NAME_PREFIX; SCHEMA_FILE_NAME].

Record name_inv (w : NameWorld) : Prop := {
  ni_live s s' : live s w -> live s' w -> s = s';
  ni_published s dir : in_state s (Published dir) w -> live s w;
  ni_owner s dir : owns s dir w -> nw_path w = Some dir /\ complete w dir;
  ni_unique s s' dir dir' : owns s dir w -> owns s' dir' w -> s = s';
  ni_unlinking s s' dir dir' : in_state s (Unlinking dir) w -> owns s' dir' w -> dir <> dir';
  ni_removing s dir : in_state s (Removing dir) w -> entries_of w dir = [];
  ni_known s dir : holds s dir w -> is_Some (nw_dirs w !! dir);
  ni_path dir : nw_failed w = false -> nw_path w = Some dir -> exists s, holds s dir w
}.

Lemma in_state_fun s q q' w : in_state s q w -> in_state s q' w -> q = q'.
Proof. intros (h & Hh & <-) (h' & Hh' & <-). by rewrite Hh in Hh'; injection Hh' as <-. Qed.

(** What setting the state of one stream changes. *)
Lemma in_state_set s q s' q' w :
  in_state s' q' (set_queue_state s q w) <->
  (s' = s /\ q' = q /\ is_Some (nw_streams w !! s)) \/ (s' <> s /\ in_state s' q' w).
Proof.
  unfold set_queue_state, in_state. destruct (nw_streams w !! s) as [h|] eqn:Hs.
  - simpl. destruct (decide (s' = s)) as [->|Hne].
    + setoid_rewrite lookup_insert_eq. split.
      * intros (h' & [= <-] & <-). left. simpl. eauto.
      * intros [(_ & -> & _)|[]]; [eexists; by split|done].
    + rewrite lookup_insert_ne by done. split; [by right|]. intros [[]|[]]; [done|done].
  - split; [|intros [(_ & _ & [? [=]])|[]]; done].
    intros (h & Hh & Hq). right. split; [intros ->; congruence|eauto].
Qed.

Lemma live_set s q s' w : live s' (set_queue_state s q w) <-> live s' w.
Proof.
  unfold set_queue_state, live. destruct (nw_streams w !! s) as [h|] eqn:Hs; [|done]. simpl.
  destruct (decide (s' = s)) as [->|Hne]; [|by rewrite lookup_insert_ne].
  rewrite lookup_insert_eq, Hs. split; intros (h' & [= <-] & Ha); eauto.
Qed.

Lemma set_queue_frame s q w :
  nw_path (set_queue_state s q w) = nw_path w /\ nw_dirs (set_queue_state s q w) = nw_dirs w /\
  nw_failed (set_queue_state s q w) = nw_failed w.
Proof. unfold set_queue_state. by destruct (nw_streams w !! s). Qed.

(** The same streams over another file system. *)
Definition same_streams (w w' : NameWorld) : Prop := nw_streams w' = nw_streams w.

Lemma in_state_same s q w w' : same_streams w w' -> in_state s q w' <-> in_state s q w.
Proof. unfold in_state. by intros ->. Qed.

Lemma live_same s w w' : same_streams w w' -> live s w' <-> live s w.
Proof. unfold live. by intros ->. Qed.

(** A stream moves on to the state [q], over the file system of [w'].  The premises are
    what has to be said about the new state and about the file system. *)
Lemma inv_move s q w w' :
  name_inv w -> same_streams w w' -> is_Some (nw_streams w !! s) ->
  (forall dir, q = Published dir -> live s w) ->
  (forall dir, q = Published dir \/ q = Opening dir ->
     nw_path w' = Some dir /\ complete w' dir /\
     (forall s' dir', s' <> s -> ~ owns s' dir' w) /\
     (forall s', s' <> s -> ~ in_state s' (Unlinking dir) w)) ->
  (forall s' dir, s' <> s -> owns s' dir w ->
     nw_path w' = Some dir /\ complete w' dir /\ q <> Unlinking dir) ->
  (forall dir, q = Removing dir -> entries_of w' dir = []) ->
  (forall s' dir, s' <> s -> in_state s' (Removing dir) w -> entries_of w' dir = []) ->
  (forall dir, is_Some (nw_dirs w !! dir) -> is_Some (nw_dirs w' !! dir)) ->
  (forall dir, q = Published dir \/ q = Opening dir \/ q = Unlinking dir \/ q = Removing dir ->
     is_Some (nw_dirs w' !! dir)) ->
  (forall dir, nw_failed w' = false -> nw_path w' = Some dir ->
     q = Published dir \/ q = Opening dir \/ q = Unlinking dir \/ q = Removing dir \/
     exists s', s' <> s /\ holds s' dir w) ->
  name_inv (set_queue_state s q w').
Proof.
  intros [Hl Hp Ho Hu Hun Hr Hk Hpath] Hsame Hs Hq1 Hq2 Hoth Hq3 Hr' Hdirs Hq4 Hfree.
  assert (Hin : forall s' q', in_state s' q' (set_queue_state s q w') <->
    (s' = s /\ q' = q) \/ (s' <> s /\ in_state s' q' w)).
  { intros s' q'. rewrite in_state_set, (in_state_same s' q' w w') by done.
    rewrite Hsame. naive_solver. }
  assert (Hlive : forall s', live s' (set_queue_state s q w') <-> live s' w)
    by (intros s'; by rewrite live_set, (live_same s' w w')).
  destruct (set_queue_frame s q w') as (Hf1 & Hf2 & Hf3).
  assert (Hent : forall dir, entries_of (set_queue_state s q w') dir = entries_of w' dir)
    by (intros dir; unfold entries_of; by rewrite Hf2).
  constructor; unfold holds, owns, complete in *; rewrite ?Hf1, ?Hf2, ?Hf3;
    repeat setoid_rewrite Hin; repeat setoid_rewrite Hlive; repeat setoid_rewrite Hent.
  - done.
  - naive_solver.
  - naive_solver.
  - intros s1 s2 d1 d2 H1 H2. destruct (decide (s1 = s)) as [->|H1'], (decide (s2 = s)) as [->|H2'];
      [done| | |naive_solver].
    + destruct (Hq2 d1) as (_ & _ & Hno & _); [naive_solver|]. destruct (Hno s2 d2); naive_solver.
    + destruct (Hq2 d2) as (_ & _ & Hno & _); [naive_solver|]. destruct (Hno s1 d1); naive_solver.
  - naive_solver.
  - naive_solver.
  - naive_solver.
  - intros dir Hf Hd. destruct (Hfree dir Hf Hd) as [->|[->|[->|[->|(s' & Hne & Hh)]]]];
      [exists s; tauto..|exists s'; tauto].
Qed.

Lemma name_inv_initial : name_inv no_streams.
Proof.
  assert (Hin : forall s q, ~ in_state s q no_streams)
    by (intros s q (h & Hh & _); unfold no_streams in Hh; simpl in Hh; by rewrite lookup_empty in Hh).
  constructor; unfold holds, owns; try naive_solver.
  intros s s' (h & Hh & _). simpl in Hh. by rewrite lookup_empty in Hh.
Qed.

Lemma in_state_some s q w : in_state s q w -> is_Some (nw_streams w !! s).
Proof. intros (h & -> & _). by eexists. Qed.

Lemma owned_not s dir q w : in_state s q w -> q <> Published dir -> q <> Opening dir -> ~ owns s dir w.
Proof. intros Hs H1 H2 [H|H]; by pose proof (in_state_fun _ _ _ _ Hs H). Qed.

(** Only the state of the stream changes, and not to one that owns a directory. *)
Lemma inv_let_go s q0 q w :
  name_inv w -> in_state s q0 w ->
  (q = NoQueue \/ exists dir, q = Unlinking dir /\ owns s dir w \/
     q = Removing dir /\ in_state s (Unlinking dir) w /\ entries_of w dir = []) ->
  (forall dir, nw_failed w = false -> nw_path w = Some dir -> holds s dir w -> q <> NoQueue) ->
  name_inv (set_queue_state s q w).
Proof.
  intros Hi Hs Hq Hkeep. pose proof Hi as [Hl Hp Ho Hu Hun Hr Hk Hpath].
  apply inv_move with (w := w); try done.
  - by eapply in_state_some.
  - naive_solver.
  - naive_solver.
  - intros s' dir Hne Hown. destruct (Ho s' dir Hown). split_and!; [done|done|]. intros ->.
    destruct Hq as [|(d & [(E & Hd)|(E & _)])]; [done| |done]. injection E as <-.
    by destruct Hne, (Hu s' s dir dir Hown Hd).
  - naive_solver.
  - intros s' dir _ Hrem. by eapply Hr.
  - unfold holds in Hk. destruct Hq as [->|(d & [(-> & Hd)|(-> & Hd & _)])]; [naive_solver|..].
    + intros d' Hd'. assert (d' = d) as -> by naive_solver. apply (Hk s d). tauto.
    + intros d' Hd'. assert (d' = d) as -> by naive_solver. apply (Hk s d). tauto.
  - intros dir Hf Hd. destruct (Hpath dir Hf Hd) as (s' & Hh).
    destruct (decide (s' = s)) as [->|Hne]; [|do 4 right; by exists s'].
    specialize (Hkeep dir Hf Hd Hh). destruct Hq as [->|(d & [(-> & Hd')|(-> & Hd' & _)])]; [done|..].
    + destruct (Ho s d Hd') as [Hd'' _]. rewrite Hd in Hd''. injection Hd'' as ->. tauto.
    + assert (dir = d) as -> by (unfold holds, owns in Hh; destruct Hh as [[Hh|Hh]|[Hh|Hh]];
        pose proof (in_state_fun _ _ _ _ Hh Hd'); congruence). tauto.
Qed.

Lemma inv_publish s dir w :
  name_inv w -> nw_streams w !! s = Some {| ho_alive := true; ho_queue := NoQueue |} ->
  nw_dirs w !! dir = None -> name_inv (publish_name s dir w).2.
Proof.
  intros Hi Hs Hfresh. unfold publish_name. set (free := match nw_path w with None => _ | _ => _ end).
  destruct free eqn:Hfree; [simpl|done]. pose proof Hi as [Hl Hp Ho Hu Hun Hr Hk Hpath].
  assert (Hnone : forall s' d, ~ owns s' d w).
  { intros s' d Hown. destruct (Ho s' d Hown) as [Hd Hc]. unfold free in Hfree.
    rewrite Hd in Hfree. by rewrite Hc in Hfree. }
  assert (Hnew : forall s' d, holds s' d w -> d <> dir)
    by (intros s' d Hh ->; destruct (Hk s' dir Hh); congruence).
  apply inv_move with (w := w); simpl; try done.
  - by eexists.
  - intros d [[= <-]|?]; [|done]. split_and!; [done| |by auto|].
    + unfold complete, entries_of. simpl. by rewrite lookup_insert_eq.
    + intros s' _ H. apply (Hnew s' dir); [unfold holds; tauto|done].
  - intros s' d _ Hown. by destruct (Hnone s' d).
  - intros s' d _ Hrem. unfold entries_of. simpl. rewrite lookup_insert_ne; [by eapply Hr|].
    intros ->. apply (Hnew s' d); [unfold holds; tauto|done].
  - intros d Hd. destruct (decide (dir = d)) as [->|]; [by rewrite lookup_insert_eq; eexists|].
    by rewrite lookup_insert_ne.
  - intros d [[= <-]|[?|[?|?]]]; try done. rewrite lookup_insert_eq. by eexists.
  - intros d _ [= <-]. by left.
Qed.

Lemma inv_begin_drop s dir w :
  name_inv w -> in_state s (Published dir) w -> name_inv (set_queue_state s (Opening dir) w).
Proof.
  intros Hi Hs. pose proof Hi as [Hl Hp Ho Hu Hun Hr Hk Hpath].
  assert (Hown : owns s dir w) by by left. destruct (Ho s dir Hown) as [Hd Hc].
  apply inv_move with (w := w); try done.
  - by eapply in_state_some.
  - intros d [|[= <-]]; [done|]. split_and!; [done|done|..].
    + intros s' d' Hne H. by destruct Hne, (Hu s' s d' dir H Hown).
    + intros s' _ H. by destruct (Hun s' s dir dir H Hown).
  - intros s' d Hne H. by destruct Hne, (Hu s' s d dir H Hown).
  - intros s' d _ H. by eapply Hr.
  - intros d [?|[[= <-]|[?|?]]]; try done. apply (Hk s dir). unfold holds. tauto.
  - intros d Hf Hd'. rewrite Hd in Hd'. injection Hd' as <-. tauto.
Qed.

(** A stream that has no published queue dies. *)
Lemma inv_kill s h w :
  name_inv w -> nw_streams w !! s = Some h -> (forall dir, ho_queue h <> Published dir) ->
  name_inv (set_stream s {| ho_alive := false; ho_queue := ho_queue h |} w).
Proof.
  intros [Hl Hp Ho Hu Hun Hr Hk Hpath] Hs Hq. set (w' := set_stream _ _ _).
  assert (Hin : forall s' q, in_state s' q w' <-> in_state s' q w).
  { intros s' q. unfold in_state, w'. simpl. destruct (decide (s = s')) as [<-|]; [|by rewrite lookup_insert_ne].
    rewrite lookup_insert_eq, Hs. split; intros (h' & [= <-] & <-); by eexists. }
  assert (Hlive : forall s', live s' w' <-> s' <> s /\ live s' w).
  { intros s'. unfold live, w'. simpl. destruct (decide (s = s')) as [<-|]; [|by rewrite lookup_insert_ne; naive_solver].
    rewrite lookup_insert_eq. naive_solver. }
  constructor; unfold holds, owns in *; repeat setoid_rewrite Hin; repeat setoid_rewrite Hlive; try done.
  - naive_solver.
  - intros s' d Hd. split; [|by eapply Hp]. intros ->. destruct Hd as (h' & Hs' & Hd).
    rewrite Hs in Hs'. injection Hs' as <-. by apply (Hq d).
Qed.

Lemma begin_drop_split alive s h w :
  nw_streams w !! s = Some h ->
  begin_drop alive s w =
    let q := match ho_queue h with Published dir => Opening dir | q => q end in
    set_stream s {| ho_alive := alive; ho_queue := q |} (set_queue_state s q w).
Proof.
  intros Hs. unfold begin_drop, set_queue_state. rewrite Hs. unfold set_stream. simpl.
  by rewrite insert_insert_eq.
Qed.

Lemma inv_register s w w' :
  name_inv w -> nw_streams w !! s = None -> register_name s w = Some w' -> name_inv w'.
Proof.
  intros [Hl Hp Ho Hu Hun Hr Hk Hpath] Hs. unfold register_name.
  destruct (existsb _ _) eqn:Huse; [done|]. intros [= <-]. set (w' := set_stream _ _ _).
  assert (Hdead : forall s', ~ live s' w).
  { intros s' (h & Hh & Ha). rewrite <- not_true_iff_false, existsb_exists in Huse. apply Huse.
    exists (s', h). split; [|done]. by apply list_elem_of_In, elem_of_map_to_list. }
  assert (Hin : forall s' q, in_state s' q w' <-> in_state s' q w \/ (s' = s /\ q = NoQueue)).
  { intros s' q. unfold in_state, w'. simpl. destruct (decide (s = s')) as [<-|].
    - rewrite lookup_insert_eq, Hs. naive_solver.
    - rewrite lookup_insert_ne by done. naive_solver. }
  assert (Hlive : forall s', live s' w' <-> s' = s).
  { intros s'. unfold live, w'. simpl. destruct (decide (s = s')) as [<-|].
    - rewrite lookup_insert_eq. split; [done|]. intros _. by eexists.
    - rewrite lookup_insert_ne by done. split; [|by intros ->]. intros Hd. by destruct (Hdead s'). }
  constructor; unfold holds, owns in *; repeat setoid_rewrite Hin; repeat setoid_rewrite Hlive.
  - naive_solver.
  - intros s' d [Hd|[_ ?]]; [|done]. destruct (Hdead s' (Hp s' d Hd)).
  - naive_solver.
  - naive_solver.
  - naive_solver.
  - naive_solver.
  - intros s' d Hd. apply (Hk s' d). naive_solver.
  - intros d Hf Hd. destruct (Hpath d Hf Hd) as (s' & Hh). exists s'. tauto.
Qed.

Lemma inv_unlink s dir name w :
  name_inv w -> in_state s (Unlinking dir) w -> name_inv (unlink_entry dir name w).
Proof.
  intros [Hl Hp Ho Hu Hun Hr Hk Hpath] Hs.
  assert (Hent : forall d, d <> dir -> entries_of (unlink_entry dir name w) d = entries_of w d)
    by (intros d Hne; unfold entries_of; simpl; by rewrite lookup_insert_ne).
  constructor; try done.
  - intros s' d Hown. destruct (Ho s' d Hown). split; [done|]. unfold complete. rewrite Hent; [done|].
    intros ->. by apply (Hun s s' dir dir).
  - intros s' d Hrem. destruct (decide (d = dir)) as [->|]; [|rewrite Hent by done; by eapply Hr].
    unfold entries_of at 1. simpl. rewrite lookup_insert_eq. simpl. by rewrite (Hr s' dir Hrem).
  - intros s' d Hh. simpl. destruct (decide (dir = d)) as [<-|].
    + rewrite lookup_insert_eq. by eexists.
    + rewrite lookup_insert_ne by done. by eapply Hk.
Qed.

Lemma in_state_of s h w : nw_streams w !! s = Some h -> in_state s (ho_queue h) w.
Proof. intros Hs. by exists h. Qed.

(** The drop of a queue ends, by [remove_path] or with an error. *)
Lemma inv_end s dir w w' :
  name_inv w -> in_state s (Opening dir) w \/ in_state s (Unlinking dir) w \/ in_state s (Removing dir) w ->
  same_streams w w' -> nw_dirs w' = nw_dirs w ->
  nw_path w' = nw_path w \/ (nw_path w' = None /\ forall s' d, ~ owns s' d w) ->
  (nw_failed w' = false -> nw_failed w = false /\ forall d, nw_path w' = Some d -> ~ holds s d w) ->
  name_inv (set_queue_state s NoQueue w').
Proof.
  intros Hi Hs Hsame Hdirs Hpw Hfree. pose proof Hi as [Hl Hp Ho Hu Hun Hr Hk Hpath].
  assert (Hent : forall d, entries_of w' d = entries_of w d) by (intros d; unfold entries_of; by rewrite Hdirs).
  apply inv_move with (w := w); try done; rewrite ?Hdirs; try done.
  - destruct Hs as [Hs|[Hs|Hs]]; by eapply in_state_some.
  - naive_solver.
  - intros s' d _ Hown. unfold complete. rewrite Hent. destruct (Ho s' d Hown).
    destruct Hpw as [->|[_ Hno]]; [done|by destruct (Hno s' d)].
  - intros s' d _ Hrem. rewrite Hent. by eapply Hr.
  - naive_solver.
  - intros d Hf Hd. destruct (Hfree Hf) as [Hf' Hnot]. specialize (Hnot d Hd).
    destruct Hpw as [Heq|[Heq _]]; [|congruence]. rewrite Heq in Hd.
    destruct (Hpath d Hf' Hd) as (s' & Hh). do 4 right. exists s'. split; [|done].
    by intros ->.
Qed.

Lemma inv_open s dir w :
  name_inv w -> in_state s (Opening dir) w -> name_inv (open_dir s w).
Proof.
  intros Hi Hs. destruct (ni_owner w Hi s dir) as [Hd _]; [by right|].
  unfold open_dir. rewrite Hd. apply (inv_let_go s (Opening dir)); [done|done| |done].
  right. exists dir. left. split; [done|by right].
Qed.

Lemma inv_remove_path s dir w :
  name_inv w -> in_state s (Removing dir) w -> name_inv (remove_path s w).
Proof.
  intros Hi Hs. pose proof Hi as [Hl Hp Ho Hu Hun Hr Hk Hpath].
  assert (Hown : forall d, holds s d w -> d = dir).
  { unfold holds, owns. intros d [[H|H]|[H|H]]; pose proof (in_state_fun _ _ _ _ H Hs); congruence. }
  unfold remove_path. destruct (nw_path w) as [d|] eqn:Hd.
  - destruct (entries_of w d) as [|n ns] eqn:He; apply (inv_end s dir w); try done; try tauto.
    + right. split; [done|]. intros s' d' Ho'. destruct (Ho s' d' Ho') as [Hd' Hc].
      injection Hd' as <-. by rewrite Hc in He.
    + intros Hf. split; [done|]. intros d' Hd' Hh. assert (d = d') as <- by congruence.
      apply Hown in Hh as ->. by rewrite (Hr s dir Hs) in He.
  - apply (inv_end s dir w); try done; [tauto|by left|]. intros Hf. split; [done|]. congruence.
Qed.

Lemma inv_name_step w w' : name_inv w -> name_step w w' -> name_inv w'.
Proof.
  intros Hi Hs. destruct Hs as [s w w' Hs Hr|s dir w Hs Hd|s dir w Hs|s q w Hs Hq|s h dir w Hs Hq
    |s h dir name w Hs Hq|s h dir w Hs Hq He|s h dir w Hs Hq|s h dir w Hs Hq].
  - eapply inv_register; eauto.
  - by apply inv_publish.
  - pose proof (in_state_of _ _ _ Hs) as Hin. simpl in Hin.
    unfold begin_drop. rewrite Hs. simpl. pose proof (inv_begin_drop s dir w Hi Hin) as H.
    unfold set_queue_state in H. by rewrite Hs in H.
  - pose proof (in_state_of _ _ _ Hs) as Hin. simpl in Hin. destruct Hq as [->|[dir ->]].
    + unfold begin_drop. rewrite Hs. simpl. by eapply (inv_kill s _ w Hi Hs).
    + rewrite (begin_drop_split false s _ w Hs). simpl. pose proof (inv_begin_drop s dir w Hi Hin) as H.
      eapply (inv_kill s {| ho_alive := true; ho_queue := Opening dir |}); [done| |done].
      unfold set_queue_state. rewrite Hs. simpl. by rewrite lookup_insert_eq.
  - pose proof (in_state_of _ _ _ Hs) as Hin. rewrite Hq in Hin. by eapply inv_open.
  - pose proof (in_state_of _ _ _ Hs) as Hin. rewrite Hq in Hin. by eapply inv_unlink.
  - pose proof (in_state_of _ _ _ Hs) as Hin. rewrite Hq in Hin.
    apply (inv_let_go s (Unlinking dir)); [done|done| |done]. right. exists dir. by right.
  - pose proof (in_state_of _ _ _ Hs) as Hin. rewrite Hq in Hin. by eapply inv_remove_path.
  - pose proof (in_state_of _ _ _ Hs) as Hin.
    apply (inv_end s dir w); try done; [|by left].
    destruct Hq as [Hq|[Hq|Hq]]; rewrite Hq in Hin; tauto.
Qed.

Lemma name_inv_reachable w : name_reachable w -> name_inv w.
Proof. induction 1 as [|w w' _ IH Hs]; [apply name_inv_initial|by eapply inv_name_step]. Qed.

(** ** Property *)

(** C17: The name of a stream can be taken again while the queue of an earlier stream is
    still being removed from the same path, and that removal never touches the queue of
    the new stream.  However the creations, publications and drops of streams of one
    name interleave, call by call, and whichever removals fail: at most one of the
    streams is alive; a published queue is at the path with all of its files until its
    own drop begins; the publication of a queue fails only while the entries of an
    earlier stream's directory, dead already, have not been removed (or after a removal
    has failed); and when all removals have ended without a failure, nothing is left at
    the path. *)
Theorem teardown_spares_successors w :
  name_reachable w ->
  (forall s s', live s w -> live s' w -> s = s') /\
  (forall s dir, in_state s (Published dir) w ->
     live s w /\ nw_path w = Some dir /\ complete w dir) /\
  (nw_failed w = false -> forall s dir,
     nw_streams w !! s = Some {| ho_alive := true; ho_queue := NoQueue |} ->
     (publish_name s dir w).1 = false ->
     exists s' dir', ~ live s' w /\ nw_path w = Some dir' /\ entries_of w dir' <> [] /\
       (in_state s' (Opening dir') w \/ in_state s' (Unlinking dir') w)) /\
  (nw_failed w = false -> (forall s q, in_state s q w -> q = NoQueue) -> nw_path w = None).
Proof.
  intros Hr. destruct (name_inv_reachable w Hr) as [Hl Hp Ho Hu Hun Hrem Hk Hpath].
  split; [done|]. split; [|split].
  - intros s dir Hs. split; [by eapply Hp|]. apply (Ho s). by left.
  - intros Hf s dir Hs. unfold publish_name. destruct (nw_path w) as [d|] eqn:Hd; [|done].
    destruct (entries_of w d) as [|n ns] eqn:He; [done|]. intros _.
    destruct (Hpath d Hf eq_refl) as (s' & Hh). exists s', d.
    assert (Hs' : s' <> s).
    { intros ->. pose proof (in_state_of _ _ _ Hs) as Hin. simpl in Hin. unfold holds, owns in Hh.
      destruct Hh as [[H|H]|[H|H]]; by pose proof (in_state_fun _ _ _ _ H Hin). }
    assert (Hdead : ~ live s' w) by (intros H; apply Hs', Hl; [done|by eexists]).
    split; [done|]. split; [done|]. split; [congruence|]. destruct Hh as [[H|H]|[H|H]]; auto.
    + destruct Hdead. by eapply Hp.
    + rewrite (Hrem s' d H) in He. done.
  - intros Hf Hall. destruct (nw_path w) as [d|] eqn:Hd; [|done].
    destruct (Hpath d Hf eq_refl) as (s & [[H|H]|[H|H]]); by pose proof (Hall s _ H).
Qed.

(** ** Sample: a name that is free before its directory is removed *)

(** The stream 1 was published and is dropped, and the stream 2 is registered. *)
Definition sample_registered : NameWorld :=
  let w1 := default no_streams (register_name 1 no_streams) in
  default no_streams (register_name 2 (begin_drop false 1 (publish_name 1 10 w1).2)).

Lemma sample_registered_reachable : name_reachable sample_registered.
Proof.
  set (w1 := default no_streams (register_name 1 no_streams)).
  assert (H1 : name_reachable w1)
    by (eapply name_next; [apply name_initial|by apply (name_register 1)]).
  assert (H2 : name_reachable (publish_name 1 10 w1).2)
    by (eapply name_next; [exact H1|by apply name_publish]).
  assert (H3 : name_reachable (begin_drop false 1 (publish_name 1 10 w1).2))
    by (eapply name_next; [exact H2|by apply (name_drop 1 (Published 10)); [|right; exists 10%nat]]).
  eapply name_next; [exact H3|by apply (name_register 2)].
Qed.

(** Its queue cannot be published yet ... *)
Example publication_fails_at_first : (publish_name 2 11 sample_registered).1 = false.
Proof. by vm_compute. Qed.

(** ... but as soon as the entries of the old directory are removed; the old removal
    then leaves the new directory alone. *)
Definition sample_emptied : NameWorld :=
  unlink_entry 10 QUEUE_FILE_NAME_PREFIX (unlink_entry 10 SCHEMA_FILE_NAME (open_dir 1 sample_registered)).
Example publication_succeeds_later :
  let (ok, w) := publish_name 2 11 sample_emptied in
  ok = true /\ nw_path (remove_path 1 (set_queue_state 1 (Removing 10) w)) = Some 11%nat.
Proof. by vm_compute. Qed.

Lemma teardown_spares_successors_witness :
  exists s' dir', ~ live s' sample_registered /\ nw_path sample_registered = Some dir' /\
    entries_of sample_registered dir' <> [] /\
    (in_state s' (Opening dir') sample_registered \/ in_state s' (Unlinking dir') sample_registered).
Proof.
  apply (proj1 (proj2 (proj2 (teardown_spares_successors sample_registered sample_registered_reachable)))
    eq_refl 2%nat 11%nat); by vm_compute.
Defined.
