(* ===== verification/Subscriber.v ===== *)
(** * Subscribers (event-system/src/backend/linux/subscriber.rs)

    A subscriber process finds the published streams of an event-system directory,
    reads the schema of a stream and joins its queue, while the publishing process
    may remove and publish streams at any time.  Each system call of the subscriber
    happens at its own moment; its results are those of a class, and what the
    publishing side promises about them is stated in [publisher_promise]. *)

From Stdlib Require Import ZArith Lia Strings.Byte Strings.String.
From stdpp Require Import base list numbers.
From S2P Require Import Prelude RustStr StreamName FileSystem StreamQueue.
Local Open Scope Z_scope.

(** ** Parameters *)

(** The schema type of the external crate [wincode_dynamic]. *)
Class SchemaLibrary := {
  RootSchema : Type;
  RootSchema_eq_dec :: EqDecision RootSchema;
  RootSchema_name : RootSchema -> str;
  (** [wincode::deserialize::<RootSchema>] *)
  deserialize_schema : list byte -> option RootSchema
}.

Record LaneMetadata := {
  lm_lane : Z;
  lm_rejected_items : Z
}.

Record SliceReadGuard := {
  rg_slice : list byte;
  rg_lane_metadata : LaneMetadata
}.

(** What the code uses of [shaq] to read. *)
Class ShaqConsumers := {
  SliceConsumer : Type;
  (** [Broadcast::slice_consumer], at a moment *)
  slice_consumer : nat -> Broadcast -> option SliceConsumer;
  sc_broadcast_handle : SliceConsumer -> Broadcast;
  sc_try_read : SliceConsumer -> option SliceReadGuard * SliceConsumer;
  sc_read_timeout : SliceConsumer -> Z -> option SliceReadGuard * SliceConsumer;
  bc_lane_metadata : Broadcast -> Z -> option LaneMetadata
}.

(** File names are bytes.  Call number [t] of the subscriber gets these results. *)
Class SubscriberCalls := {
  DirHandle : Type;
  FileHandle : Type;
  (** the entries of the streams directory, with those that cannot be read *)
  read_dir : nat -> option (list (option (list Z)));
  (** [Dir::open] on an entry of the streams directory *)
  open_directory : nat -> list Z -> option DirHandle;
  (** the entries of an open directory *)
  directory_iter : nat -> DirHandle -> list (option (list Z));
  (** [openat], read-only and read-write, following links *)
  openat_rdonly : nat -> DirHandle -> list Z -> option FileHandle;
  openat_rdwr : nat -> DirHandle -> list Z -> option FileHandle;
  read_to_end : nat -> FileHandle -> option (list byte);
  (** [fcntl(fd, F_GET_SEALS)] *)
  get_seals : nat -> FileHandle -> Z;
  join_untyped : nat -> FileHandle -> option Broadcast
}.

(** [F_SEAL_SHRINK | F_SEAL_GROW | F_SEAL_SEAL]. *)
Definition REQUIRED_SEALS : Z := Z.lor (Z.lor 0x2 0x4) 0x1.

Inductive CreateAvailableStreamError :=
| StreamIoError
| QueueIdentifierMismatch (expected actual : Z)
| SchemaDeserializationFailed
| StreamNameIsNotUtf8Encoded
| StreamNameIsNotValid (e : StreamNameValidationError)
| InvalidQueueIdentifier
| QueueIsNotSealed
| QueueFileIsNotPublished
| JoiningBroadcastFailed.

(** ** Code that makes system calls *)

Definition Timed (E A : Type) : Type := nat -> Outcome E A * nat.

Definition timed_ret {E A} (a : A) : Timed E A := fun t => (Ok a, t).
Definition timed_err {E A} (e : E) : Timed E A := fun t => (Err e, t).

Definition timed_bind {E A B} (m : Timed E A) (k : A -> Timed E B) : Timed E B := fun t =>
  match m t with
  | (Ok a, t') => k a t'
  | (Err e, t') => (Err e, t')
  | (Panic, t') => (Panic, t')
  | (UB, t') => (UB, t')
  | (Diverge, t') => (Diverge, t')
  end.

Declare Scope timed_scope.
Delimit Scope timed_scope with timed.
Notation "x <- m ;; k" := (timed_bind m (fun x => k))
  (at level 100, m at next level, right associativity) : timed_scope.
Local Open Scope timed_scope.

(** One call, and [?] on its result. *)
Definition timed_call {E A} (f : nat -> A) : Timed E A := fun t => (Ok (f t), S t).
Definition timed_ok_or {E A} (f : nat -> option A) (e : E) : Timed E A := fun t => (ok_or (f t) e, S t).

(** ** Discovery *)

Section Discovery.
  Context `{SchemaLibrary} `{ShaqConsumers} `{SubscriberCalls}.

Record AvailableStream := {
  av_stream_name : StreamName;
  av_schema : RootSchema;
  av_broadcast_handle : Broadcast
}.

Definition read_schema (stream_directory : DirHandle) : Timed CreateAvailableStreamError RootSchema :=
  schema_file <- timed_ok_or
    (fun t => openat_rdonly t stream_directory (as_bytes SCHEMA_FILE_NAME)) StreamIoError ;;
  encoded_schema <- timed_ok_or (fun t => read_to_end t schema_file) StreamIoError ;;
  match deserialize_schema encoded_schema with
  | Some schema => timed_ret schema
  | None => timed_err SchemaDeserializationFailed
  end.

(** The predicate that picks the queue file. *)
Definition is_queue_file (file_name : list Z) : bool :=
  match from_utf8 file_name with
  | Some name => starts_with name QUEUE_FILE_NAME_PREFIX
  | None => false
  end.

(** [filter_map(Result::ok)]. *)
Definition readable {A} (entries : list (option A)) : list A :=
  flat_map (fun entry => match entry with Some a => [a] | None => [] end) entries.

(** The first readable entry that satisfies it. *)
Definition find_queue_file (entries : list (option (list Z))) : option (list Z) :=
  List.find is_queue_file (readable entries).

Definition expected_identifier (file_name : list Z) : option Z :=
  match from_utf8 file_name with
  | None => None
  | Some name =>
      match strip_prefix name QUEUE_FILE_NAME_PREFIX with
      | None => None
      | Some identifier => parse_u64 identifier
      end
  end.

Definition open_queue (stream_directory : DirHandle) : Timed CreateAvailableStreamError Broadcast :=
  entries <- timed_call (fun t => directory_iter t stream_directory) ;;
  match find_queue_file entries with
  | None => timed_err QueueFileIsNotPublished
  | Some file_name =>
      match expected_identifier file_name with
      | None => timed_err InvalidQueueIdentifier
      | Some expected_broadcast_identifier =>
          queue_file <- timed_ok_or (fun t => openat_rdwr t stream_directory file_name) StreamIoError ;;
          queue_file_seals <- timed_call (fun t => get_seals t queue_file) ;;
          let queue_file_is_not_sealed :=
            negb (Z.land queue_file_seals REQUIRED_SEALS =? REQUIRED_SEALS) in
          let seal_check_failed := queue_file_seals =? -1 in
          if seal_check_failed || queue_file_is_not_sealed then timed_err QueueIsNotSealed
          else
            broadcast_handle <- timed_ok_or (fun t => join_untyped t queue_file)
                                  JoiningBroadcastFailed ;;
            let actual_broadcast_identifier := bc_queue_identifier broadcast_handle in
            if negb (expected_broadcast_identifier =? actual_broadcast_identifier)
            then timed_err (QueueIdentifierMismatch expected_broadcast_identifier
                              actual_broadcast_identifier)
            else timed_ret broadcast_handle
      end
  end.

(** The name of a directory entry as a stream name. *)
Definition entry_stream_name (file_name : list Z) :
    Outcome CreateAvailableStreamError StreamName :=
  match from_utf8 file_name with
  | None => Err StreamNameIsNotUtf8Encoded
  | Some name =>
      match StreamName_try_new name with
      | Ok stream_name => Ok stream_name
      | Err e => Err (StreamNameIsNotValid e)
      | _ => Panic
      end
  end.

Definition AvailableStream_try_new (file_name : list Z) :
    Timed CreateAvailableStreamError AvailableStream :=
  stream_name <- (fun t => (entry_stream_name file_name, t)) ;;
  stream_directory <- timed_ok_or (fun t => open_directory t file_name) StreamIoError ;;
  schema <- read_schema stream_directory ;;
  broadcast_handle <- open_queue stream_directory ;;
  timed_ret {| av_stream_name := stream_name; av_schema := schema;
               av_broadcast_handle := broadcast_handle |}.

(** The iterator over the entries, exhausted from the moment [t]. *)
Fixpoint available_from (entries : list (option (list Z))) (t : nat) : list AvailableStream * nat :=
  match entries with
  | [] => ([], t)
  | None :: entries => available_from entries t
  | Some file_name :: entries =>
      let '(result, t) := AvailableStream_try_new file_name t in
      let '(streams, t) := available_from entries t in
      (match result with Ok stream => stream :: streams | _ => streams end, t)
  end.

Definition available_streams (t : nat) : list AvailableStream * nat :=
  match read_dir t with
  | None => ([], S t)
  | Some entries => available_from entries (S t)
  end.

(** ** Subscribers *)

Record Subscriber := {
  sub_slice_consumer : SliceConsumer;
  sub_stream_name : StreamName;
  sub_schema : RootSchema
}.

Inductive TryConnectError := SubscriberSlotsExhausted.
Inductive TryRecvError := RecvEmpty.
Inductive RecvTimeoutError := RecvTimeout.

Definition AvailableStream_try_connect (self : AvailableStream) : Timed TryConnectError Subscriber :=
  fun t =>
    match slice_consumer t (av_broadcast_handle self) with
    | None => (Err SubscriberSlotsExhausted, S t)
    | Some consumer =>
        (Ok {| sub_slice_consumer := consumer;
               sub_stream_name := av_stream_name self;
               sub_schema := av_schema self |}, S t)
    end.

Definition AvailableStream_stream_name (self : AvailableStream) : StreamName := av_stream_name self.
Definition AvailableStream_type_name (self : AvailableStream) : str := RootSchema_name (av_schema self).
Definition AvailableStream_stream_schema (self : AvailableStream) : RootSchema := av_schema self.
Definition Subscriber_stream_name (self : Subscriber) : StreamName := sub_stream_name self.
Definition Subscriber_type_name (self : Subscriber) : str := RootSchema_name (sub_schema self).

Record StreamMessage := {
  sm_schema : RootSchema;
  sm_read_guard : SliceReadGuard
}.

Definition with_consumer (self : Subscriber) (consumer : SliceConsumer) : Subscriber :=
  {| sub_slice_consumer := consumer; sub_stream_name := sub_stream_name self;
     sub_schema := sub_schema self |}.

Definition Subscriber_try_recv (self : Subscriber) : Outcome TryRecvError StreamMessage * Subscriber :=
  let '(read_guard, consumer) := sc_try_read (sub_slice_consumer self) in
  (match read_guard with
   | Some read_guard => Ok {| sm_schema := sub_schema self; sm_read_guard := read_guard |}
   | None => Err RecvEmpty
   end, with_consumer self consumer).

Definition Subscriber_recv_timeout (self : Subscriber) (timeout : Z) :
    Outcome RecvTimeoutError StreamMessage * Subscriber :=
  let '(read_guard, consumer) := sc_read_timeout (sub_slice_consumer self) timeout in
  (match read_guard with
   | Some read_guard => Ok {| sm_schema := sub_schema self; sm_read_guard := read_guard |}
   | None => Err RecvTimeout
   end, with_consumer self consumer).

Definition StreamMessage_payload (self : StreamMessage) : list byte := rg_slice (sm_read_guard self).
Definition StreamMessage_lane_metadata (self : StreamMessage) : LaneMetadata :=
  rg_lane_metadata (sm_read_guard self).

(** [(0..slots).map_while(..)], from [lane] on. *)
Fixpoint lanes_from (broadcast : Broadcast) (n : nat) (lane : Z) : list LaneMetadata :=
  match n with
  | O => []
  | S n =>
      match bc_lane_metadata broadcast lane with
      | Some metadata => metadata :: lanes_from broadcast n (lane + 1)
      | None => []
      end
  end.

Definition Subscriber_lanes_metadata (self : Subscriber) : Broadcast :=
  sc_broadcast_handle (sub_slice_consumer self).

Definition LanesMetadata_iter (self : Broadcast) : list LaneMetadata :=
  lanes_from self (Z.to_nat (bc_producer_slots self)) 0.

End Discovery.

(** ** What the publishing side promises *)

Section Promise.
  Context `{SchemaLibrary} `{ShaqConsumers} `{SubscriberCalls}.

(** A stream as it was published: one directory object for its whole life. *)
Record Publication := {
  pn_name : StreamName;
  pn_encoded_schema : list byte;
  pn_broadcast : Broadcast
}.

Definition queue_file_name (identifier : Z) : str := QUEUE_FILE_NAME_PREFIX ++ display identifier.

(** [published] maps the directories of published streams to what they were
    published with.  A directory is published complete and is never changed except
    that its entries are removed; its queue has its own identifier.  Nothing is
    promised about where the link of the queue leads: descriptors are reused. *)
Record publisher_promise (published : DirHandle -> option Publication) : Prop := {
  pp_name : forall t name d p, open_directory t name = Some d -> published d = Some p ->
    name = as_bytes (StreamName_as_str (pn_name p));
  pp_queue_file : forall t d p name, published d = Some p -> In (Some name) (directory_iter t d) ->
    is_queue_file name = true -> name = as_bytes (queue_file_name (bc_queue_identifier (pn_broadcast p)));
  pp_schema : forall t t' d p f bytes, published d = Some p ->
    openat_rdonly t d (as_bytes SCHEMA_FILE_NAME) = Some f -> read_to_end t' f = Some bytes ->
    bytes = pn_encoded_schema p;
  pp_identifier : forall t f b d p, join_untyped t f = Some b -> published d = Some p ->
    bc_queue_identifier b = bc_queue_identifier (pn_broadcast p) -> b = pn_broadcast p;
  pp_width : forall d p, published d = Some p ->
    in_width U64 (bc_queue_identifier (pn_broadcast p)) /\ wf_name (pn_name p)
}.

(** ** Lemmas *)

Lemma timed_bind_Ok {E A B} (m : Timed E A) (k : A -> Timed E B) t b t' :
  timed_bind m k t = (Ok b, t') <-> exists a t1, m t = (Ok a, t1) /\ k a t1 = (Ok b, t').
Proof.
  unfold timed_bind. destruct (m t) as [[a|e| | |] t1]; split; try (by intros (? & ? & [=] & _));
    try done; [by exists a, t1|]. by intros (? & ? & [= <- <-] & ?).
Qed.

Lemma timed_ok_or_Ok {E A} (f : nat -> option A) (e : E) t a t' :
  timed_ok_or f e t = (Ok a, t') <-> f t = Some a /\ t' = S t.
Proof.
  unfold timed_ok_or. destruct (f t) as [a'|]; simpl; split.
  - by intros [= -> <-].
  - by intros [[= ->] ->].
  - done.
  - by intros [? _].
Qed.

Lemma in_readable {A} (entries : list (option A)) a : In a (readable entries) <-> In (Some a) entries.
Proof.
  unfold readable. rewrite in_flat_map. split.
  - intros ([x|] & Hin & Ha); [|done]. by destruct Ha as [<-|[]].
  - intros Hin. exists (Some a). split; [done|by left].
Qed.

Lemma ascii_valid s : Forall (fun c => 0 <= c < 0x80) s -> valid_str s.
Proof.
  intros Hs. unfold valid_str. eapply List.Forall_impl; [|exact Hs]. simpl. intros c Hc.
  apply is_scalar_value_spec. lia.
Qed.

Lemma queue_file_name_valid n : 0 <= n -> valid_str (queue_file_name n).
Proof.
  intros Hn. apply ascii_valid. unfold queue_file_name. apply Forall_app. split.
  - unfold QUEUE_FILE_NAME_PREFIX. repeat (constructor; [done|]). constructor.
  - eapply List.Forall_impl; [|by apply display_ascii]. simpl. intros. lia.
Qed.

(** The name of the queue file tells its identifier. *)
Lemma expected_identifier_queue_file n :
  in_width U64 n -> expected_identifier (as_bytes (queue_file_name n)) = Some n.
Proof.
  intros Hn. unfold expected_identifier.
  rewrite from_utf8_as_bytes by (apply queue_file_name_valid, Hn).
  unfold queue_file_name. rewrite strip_prefix_app. by apply parse_u64_display.
Qed.

Lemma starts_with_app prefix s : starts_with (prefix ++ s) prefix = true.
Proof. induction prefix as [|p prefix IH]; simpl; [by destruct s|]. by rewrite Z.eqb_refl. Qed.

Lemma is_queue_file_name n : 0 <= n -> is_queue_file (as_bytes (queue_file_name n)) = true.
Proof.
  intros Hn. unfold is_queue_file. rewrite from_utf8_as_bytes by by apply queue_file_name_valid.
  apply starts_with_app.
Qed.

Lemma open_queue_Ok d t b t' :
  open_queue d t = (Ok b, t') ->
  exists name f id t1 t2 t3 t4, In (Some name) (directory_iter t1 d) /\ is_queue_file name = true /\
    expected_identifier name = Some id /\ openat_rdwr t2 d name = Some f /\
    get_seals t3 f <> -1 /\ Z.land (get_seals t3 f) REQUIRED_SEALS = REQUIRED_SEALS /\
    join_untyped t4 f = Some b /\ bc_queue_identifier b = id.
Proof.
  unfold open_queue. rewrite timed_bind_Ok. intros (entries & t1 & [= <- <-] & Hk).
  destruct (find_queue_file _) as [name|] eqn:Hf; [|done].
  apply find_some in Hf as [Hin%in_readable Hq].
  destruct (expected_identifier name) as [id|] eqn:Hid; [|done].
  apply timed_bind_Ok in Hk as (f & t2 & [Ho ->]%timed_ok_or_Ok & Hk).
  apply timed_bind_Ok in Hk as (seals & t3 & [= <- <-] & Hk).
  set (seals := get_seals (S (S t)) f) in Hk.
  destruct (Z.eqb_spec seals (-1)) as [|Hne]; [done|].
  destruct (Z.eqb_spec (Z.land seals REQUIRED_SEALS) REQUIRED_SEALS) as [Hs|]; [|done].
  apply timed_bind_Ok in Hk as (b' & t4 & [Hj ->]%timed_ok_or_Ok & Hk).
  destruct (Z.eqb_spec id (bc_queue_identifier b')) as [->|]; [|done]. injection Hk as -> _.
  exists name, f, (bc_queue_identifier b), t, (S t), (S (S t)), (S (S (S t))). done.
Qed.

Lemma read_schema_Ok d t s t' :
  read_schema d t = (Ok s, t') ->
  exists f bytes t1 t2, openat_rdonly t1 d (as_bytes SCHEMA_FILE_NAME) = Some f /\
    read_to_end t2 f = Some bytes /\ deserialize_schema bytes = Some s.
Proof.
  unfold read_schema. rewrite timed_bind_Ok. intros (f & t1 & [Ho ->]%timed_ok_or_Ok & Hk).
  apply timed_bind_Ok in Hk as (bytes & t2 & [Hr ->]%timed_ok_or_Ok & Hk).
  destruct (deserialize_schema bytes) as [s'|] eqn:Hd; [|done]. injection Hk as -> _.
  by exists f, bytes, t, (S t).
Qed.

Lemma entry_stream_name_Ok name n :
  entry_stream_name name = Ok n -> name = as_bytes (StreamName_as_str n) /\ wf_name n.
Proof.
  unfold entry_stream_name. destruct (from_utf8 name) as [s|] eqn:Hs; [|done].
  apply from_utf8_Some in Hs. destruct (StreamName_try_new s) as [n'|e| | |] eqn:Hn; try done.
  intros [= ->]. apply try_new_ok in Hn as [<- Hw]. by rewrite <- Hs.
Qed.

Lemma as_bytes_inj a b : valid_str a -> valid_str b -> as_bytes a = as_bytes b -> a = b.
Proof.
  intros Ha Hb E. apply from_utf8_as_bytes in Ha, Hb. rewrite E in Ha. congruence.
Qed.

Lemma wf_name_valid n : wf_name n -> valid_str (StreamName_as_str n).
Proof.
  intros (_ & _ & Hn). apply ascii_valid. eapply List.Forall_impl; [|exact Hn].
  intros c. apply name_char_ascii.
Qed.

(** The converse: calls that succeed. *)
Lemma read_schema_run d t f bytes s :
  openat_rdonly t d (as_bytes SCHEMA_FILE_NAME) = Some f -> read_to_end (S t) f = Some bytes ->
  deserialize_schema bytes = Some s -> read_schema d t = (Ok s, S (S t)).
Proof.
  intros Ho Hr Hd. apply timed_bind_Ok. exists f, (S t). rewrite timed_ok_or_Ok. split; [done|].
  apply timed_bind_Ok. exists bytes, (S (S t)). rewrite timed_ok_or_Ok. split; [done|]. by rewrite Hd.
Qed.

Lemma open_queue_run d t name f b :
  find_queue_file (directory_iter t d) = Some name ->
  expected_identifier name = Some (bc_queue_identifier b) ->
  openat_rdwr (S t) d name = Some f -> get_seals (S (S t)) f <> -1 ->
  Z.land (get_seals (S (S t)) f) REQUIRED_SEALS = REQUIRED_SEALS ->
  join_untyped (S (S (S t))) f = Some b -> open_queue d t = (Ok b, S (S (S (S t)))).
Proof.
  intros Hf He Ho Hne Hs Hj. apply timed_bind_Ok. eexists _, _. split; [done|]. rewrite Hf, He.
  apply timed_bind_Ok. exists f, (S (S t)). rewrite timed_ok_or_Ok. split; [done|].
  apply timed_bind_Ok. eexists _, _. split; [done|]. cbv zeta.
  rewrite (proj2 (Z.eqb_neq _ _) Hne), (proj2 (Z.eqb_eq _ _) Hs). cbn [negb orb].
  apply timed_bind_Ok. exists b, (S (S (S (S t)))). rewrite timed_ok_or_Ok. split; [done|].
  by rewrite Z.eqb_refl.
Qed.

Lemma try_new_run n t d s t1 b t2 :
  wf_name n -> open_directory t (as_bytes (StreamName_as_str n)) = Some d ->
  read_schema d (S t) = (Ok s, t1) -> open_queue d t1 = (Ok b, t2) ->
  AvailableStream_try_new (as_bytes (StreamName_as_str n)) t =
    (Ok {| av_stream_name := n; av_schema := s; av_broadcast_handle := b |}, t2).
Proof.
  intros Hw Hd Hs Hb. apply timed_bind_Ok. exists n, t. split.
  { unfold entry_stream_name. rewrite from_utf8_as_bytes by by apply wf_name_valid.
    by rewrite (proj2 (try_new_ok (StreamName_as_str n) n)) by (split; [done|apply Hw]). }
  apply timed_bind_Ok. exists d, (S t). rewrite timed_ok_or_Ok. split; [done|].
  apply timed_bind_Ok. exists s, t1. split; [done|].
  apply timed_bind_Ok. by exists b, t2.
Qed.

Lemma try_new_Ok file_name t a t' :
  AvailableStream_try_new file_name t = (Ok a, t') ->
  exists d t1 t2 t3, open_directory t file_name = Some d /\
    file_name = as_bytes (StreamName_as_str (av_stream_name a)) /\ wf_name (av_stream_name a) /\
    read_schema d t1 = (Ok (av_schema a), t2) /\ open_queue d t2 = (Ok (av_broadcast_handle a), t3).
Proof.
  unfold AvailableStream_try_new. rewrite timed_bind_Ok. intros (n & t0 & [= Hn <-] & Hk).
  apply timed_bind_Ok in Hk as (d & t1 & [Hd ->]%timed_ok_or_Ok & Hk).
  apply timed_bind_Ok in Hk as (s & t2 & Hs & Hk).
  apply timed_bind_Ok in Hk as (b & t3 & Hb & Hk). injection Hk as <- _. simpl.
  apply entry_stream_name_Ok in Hn as [-> Hw]. by exists d, (S t), t2, t3.
Qed.

Lemma try_new_consistent published file_name t a t' d p :
  publisher_promise published -> AvailableStream_try_new file_name t = (Ok a, t') ->
  open_directory t file_name = Some d -> published d = Some p ->
  av_stream_name a = pn_name p /\
  deserialize_schema (pn_encoded_schema p) = Some (av_schema a) /\
  av_broadcast_handle a = pn_broadcast p.
Proof.
  intros [Hname Hqf Hschema Hid Hw] (d' & t1 & t2 & t3 & Hd & Hfn & Hwf & Hs & Hb)%try_new_Ok Hd' Hp.
  rewrite Hd in Hd'. injection Hd' as ->. destruct (Hw d p Hp) as [Hiw Hwn].
  apply open_queue_Ok in Hb as (name & f & id & u1 & u2 & u3 & u4 & Hin & Hq & He & _ & _ & _ & Hj & Hbid).
  split_and!.
  - pose proof (Hname _ _ _ _ Hd Hp) as E. rewrite Hfn in E.
    apply as_bytes_inj in E; [|by apply wf_name_valid..].
    destruct (av_stream_name a), (pn_name p). by simpl in *; subst.
  - apply read_schema_Ok in Hs as (f' & bytes & v1 & v2 & Ho & Hr & Hds).
    by rewrite <- (Hschema _ _ _ _ _ _ Hp Ho Hr).
  - eapply Hid; [done..|]. rewrite Hbid.
    rewrite (Hqf _ _ _ _ Hp Hin Hq), expected_identifier_queue_file in He by done. congruence.
Qed.

(** C18: A stream that a subscriber discovers is one that was published: whatever
    streams are removed and published between its system calls, the schema and the
    queue of an [AvailableStream] are those of the same stream, of the given name,
    although the link of the queue may lead to another queue by then.  In any case
    the queue was joined from a file with all required seals. *)
Theorem discovered_stream_is_consistent published file_name t a t' :
  publisher_promise published ->
  AvailableStream_try_new file_name t = (Ok a, t') ->
  (exists f t1 t2, get_seals t1 f <> -1 /\ Z.land (get_seals t1 f) REQUIRED_SEALS = REQUIRED_SEALS /\
     join_untyped t2 f = Some (av_broadcast_handle a)) /\
  exists d, open_directory t file_name = Some d /\
    forall p, published d = Some p ->
      av_stream_name a = pn_name p /\
      deserialize_schema (pn_encoded_schema p) = Some (av_schema a) /\
      av_broadcast_handle a = pn_broadcast p.
Proof.
  intros Hpp Hnew. pose proof Hnew as (d & t1 & t2 & t3 & Hd & _ & _ & _ & Hb)%try_new_Ok.
  apply open_queue_Ok in Hb as (name & f & id & u1 & u2 & u3 & u4 & _ & _ & _ & _ & Hne & Hsl & Hj & _).
  split; [by exists f, u3, u4|]. exists d. split; [done|]. intros p Hp. by eapply try_new_consistent.
Qed.
End Promise.
