(* ===== verification/Discovery.v ===== *)
(** * Discovery of published queues

    The publishing side ([StreamQueue]) and the subscribing side ([Subscriber])
    together: the file system that publication leaves behind is one in which
    subscribers find the stream, and the promises that subscribers rely on hold in
    it. *)

From Stdlib Require Import ZArith Lia Strings.Byte Strings.String.
From stdpp Require Import base list numbers.
From S2P Require Import Prelude RustStr StreamName FileSystem StreamQueue Subscriber.
Local Open Scope Z_scope.

(** What a link of [/proc] leads to. *)
Record QueueFile := {
  qf_seals : Z;
  qf_broadcast : option Broadcast
}.

(** The system calls of a subscriber while the streams directory has the entries
    [streams] and the links of [/proc] lead where [proc] says. *)
Section Snapshot.
  Context (streams : list (str * Node)) (proc : str -> option QueueFile).

Definition lookup_bytes (name : list Z) (entries : list (str * Node)) : option Node :=
  snd <$> List.find (fun e => bool_decide (as_bytes e.1 = name)) entries.

(** The names of a directory's entries, in the order of its listing. *)
Definition listing (entries : list (str * Node)) : list (option (list Z)) :=
  map (fun e => Some (as_bytes e.1)) entries.

Definition dot_entries : list (option (list Z)) := [Some (as_bytes (lit ".")); Some (as_bytes (lit ".."))].

#[local] Instance snapshot_calls : SubscriberCalls := {
  DirHandle := list (str * Node);
  FileHandle := list byte + QueueFile;
  read_dir _ := Some (listing streams);
  open_directory _ name :=
    match lookup_bytes name streams with Some (Directory es) => Some es | _ => None end;
  directory_iter _ es := dot_entries ++ listing es;
  openat_rdonly _ es name :=
    match lookup_bytes name es with Some (RegularFile contents) => Some (inl contents) | _ => None end;
  openat_rdwr _ es name :=
    match lookup_bytes name es with Some (Symlink target) => inr <$> proc target | _ => None end;
  read_to_end _ f := match f with inl contents => Some contents | inr _ => None end;
  get_seals _ f := match f with inr q => qf_seals q | inl _ => -1 end;
  join_untyped _ f := match f with inr q => qf_broadcast q | inl _ => None end
}.

Context `{SchemaLibrary} `{ShaqConsumers}.

(** The streams that a subscriber finds. *)
Definition snapshot_streams : list AvailableStream := (available_streams 0%nat).1.

(** The result for one entry does not depend on the moment. *)
Definition snapshot_try_new (name : list Z) : Outcome CreateAvailableStreamError AvailableStream :=
  (AvailableStream_try_new name 0%nat).1.

Lemma timed_bind_fst {E A B} (m : Timed E A) (k : A -> Timed E B) t :
  (timed_bind m k t).1 = match (m t).1 with
                         | Ok a => (k a (m t).2).1
                         | Err e => Err e | Panic => Panic | UB => UB | Diverge => Diverge
                         end.
Proof. unfold timed_bind. by destruct (m t) as [[a|e| | |] t']. Qed.

(** Code whose result does not depend on the moment. *)
Definition steady {E A} (m : Timed E A) : Prop := forall t t', (m t).1 = (m t').1.

Lemma steady_bind {E A B} (m : Timed E A) (k : A -> Timed E B) :
  steady m -> (forall a, steady (k a)) -> steady (timed_bind m k).
Proof.
  intros Hm Hk t t'. rewrite !timed_bind_fst, (Hm t t'). destruct (m t').1; try done. apply Hk.
Qed.

Lemma steady_open_queue d : steady (open_queue d).
Proof.
  apply steady_bind; [done|]. intros entries. destruct (find_queue_file entries) as [name|]; [|done].
  destruct (expected_identifier name); [|done].
  apply steady_bind; [done|]. intros f. apply steady_bind; [done|]. intros seals. cbv zeta.
  case_match; [done|]. apply steady_bind; [done|]. intros b. by case_match.
Qed.

Lemma steady_read_schema d : steady (read_schema d).
Proof.
  apply steady_bind; [done|]. intros f. apply steady_bind; [done|]. intros bytes.
  by destruct (deserialize_schema bytes).
Qed.

Lemma steady_try_new name : steady (AvailableStream_try_new name).
Proof.
  apply steady_bind; [done|]. intros n. apply steady_bind; [done|]. intros d.
  apply steady_bind; [apply steady_read_schema|]. intros s.
  apply steady_bind; [apply steady_open_queue|done].
Qed.

(** The results for the entries of a listing, without the errors. *)
Definition found (names : list (list Z)) : list AvailableStream :=
  flat_map (fun name => match snapshot_try_new name with Ok a => [a] | _ => [] end) names.

Lemma available_from_found entries t : (available_from entries t).1 = found (readable entries).
Proof.
  revert t. induction entries as [|[name|] entries IH]; intros t; simpl; [done| |apply IH].
  unfold snapshot_try_new. rewrite (steady_try_new name 0%nat t).
  destruct (AvailableStream_try_new name t) as [r t1]. specialize (IH t1).
  destruct (available_from entries t1) as [ss t2]. simpl in *. rewrite <- IH. by destruct r.
Qed.

Lemma readable_listing es : readable (listing es) = map (fun e => as_bytes e.1) es.
Proof. unfold readable, listing. induction es as [|e es IH]; simpl; [done|]. by rewrite IH. Qed.

Lemma snapshot_streams_found : snapshot_streams = found (map (fun e => as_bytes e.1) streams).
Proof. unfold snapshot_streams, available_streams. simpl. by rewrite available_from_found, readable_listing. Qed.

Lemma in_found names a :
  In a (found names) -> In (as_bytes (StreamName_as_str (av_stream_name a))) names /\ wf_name (av_stream_name a).
Proof.
  unfold found. rewrite in_flat_map. intros (name & Hin & Ha). unfold snapshot_try_new in Ha.
  destruct (AvailableStream_try_new name 0%nat) as [r t'] eqn:Hr. simpl in Ha.
  destruct r as [a'| | | |]; try done. destruct Ha as [->|[]].
  apply try_new_Ok in Hr as (_ & _ & _ & _ & _ & E & Hw & _). by rewrite <- E.
Qed.
End Snapshot.

(** ** A published queue is found *)

Lemma lookup_bytes_cons n node es : lookup_bytes (as_bytes n) ((n, node) :: es) = Some node.
Proof. unfold lookup_bytes. simpl. by rewrite bool_decide_eq_true_2. Qed.

Lemma lookup_bytes_skip n m node es :
  as_bytes m <> as_bytes n -> lookup_bytes (as_bytes n) ((m, node) :: es) = lookup_bytes (as_bytes n) es.
Proof. intros Hne. unfold lookup_bytes. simpl. by rewrite bool_decide_eq_false_2. Qed.

Lemma queue_file_is_not_schema n :
  0 <= n -> as_bytes (queue_file_name n) <> as_bytes SCHEMA_FILE_NAME.
Proof.
  intros Hn E. assert (Hs : is_queue_file (as_bytes SCHEMA_FILE_NAME) = false) by by vm_compute.
  rewrite <- E, is_queue_file_name in Hs by done. done.
Qed.

(** A name whose encoding is that of a stream name is that name. *)
Lemma as_bytes_name_inj s n : wf_name n -> as_bytes s = as_bytes (StreamName_as_str n) -> s = StreamName_as_str n.
Proof.
  intros Hn E. apply as_bytes_inj; [|by apply wf_name_valid|done].
  apply ascii_valid. destruct Hn as (_ & _ & Hc). rewrite <- as_bytes_names in Hc.
  unfold StreamName_as_str in E. rewrite <- E, as_bytes_names in Hc.
  eapply List.Forall_impl; [|exact Hc]. intros c. apply name_char_ascii.
Qed.

Lemma StreamName_as_str_inj a b : StreamName_as_str a = StreamName_as_str b -> a = b.
Proof. destruct a, b. unfold StreamName_as_str. simpl. by intros ->. Qed.

Lemma lookup_entry_in name es node : lookup_entry name es = Some node -> In (name, node) es.
Proof.
  induction es as [|[n nd] es IH]; simpl; [done|]. case_bool_decide as E; [intros [= ->]|auto].
  left. by rewrite E.
Qed.

Section Found.
  Context `{SchemaLibrary} `{ShaqConsumers} (proc : str -> option QueueFile).

(** The queue behind a link is the given one and has the required seals. *)
Definition serves (target : str) (b : Broadcast) : Prop :=
  exists seals, proc target = Some {| qf_seals := seals; qf_broadcast := Some b |} /\
    seals <> -1 /\ Z.land seals REQUIRED_SEALS = REQUIRED_SEALS.

Lemma snapshot_try_new_published name enc schema b target rest :
  wf_name name -> in_width U64 (bc_queue_identifier b) -> deserialize_schema enc = Some schema ->
  serves target b ->
  snapshot_try_new
    ((StreamName_as_str name, published_queue enc (bc_queue_identifier b) target) :: rest) proc
    (as_bytes (StreamName_as_str name)) =
  Ok {| av_stream_name := name; av_schema := schema; av_broadcast_handle := b |}.
Proof.
  intros Hw Hid Hde (seals & Hproc & Hne & Hsl).
  unfold snapshot_try_new. set (streams := _ :: rest). set (calls := snapshot_calls streams proc).
  set (f := inr {| qf_seals := seals; qf_broadcast := Some b |} : list byte + QueueFile).
  set (es := [(queue_file_name (bc_queue_identifier b), Symlink target);
             (SCHEMA_FILE_NAME, RegularFile enc)]).
  rewrite (try_new_run (H1 := calls) name 0 es schema 3 b 7); [done|done|..].
  - change (match lookup_bytes (as_bytes (StreamName_as_str name)) streams with
            | Some (Directory es) => Some es | _ => None end = Some es).
    unfold streams. by rewrite lookup_bytes_cons.
  - apply (read_schema_run (H1 := calls) es 1 (inl enc : list byte + QueueFile) enc); [|done|done]. cbn [calls openat_rdonly snapshot_calls].
    unfold es. by rewrite lookup_bytes_skip, lookup_bytes_cons by (apply queue_file_is_not_schema, Hid).
  - apply (open_queue_run (H1 := calls) es 3 (as_bytes (queue_file_name (bc_queue_identifier b))) f); try done.
    + unfold find_queue_file, es. cbn [calls directory_iter snapshot_calls listing map fst].
      unfold readable. cbn [flat_map app dot_entries].
      assert (is_queue_file (as_bytes (lit ".")) = false) as Hd1 by by vm_compute.
      assert (is_queue_file (as_bytes (lit "..")) = false) as Hd2 by by vm_compute.
      cbn [List.find]. rewrite Hd1, Hd2. by rewrite is_queue_file_name by apply Hid.
    + by apply expected_identifier_queue_file.
    + cbn [calls openat_rdwr snapshot_calls]. unfold es. rewrite lookup_bytes_cons, Hproc. done.
Qed.

(** The result for one entry depends only on the entries of that name. *)
Lemma snapshot_try_new_ext streams streams' name :
  lookup_bytes name streams = lookup_bytes name streams' ->
  snapshot_try_new streams proc name = snapshot_try_new streams' proc name.
Proof.
  intros Hl. unfold snapshot_try_new, AvailableStream_try_new. rewrite !timed_bind_fst. cbn [fst snd].
  destruct (entry_stream_name name); try done. rewrite !timed_bind_fst.
  unfold timed_ok_or. cbn [open_directory snapshot_calls]. by rewrite Hl.
Qed.

(** Under the name of a stream, [lookup_bytes] is the lookup of the file system. *)
Lemma lookup_bytes_entry n es :
  wf_name n -> lookup_bytes (as_bytes (StreamName_as_str n)) es = lookup_entry (StreamName_as_str n) es.
Proof.
  intros Hn. induction es as [|[m node] es IH]; [done|]. cbn [lookup_entry]. case_bool_decide as Hm.
  - subst m. by rewrite lookup_bytes_cons.
  - rewrite lookup_bytes_skip; [done|]. intros E. by apply as_bytes_name_inj in E.
Qed.

Lemma snapshot_try_new_Ok streams name a :
  snapshot_try_new streams proc name = Ok a ->
  name = as_bytes (StreamName_as_str (av_stream_name a)) /\ wf_name (av_stream_name a) /\
  is_Some (lookup_entry (StreamName_as_str (av_stream_name a)) streams).
Proof.
  unfold snapshot_try_new. set (calls := snapshot_calls streams proc).
  destruct (AvailableStream_try_new name 0%nat) as [r t'] eqn:Hr. cbn [fst]. intros ->.
  apply try_new_Ok in Hr as (d & _ & _ & _ & Hd & E & Hw & _). split; [done|]. split; [done|].
  cbn [calls open_directory snapshot_calls] in Hd. rewrite E, lookup_bytes_entry in Hd by done.
  by destruct (lookup_entry _ streams).
Qed.

(** A stream is found exactly when the directory of its name leads to it. *)
Lemma in_snapshot_streams streams a :
  In a (snapshot_streams streams proc) <->
  snapshot_try_new streams proc (as_bytes (StreamName_as_str (av_stream_name a))) = Ok a.
Proof.
  rewrite snapshot_streams_found. unfold found. rewrite in_flat_map. split.
  - intros (name & _ & Ha). destruct (snapshot_try_new streams proc name) as [a'| | | |] eqn:E; try done.
    destruct Ha as [->|[]]. by apply snapshot_try_new_Ok in E as E'; destruct E' as [<- _].
  - intros E. eexists. split; [|rewrite E; by left]. apply snapshot_try_new_Ok in E as (_ & Hw & [node Hl]).
    apply in_map_iff. exists (StreamName_as_str (av_stream_name a), node). split; [done|].
    by apply lookup_entry_in.
Qed.

(** Two directories that agree on all names but one serve the same other streams. *)
Lemma snapshot_streams_agree streams streams' name a :
  wf_name name ->
  (forall n, n <> StreamName_as_str name -> lookup_entry n streams = lookup_entry n streams') ->
  av_stream_name a <> name ->
  In a (snapshot_streams streams proc) -> In a (snapshot_streams streams' proc).
Proof.
  intros Hw Hl Hne. rewrite !in_snapshot_streams. intros E.
  apply snapshot_try_new_Ok in E as E'. destruct E' as (_ & Ha & _). rewrite <- E. symmetry.
  apply snapshot_try_new_ext. rewrite !lookup_bytes_entry by done. apply Hl. intros En.
  apply Hne. by apply StreamName_as_str_inj.
Qed.

(** The other entries are other streams. *)
Lemma found_other streams name (es : list (str * Node)) :
  wf_name name -> ~ In (StreamName_as_str name) (map fst es) ->
  Forall (fun a => av_stream_name a <> name) (found streams proc (map (fun e : str * Node => as_bytes e.1) es)).
Proof.
  intros Hw Hnot. apply List.Forall_forall. intros a Ha Heq. apply in_found in Ha as [Hin _]. rewrite Heq in Hin. apply Hnot.
  apply in_map_iff in Hin as (e & E & He). apply as_bytes_name_inj in E; [|done].
  rewrite <- E. by apply in_map.
Qed.

Lemma not_in_remove_entry name es : ~ In name (map fst (remove_entry name es)).
Proof.
  intros (e & E & He)%in_map_iff. unfold remove_entry in He. apply List.filter_In in He as [_ He].
  by rewrite E, bool_decide_eq_true_2 in He.
Qed.

(** A published queue is found first, and the rest are other streams. *)
Lemma snapshot_streams_set name enc schema b target es :
  wf_name name -> in_width U64 (bc_queue_identifier b) -> deserialize_schema enc = Some schema ->
  serves target b ->
  exists rest, snapshot_streams
      (set_entry (StreamName_as_str name) (published_queue enc (bc_queue_identifier b) target) es) proc =
    {| av_stream_name := name; av_schema := schema; av_broadcast_handle := b |} :: rest /\
    Forall (fun a => av_stream_name a <> name) rest.
Proof.
  intros Hw Hid Hde Hs. eexists. split.
  - rewrite snapshot_streams_found. unfold set_entry. cbn [map fst found flat_map].
    by rewrite (snapshot_try_new_published name enc schema).
  - apply found_other; [done|]. apply not_in_remove_entry.
Qed.

(** Without the entry of a name, exactly the streams of other names are found. *)
Lemma removed_others name es pes a :
  wf_name name -> (forall n, lookup_entry n pes = lookup_entry n (remove_entry (StreamName_as_str name) es)) ->
  In a (snapshot_streams pes proc) <-> In a (snapshot_streams es proc) /\ av_stream_name a <> name.
Proof.
  intros Hw Hl. assert (Hsame : forall n, n <> StreamName_as_str name -> lookup_entry n pes = lookup_entry n es)
    by (intros n Hn; by rewrite Hl, lookup_remove_other).
  split.
  - intros Ha. assert (Hne : av_stream_name a <> name).
    { intros E. apply in_snapshot_streams, snapshot_try_new_Ok in Ha as (_ & _ & [node Hs]).
      by rewrite E, Hl, lookup_remove_same in Hs. }
    split; [|done]. by apply (snapshot_streams_agree pes es name).
  - intros [Ha Hne]. apply (snapshot_streams_agree es pes name); [done| |done|done].
    intros n Hn. by rewrite Hsame.
Qed.

(** With a new entry for a name, the streams of other names are found as before. *)
Lemma set_entry_others name node es a0 rest a :
  wf_name name -> av_stream_name a0 = name ->
  snapshot_streams (set_entry (StreamName_as_str name) node es) proc = a0 :: rest ->
  Forall (fun a => av_stream_name a <> name) rest ->
  In a rest <-> In a (snapshot_streams es proc) /\ av_stream_name a <> name.
Proof.
  intros Hw Ha0 Hst Hrest. rewrite List.Forall_forall in Hrest. split.
  - intros Ha. specialize (Hrest a Ha) as Hne. split; [|done].
    apply (snapshot_streams_agree (set_entry (StreamName_as_str name) node es) es name); [done| |done|].
    + intros n Hn. by apply lookup_set_other.
    + rewrite Hst. by right.
  - intros [Ha Hne].
    assert (Hin : In a (snapshot_streams (set_entry (StreamName_as_str name) node es) proc)).
    { apply (snapshot_streams_agree es _ name); [done| |done|done]. intros n Hn. by rewrite lookup_set_other. }
    rewrite Hst in Hin. by destruct Hin as [<-|Hin].
Qed.
End Found.

(** C19: Discovery follows publication.  After [StreamQueue::create] succeeded, a
    subscriber of the directory finds the stream, with its name, its schema and its
    queue, exactly once and first, as long as the link in [/proc] leads to the
    sealed queue; and besides it exactly the streams of other names that a
    subscriber found before.  After the queue is dropped, and no system call fails,
    it finds exactly the streams of other names that were found before. *)
Theorem discovery_follows_publication `{SystemCalls} `{QueueCalls} `{SchemaLibrary} `{ShaqConsumers}
    proc dir name cfg enc schema w q w' es :
  StreamQueue_create dir name cfg (Some enc) w = (Ok q, w') -> sees dir es (io_fs w) ->
  wf_name name -> in_width U64 (bc_queue_identifier (sq_broadcast q)) ->
  deserialize_schema enc = Some schema ->
  (forall target, get_node (streams_directory dir ++ [StreamName_as_str name;
       queue_file_name (bc_queue_identifier (sq_broadcast q))]) (io_fs w') = Some (Symlink target) ->
     serves proc target (sq_broadcast q)) ->
  (exists streams rest, sees dir streams (io_fs w') /\
     snapshot_streams streams proc =
       {| av_stream_name := name; av_schema := schema; av_broadcast_handle := sq_broadcast q |} :: rest /\
     forall a, In a rest <-> In a (snapshot_streams es proc) /\ av_stream_name a <> name) /\
  (no_faults -> exists streams, sees dir streams (io_fs (StreamQueue_drop (E := IoError) q w').2) /\
     forall a, In a (snapshot_streams streams proc) <->
       In a (snapshot_streams es proc) /\ av_stream_name a <> name).
Proof.
  intros Hc Hes Hw Hid Hde Hproc.
  destruct (create_publishes _ _ _ _ _ _ _ _ Hc Hes)
    as (enc' & target & _ & [= <-] & Hp & Hn & _ & _ & _ & _ & Hsee).
  set (id := bc_queue_identifier (sq_broadcast q)) in *.
  assert (Hserves : serves proc target (sq_broadcast q)).
  { apply Hproc. rewrite (get_node_app (streams_directory dir)). unfold sees, entries_at in Hsee.
    destruct (get_node (streams_directory dir) (io_fs w')) as [[es'| |]|]; try done.
    injection Hsee as ->. cbn [get_node]. rewrite lookup_set_same. unfold published_queue.
    cbn [get_node lookup_entry]. by rewrite bool_decide_eq_true_2. }
  split.
  - destruct (snapshot_streams_set proc name enc schema (sq_broadcast q) target es) as (rest & Hst & Hrest);
      [done..|]. eexists _, rest. split; [exact Hsee|]. split; [exact Hst|]. intros a.
    eapply set_entry_others; [exact Hw| |exact Hst|exact Hrest]. done.
  - intros Hnf. unfold StreamQueue_drop, io_ignore. rewrite Hp, Hn. cbn [snd].
    destruct (remove_dir_all_restores (streams_directory dir) (StreamName_as_str name)
      (remove_entry (StreamName_as_str name) es) w') as (pes & Hpes & Hl); [done| |apply lookup_remove_same|].
    { eexists _, _. split; [exact Hsee|]. split; [apply lookup_set_same|].
      intros n Hne. rewrite lookup_set_other by done. by rewrite lookup_remove_other. }
    exists pes. split; [done|]. intros a. by apply removed_others.
Qed.

(** ** A race

    The stream is published as [true], then dropped and published anew as [false]
    at moment 3, when the descriptor of the first queue is reused for the second:
    both links lead to the second queue from then on. *)

#[local] Instance sample_schema_library : SchemaLibrary := {
  RootSchema := list byte;
  RootSchema_name _ := lit "Event";
  deserialize_schema bytes := Some bytes
}.

#[local] Instance sample_consumers : ShaqConsumers := {
  SliceConsumer := Broadcast;
  slice_consumer _ b := Some b;
  sc_broadcast_handle b := b;
  sc_try_read b := (None, b);
  sc_read_timeout b _ := (None, b);
  bc_lane_metadata _ lane := Some {| lm_lane := lane; lm_rejected_items := 0 |}
}.

Definition race_publication (first : bool) : Publication :=
  {| pn_name := sample_name;
     pn_encoded_schema := if first then [x01] else [x02];
     pn_broadcast := {| bc_id := 0; bc_queue_identifier := if first then 1 else 2;
                        bc_producer_slots := 2 |} |}.

Definition race_calls : SubscriberCalls := {|
  DirHandle := bool;
  FileHandle := bool + bool;
  read_dir _ := Some [Some (as_bytes (StreamName_as_str sample_name))];
  open_directory t name :=
    if bool_decide (name = as_bytes (StreamName_as_str sample_name)) then Some (t <? 3)%nat else None;
  directory_iter _ first :=
    [Some (as_bytes SCHEMA_FILE_NAME);
     Some (as_bytes (queue_file_name (bc_queue_identifier (pn_broadcast (race_publication first)))))];
  openat_rdonly _ first _ := Some (inl first);
  openat_rdwr t _ _ := Some (inr (t <? 3)%nat);
  read_to_end _ f :=
    match f with inl first => Some (pn_encoded_schema (race_publication first)) | inr _ => None end;
  get_seals _ _ := REQUIRED_SEALS;
  join_untyped _ f := match f with inr first => Some (pn_broadcast (race_publication first)) | inl _ => None end
|}.

Lemma race_promise : publisher_promise (H1 := race_calls) (fun first => Some (race_publication first)).
Proof.
  constructor.
  - intros t name d p Ho [= <-]. cbn [race_calls open_directory] in Ho. case_bool_decide; [done|discriminate].
  - intros t d p name [= <-] [[= <-]|[[= <-]|[]]] Hq; [by vm_compute in Hq|done].
  - intros t t' d p f bytes [= <-] [= <-] [= <-]. done.
  - intros t [f|f] b d p Hj [= <-] Hid; [done|]. injection Hj as <-. by destruct d, f.
  - intros d p [= <-]. split; [by destruct d|]. by apply (try_new_ok (lit "slot.events") sample_name); vm_compute.
Qed.

(** A subscriber that opens the first stream too early notices; a later one gets the
    second stream. *)
Example race_is_detected :
  (AvailableStream_try_new (H1 := race_calls) (as_bytes (StreamName_as_str sample_name)) 0%nat).1 =
    Err (QueueIdentifierMismatch 1 2).
Proof. by vm_compute. Qed.

Lemma discovered_stream_is_consistent_witness :
  exists a, (AvailableStream_try_new (H1 := race_calls) (as_bytes (StreamName_as_str sample_name)) 3%nat).1 = Ok a /\
    av_broadcast_handle a = pn_broadcast (race_publication false).
Proof.
  set (a := {| av_stream_name := sample_name; av_schema := ([x02] : @RootSchema sample_schema_library);
               av_broadcast_handle := pn_broadcast (race_publication false) |}).
  exists a. split; [by vm_compute|].
  destruct (discovered_stream_is_consistent (H1 := race_calls) (fun first => Some (race_publication first))
    (as_bytes (StreamName_as_str sample_name)) 3%nat a 10%nat race_promise ltac:(by vm_compute))
    as (_ & d & Hd & H). vm_compute in Hd. injection Hd as <-. apply (H _ eq_refl).
Defined.

Definition sample_proc (target : str) : option QueueFile :=
  Some {| qf_seals := REQUIRED_SEALS;
          qf_broadcast := Some {| bc_id := 5; bc_queue_identifier := 42; bc_producer_slots := 2 |} |}.

Lemma discovery_follows_publication_witness :
  exists q w', StreamQueue_create [] sample_name sample_stream_config (Some [x01]) sample_world = (Ok q, w') /\
    (exists streams, sees [] streams (io_fs w') /\
       map av_stream_name (snapshot_streams streams sample_proc) = [sample_name]) /\
    exists streams, sees [] streams (io_fs (StreamQueue_drop (E := IoError) q w').2) /\
      snapshot_streams streams sample_proc = [].
Proof.
  destruct (StreamQueue_create [] sample_name sample_stream_config (Some [x01]) sample_world)
    as [r w'] eqn:Hc. pose proof Hc as Hr. vm_compute in Hr. injection Hr as <- Hw.
  eexists _, w'. split; [done|].
  destruct (discovery_follows_publication sample_proc [] sample_name sample_stream_config [x01] ([x01] : @RootSchema sample_schema_library)
    _ _ _ [] Hc) as ((streams & rest & Hs & Hst & Hrest) & Hdrop).
  - by vm_compute.
  - by apply (try_new_ok (lit "slot.events") sample_name); vm_compute.
  - by vm_compute.
  - by vm_compute.
  - intros target _. exists REQUIRED_SEALS. by vm_compute.
  - split.
    + exists streams. split; [exact Hs|]. rewrite Hst. simpl. f_equal.
      destruct rest as [|a rest]; [done|]. by destruct (proj1 (Hrest a) (or_introl eq_refl)) as [[] _].
    + destruct Hdrop as (streams' & Hs' & Hnone); [done|]. exists streams'. split; [exact Hs'|].
      destruct (snapshot_streams streams' sample_proc) as [|a rest'] eqn:E; [done|].
      by destruct (proj1 (Hnone a) (or_introl eq_refl)) as [[] _].
Defined.
