(* ===== verification/SubscriberApi.v ===== *)
(** * The public subscriber interface
      (event-system/src/subscriber.rs and the subscriber half of backend/stub.rs)

    The public types wrap those of the backend that the platform has, the Linux
    backend or the stub.  They are written here against an interface with both
    backends as instances.  The last part follows events from a publisher through a
    discovered stream to a typed subscriber. *)

From Stdlib Require Import ZArith Lia Strings.Byte Strings.String.
From stdpp Require Import base list numbers gmap.
From S2P Require Import Prelude RustStr StreamName FileSystem StreamQueue EventStream QueueCell.
From S2P Require Import Subscriber Discovery.
Local Open Scope Z_scope.

(** ** The stub backend *)

Section Stub.
  Context `{SchemaLibrary}.

Inductive stub_StreamExplorer := StubStreamExplorer.
Inductive stub_LanesMetadata := StubLanesMetadata.
Inductive stub_LaneMetadata := StubLaneMetadata.

Record stub_Subscriber := { stub_sub_stream_name : StreamName }.

Record stub_StreamMessage := {
  stub_sm_schema : RootSchema;
  stub_sm_payload : list byte
}.

Record stub_AvailableStream := {
  stub_av_stream_name : StreamName;
  stub_av_type_name : str;
  stub_av_dummy_schema : RootSchema
}.

Definition stub_StreamExplorer_new (_path : path) : stub_StreamExplorer := StubStreamExplorer.
Definition stub_available_streams (self : stub_StreamExplorer) : list stub_AvailableStream := [].
Definition stub_Subscriber_stream_name (self : stub_Subscriber) : StreamName := stub_sub_stream_name self.
Definition stub_Subscriber_type_name (self : stub_Subscriber) : str := [].
Definition stub_try_recv (self : stub_Subscriber) : Outcome TryRecvError stub_StreamMessage := Err RecvEmpty.
Definition stub_recv_timeout (self : stub_Subscriber) (_timeout : Z) :
    Outcome RecvTimeoutError stub_StreamMessage := Err RecvTimeout.
Definition stub_lanes_metadata (self : stub_Subscriber) : stub_LanesMetadata := StubLanesMetadata.
Definition stub_LanesMetadata_iter (self : stub_LanesMetadata) : list stub_LaneMetadata := [].
Definition stub_StreamMessage_schema (self : stub_StreamMessage) : RootSchema := stub_sm_schema self.
Definition stub_StreamMessage_payload (self : stub_StreamMessage) : list byte := stub_sm_payload self.
Definition stub_StreamMessage_lane_metadata (self : stub_StreamMessage) : stub_LaneMetadata :=
  StubLaneMetadata.
Definition stub_LaneMetadata_lane (self : stub_LaneMetadata) : Z := 0.
Definition stub_LaneMetadata_rejected_items (self : stub_LaneMetadata) : Z := 0.
Definition stub_AvailableStream_stream_name (self : stub_AvailableStream) : StreamName :=
  stub_av_stream_name self.
Definition stub_AvailableStream_type_name (self : stub_AvailableStream) : str := stub_av_type_name self.
Definition stub_AvailableStream_stream_schema (self : stub_AvailableStream) : RootSchema :=
  stub_av_dummy_schema self.
Definition stub_try_connect (self : stub_AvailableStream) : Outcome TryConnectError stub_Subscriber :=
  Ok {| stub_sub_stream_name := stub_av_stream_name self |}.
End Stub.

(** ** What the public types use of a backend *)

Class SubscriberBackend `{SchemaLibrary} := {
  bk_AvailableStream : Type;
  bk_Subscriber : Type;
  bk_StreamMessage : Type;
  bk_LanesMetadata : Type;
  bk_LaneMetadata : Type;
  bk_available_streams : nat -> list bk_AvailableStream * nat;
  bk_available_stream_name : bk_AvailableStream -> StreamName;
  bk_available_type_name : bk_AvailableStream -> str;
  bk_available_stream_schema : bk_AvailableStream -> RootSchema;
  bk_try_connect : bk_AvailableStream -> Timed TryConnectError bk_Subscriber;
  bk_subscriber_stream_name : bk_Subscriber -> StreamName;
  bk_subscriber_type_name : bk_Subscriber -> str;
  bk_try_recv : bk_Subscriber -> Outcome TryRecvError bk_StreamMessage * bk_Subscriber;
  bk_recv_timeout : bk_Subscriber -> Z -> Outcome RecvTimeoutError bk_StreamMessage * bk_Subscriber;
  bk_lanes_metadata : bk_Subscriber -> bk_LanesMetadata;
  bk_lanes_iter : bk_LanesMetadata -> list bk_LaneMetadata;
  bk_message_schema : bk_StreamMessage -> RootSchema;
  bk_message_payload : bk_StreamMessage -> list byte;
  bk_message_lane_metadata : bk_StreamMessage -> bk_LaneMetadata;
  bk_lane : bk_LaneMetadata -> Z;
  bk_rejected_items : bk_LaneMetadata -> Z
}.

#[global] Instance linux_backend `{SchemaLibrary} `{ShaqConsumers} `{SubscriberCalls} :
  SubscriberBackend | 5 := {
  bk_AvailableStream := AvailableStream;
  bk_Subscriber := Subscriber;
  bk_StreamMessage := StreamMessage;
  bk_LanesMetadata := Broadcast;
  bk_LaneMetadata := LaneMetadata;
  bk_available_streams := available_streams;
  bk_available_stream_name := AvailableStream_stream_name;
  bk_available_type_name := AvailableStream_type_name;
  bk_available_stream_schema := AvailableStream_stream_schema;
  bk_try_connect := AvailableStream_try_connect;
  bk_subscriber_stream_name := Subscriber_stream_name;
  bk_subscriber_type_name := Subscriber_type_name;
  bk_try_recv := Subscriber_try_recv;
  bk_recv_timeout := Subscriber_recv_timeout;
  bk_lanes_metadata := Subscriber_lanes_metadata;
  bk_lanes_iter := LanesMetadata_iter;
  bk_message_schema := sm_schema;
  bk_message_payload := StreamMessage_payload;
  bk_message_lane_metadata := StreamMessage_lane_metadata;
  bk_lane := lm_lane;
  bk_rejected_items := lm_rejected_items
}.

#[global] Instance stub_backend `{SchemaLibrary} : SubscriberBackend | 100 := {
  bk_AvailableStream := stub_AvailableStream;
  bk_Subscriber := stub_Subscriber;
  bk_StreamMessage := stub_StreamMessage;
  bk_LanesMetadata := stub_LanesMetadata;
  bk_LaneMetadata := stub_LaneMetadata;
  bk_available_streams t := (stub_available_streams StubStreamExplorer, t);
  bk_available_stream_name := stub_AvailableStream_stream_name;
  bk_available_type_name := stub_AvailableStream_type_name;
  bk_available_stream_schema := stub_AvailableStream_stream_schema;
  bk_try_connect self t := (stub_try_connect self, t);
  bk_subscriber_stream_name := stub_Subscriber_stream_name;
  bk_subscriber_type_name := stub_Subscriber_type_name;
  bk_try_recv self := (stub_try_recv self, self);
  bk_recv_timeout self timeout := (stub_recv_timeout self timeout, self);
  bk_lanes_metadata := stub_lanes_metadata;
  bk_lanes_iter := stub_LanesMetadata_iter;
  bk_message_schema := stub_StreamMessage_schema;
  bk_message_payload := stub_StreamMessage_payload;
  bk_message_lane_metadata := stub_StreamMessage_lane_metadata;
  bk_lane := stub_LaneMetadata_lane;
  bk_rejected_items := stub_LaneMetadata_rejected_items
}.

(** ** The public types

    The marker types [Dynamic] and [Typed<T>] select the decoding of a message; they
    are not stored. *)

(** What the code uses of [wincode_dynamic] to decode. *)
Class DynamicDecoding `{SchemaLibrary} := {
  Fields : Type;
  StructDecoder : Type;
  EnumDecoder : Type;
  VariantDecoder : Type;
  Decoder_new : RootSchema -> StructDecoder + EnumDecoder;
  struct_fields : StructDecoder -> list byte -> Fields;
  decode_variant : EnumDecoder -> list byte -> option VariantDecoder;
  variant_decoder_name : VariantDecoder -> str;
  variant_fields : VariantDecoder -> Fields
}.

Inductive DecodedMessage `{DynamicDecoding} :=
| DecodedStruct (fields : Fields)
| DecodedEnum (variant_name : str) (fields : Fields).

Record SchemaMismatch `{SchemaLibrary} := {
  mismatch_expected : RootSchema;
  mismatch_actual : RootSchema
}.

Inductive TryConnectTypedError `{SchemaLibrary} :=
| SchemaMismatchError (mismatch : SchemaMismatch)
| Connection (e : TryConnectError).

Section Public.
  Context `{SubscriberBackend} `{!DynamicDecoding}.

Definition pub_available_streams : nat -> list bk_AvailableStream * nat := bk_available_streams.

Definition pub_try_connect_dynamic (self : bk_AvailableStream) : Timed TryConnectError bk_Subscriber :=
  bk_try_connect self.

(** [expected_schema] is [T::schema()]. *)
Definition pub_try_connect_typed (expected_schema : RootSchema) (self : bk_AvailableStream) :
    Timed TryConnectTypedError bk_Subscriber := fun t =>
  let actual_schema := bk_available_stream_schema self in
  if negb (bool_decide (expected_schema = actual_schema)) then
    (Err (SchemaMismatchError {| mismatch_expected := expected_schema;
                                 mismatch_actual := actual_schema |}), t)
  else
    match bk_try_connect self t with
    | (Ok subscriber, t') => (Ok subscriber, t')
    | (Err e, t') => (Err (Connection e), t')
    | (_, t') => (Panic, t')
    end.

Definition pub_try_recv : bk_Subscriber -> Outcome TryRecvError bk_StreamMessage * bk_Subscriber :=
  bk_try_recv.
Definition pub_recv_timeout : bk_Subscriber -> Z -> Outcome RecvTimeoutError bk_StreamMessage * bk_Subscriber :=
  bk_recv_timeout.

Definition pub_available_stream_name : bk_AvailableStream -> StreamName := bk_available_stream_name.
Definition pub_available_type_name : bk_AvailableStream -> str := bk_available_type_name.
Definition pub_subscriber_stream_name : bk_Subscriber -> StreamName := bk_subscriber_stream_name.
Definition pub_subscriber_type_name : bk_Subscriber -> str := bk_subscriber_type_name.
Definition pub_lanes_metadata : bk_Subscriber -> bk_LanesMetadata := bk_lanes_metadata.
Definition pub_lanes_iter : bk_LanesMetadata -> list bk_LaneMetadata := bk_lanes_iter.
Definition pub_message_lane_metadata : bk_StreamMessage -> bk_LaneMetadata := bk_message_lane_metadata.
Definition pub_lane : bk_LaneMetadata -> Z := bk_lane.
Definition pub_rejected_items : bk_LaneMetadata -> Z := bk_rejected_items.

(** [StreamMessage::<Typed<T>>::decode]. *)
Definition decode_typed `{Wincode T} (self : bk_StreamMessage) : option T :=
  deserialize (bk_message_payload self).

(** [StreamMessage::<Dynamic>::decode]. *)
Definition decode_dynamic (self : bk_StreamMessage) : option DecodedMessage :=
  match Decoder_new (bk_message_schema self) with
  | inl schema_decoder => Some (DecodedStruct (struct_fields schema_decoder (bk_message_payload self)))
  | inr enum_decoder =>
      match decode_variant enum_decoder (bk_message_payload self) with
      | None => None
      | Some variant_decoder =>
          Some (DecodedEnum (variant_decoder_name variant_decoder) (variant_fields variant_decoder))
      end
  end.
End Public.

(** ** From a publisher to a typed subscriber *)

(** [n] calls of [try_recv], each message decoded. *)
Fixpoint receive `{SubscriberBackend} `{Wincode T} (n : nat) (self : bk_Subscriber) :
    list (Outcome TryRecvError (option T)) :=
  match n with
  | O => []
  | S n =>
      let '(r, self) := pub_try_recv self in
      omap decode_typed r :: receive n self
  end.

(** The documented behaviour of a consumer: it yields the cells that were sent
    since it joined, in order, and then nothing. *)
Fixpoint delivers `{ShaqConsumers} (consumer : SliceConsumer) (cells : list (list byte)) : Prop :=
  match cells with
  | [] => (sc_try_read consumer).1 = None
  | cell :: cells =>
      exists metadata consumer',
        sc_try_read consumer = (Some {| rg_slice := cell; rg_lane_metadata := metadata |}, consumer') /\
        delivers consumer' cells
  end.

Section EndToEnd.
  Context `{SchemaLibrary} `{ShaqConsumers} `{SubscriberCalls} `{SystemCalls} `{QueueCalls} `{Shaq}.
  Context `{WincodeSpec E}.

Lemma connect_typed_Ok schema (a : AvailableStream) t sub t' :
  pub_try_connect_typed schema a t = (Ok sub, t') ->
  schema = av_schema a /\ slice_consumer t (av_broadcast_handle a) = Some (sub_slice_consumer sub).
Proof.
  unfold pub_try_connect_typed. cbn [bk_available_stream_schema linux_backend].
  unfold AvailableStream_stream_schema. case_bool_decide as Hs; [|done]. cbn [negb].
  cbn [bk_try_connect linux_backend]. unfold AvailableStream_try_connect.
  destruct (slice_consumer t _) as [c|]; [|done]. by intros [= <- _].
Qed.

Lemma connect_typed_returns schema (a : AvailableStream) t r t' :
  pub_try_connect_typed schema a t = (r, t') -> returns r.
Proof.
  unfold pub_try_connect_typed. destruct (negb _); [by intros [= <- _]|]. cbn.
  unfold AvailableStream_try_connect. destruct (slice_consumer _ _); by intros [= <- _].
Qed.

Lemma receive_delivered (cells : list (list byte)) (events : list E) (sub : Subscriber) :
  delivers (sub_slice_consumer sub) cells -> Forall2 (fun cell e => deserialize cell = Some e) cells events ->
  receive (S (length events)) sub = map (fun e => Ok (Some e)) events ++ [Err RecvEmpty].
Proof.
  intros Hd Hf. revert sub Hd. induction Hf as [|cell e cells events He Hf IH]; intros sub Hd.
  - simpl in Hd. cbn [length receive map app]. unfold pub_try_recv. cbn [bk_try_recv linux_backend].
    unfold Subscriber_try_recv. destruct (sc_try_read _) as [g c]. simpl in Hd. by subst g.
  - destruct Hd as (md & c' & Hr & Hd). cbn [length]. change (S (length events)) with (length (e :: events)).
    set (n := length (e :: events)). cbn [receive]. unfold pub_try_recv. cbn [bk_try_recv linux_backend].
    unfold Subscriber_try_recv. rewrite Hr. cbn [omap map app]. f_equal.
    + unfold decode_typed. cbn. by rewrite He.
    + apply (IH (with_consumer sub c')). exact Hd.
Qed.

(** The cells of a batch decode to its events. *)
Lemma cells_decode (stale : E -> list byte) (events : list E) cells :
  mapM (fun e => serialize_into_cell (stale e) e) events = Some cells ->
  Forall2 (fun cell e => deserialize cell = Some e) cells events.
Proof.
  intros Hm%mapM_Some. apply Forall2_flip. eapply Forall2_impl; [exact Hm|].
  intros e cell. simpl. rewrite serialize_into_spec. destruct (_ <=? _); [|done].
  intros [= <-]. apply deserialize_spec.
Qed.

(** What a successful batch adds to its queue. *)
Lemma batch_sent_cells (serialize : E -> option (list byte)) events w w' r b :
  current_queue (sw_stream w) = Some b -> r = Ok tt -> batch_sent serialize events w w' r ->
  exists cells, mapM serialize events = Some cells /\ sent_to b w' = sent_to b w ++ cells.
Proof.
  intros Hcur -> Hs. unfold batch_sent in Hs. rewrite Hcur in Hs. unfold sent_to.
  destruct events as [|e events].
  - destruct Hs as [_ ->]. exists []. by rewrite app_nil_r.
  - destruct (can_reserve _ _ _); [|by destruct Hs]. destruct (mapM serialize (e :: events)) as [cells|]; [|by destruct Hs].
    destruct Hs as [_ ->]. exists cells. split; [done|]. rewrite List.filter_app, map_app. f_equal.
    induction cells as [|c cells IH]; [done|]. cbn [map List.filter fst]. rewrite Nat.eqb_refl. cbn [map snd]. by rewrite IH.
Qed.

(** C12: Events arrive as they were published.  A subscriber discovers a stream,
    while other streams come and go, and connects to it with the schema of the
    event type; then a publisher, at any point of its interleaving with the stream,
    publishes a batch on the queue that the discovered directory was published
    with.  The connection never fails for a different schema; and if publishing
    succeeds, the subscriber receives exactly the events of the batch, decoded, in
    order, and then finds the stream empty, whatever the cells held before. *)
Theorem events_arrive_decoded published file_name t a t' d pn schema
    (stale : E -> list byte) n w id p q events :
  publisher_promise published -> AvailableStream_try_new file_name t = (Ok a, t') ->
  open_directory t file_name = Some d -> published d = Some pn ->
  deserialize_schema (pn_encoded_schema pn) = Some schema ->
  producers_up_to_slots -> reachable n w -> Z.of_nat n < modulus U64 ->
  sw_publishers w !! id = Some p -> pub_phase p = Ready ->
  ss_queue (es_state (sw_stream w)) = Some q -> sq_broadcast q = pn_broadcast pn ->
  let '(result, w') := Publisher_publish_batch (fun e => serialize_into_cell (stale e) e) id events w in
  match pub_try_connect_typed schema a t' with
  | (Ok sub, _) =>
      slice_consumer t' (sq_broadcast q) = Some (sub_slice_consumer sub) /\
      (result = Ok tt ->
       delivers (sub_slice_consumer sub)
         (drop (length (sent_to (bc_id (sq_broadcast q)) w)) (sent_to (bc_id (sq_broadcast q)) w')) ->
       receive (S (length events)) sub = map (fun e => Ok (Some e)) events ++ [Err RecvEmpty])
  | (r, _) => r = Err (Connection SubscriberSlotsExhausted)
  end.
Proof.
  intros Hpp Hnew Hd Hpn Hsch Hsh Hr Hn Hid Hph Hq Hqb.
  destruct (try_new_consistent published file_name t a t' d pn Hpp Hnew Hd Hpn) as (_ & Hs & Hb).
  rewrite Hsch in Hs. injection Hs as Hs.
  destruct (publish_batch_result (fun e => serialize_into_cell (stale e) e) n w id p events
    Hsh Hr Hn Hid Hph) as (r & w' & -> & _ & Hsent).
  destruct (@pub_try_connect_typed _ linux_backend schema a t') as [[sub|e| | |] t''] eqn:Hc.
  - apply connect_typed_Ok in Hc as [_ Hc]. rewrite Hb, <- Hqb in Hc. split; [done|]. intros Hok Hdel.
    assert (Hcur : current_queue (sw_stream w) = Some (bc_id (sq_broadcast q)))
      by (unfold current_queue; by rewrite Hq).
    destruct (batch_sent_cells _ _ _ _ _ _ Hcur Hok Hsent) as (cells & Hm & Hcells).
    rewrite Hcells, drop_app_length in Hdel. eapply receive_delivered; [exact Hdel|by eapply cells_decode].
  - revert Hc. unfold pub_try_connect_typed. cbn [bk_available_stream_schema linux_backend].
    unfold AvailableStream_stream_schema. rewrite Hs, bool_decide_eq_true_2 by done. cbn.
    unfold AvailableStream_try_connect. destruct (slice_consumer _ _); [done|]. by intros [= <- _].
  - by apply connect_typed_returns in Hc.
  - by apply connect_typed_returns in Hc.
  - by apply connect_typed_returns in Hc.
Qed.
End EndToEnd.

(** ** Sample: one event, sent and received *)

#[local] Instance sample_schema_library : SchemaLibrary := {
  RootSchema := list byte;
  RootSchema_name _ := lit "Event";
  deserialize_schema bytes := Some bytes
}.

(** A consumer is the list of cells that it will deliver. *)
#[local] Instance sample_cell_consumers : ShaqConsumers := {
  SliceConsumer := list (list byte);
  slice_consumer _ _ := Some [[x01; x05]];
  sc_broadcast_handle _ := {| bc_id := 0; bc_queue_identifier := 0; bc_producer_slots := 0 |};
  sc_try_read c :=
    match c with
    | [] => (None, [])
    | cell :: c => (Some {| rg_slice := cell;
                            rg_lane_metadata := {| lm_lane := 0; lm_rejected_items := 0 |} |}, c)
    end;
  sc_read_timeout c _ := (None, c);
  bc_lane_metadata _ _ := None
}.

Definition sample_queue : StreamQueue :=
  default {| sq_broadcast := {| bc_id := 0; bc_queue_identifier := 0; bc_producer_slots := 0 |};
             sq_directory_parent := []; sq_directory_name := [] |}
    (ss_queue (es_state (sw_stream sample_enabled_world))).

Definition sample_publication : Publication :=
  {| pn_name := sample_name; pn_encoded_schema := [x01]; pn_broadcast := sq_broadcast sample_queue |}.

#[local] Instance sample_calls : SubscriberCalls := {
  DirHandle := unit;
  FileHandle := bool;
  read_dir _ := Some [Some (as_bytes (StreamName_as_str sample_name))];
  open_directory t name :=
    if bool_decide (name = as_bytes (StreamName_as_str sample_name)) then Some tt else None;
  directory_iter _ _ :=
    [Some (as_bytes (queue_file_name (bc_queue_identifier (sq_broadcast sample_queue))))];
  openat_rdonly _ _ _ := Some false;
  openat_rdwr t _ _ := Some true;
  read_to_end _ _ := Some [x01];
  get_seals _ _ := REQUIRED_SEALS;
  join_untyped _ _ := Some (sq_broadcast sample_queue)
}.

Lemma sample_promise : publisher_promise (fun _ => Some sample_publication).
Proof.
  constructor.
  - intros t name d p Ho [= <-]. cbn in Ho. case_bool_decide; [done|discriminate].
  - intros t d p name [= <-] [[= <-]|[]] Hq. done.
  - intros t t' d p f bytes [= <-] _ [= <-]. done.
  - intros t f b d p [= <-] [= <-] _. done.
  - intros d p [= <-]. split; [by vm_compute|]. by apply (try_new_ok (lit "slot.events") sample_name); vm_compute.
Qed.

Definition sample_available : AvailableStream :=
  {| av_stream_name := sample_name; av_schema := ([x01] : @RootSchema sample_schema_library);
     av_broadcast_handle := sq_broadcast sample_queue |}.

Lemma events_arrive_decoded_witness :
  receive 2 {| sub_slice_consumer := [[x01; x05]] : @SliceConsumer sample_cell_consumers;
               sub_stream_name := sample_name; sub_schema := [x01] : @RootSchema sample_schema_library |}
  = [Ok (Some (Some x05)); Err RecvEmpty].
Proof.
  pose proof (events_arrive_decoded (fun _ => Some sample_publication)
    (as_bytes (StreamName_as_str sample_name)) 0 sample_available 7 tt sample_publication
    ([x01] : @RootSchema sample_schema_library) (fun _ => [xff; xff]) 1 sample_enabled_world 0
    sample_publisher sample_queue [Some x05] sample_promise ltac:(by vm_compute) eq_refl eq_refl eq_refl
    sample_shaq_ok sample_reachable ltac:(by vm_compute) ltac:(by vm_compute) eq_refl
    ltac:(by vm_compute) eq_refl) as H.
  destruct (Publisher_publish_batch _ 0 [Some x05] sample_enabled_world) as [r w'] eqn:Hb.
  vm_compute in Hb. injection Hb as <- <-.
  apply H; [reflexivity|]. eexists _, _. split; [reflexivity|reflexivity].
Defined.
