(* ===== verification/Layout.v ===== *)
(** * Types with the layout of C

    The structs that processes exchange through shared memory and sockets are
    [repr(C)]: this file has the layout algorithm of [repr(C)] in the Rust
    reference, the memory of a value with its padding, and a class for the types
    that have such a layout. *)

From Stdlib Require Import ZArith Lia Strings.Byte.
From stdpp Require Import base list numbers.
From S2P Require Import Prelude.
Local Open Scope nat_scope.

(** ** Types and their layout *)

Inductive Ty :=
| TInt (w : uwidth)
| TArray (t : Ty) (n : nat)
| TStruct (fields : list Ty).

Definition int_size (w : uwidth) : nat :=
  match w with U8 => 1 | U16 => 2 | U32 => 4 | U64 | USIZE => 8 end.

(** The next multiple of [a]. *)
Definition round_up (n a : nat) : nat := (n + (a - 1)) / a * a.

Fixpoint align_of (t : Ty) : nat :=
  match t with
  | TInt w => int_size w
  | TArray t _ => align_of t
  | TStruct fields => fold_right (fun t a => Nat.max (align_of t) a) 1 fields
  end.

(** Each field starts at the next offset that fits its alignment; the size is
    padded to a multiple of the alignment of the struct. *)
Fixpoint size_of (t : Ty) : nat :=
  match t with
  | TInt w => int_size w
  | TArray t n => n * size_of t
  | TStruct fields =>
      round_up (fold_left (fun off t => round_up off (align_of t) + size_of t) fields 0)
        (align_of (TStruct fields))
  end.

(** The end of the last of some fields, the first of which may start at [off]. *)
Fixpoint fields_end (fields : list Ty) (off : nat) : nat :=
  match fields with
  | [] => off
  | t :: fields => fields_end fields (round_up off (align_of t) + size_of t)
  end.

Fixpoint offsets (fields : list Ty) (off : nat) : list nat :=
  match fields with
  | [] => []
  | t :: fields => round_up off (align_of t) :: offsets fields (round_up off (align_of t) + size_of t)
  end.

(** ** Values and their memory *)

Inductive Val :=
| VInt (z : Z)
| VSeq (vs : list Val).

Fixpoint has_type (t : Ty) (v : Val) : Prop :=
  match t, v with
  | TInt w, VInt z => in_width w z
  | TArray t n, VSeq vs => length vs = n /\ Forall (has_type t) vs
  | TStruct fields, VSeq vs =>
      (fix go (fields : list Ty) (vs : list Val) : Prop :=
         match fields, vs with
         | [], [] => True
         | t :: fields, v :: vs => has_type t v /\ go fields vs
         | _, _ => False
         end) fields vs
  | _, _ => False
  end.

Definition slice (off size : nat) (mem : list byte) : list byte := take size (drop off mem).
Definition put (off : nat) (bytes mem : list byte) : list byte :=
  take off mem ++ bytes ++ drop (off + length bytes) mem.

Section Memory.
  Context `{Target}.

(** Writes a value over [mem], which leaves the padding as it was. *)
Fixpoint write (t : Ty) (v : Val) (mem : list byte) : list byte :=
  match t, v with
  | TInt w, VInt z => native_bytes (int_size w) z
  | TArray t _, VSeq vs =>
      (fix go (vs : list Val) (mem : list byte) : list byte :=
         match vs with
         | [] => []
         | v :: vs => write t v (take (size_of t) mem) ++ go vs (drop (size_of t) mem)
         end) vs mem
  | TStruct fields, VSeq vs =>
      (fix go (fields : list Ty) (vs : list Val) (off : nat) (mem : list byte) : list byte :=
         match fields, vs with
         | t :: fields, v :: vs =>
             let off := round_up off (align_of t) in
             go fields vs (off + size_of t) (put off (write t v (slice off (size_of t) mem)) mem)
         | _, _ => mem
         end) fields vs 0 mem
  | _, _ => mem
  end.

Fixpoint read (t : Ty) (mem : list byte) : Val :=
  match t with
  | TInt w => VInt (native_val mem)
  | TArray t n => VSeq (map (read t) (chunks n (size_of t) mem))
  | TStruct fields =>
      VSeq ((fix go (fields : list Ty) (off : nat) : list Val :=
               match fields with
               | [] => []
               | t :: fields =>
                   let off := round_up off (align_of t) in
                   read t (slice off (size_of t) mem) :: go fields (off + size_of t)
               end) fields 0)
  end.

(** The loops over the elements of an array and the fields of a struct. *)
Fixpoint write_elements (t : Ty) (vs : list Val) (mem : list byte) : list byte :=
  match vs with
  | [] => []
  | v :: vs => write t v (take (size_of t) mem) ++ write_elements t vs (drop (size_of t) mem)
  end.

Fixpoint write_fields (fields : list Ty) (vs : list Val) (off : nat) (mem : list byte) : list byte :=
  match fields, vs with
  | t :: fields, v :: vs =>
      let off := round_up off (align_of t) in
      write_fields fields vs (off + size_of t) (put off (write t v (slice off (size_of t) mem)) mem)
  | _, _ => mem
  end.

Fixpoint read_fields (fields : list Ty) (off : nat) (mem : list byte) : list Val :=
  match fields with
  | [] => []
  | t :: fields =>
      let off := round_up off (align_of t) in
      read t (slice off (size_of t) mem) :: read_fields fields (off + size_of t) mem
  end.

Lemma write_array t n vs mem : write (TArray t n) (VSeq vs) mem = write_elements t vs mem.
Proof. simpl. revert mem. induction vs as [|v vs IH]; intros mem; simpl; [done|]. by rewrite IH. Qed.

Lemma write_struct fields vs mem : write (TStruct fields) (VSeq vs) mem = write_fields fields vs 0 mem.
Proof.
  simpl. generalize 0. revert vs mem. induction fields as [|t fields IH]; intros [|v vs] mem off; simpl; try done.
Qed.

Lemma read_struct fields mem : read (TStruct fields) mem = VSeq (read_fields fields 0 mem).
Proof. simpl. f_equal. generalize 0. induction fields as [|t fields IH]; intros off; simpl; [done|]. by rewrite IH. Qed.

Lemma has_type_struct fields vs : has_type (TStruct fields) (VSeq vs) <-> Forall2 has_type fields vs.
Proof.
  simpl. revert vs. induction fields as [|t fields IH]; intros [|v vs]; simpl.
  - split; [constructor|done].
  - split; [done|]. intros Hf. inversion Hf.
  - split; [done|]. intros Hf. inversion Hf.
  - rewrite IH. split; [intros [? ?]; by constructor|]. intros Hf. by inversion Hf.
Qed.

Lemma size_of_struct fields :
  size_of (TStruct fields) = round_up (fields_end fields 0) (align_of (TStruct fields)).
Proof.
  cbn [size_of]. f_equal.
Qed.
End Memory.

Lemma Ty_ind' (P : Ty -> Prop) :
  (forall w, P (TInt w)) -> (forall t n, P t -> P (TArray t n)) ->
  (forall fields, Forall P fields -> P (TStruct fields)) -> forall t, P t.
Proof.
  intros Hi Ha Hs. fix IH 1. intros [w|t n|fields]; [apply Hi|apply Ha, IH|].
  apply Hs. induction fields as [|t fields IHf]; constructor; [apply IH|exact IHf].
Qed.

(** ** The layout is sound *)

Definition pow2 (a : nat) : Prop := a = 1 \/ a = 2 \/ a = 4 \/ a = 8.

Lemma align_fold fields a :
  a = fold_right (fun t a => Nat.max (align_of t) a) 1 fields ->
  Forall (fun t => pow2 (align_of t)) fields ->
  pow2 a /\ Forall (fun t => align_of t <= a) fields.
Proof.
  intros ->. induction 1 as [|t fields Ht _ [IH1 IH2]]; simpl; [split; [by left|constructor]|].
  split.
  - unfold pow2 in *. lia.
  - constructor; [lia|]. eapply List.Forall_impl; [|exact IH2]. simpl. intros. lia.
Qed.

Lemma align_pow2 t : pow2 (align_of t).
Proof.
  induction t as [w|t n IH|fields IH] using Ty_ind'; simpl; [by destruct w; unfold pow2; simpl; lia|done|].
  by eapply align_fold.
Qed.

Lemma round_up_spec n a : 0 < a -> (a | round_up n a) /\ n <= round_up n a < n + a.
Proof.
  intros Ha. unfold round_up. split; [by exists ((n + (a - 1)) / a)|].
  pose proof (Nat.div_mod (n + (a - 1)) a ltac:(lia)). pose proof (Nat.mod_upper_bound (n + (a - 1)) a ltac:(lia)).
  lia.
Qed.

Lemma align_positive t : 0 < align_of t.
Proof. pose proof (align_pow2 t) as Hp. unfold pow2 in Hp. lia. Qed.

Lemma round_up_align off t : off <= round_up off (align_of t).
Proof. apply round_up_spec, align_positive. Qed.

Lemma fields_end_ge fields off : off <= fields_end fields off.
Proof.
  revert off. induction fields as [|t fields IH]; intros off; simpl; [done|].
  etransitivity; [|apply IH]. pose proof (round_up_align off t). lia.
Qed.

(** ** Values are read back *)

Section RoundTrip.
  Context `{Target}.

Lemma int_size_modulus w : modulus w = (256 ^ Z.of_nat (int_size w))%Z.
Proof. by destruct w. Qed.

Lemma length_put off bytes mem : off + length bytes <= length mem -> length (put off bytes mem) = length mem.
Proof. intros Hle. unfold put. rewrite !length_app, length_take, length_drop. lia. Qed.

Lemma length_slice off size mem : off + size <= length mem -> length (slice off size mem) = size.
Proof. intros Hle. unfold slice. rewrite length_take, length_drop. lia. Qed.

Lemma take_put off bytes mem : off <= length mem -> take off (put off bytes mem) = take off mem.
Proof. intros Hle. unfold put. rewrite take_app_le; rewrite ?length_take; [|lia]. by rewrite take_take, Nat.min_id. Qed.

Lemma slice_put off bytes mem :
  off + length bytes <= length mem -> slice off (length bytes) (put off bytes mem) = bytes.
Proof.
  intros Hle. unfold slice, put. rewrite drop_app_length' by (rewrite length_take; lia). apply take_app_length.
Qed.

(** A slice depends on the bytes up to its end only. *)
Lemma slice_prefix off size mem mem' :
  take (off + size) mem = take (off + size) mem' -> slice off size mem = slice off size mem'.
Proof.
  intros Ht. unfold slice. by rewrite !take_drop_commute, Ht.
Qed.

Definition round_trips (t : Ty) : Prop := forall v mem, has_type t v -> length mem = size_of t ->
  length (write t v mem) = size_of t /\ read t (write t v mem) = v.

Lemma elements_round_trip t vs mem :
  round_trips t -> Forall (has_type t) vs -> length mem = length vs * size_of t ->
  length (write_elements t vs mem) = length vs * size_of t /\
  map (read t) (chunks (length vs) (size_of t) (write_elements t vs mem)) = vs.
Proof.
  intros Ht Hvs. revert mem. induction Hvs as [|v vs Hv _ IH]; intros mem Hl; simpl in *; [done|].
  destruct (Ht v (take (size_of t) mem) Hv) as [Hlen Hread]; [rewrite length_take; lia|].
  destruct (IH (drop (size_of t) mem)) as [Hlen' Hread']; [rewrite length_drop; lia|].
  rewrite length_app, Hlen, Hlen'. split; [done|].
  rewrite take_app_length', drop_app_length' by done. by rewrite Hread, Hread'.
Qed.

Lemma fields_round_trip fields vs off mem :
  Forall round_trips fields -> Forall2 has_type fields vs -> fields_end fields off <= length mem ->
  length (write_fields fields vs off mem) = length mem /\
  take off (write_fields fields vs off mem) = take off mem /\
  read_fields fields off (write_fields fields vs off mem) = vs.
Proof.
  intros Hf Hvs. revert Hf off mem. induction Hvs as [|t v fields vs Hv _ IH]; intros Hf off mem Hle; [done|].
  inversion_clear Hf as [|? ? Ht Hfs]. cbn [write_fields read_fields fields_end] in *.
  pose proof (round_up_align off t) as Hro. set (o := round_up off (align_of t)) in *.
  pose proof (fields_end_ge fields (o + size_of t)) as Hge.
  destruct (Ht v (slice o (size_of t) mem) Hv) as [Hlen Hread]; [apply length_slice; lia|].
  set (bytes := write t v _) in *.
  assert (Hl1 : length (put o bytes mem) = length mem) by (apply length_put; lia).
  destruct (IH Hfs (o + size_of t) (put o bytes mem)) as (Hl & Hpre & Hrf); [lia|].
  split_and!.
  - lia.
  - apply (f_equal (take off)) in Hpre. rewrite !take_take in Hpre.
    rewrite !Nat.min_l in Hpre by lia. rewrite Hpre.
    pose proof (take_put o bytes mem ltac:(lia)) as Htp. apply (f_equal (take off)) in Htp.
    rewrite !take_take in Htp. by rewrite !Nat.min_l in Htp by lia.
  - f_equal; [|done]. rewrite (slice_prefix _ _ _ _ Hpre). rewrite <- Hlen at 1.
    by rewrite slice_put by lia.
Qed.

Lemma write_read t : round_trips t.
Proof.
  induction t as [w|t n IH|fields IH] using Ty_ind'; intros [z|vs] mem Hv Hl; try done.
  - simpl in *. split; [pose proof (len_native_bytes (int_size w) z); unfold len in *; lia|].
    f_equal. apply native_val_native_bytes. rewrite <- int_size_modulus. exact Hv.
  - destruct Hv as [<- Hvs]. rewrite write_array.
    destruct (elements_round_trip t vs mem IH Hvs Hl) as [Hlen Hr]. split; [done|]. simpl. by rewrite Hr.
  - apply has_type_struct in Hv. rewrite write_struct, read_struct.
    pose proof (size_of_struct fields) as Hs. rewrite Hs in Hl.
    pose proof (round_up_spec (fields_end fields 0) _ (align_positive (TStruct fields))) as [_ [Hle _]].
    destruct (fields_round_trip fields vs 0 mem IH Hv) as (Hlen & _ & Hr); [lia|]. split; [congruence|by rewrite Hr].
Qed.
End RoundTrip.

(** ** Types of the program *)

Class CType (A : Type) := {
  ctype : Ty;
  to_val : A -> Val;
  of_val : Val -> option A
}.
Arguments ctype A {_}.

Class CTypeSpec (A : Type) `{CType A} := {
  of_to_val : forall a : A, of_val (to_val a) = Some a
}.

(** The values of a type: every integer fits its field. *)
Definition valid {A} `{CType A} (a : A) : Prop := has_type (ctype A) (to_val a).

(** What the language does when a value is written to memory through a pointer to its
    type, and when one is read. *)
Definition store {A} `{Target} `{CType A} (a : A) (mem : list byte) : list byte :=
  write (ctype A) (to_val a) mem.
Definition load {A} `{Target} `{CType A} (mem : list byte) : option A := of_val (read (ctype A) mem).

Lemma store_load {A} `{Target} `{CTypeSpec A} (a : A) mem :
  valid a -> length mem = size_of (ctype A) ->
  length (store a mem) = size_of (ctype A) /\ load (store a mem) = Some a.
Proof.
  intros Hv Hl. destruct (write_read (ctype A) (to_val a) mem Hv Hl) as [Hlen Hr].
  split; [done|]. unfold load, store. rewrite Hr. apply of_to_val.
Qed.
