(* ===== verification/HandshakeShared.v ===== *)
(** * The logon message (scheduler-handshake/src/shared.rs)

    What client and server of the scheduler handshake share: protocol versions,
    the logon message with its memory layout, and its validation. *)

From Stdlib Require Import ZArith Lia Strings.Byte.
From stdpp Require Import base list numbers.
From S2P Require Import Prelude.
Local Open Scope Z_scope.
Local Open Scope rust_scope.

Definition MAX_WORKERS : Z := 64.
Definition LOGON_SUCCESS : byte := x01.
Definition LOGON_FAILURE : byte := x02.
Definition GLOBAL_SHMEM : Z := 3.
Definition CHECK_SHMEM : Z := 2.
Definition SIMULATE_SHMEM : Z := 2.
Definition WORKER_SHMEM : Z := 2.
Definition STANDARD_PAGE_SIZE : Z := 4096.
Definition HUGE_PAGE_SIZE : Z := 2 * 1024 * 1024.
Definition POINTER_OFFSET_LIMIT : Z := isize_MAX.

Inductive PageSize := Standard | Huge.

Definition PageSize_bytes (self : PageSize) : Z :=
  match self with Standard => STANDARD_PAGE_SIZE | Huge => HUGE_PAGE_SIZE end.

(** [usize::checked_next_multiple_of]. *)
Definition checked_next_multiple_of (a b : Z) : option Z :=
  let r := a mod b in
  if r =? 0 then Some a else checked_add USIZE a (b - r).

Definition checked_file_size (size : Z) (page_size : PageSize) : option Z :=
  match checked_next_multiple_of size (PageSize_bytes page_size) with
  | Some size => if size <=? POINTER_OFFSET_LIMIT then Some size else None
  | None => None
  end.

(** ** Raw memory

    The structs are [repr(C)] with 8-byte fields only, so their memory is the
    sequence of their fields in native byte order. *)

Section Memory.
  Context `{Target}.

Definition words_to_memory (ws : list Z) : list byte := concat (map (native_bytes 8) ws).

(** The [n] words at the start of a buffer. *)
Definition words_of_memory (n : nat) (bytes : list byte) : list Z :=
  map native_val (chunks n 8 bytes).

Lemma len_words_to_memory ws : len (words_to_memory ws) = 8 * len ws.
Proof.
  unfold words_to_memory. induction ws as [|x ws IH]; simpl; [done|].
  rewrite len_app, len_native_bytes, IH, len_cons. lia.
Qed.

Lemma words_roundtrip ws post :
  Forall (in_width U64) ws -> words_of_memory (length ws) (words_to_memory ws ++ post) = ws.
Proof.
  intros Hws. unfold words_of_memory, words_to_memory.
  rewrite <- (length_map (native_bytes 8) ws), chunks_concat.
  - rewrite map_map. induction Hws as [|x ws Hx _ IH]; simpl; [done|]. rewrite IH.
    by rewrite native_val_native_bytes.
  - apply Forall_map, Forall_true. intros x. pose proof (len_native_bytes 8 x) as Hl.
    unfold len in Hl. lia.
Qed.
End Memory.

(** ** Versions *)

Record ProtocolVersions := {
  pv_handshake : Z;
  pv_scheduler_bindings : Z;
  pv_shaq : Z;
  pv_rts_alloc : Z
}.

#[global] Instance ProtocolVersions_eq_dec : EqDecision ProtocolVersions.
Proof. solve_decision. Defined.

Definition ProtocolVersions_SERIALIZED_SIZE : Z := 32.

Definition ProtocolVersions_words (self : ProtocolVersions) : list Z :=
  [pv_handshake self; pv_scheduler_bindings self; pv_shaq self; pv_rts_alloc self].

Definition ProtocolVersions_of_words (ws : list Z) : option ProtocolVersions :=
  match ws with
  | [a; b; c; d] =>
      Some {| pv_handshake := a; pv_scheduler_bindings := b; pv_shaq := c; pv_rts_alloc := d |}
  | _ => None
  end.

Definition ProtocolVersions_try_from_bytes `{Target} (buffer : list byte) :
    option ProtocolVersions :=
  if negb (len buffer =? ProtocolVersions_SERIALIZED_SIZE) then None
  else ProtocolVersions_of_words (words_of_memory 4 buffer).

(** ** The logon message *)

Record ClientLogon := {
  worker_count : Z;
  check_worker_count : Z;
  simulate_worker_count : Z;
  allocator_size : Z;
  allocator_handles : Z;
  tpu_to_pack_capacity : Z;
  progress_tracker_capacity : Z;
  pack_to_worker_capacity : Z;
  worker_to_pack_capacity : Z;
  pack_to_check_worker_capacity : Z;
  check_worker_to_pack_capacity : Z;
  pack_to_simulate_worker_capacity : Z;
  simulate_worker_to_pack_capacity : Z
}.

Definition size_of_ClientLogon : Z := 104.

Definition ClientLogon_words (self : ClientLogon) : list Z :=
  [worker_count self; check_worker_count self; simulate_worker_count self; allocator_size self;
   allocator_handles self; tpu_to_pack_capacity self; progress_tracker_capacity self;
   pack_to_worker_capacity self; worker_to_pack_capacity self;
   pack_to_check_worker_capacity self; check_worker_to_pack_capacity self;
   pack_to_simulate_worker_capacity self; simulate_worker_to_pack_capacity self].

Definition ClientLogon_of_words (ws : list Z) : option ClientLogon :=
  match ws with
  | [w0; w1; w2; w3; w4; w5; w6; w7; w8; w9; w10; w11; w12] =>
      Some {| worker_count := w0; check_worker_count := w1; simulate_worker_count := w2;
              allocator_size := w3; allocator_handles := w4; tpu_to_pack_capacity := w5;
              progress_tracker_capacity := w6; pack_to_worker_capacity := w7;
              worker_to_pack_capacity := w8; pack_to_check_worker_capacity := w9;
              check_worker_to_pack_capacity := w10; pack_to_simulate_worker_capacity := w11;
              simulate_worker_to_pack_capacity := w12 |}
  | _ => None
  end.

Definition ClientLogon_try_from_bytes `{Target} (buffer : list byte) : option ClientLogon :=
  if negb (len buffer =? size_of_ClientLogon) then None
  else ClientLogon_of_words (words_of_memory 13 buffer).

(** The fields are [usize]. *)
Definition wf_logon (l : ClientLogon) : Prop := Forall (in_width USIZE) (ClientLogon_words l).
Definition wf_versions (v : ProtocolVersions) : Prop :=
  Forall (in_width U64) (ProtocolVersions_words v).

(** ** Errors *)

Inductive QueueField :=
| TpuToPackCapacity | ProgressTrackerCapacity | PackToWorkerCapacity | WorkerToPackCapacity
| PackToCheckWorkerCapacity | CheckWorkerToPackCapacity
| PackToSimulateWorkerCapacity | SimulateWorkerToPackCapacity.

Inductive AgaveHandshakeError :=
| Io
| Timeout
| EofDuringHandshake
| Version (server client : ProtocolVersions)
| WorkerCount (count : Z)
| CheckWorkerCount (count : Z)
| SimulateWorkerCount (count : Z)
| AllocatorHandles (count : Z)
| AllocatorSize (size : Z)
| QueueCapacity (field : QueueField) (capacity : Z)
| RtsAlloc
| ShaqError.

(** ** Derived counts *)

Definition expected_file_count (self : ClientLogon) : option Z :=
  let check_files := if 0 <? check_worker_count self then CHECK_SHMEM else 0 in
  let simulate_files := if 0 <? simulate_worker_count self then SIMULATE_SHMEM else 0 in
  match checked_mul USIZE (worker_count self) WORKER_SHMEM with
  | None => None
  | Some c =>
      match checked_add USIZE c GLOBAL_SHMEM with
      | None => None
      | Some c =>
          match checked_add USIZE c check_files with
          | None => None
          | Some c => checked_add USIZE c simulate_files
          end
      end
  end.

Definition allocator_count (self : ClientLogon) : option Z :=
  if allocator_handles self =? 0 then None
  else
    match checked_add USIZE (worker_count self) (check_worker_count self) with
    | None => None
    | Some c =>
        match checked_add USIZE c (simulate_worker_count self) with
        | None => None
        | Some c =>
            match checked_add USIZE c (allocator_handles self) with
            | None => None
            | Some c =>
                match checked_add USIZE c 1 with
                | None => None
                | Some c => try_from U32 c
                end
            end
        end
    end.

(** ** Validation *)

(** The messages of the scheduler bindings, and the two kinds of queues of
    [shaq]; [minimum_file_size] is [try_minimum_file_size] of a kind and message
    type. *)
Inductive Msg :=
| TpuToPackMessage | ProgressMessage | PackToExecutionWorkerMessage
| ExecutionWorkerToPackMessage | PackToCheckWorkerMessage | CheckWorkerToPackMessage.

Inductive QueueKind := Spsc | Mpmc.

Class QueueSizes := minimum_file_size : QueueKind -> Msg -> Z -> option Z.

Section Validate.
  Context `{QueueSizes}.

Definition validate_queue_capacity (field : QueueField) (capacity : Z) (kind : QueueKind) (msg : Msg)
    (page_size : PageSize) : Outcome AgaveHandshakeError unit :=
  let? size := ok_or (minimum_file_size kind msg capacity) (QueueCapacity field capacity) in
  let? _ := ok_or (checked_file_size size page_size) (QueueCapacity field capacity) in
  Ok tt.

Definition validate (self : ClientLogon) : Outcome AgaveHandshakeError unit :=
  let? _ := err_if (negb ((1 <=? worker_count self) && (worker_count self <=? MAX_WORKERS)))
              (WorkerCount (worker_count self)) in
  let? _ := err_if (MAX_WORKERS <? check_worker_count self)
              (CheckWorkerCount (check_worker_count self)) in
  let? _ := err_if (MAX_WORKERS <? simulate_worker_count self)
              (SimulateWorkerCount (simulate_worker_count self)) in
  let? _ := ok_or (allocator_count self) (AllocatorHandles (allocator_handles self)) in
  let? _ := ok_or (checked_file_size (allocator_size self) Huge)
              (AllocatorSize (allocator_size self)) in
  let? _ := validate_queue_capacity TpuToPackCapacity (tpu_to_pack_capacity self)
              Spsc TpuToPackMessage Huge in
  let? _ := validate_queue_capacity ProgressTrackerCapacity (progress_tracker_capacity self)
              Spsc ProgressMessage Standard in
  let? _ := validate_queue_capacity PackToWorkerCapacity (pack_to_worker_capacity self)
              Spsc PackToExecutionWorkerMessage Huge in
  let? _ := validate_queue_capacity WorkerToPackCapacity (worker_to_pack_capacity self)
              Spsc ExecutionWorkerToPackMessage Huge in
  let? _ :=
    if 0 <? check_worker_count self then
      let? _ := validate_queue_capacity PackToCheckWorkerCapacity
                  (pack_to_check_worker_capacity self) Mpmc PackToCheckWorkerMessage Huge in
      validate_queue_capacity CheckWorkerToPackCapacity
        (check_worker_to_pack_capacity self) Mpmc CheckWorkerToPackMessage Huge
    else Ok tt in
  let? _ :=
    if 0 <? simulate_worker_count self then
      let? _ := validate_queue_capacity PackToSimulateWorkerCapacity
                  (pack_to_simulate_worker_capacity self) Mpmc PackToExecutionWorkerMessage Huge in
      validate_queue_capacity SimulateWorkerToPackCapacity
        (simulate_worker_to_pack_capacity self) Mpmc ExecutionWorkerToPackMessage Huge
    else Ok tt in
  Ok tt.
End Validate.

(** ** File sizes *)

(** The least multiple of the page size that is not below [size]. *)
Definition rounded (size : Z) (page : PageSize) : Z :=
  (size + PageSize_bytes page - 1) / PageSize_bytes page * PageSize_bytes page.

Lemma page_pos p : 0 < PageSize_bytes p.
Proof. by destruct p. Qed.

Lemma checked_file_size_spec size page n :
  0 <= size < modulus USIZE ->
  checked_file_size size page = Some n <-> n = rounded size page /\ rounded size page <= isize_MAX.
Proof.
  intros Hs. unfold checked_file_size, checked_next_multiple_of, rounded, POINTER_OFFSET_LIMIT.
  pose proof (page_pos page) as Hp. set (p := PageSize_bytes page) in *.
  pose proof (Z.div_mod size p ltac:(lia)) as Hd. pose proof (Z.mod_pos_bound size p Hp) as Hm.
  destruct (Z.eqb_spec (size mod p) 0) as [Hr|Hr].
  - assert ((size + p - 1) / p = size / p) as ->
      by (symmetry; apply (Z.div_unique _ p _ (p - 1)); lia).
    replace (size / p * p) with size by lia.
    destruct (Z.leb_spec size isize_MAX); split; [by intros [= <-]|by intros [-> _]|done|lia].
  - assert ((size + p - 1) / p = size / p + 1) as ->
      by (symmetry; apply (Z.div_unique _ p _ (size mod p - 1)); lia).
    replace ((size / p + 1) * p) with (size + (p - size mod p)) by lia.
    destruct (checked_add USIZE size (p - size mod p)) as [k|] eqn:Hk.
    + apply checked_add_Some in Hk as [-> _].
      destruct (Z.leb_spec (size + (p - size mod p)) isize_MAX); split; try done;
        [by intros [= <-]|by intros [-> _]|lia].
    + assert (~ size + (p - size mod p) < modulus USIZE).
      { intros Hlt. by rewrite (proj2 (checked_add_Some USIZE size _ _) (conj eq_refl Hlt)) in Hk. }
      change (modulus USIZE) with 18446744073709551616 in *. unfold isize_MAX. split; [done|lia].
Qed.

(** A size that huge pages can represent is one that standard pages can. *)
Lemma rounded_standard_le_huge size : 0 <= size -> rounded size Standard <= rounded size Huge.
Proof.
  intros Hs. unfold rounded. cbn [PageSize_bytes]. unfold STANDARD_PAGE_SIZE, HUGE_PAGE_SIZE.
  change (2 * 1024 * 1024) with (4096 * 512).
  pose proof (Z.div_mod (size + 4096 - 1) 4096 ltac:(lia)).
  pose proof (Z.mod_pos_bound (size + 4096 - 1) 4096 ltac:(lia)).
  pose proof (Z.div_mod (size + 4096 * 512 - 1) (4096 * 512) ltac:(lia)).
  pose proof (Z.mod_pos_bound (size + 4096 * 512 - 1) (4096 * 512) ltac:(lia)).
  lia.
Qed.

(** ** What validation establishes *)

(** The control message that passes the files has room for
    [MAX_WORKERS] workers (client.rs). *)
Definition CMSG_MAX_SIZE : Z :=
  (GLOBAL_SHMEM + MAX_WORKERS * WORKER_SHMEM + CHECK_SHMEM + SIMULATE_SHMEM) * 4.

Section Specification.
  Context `{QueueSizes}.

(** [shaq] reports sizes as [usize]. *)
Definition sizes_in_width : Prop :=
  forall kind msg capacity size, minimum_file_size kind msg capacity = Some size ->
    0 <= size < modulus USIZE.

(** A queue whose file can be mapped with the page size. *)
Definition queue_fits (kind : QueueKind) (msg : Msg) (capacity : Z) (page : PageSize) : Prop :=
  exists size, minimum_file_size kind msg capacity = Some size /\ rounded size page <= isize_MAX.

Record valid_logon (l : ClientLogon) : Prop := {
  vl_workers : 1 <= worker_count l <= 64;
  vl_check_workers : check_worker_count l <= 64;
  vl_simulate_workers : simulate_worker_count l <= 64;
  vl_handles : 1 <= allocator_handles l;
  vl_allocators : worker_count l + check_worker_count l + simulate_worker_count l +
    allocator_handles l + 1 < 2 ^ 32;
  vl_allocator_size : rounded (allocator_size l) Huge <= isize_MAX;
  vl_tpu : queue_fits Spsc TpuToPackMessage (tpu_to_pack_capacity l) Huge;
  vl_progress : queue_fits Spsc ProgressMessage (progress_tracker_capacity l) Standard;
  vl_pack : queue_fits Spsc PackToExecutionWorkerMessage (pack_to_worker_capacity l) Huge;
  vl_worker : queue_fits Spsc ExecutionWorkerToPackMessage (worker_to_pack_capacity l) Huge;
  vl_check : 0 < check_worker_count l ->
    queue_fits Mpmc PackToCheckWorkerMessage (pack_to_check_worker_capacity l) Huge /\
    queue_fits Mpmc CheckWorkerToPackMessage (check_worker_to_pack_capacity l) Huge;
  vl_simulate : 0 < simulate_worker_count l ->
    queue_fits Mpmc PackToExecutionWorkerMessage (pack_to_simulate_worker_capacity l) Huge /\
    queue_fits Mpmc ExecutionWorkerToPackMessage (simulate_worker_to_pack_capacity l) Huge
}.

(** A check succeeds exactly when [P] holds, and returns in any case. *)
Definition decides {A} (m : Outcome AgaveHandshakeError A) (P : Prop) : Prop :=
  (P /\ exists a, m = Ok a) \/ (~ P /\ exists e, m = Err e).

Lemma decides_bind {A B} (m : Outcome AgaveHandshakeError A) (k : A -> Outcome _ B) P Q :
  decides m P -> (forall a, m = Ok a -> P -> decides (k a) Q) -> decides (obind m k) (P /\ Q).
Proof.
  intros [(HP & a & ->)|(HP & e & ->)] Hk; simpl.
  - destruct (Hk a eq_refl HP) as [(HQ & Hok)|(HQ & Herr)]; [by left|right; tauto].
  - right. split; [tauto|]. by exists e.
Qed.

Lemma decides_iff {A} (m : Outcome AgaveHandshakeError A) P Q :
  (P <-> Q) -> decides m P -> decides m Q.
Proof. unfold decides. tauto. Qed.

Lemma decides_err_if b e P : (b = false <-> P) -> decides (err_if b e) P.
Proof.
  intros Hb. destruct b; simpl; [right|left]; (split; [|by eexists]).
  - intros HP. by apply Hb in HP.
  - by apply Hb.
Qed.

Lemma decides_ok_or {A} (o : option A) e P : ((exists a, o = Some a) <-> P) -> decides (ok_or o e) P.
Proof.
  intros Ho. destruct o as [a|]; simpl; [left|right]; (split; [|by eexists]).
  - apply Ho. by exists a.
  - intros HP. by apply Ho in HP as [a ?].
Qed.

Lemma decides_if {A} (b : bool) (m : Outcome AgaveHandshakeError A) a P Q :
  (b = true <-> Q) -> decides m P -> decides (if b then m else Ok a) (Q -> P).
Proof.
  intros Hb Hm. destruct b.
  - assert (Q) by (by apply Hb). eapply decides_iff; [|exact Hm]. tauto.
  - left. split; [|by eexists]. intros HQ. by apply Hb in HQ.
Qed.

Lemma decides_queue field capacity kind msg page :
  sizes_in_width ->
  decides (validate_queue_capacity field capacity kind msg page) (queue_fits kind msg capacity page).
Proof.
  intros Hw. unfold validate_queue_capacity, queue_fits.
  destruct (minimum_file_size kind msg capacity) as [size|] eqn:Hs; simpl.
  - destruct (checked_file_size size page) as [n|] eqn:Hn; simpl.
    + left. split; [|by exists tt]. apply checked_file_size_spec in Hn as [_ Hn]; [|by eapply Hw].
      by exists size.
    + right. split; [|by eexists]. intros (size' & [= <-] & Hr).
      by rewrite (proj2 (checked_file_size_spec size page _ (Hw _ _ _ _ Hs)) (conj eq_refl Hr)) in Hn.
  - right. split; [by intros (? & ? & _)|by eexists].
Qed.

Lemma wf_logon_ranges l : wf_logon l ->
  0 <= worker_count l /\ 0 <= check_worker_count l /\ 0 <= simulate_worker_count l /\
  0 <= allocator_size l < modulus USIZE /\ 0 <= allocator_handles l < modulus USIZE.
Proof.
  unfold wf_logon, ClientLogon_words, in_width. rewrite !List.Forall_cons_iff. intuition.
Qed.

(** [checked_add] on small numbers. *)
Lemma checked_add_small w a b : a + b < modulus w -> checked_add w a b = Some (a + b).
Proof. intros H1. by apply checked_add_Some. Qed.

Lemma allocator_count_spec l :
  wf_logon l -> worker_count l <= 64 -> check_worker_count l <= 64 -> simulate_worker_count l <= 64 ->
  (exists n, allocator_count l = Some n) <->
  1 <= allocator_handles l /\
  worker_count l + check_worker_count l + simulate_worker_count l + allocator_handles l + 1 < 2 ^ 32.
Proof.
  intros Hwf Hw Hc Hs. apply wf_logon_ranges in Hwf as (Hw0 & Hc0 & Hs0 & _ & Hh).
  change (2 ^ 32) with 4294967296. unfold allocator_count.
  change (modulus USIZE) with 18446744073709551616 in *.
  destruct (Z.eqb_spec (allocator_handles l) 0); [split; [by intros [? ?]|lia]|].
  rewrite checked_add_small by (cbn [modulus]; lia). rewrite checked_add_small by (cbn [modulus]; lia).
  destruct (checked_add USIZE _ (allocator_handles l)) as [k|] eqn:Hk.
  - apply checked_add_Some in Hk as [-> _].
    destruct (checked_add USIZE _ 1) as [m|] eqn:Hm.
    + apply checked_add_Some in Hm as [-> _]. unfold try_from. cbn [modulus].
      destruct (Z.ltb_spec (worker_count l + check_worker_count l + simulate_worker_count l + allocator_handles l + 1) 4294967296).
      * split; [lia|eauto].
      * split; [by intros [? ?]|lia].
    + split; [by intros [? ?]|]. intros [_ Hlt]. rewrite checked_add_small in Hm by (cbn [modulus]; lia). done.
  - split; [by intros [? ?]|]. intros [_ Hlt]. rewrite checked_add_small in Hk by (cbn [modulus]; lia). done.
Qed.

Lemma validate_decides l : sizes_in_width -> wf_logon l -> decides (validate l) (valid_logon l).
Proof.
  intros Hsz Hwf. pose proof (wf_logon_ranges l Hwf) as (Hw0 & Hc0 & Hs0 & Ha0 & Hh0).
  assert (Hacc : (exists n, checked_file_size (allocator_size l) Huge = Some n) <->
    rounded (allocator_size l) Huge <= isize_MAX).
  { split.
    - intros [n Hn]. apply checked_file_size_spec in Hn; [tauto|done].
    - intros Hr. eexists. apply checked_file_size_spec; [done|]. by split. }
  eapply decides_iff; [|unfold validate;
    apply decides_bind; [apply decides_err_if; rewrite negb_false_iff, andb_true_iff, !Z.leb_le; reflexivity|intros _ _ [? ?]];
    apply decides_bind; [apply decides_err_if; rewrite Z.ltb_ge; reflexivity|intros _ _ ?];
    apply decides_bind; [apply decides_err_if; rewrite Z.ltb_ge; reflexivity|intros _ _ ?];
    apply decides_bind; [apply decides_ok_or, allocator_count_spec; done|intros _ _ _];
    apply decides_bind; [apply decides_ok_or, Hacc|intros _ _ _];
    do 4 (apply decides_bind; [by apply decides_queue|intros _ _ _]);
    apply decides_bind; [apply decides_if; [apply Z.ltb_lt|apply decides_bind; [by apply decides_queue|intros; by apply decides_queue]]|intros _ _ _];
    apply decides_bind; [apply decides_if; [apply Z.ltb_lt|apply decides_bind; [by apply decides_queue|intros; by apply decides_queue]]|intros _ _ _];
    left; split; [exact I|by exists tt]].
  unfold MAX_WORKERS. split.
  - intros. destruct_and?. by constructor.
  - intros []. split_and!; tauto.
Qed.
End Specification.

Lemma expected_file_count_valid `{QueueSizes} l :
  wf_logon l -> valid_logon l ->
  expected_file_count l = Some (GLOBAL_SHMEM + worker_count l * WORKER_SHMEM +
    (if 0 <? check_worker_count l then CHECK_SHMEM else 0) +
    (if 0 <? simulate_worker_count l then SIMULATE_SHMEM else 0)).
Proof.
  intros Hwf [Hw _ _ _ _ _ _ _ _ _ _ _]. unfold expected_file_count, checked_mul.
  unfold GLOBAL_SHMEM, WORKER_SHMEM, CHECK_SHMEM, SIMULATE_SHMEM.
  assert (try_from USIZE (worker_count l * 2) = Some (worker_count l * 2)) as ->
    by (apply try_from_Some; cbn [modulus]; lia).
  rewrite checked_add_small by (cbn [modulus]; lia).
  rewrite checked_add_small by (cbn [modulus]; case_match; lia).
  rewrite checked_add_small by (cbn [modulus]; repeat case_match; lia). f_equal. lia.
Qed.

(** C26: [ClientLogon::validate] accepts exactly the logons whose counts are in
    range and whose allocator and queues can be mapped, and never panics.  For an
    accepted logon the number of files is [3 + 2 * workers] plus two per enabled
    worker kind, which the control message buffer of the client has room for, the
    allocator count is defined (so the server's [expect] cannot fail), and each size
    that fits huge pages also fits the standard pages that the server falls back
    to. *)
Theorem validate_spec `{QueueSizes} l :
  sizes_in_width -> wf_logon l ->
  (validate l = Ok tt <-> valid_logon l) /\ returns (validate l) /\
  (validate l = Ok tt ->
     (exists n, expected_file_count l = Some n /\
        n = 3 + 2 * worker_count l + (if 0 <? check_worker_count l then 2 else 0) +
            (if 0 <? simulate_worker_count l then 2 else 0) /\ n * 4 <= CMSG_MAX_SIZE) /\
     (exists c, allocator_count l = Some c) /\
     forall size, 0 <= size < modulus USIZE ->
       (exists n, checked_file_size size Huge = Some n) ->
       exists n, checked_file_size size Standard = Some n).
Proof.
  intros Hsz Hwf. pose proof (validate_decides l Hsz Hwf) as Hd.
  assert (Hiff : validate l = Ok tt <-> valid_logon l).
  { destruct Hd as [(HP & [] & ->)|(HP & e & ->)]; split; done. }
  split; [done|]. split; [by destruct Hd as [(_ & ? & ->)|(_ & ? & ->)]|].
  intros Hv%Hiff. split_and!.
  - eexists. split; [by apply expected_file_count_valid|]. destruct Hv as [Hw _ _ _ _ _ _ _ _ _ _ _].
    unfold CMSG_MAX_SIZE, GLOBAL_SHMEM, MAX_WORKERS, WORKER_SHMEM, CHECK_SHMEM, SIMULATE_SHMEM.
    split; repeat case_match; lia.
  - destruct Hv as [Hw Hc Hs Hh Ha _ _ _ _ _ _ _]. apply allocator_count_spec; try done; lia.
  - intros size Hsize [n Hn]. apply checked_file_size_spec in Hn as [_ Hn]; [|done].
    eexists. apply checked_file_size_spec; [done|]. split; [done|].
    pose proof (rounded_standard_le_huge size). lia.
Qed.

(** ** A sample *)

Definition sample_logon : ClientLogon :=
  {| worker_count := 4; check_worker_count := 2; simulate_worker_count := 0;
     allocator_size := 1000000; allocator_handles := 1; tpu_to_pack_capacity := 1024;
     progress_tracker_capacity := 16; pack_to_worker_capacity := 64; worker_to_pack_capacity := 64;
     pack_to_check_worker_capacity := 64; check_worker_to_pack_capacity := 64;
     pack_to_simulate_worker_capacity := 0; simulate_worker_to_pack_capacity := 0 |}.

#[global] Instance sample_queue_sizes : QueueSizes | 10 := fun _ _ capacity =>
  if (0 <=? capacity) && (capacity <? 2 ^ 50) then Some (128 + 64 * capacity) else None.

Lemma sample_sizes_ok : sizes_in_width (H := sample_queue_sizes).
Proof.
  intros kind msg c size. unfold minimum_file_size, sample_queue_sizes.
  destruct (Z.leb_spec 0 c), (Z.ltb_spec c (2 ^ 50)); simpl; try done.
  intros [= <-]. cbn [modulus]. lia.
Qed.

Lemma sample_logon_wf : wf_logon sample_logon.
Proof. unfold wf_logon. repeat constructor; vm_compute; done. Qed.

Lemma validate_spec_witness : exists n, expected_file_count sample_logon = Some n /\ n * 4 <= 540.
Proof.
  destruct (validate_spec sample_logon sample_sizes_ok sample_logon_wf) as (_ & _ & H).
  destruct (H ltac:(by vm_compute)) as ((n & H1 & _ & H2) & _). exists n. split; [exact H1|exact H2].
Defined.
