(* ===== verification/HandshakeShmem.v ===== *)
(** * Shared-memory objects of the handshake (scheduler-handshake/src/server.rs)

    [create_shmem] makes the anonymous memory objects that a session lives in: by
    [memfd_create] on Linux, and by linking and unlinking a fixed name elsewhere.
    The second one is not atomic, so several servers can interfere. *)

From Stdlib Require Import ZArith Lia Strings.Byte Strings.String.
From stdpp Require Import base list numbers gmap relations.
From S2P Require Import Prelude RustStr HandshakeShared.
Local Open Scope Z_scope.

Inductive ErrorKind := NotFound | AlreadyExists | Unsupported | InvalidInput | OtherKind.

#[global] Instance ErrorKind_eq_dec : EqDecision ErrorKind.
Proof. solve_decision. Defined.

(** ** The kernel's objects *)

(** The names of the POSIX shared-memory objects, and the number of objects made
    so far; an object without a name is reached through file descriptors only. *)
Record Shm := {
  shm_links : gmap str nat;
  shm_next : nat
}.

Definition wf_shm (s : Shm) : Prop :=
  forall name o, shm_links s !! name = Some o -> (o < shm_next s)%nat.

Definition linked (s : Shm) (o : nat) : Prop := exists name, shm_links s !! name = Some o.

(** The system calls; each can fail for other reasons as well ([fault]). *)
Definition memfd_create (fault : option ErrorKind) (flags : Z) (s : Shm) :
    Outcome ErrorKind nat * Shm :=
  match fault with
  | Some e => (Err e, s)
  | None => (Ok (shm_next s), {| shm_links := shm_links s; shm_next := S (shm_next s) |})
  end.

Definition shm_unlink (fault : option ErrorKind) (name : str) (s : Shm) :
    Outcome ErrorKind unit * Shm :=
  match fault with
  | Some e => (Err e, s)
  | None =>
      match shm_links s !! name with
      | None => (Err NotFound, s)
      | Some _ => (Ok tt, {| shm_links := delete name (shm_links s); shm_next := shm_next s |})
      end
  end.

(** With the flags [O_CREAT | O_EXCL | O_RDWR]. *)
Definition shm_open (fault : option ErrorKind) (name : str) (s : Shm) :
    Outcome ErrorKind nat * Shm :=
  match fault with
  | Some e => (Err e, s)
  | None =>
      match shm_links s !! name with
      | Some _ => (Err AlreadyExists, s)
      | None =>
          (Ok (shm_next s), {| shm_links := <[name := shm_next s]> (shm_links s);
                               shm_next := S (shm_next s) |})
      end
  end.

(** ** [create_shmem] *)

Definition SHMEM_NAME : str := lit "/agave-scheduler-bindings".

Definition MFD_HUGETLB : Z := 0x4.
Definition MFD_HUGE_2MB : Z := Z.shiftl 21 26.

(** On Linux; [faults] are the faults of the system calls in order. *)
Definition create_shmem_memfd (faults : nat -> option ErrorKind) (page_size : PageSize) (s : Shm) :
    Outcome ErrorKind nat * Shm :=
  let flags := match page_size with
               | Huge => Z.lor MFD_HUGETLB MFD_HUGE_2MB
               | Standard => 0
               end in
  memfd_create (faults 0%nat) flags s.

(** On other systems: a new object, once the previous name is gone, whose name is
    removed again. *)
Definition create_unlinked (faults : nat -> option ErrorKind) (s : Shm) :
    Outcome ErrorKind nat * Shm :=
  let (ret, s) := shm_open (faults 1%nat) SHMEM_NAME s in
  match ret with
  | Ok file =>
      let (ret, s) := shm_unlink (faults 2%nat) SHMEM_NAME s in
      match ret with
      | Err err => (Err err, s)
      | _ => (Ok file, s)
      end
  | err => (err, s)
  end.

Definition create_shmem_posix (faults : nat -> option ErrorKind) (page_size : PageSize) (s : Shm) :
    Outcome ErrorKind nat * Shm :=
  match page_size with
  | Huge => (Err Unsupported, s)
  | Standard =>
      let (ret, s) := shm_unlink (faults 0%nat) SHMEM_NAME s in
      match ret with
      | Err err =>
          if negb (bool_decide (err = NotFound)) then (Err err, s) else create_unlinked faults s
      | _ => create_unlinked faults s
      end
  end.

Definition align_file_size (size : Z) (page_size : PageSize) : Outcome ErrorKind Z :=
  match checked_file_size size page_size with
  | Some size => Ok size
  | None => Err InvalidInput
  end.

(** ** Several servers at once *)

(** Where a server is in [create_shmem], between its system calls. *)
Inductive Creation :=
| Unlinking
| Opening
| Cleaning (file : nat)
| Created (file : nat)
| Failed (err : ErrorKind).

(** The next system call of a server. *)
Definition creation_step (fault : option ErrorKind) (c : Creation) (s : Shm) : Creation * Shm :=
  match c with
  | Unlinking =>
      let (ret, s) := shm_unlink fault SHMEM_NAME s in
      match ret with
      | Err err => (if negb (bool_decide (err = NotFound)) then Failed err else Opening, s)
      | _ => (Opening, s)
      end
  | Opening =>
      let (ret, s) := shm_open fault SHMEM_NAME s in
      match ret with
      | Ok file => (Cleaning file, s)
      | Err err => (Failed err, s)
      | _ => (Opening, s)
      end
  | Cleaning file =>
      let (ret, s) := shm_unlink fault SHMEM_NAME s in
      match ret with
      | Err err => (Failed err, s)
      | _ => (Created file, s)
      end
  | Created _ | Failed _ => (c, s)
  end.

(** Servers take turns in any order, and any program can remove any name. *)
Inductive servers_step : list Creation * Shm -> list Creation * Shm -> Prop :=
| server_turn cs s i c c' s' fault :
    cs !! i = Some c -> creation_step fault c s = (c', s') ->
    servers_step (cs, s) (<[i := c']> cs, s')
| foreign_unlink cs s name :
    servers_step (cs, s)
      (cs, {| shm_links := delete name (shm_links s); shm_next := shm_next s |}).

(** The object that a server has a file of. *)
Definition held (c : Creation) : option nat :=
  match c with Cleaning file | Created file => Some file | _ => None end.

(** ** The atomic view: what a call of [create_shmem] promises *)

(** A created object is new, and has no name; no other name is touched; and a name
    left behind by a call that failed is the fixed one. *)
Definition creates_anonymous (create : Shm -> Outcome ErrorKind nat * Shm) : Prop :=
  forall s, wf_shm s ->
    let (ret, s') := create s in
    wf_shm s' /\ (shm_next s <= shm_next s')%nat /\
    (forall name, name <> SHMEM_NAME -> shm_links s' !! name = shm_links s !! name) /\
    match ret with
    | Ok file => ~ linked s file /\ ~ linked s' file /\ (shm_next s <= file < shm_next s')%nat
    | Err _ => True
    | _ => False
    end.

Lemma wf_delete s name :
  wf_shm s -> wf_shm {| shm_links := delete name (shm_links s); shm_next := shm_next s |}.
Proof. intros Hwf n o Ho. cbn in *. apply lookup_delete_Some in Ho as [_ Ho]. by eapply Hwf. Qed.

Lemma wf_insert s name :
  wf_shm s ->
  wf_shm {| shm_links := <[name := shm_next s]> (shm_links s); shm_next := S (shm_next s) |}.
Proof.
  intros Hwf n o Ho. cbn in *. apply lookup_insert_Some in Ho as [[_ <-]|[_ Ho]]; [lia|].
  apply Hwf in Ho. lia.
Qed.

Lemma shm_unlink_cases fault s :
  (exists e, shm_unlink fault SHMEM_NAME s = (Err e, s) /\
     (fault = None -> e = NotFound /\ shm_links s !! SHMEM_NAME = None)) \/
  (fault = None /\ is_Some (shm_links s !! SHMEM_NAME) /\ shm_unlink fault SHMEM_NAME s =
     (Ok tt, {| shm_links := delete SHMEM_NAME (shm_links s); shm_next := shm_next s |})).
Proof.
  unfold shm_unlink. destruct fault as [e|]; [left; by exists e|].
  destruct (shm_links s !! SHMEM_NAME) eqn:E; [right; by eauto|left; by eauto].
Qed.

Lemma shm_open_cases fault s :
  (exists e, shm_open fault SHMEM_NAME s = (Err e, s) /\
     (fault = None -> e = AlreadyExists /\ is_Some (shm_links s !! SHMEM_NAME))) \/
  (fault = None /\ shm_links s !! SHMEM_NAME = None /\ shm_open fault SHMEM_NAME s =
     (Ok (shm_next s), {| shm_links := <[SHMEM_NAME := shm_next s]> (shm_links s);
                          shm_next := S (shm_next s) |})).
Proof.
  unfold shm_open. destruct fault as [e|]; [left; by exists e|].
  destruct (shm_links s !! SHMEM_NAME) eqn:E; [left; by eauto|right; by eauto].
Qed.

(** ** The invariant of concurrent creation *)

(** [base] is the number of objects that were there before. *)
Record servers_inv (base : nat) (cs : list Creation) (s : Shm) : Prop := {
  si_wf : wf_shm s;
  si_base : (base <= shm_next s)%nat;
  si_fresh : forall i c o, cs !! i = Some c -> held c = Some o -> (base <= o < shm_next s)%nat;
  si_named : forall name o,
    shm_links s !! name = Some o -> (base <= o)%nat -> name = SHMEM_NAME;
  si_created : forall i o, cs !! i = Some (Created o) -> ~ linked s o;
  si_distinct : forall i j c c' o,
    cs !! i = Some c -> cs !! j = Some c' -> held c = Some o -> held c' = Some o -> i = j
}.

Lemma servers_inv_delete base cs s name :
  servers_inv base cs s ->
  servers_inv base cs {| shm_links := delete name (shm_links s); shm_next := shm_next s |}.
Proof.
  intros [Hwf Hb Hf Hn Hc Hd]. split; try done.
  - by apply wf_delete.
  - intros n o Ho. cbn in Ho. apply lookup_delete_Some in Ho as [_ Ho]. by apply Hn.
  - intros i o Hi [n Ho]. cbn in Ho. apply lookup_delete_Some in Ho as [_ Ho].
    apply (Hc i o Hi). by exists n.
Qed.

(** A server that holds what it held before, or nothing. *)
Lemma servers_inv_advance base cs s i c c' :
  servers_inv base cs s -> cs !! i = Some c ->
  held c' = None \/ held c' = held c ->
  (forall o, c' = Created o -> ~ linked s o) ->
  servers_inv base (<[i := c']> cs) s.
Proof.
  intros [Hwf Hb Hf Hn Hc Hd] Hi Hh Hcr.
  assert (Hat : forall j x o, <[i := c']> cs !! j = Some x -> held x = Some o ->
    exists y, cs !! j = Some y /\ held y = Some o).
  { intros j x o [(-> & <- & _)|(_ & Hj)]%list_lookup_insert_Some Hx; [|by exists x].
    exists c. destruct Hh as [Hh|Hh]; rewrite Hh in Hx; [done|by rewrite Hx]. }
  split; try done.
  - intros j x o Hj Hx. destruct (Hat j x o Hj Hx) as (y & Hy & Ho). by eapply Hf.
  - intros j o [(-> & -> & _)|(_ & Hj)]%list_lookup_insert_Some; [by apply Hcr|by eapply Hc].
  - intros j k x y o Hj Hk Hx Hy.
    destruct (Hat j x o Hj Hx) as (x' & Hj' & Hx'), (Hat k y o Hk Hy) as (y' & Hk' & Hy').
    by eapply (Hd j k x' y').
Qed.

Lemma servers_inv_open base cs s i :
  servers_inv base cs s ->
  servers_inv base (<[i := Cleaning (shm_next s)]> cs)
    {| shm_links := <[SHMEM_NAME := shm_next s]> (shm_links s); shm_next := S (shm_next s) |}.
Proof.
  intros [Hwf Hb Hf Hn Hc Hd].
  assert (Hat : forall j x o, <[i := Cleaning (shm_next s)]> cs !! j = Some x -> held x = Some o ->
    (j = i /\ o = shm_next s) \/ (j <> i /\ cs !! j = Some x /\ (base <= o < shm_next s)%nat)).
  { intros j x o [(-> & <- & _)|(Hne & Hj)]%list_lookup_insert_Some Hx; [injection Hx; by left|].
    right. split; [done|]. split; [done|]. by eapply Hf. }
  split; cbn [shm_links shm_next].
  - by apply wf_insert.
  - lia.
  - intros j x o Hj Hx. destruct (Hat j x o Hj Hx) as [[_ ->]|(_ & _ & ?)]; lia.
  - intros name o [[<- _]|[_ Ho]]%lookup_insert_Some Hle; [done|by eapply Hn].
  - intros j o Hj [name Ho]. cbn in Ho. destruct (Hat j _ o Hj eq_refl) as [[-> ->]|(Hne & Hj' & Hlt)].
    + apply list_lookup_insert_Some in Hj as [(_ & ? & _)|(? & _)]; done.
    + apply lookup_insert_Some in Ho as [[_ Ho]|[_ Ho]]; [lia|]. apply (Hc j o Hj'). by exists name.
  - intros j k x y o Hj Hk Hx Hy.
    destruct (Hat j x o Hj Hx) as [[-> ->]|(_ & Hj' & ?)],
      (Hat k y _ Hk Hy) as [[-> ?]|(_ & Hk' & ?)]; [done|lia..|by eapply (Hd j k x y)].
Qed.

Lemma creation_step_inv base cs s i c c' s' fault :
  servers_inv base cs s -> cs !! i = Some c -> creation_step fault c s = (c', s') ->
  servers_inv base (<[i := c']> cs) s'.
Proof.
  intros Hinv Hi. unfold creation_step.
  destruct c as [| |file|file|e].
  - destruct (shm_unlink_cases fault s) as [(e & -> & _)|(_ & _ & ->)]; intros [= <- <-].
    + eapply servers_inv_advance; [done|done|left; by case_bool_decide|by case_bool_decide].
    + eapply servers_inv_advance; [by apply servers_inv_delete|done|by left|done].
  - destruct (shm_open_cases fault s) as [(e & -> & _)|(_ & _ & ->)]; intros [= <- <-].
    + eapply servers_inv_advance; [done|done|by left|done].
    + by apply servers_inv_open.
  - destruct (shm_unlink_cases fault s) as [(e & -> & _)|(_ & _ & ->)]; intros [= <- <-].
    + eapply servers_inv_advance; [done|done|by left|done].
    + eapply servers_inv_advance; [by apply servers_inv_delete|done|by right|].
      intros o [= <-] [name Ho]. cbn in Ho. apply lookup_delete_Some in Ho as [Hne Ho].
      destruct Hinv as [_ _ Hf Hn _ _]. apply Hne. symmetry. apply (Hn name file Ho).
      by eapply (Hf i).
  - intros [= <- <-]. by rewrite list_insert_id.
  - intros [= <- <-]. by rewrite list_insert_id.
Qed.

Lemma servers_step_inv base x y :
  servers_inv base x.1 x.2 -> servers_step x y -> servers_inv base y.1 y.2.
Proof.
  intros Hinv Hstep. destruct Hstep as [cs s i c c' s' fault Hi Hc|cs s name].
  - by eapply creation_step_inv.
  - by apply servers_inv_delete.
Qed.

Lemma servers_inv_start n s : wf_shm s -> servers_inv (shm_next s) (replicate n Unlinking) s.
Proof.
  intros Hwf. assert (Hall : forall i c, replicate n Unlinking !! i = Some c -> c = Unlinking).
  { intros i c [-> _]%lookup_replicate. done. }
  split; try done.
  - by intros i c o ->%Hall.
  - intros name o Ho Hle. apply Hwf in Ho. lia.
  - by intros i o ?%Hall.
  - by intros i j c c' o ->%Hall.
Qed.

(** C29: Shared-memory objects are private, on the systems without [memfd_create],
    where [create_shmem] unlinks a fixed name, links a new object to it and unlinks
    it again.  However the system calls of any number of servers interleave,
    whichever fail, and whatever names other programs remove meanwhile, every object
    that a server got is newer than the objects that were there, has no name through
    which it could still be opened, and belongs to that server alone. *)
Theorem created_objects_are_private n s cs s' :
  wf_shm s -> rtc servers_step (replicate n Unlinking, s) (cs, s') ->
  forall i file, cs !! i = Some (Created file) ->
    (shm_next s <= file)%nat /\ ~ linked s file /\ ~ linked s' file /\
    forall j, cs !! j = Some (Created file) -> j = i.
Proof.
  intros Hwf Hrun i file Hi.
  assert (Hinv : servers_inv (shm_next s) (cs, s').1 (cs, s').2).
  { refine (rtc_ind_r (fun y => servers_inv (shm_next s) y.1 y.2) _ _ _ _ Hrun).
    - by apply servers_inv_start.
    - intros y z _ Hyz Hy. by eapply servers_step_inv. }
  destruct Hinv as [_ _ Hf _ Hc Hd]. cbn [fst snd] in *.
  pose proof (Hf i _ file Hi eq_refl) as Hnew.
  split; [lia|]. split; [intros [name Ho]; apply Hwf in Ho; lia|]. split; [by eapply Hc|].
  intros j Hj. by eapply (Hd j i).
Qed.

(** ** A server on its own *)

(** The servers' turns in a given order, each with the fault of its system call. *)
Fixpoint run_servers (turns : list (nat * option ErrorKind)) (x : list Creation * Shm) :
    list Creation * Shm :=
  match turns with
  | [] => x
  | (i, fault) :: turns =>
      match x.1 !! i with
      | None => run_servers turns x
      | Some c =>
          let (c', s') := creation_step fault c x.2 in
          run_servers turns (<[i := c']> x.1, s')
      end
  end.

Lemma run_servers_rtc turns x : rtc servers_step x (run_servers turns x).
Proof.
  revert x. induction turns as [|[i fault] turns IH]; intros [cs s]; cbn; [done|].
  destruct (cs !! i) as [c|] eqn:Hi; [|apply IH].
  destruct (creation_step fault c s) as [c' s'] eqn:Hc.
  eapply rtc_l; [by eapply server_turn|apply IH].
Qed.

(** What a call has returned. *)
Definition returned (c : Creation) : Outcome ErrorKind nat :=
  match c with
  | Created file => Ok file
  | Failed err => Err err
  | _ => Diverge
  end.

(** Undisturbed, the steps of a server are the call. *)
Lemma create_shmem_posix_steps faults s :
  let (cs, s') := run_servers [(0, faults 0); (0, faults 1); (0, faults 2)]%nat ([Unlinking], s) in
  exists c, cs = [c] /\ create_shmem_posix faults Standard s = (returned c, s').
Proof.
  unfold create_shmem_posix, create_unlinked. cbn [run_servers fst snd lookup list_lookup insert list_insert].
  unfold creation_step at 1.
  destruct (shm_unlink (faults 0%nat) SHMEM_NAME s) as [[[]|e| | |] s1] eqn:E1;
    [|destruct (bool_decide (e = NotFound)); cbn [negb]|..];
    try (by unfold shm_unlink in E1; repeat case_match);
    cbn [run_servers fst snd lookup list_lookup insert list_insert creation_step];
    try (by eexists);
    destruct (shm_open (faults 1%nat) SHMEM_NAME s1) as [[file|e'| | |] s2] eqn:E2;
    try (by unfold shm_open in E2; repeat case_match);
    cbn [run_servers fst snd lookup list_lookup insert list_insert creation_step];
    try (by eexists);
    destruct (shm_unlink (faults 2%nat) SHMEM_NAME s2) as [[[]|e''| | |] s3] eqn:E3;
    try (by unfold shm_unlink in E3; repeat case_match);
    by eexists.
Qed.

Lemma create_shmem_memfd_anonymous faults page_size :
  creates_anonymous (create_shmem_memfd faults page_size).
Proof.
  intros s Hwf. unfold create_shmem_memfd, memfd_create. destruct (faults 0%nat); [done|].
  assert (Hnl : ~ linked s (shm_next s)) by (intros [name Ho]; apply Hwf in Ho; lia).
  cbn. split; [|split; [lia|]; split; [done|]; split; [done|]; split; [done|lia]].
  intros name o Ho. apply Hwf in Ho. cbn. lia.
Qed.

Definition unlinked (s : Shm) : Shm :=
  {| shm_links := delete SHMEM_NAME (shm_links s); shm_next := shm_next s |}.

Lemma unlinked_id s : shm_links s !! SHMEM_NAME = None -> unlinked s = s.
Proof. intros E. unfold unlinked. rewrite delete_id by done. by destruct s. Qed.

Definition faulty (faults : nat -> option ErrorKind) : Prop := exists i, (i < 3)%nat /\ is_Some (faults i).

(** Once the name is free. *)
Lemma create_unlinked_cases faults s :
  (exists e s', create_unlinked faults (unlinked s) = (Err e, s') /\ faulty faults /\
     (s' = unlinked s \/
      s' = {| shm_links := <[SHMEM_NAME := shm_next s]> (delete SHMEM_NAME (shm_links s));
              shm_next := S (shm_next s) |})) \/
  create_unlinked faults (unlinked s) =
    (Ok (shm_next s), {| shm_links := delete SHMEM_NAME (shm_links s); shm_next := S (shm_next s) |}).
Proof.
  unfold create_unlinked, faulty, shm_open. cbn [unlinked shm_links shm_next].
  destruct (faults 1%nat) eqn:F1; [left; eexists _, _; split; [done|]; split; [eauto|by left]|].
  rewrite lookup_delete_eq. unfold shm_unlink. cbn [shm_links shm_next].
  destruct (faults 2%nat) eqn:F2; [left; eexists _, _; split; [done|]; split; [eauto|by right]|].
  rewrite lookup_insert_eq. right. by rewrite delete_insert_eq, delete_delete_eq.
Qed.

(** Either the call makes a new object and frees the name, or a system call has
    failed, after some of the steps. *)
Lemma create_shmem_posix_cases faults s :
  (exists e s', create_shmem_posix faults Standard s = (Err e, s') /\ faulty faults /\
     (s' = s \/ s' = unlinked s \/
      s' = {| shm_links := <[SHMEM_NAME := shm_next s]> (delete SHMEM_NAME (shm_links s));
              shm_next := S (shm_next s) |})) \/
  create_shmem_posix faults Standard s =
    (Ok (shm_next s), {| shm_links := delete SHMEM_NAME (shm_links s); shm_next := S (shm_next s) |}).
Proof.
  assert (Hrest : forall r, r = create_unlinked faults (unlinked s) ->
    (exists e s', r = (Err e, s') /\ faulty faults /\
       (s' = s \/ s' = unlinked s \/
        s' = {| shm_links := <[SHMEM_NAME := shm_next s]> (delete SHMEM_NAME (shm_links s));
                shm_next := S (shm_next s) |})) \/
    r = (Ok (shm_next s),
         {| shm_links := delete SHMEM_NAME (shm_links s); shm_next := S (shm_next s) |})).
  { intros r ->. destruct (create_unlinked_cases faults s) as [(e & s' & He & Hf & Hs)|Hok];
      [left; exists e, s'; naive_solver|by right]. }
  unfold create_shmem_posix, shm_unlink.
  destruct (faults 0%nat) as [e|] eqn:F0; [assert (faulty faults) by (exists 0%nat; eauto with lia)|].
  - case_bool_decide; cbn [negb]; [|left; eexists _, _; naive_solver].
    destruct (shm_links s !! SHMEM_NAME) eqn:E; [|apply Hrest; by rewrite unlinked_id].
    left. unfold create_unlinked.
    destruct (shm_open_cases (faults 1%nat) s) as [(e' & -> & _)|(_ & ? & _)]; [|congruence].
    eexists _, _. naive_solver.
  - destruct (shm_links s !! SHMEM_NAME) eqn:E; [by apply Hrest|].
    rewrite bool_decide_true by done. apply Hrest. by rewrite unlinked_id.
Qed.

Lemma create_shmem_posix_anonymous faults page_size :
  creates_anonymous (create_shmem_posix faults page_size).
Proof.
  intros s Hwf. destruct page_size; [|done].
  pose proof (wf_delete s SHMEM_NAME Hwf) as Hdel. pose proof (wf_insert _ SHMEM_NAME Hdel) as Hins.
  assert (Hnl : ~ linked s (shm_next s)) by (intros [name Ho]; apply Hwf in Ho; lia).
  destruct (create_shmem_posix_cases faults s) as [(e & s' & -> & _ & Hs)| ->].
  - destruct Hs as [-> | [-> | ->]]; (split; [done|]); cbn; (split; [lia|]); (split; [|done]);
      intros name Hne; by rewrite ?lookup_insert_ne, ?lookup_delete_ne.
  - cbn. split; [intros name o Ho; apply Hdel in Ho; cbn in *; lia|]. split; [lia|].
    split; [intros name Hne; by rewrite lookup_delete_ne|]. split; [done|]. split; [|lia].
    intros [name Ho]. apply Hdel in Ho. cbn in Ho. lia.
Qed.

(** Either [create_shmem] creates anonymous objects, whatever fails.  The one that
    goes through a name returns an object whenever no system call fails, even when a
    name was left behind by an earlier failure, and leaves the name free; it has no
    huge pages, so that the server's second attempt decides. *)
Theorem create_shmem_spec faults page_size :
  creates_anonymous (create_shmem_memfd faults page_size) /\
  creates_anonymous (create_shmem_posix faults page_size) /\
  (forall s, ~ faulty faults ->
     create_shmem_posix faults Standard s =
       (Ok (shm_next s),
        {| shm_links := delete SHMEM_NAME (shm_links s); shm_next := S (shm_next s) |})) /\
  (forall s, create_shmem_posix faults Huge s = (Err Unsupported, s)).
Proof.
  split; [apply create_shmem_memfd_anonymous|]. split; [apply create_shmem_posix_anonymous|].
  split; [|done]. intros s Hnf.
  by destruct (create_shmem_posix_cases faults s) as [(e & s' & _ & Hf & _)|?].
Qed.

(** The size of a file is the least number of whole pages that hold the content; it is
    an invalid input when no offset can span it. *)
Theorem align_file_size_spec size page_size :
  in_width USIZE size ->
  align_file_size size page_size =
    (if rounded size page_size <=? isize_MAX then Ok (rounded size page_size) else Err InvalidInput) /\
  size <= rounded size page_size < size + PageSize_bytes page_size /\
  (PageSize_bytes page_size | rounded size page_size).
Proof.
  intros Hs. pose proof (checked_file_size_spec size page_size (rounded size page_size) Hs) as Hc.
  split; [|split].
  - unfold align_file_size. destruct (checked_file_size size page_size) as [n|] eqn:E.
    + apply (checked_file_size_spec size page_size n Hs) in E as [-> Hle].
      by rewrite (proj2 (Z.leb_le _ _) Hle).
    + destruct (Z.leb_spec (rounded size page_size) isize_MAX) as [Hle|_]; [|done].
      discriminate (proj2 Hc (conj eq_refl Hle)).
  - unfold rounded. pose proof (page_pos page_size). set (p := PageSize_bytes page_size) in *.
    pose proof (Z.div_mod (size + p - 1) p ltac:(lia)).
    pose proof (Z.mod_pos_bound (size + p - 1) p ltac:(lia)). lia.
  - apply Z.divide_factor_r.
Qed.

(** ** Samples *)

(** A name is left from an earlier failure, and the calls of three servers overlap. *)
Definition sample_shm : Shm := {| shm_links := {[ SHMEM_NAME := 0%nat ]}; shm_next := 1 |}.

Definition sample_turns : list (nat * option ErrorKind) :=
  map (fun i => (i, None)) [0; 1; 0; 0; 1; 1; 2; 2; 2]%nat.

Lemma created_objects_are_private_witness :
  let final := run_servers sample_turns (replicate 3 Unlinking, sample_shm) in
  final.1 = [Created 1; Created 2; Created 3]%nat /\ ~ linked final.2 2%nat.
Proof.
  intros final. split; [vm_compute; reflexivity|].
  pose proof (run_servers_rtc sample_turns (replicate 3 Unlinking, sample_shm)) as Hrun.
  change (run_servers sample_turns (replicate 3 Unlinking, sample_shm)) with final in Hrun.
  rewrite (surjective_pairing final) in Hrun.
  apply (created_objects_are_private 3 sample_shm final.1 final.2) with (i := 1%nat).
  - intros name o Ho. cbn [sample_shm shm_links] in Ho.
    apply lookup_singleton_Some in Ho as [_ <-]. cbn. lia.
  - exact Hrun.
  - vm_compute. reflexivity.
Defined.

(** Two servers that race: the second one unlinks the object of the first and links its
    own, whose name the first removes, so that the second finds no name to remove. *)
Example racing_servers :
  (run_servers (map (fun i => (i, None)) [0; 0; 1; 1; 0; 1]%nat)
     (replicate 2 Unlinking, sample_shm)).1 = [Created 1%nat; Failed NotFound].
Proof. vm_compute. reflexivity. Qed.
