(* ===== verification/HandshakeWire.v ===== *)
(** * The messages of the handshake (scheduler-handshake/src/client.rs, server.rs)

    The logon message as the client sends and the server receives it, and the
    server's rejection as the client receives it. *)

From Stdlib Require Import ZArith Lia Strings.Byte Strings.String.
From stdpp Require Import base list numbers.
From S2P Require Import Prelude RustStr HandshakeShared.
Local Open Scope Z_scope.
Local Open Scope rust_scope.

(** ** The logon message on the wire *)

Definition BUFFER_LEN : Z := 1024.
Definition LOGON_END : Z := ProtocolVersions_SERIALIZED_SIZE + size_of_ClientLogon.

(** [write_unaligned] at an offset of a buffer. *)
Definition write_at (buf : list byte) (off : Z) (bytes : list byte) : list byte :=
  take (Z.to_nat off) buf ++ bytes ++ drop (Z.to_nat (off + len bytes)) buf.

Section Wire.
  Context `{Target}.

(** The bytes that [send_logon] writes to the stream. *)
Definition send_logon (logon : ClientLogon) (versions : ProtocolVersions) : list byte :=
  let buf := replicate (Z.to_nat BUFFER_LEN) x00 in
  let buf := write_at buf 0 (words_to_memory (ProtocolVersions_words versions)) in
  write_at buf ProtocolVersions_SERIALIZED_SIZE (words_to_memory (ClientLogon_words logon)).

(** A call of [read]: the bytes that are available (none at the end of the
    stream) and whether the time is up after it; or an error of the socket, such
    as its read timeout. *)
Inductive Read := ReadBytes (available : list byte) (late : bool) | ReadError.

(** The loop that fills the buffer. *)
Fixpoint read_loop (reads : list Read) (buffer : list byte) :
    Outcome AgaveHandshakeError (list byte) :=
  if BUFFER_LEN <=? len buffer then Ok buffer
  else
    match reads with
    | ReadBytes available late :: reads =>
        let read := take (Z.to_nat (BUFFER_LEN - len buffer)) available in
        if len read =? 0 then Err EofDuringHandshake
        else if late : bool then Err Timeout
        else read_loop reads (buffer ++ read)
    | ReadError :: _ | [] => Err Io
    end.

(** [server_versions] is [ProtocolVersions::current()]. *)
Definition recv_logon (server_versions : ProtocolVersions) (reads : list Read) :
    Outcome AgaveHandshakeError ClientLogon :=
  let? buffer := read_loop reads [] in
  let? versions_bytes := index_range buffer 0 ProtocolVersions_SERIALIZED_SIZE in
  match ProtocolVersions_try_from_bytes versions_bytes with
  | None => Panic
  | Some client_versions =>
      let? _ := err_if (negb (bool_decide (client_versions = server_versions)))
                  (Version server_versions client_versions) in
      let? logon_bytes := index_range buffer ProtocolVersions_SERIALIZED_SIZE LOGON_END in
      match ClientLogon_try_from_bytes logon_bytes with
      | None => Panic
      | Some logon => Ok logon
      end
  end.
End Wire.

(** ** Rejections *)

Inductive ClientHandshakeError :=
| ClientIo
| TimedOut
| ProtocolViolation
| Rejected (reason : str)
| ClientRtsAlloc
| ClientShaq.

(** The bytes that [accept] sends for an error whose text is [reason]. *)
Definition rejection (reason : str) : list byte :=
  let bytes := map byte_of_Z (as_bytes reason) in
  let reason_len := match try_from U8 (len bytes) with Some n => n | None => umax U8 end in
  LOGON_FAILURE :: byte_of_Z reason_len :: take (Z.to_nat reason_len) bytes.

(** What [recvmsg] reports of control messages: none, the files it passes, another
    message, or that the buffer was too small ([cmsgs()] is then an error). *)
Inductive Control (F : Type) := NoControl | ScmRights (files : list F) | OtherControl | Truncated.
Arguments NoControl {F}.
Arguments ScmRights {F} _.
Arguments OtherControl {F}.
Arguments Truncated {F}.

(** A received message, or the failure of the call. *)
Definition Received (F : Type) : Type := option (list byte * Control F).

Definition recv_response {F} (received : Received F) : Outcome ClientHandshakeError (list F) :=
  match received with
  | None => Err ClientIo
  | Some (bytes, control) =>
      let buf := take (Z.to_nat BUFFER_LEN) bytes in
      let? _ := err_if (len buf =? 0) ClientIo in
      let? tag := index buf 0 in
      if bool_decide (tag = LOGON_FAILURE) then
        let? reason_len := index buf 1 in
        let? reason := index_range buf 2 (2 + Z_of_byte reason_len) in
        Err (Rejected (from_utf8_lossy (map Z_of_byte reason)))
      else
        match control with
        | ScmRights files => Ok files
        | NoControl | OtherControl | Truncated => Panic
        end
  end.

(** ** The logon message is received as it was sent *)

Section WireProofs.
  Context `{Target}.

Lemma send_logon_layout logon versions :
  exists padding,
    send_logon logon versions =
      words_to_memory (ProtocolVersions_words versions) ++
      words_to_memory (ClientLogon_words logon) ++ padding /\
    len (send_logon logon versions) = BUFFER_LEN.
Proof.
  pose proof (len_words_to_memory (ProtocolVersions_words versions)) as Hv.
  pose proof (len_words_to_memory (ClientLogon_words logon)) as Hl.
  change (len (ProtocolVersions_words versions)) with 4 in Hv.
  change (len (ClientLogon_words logon)) with 13 in Hl.
  exists (replicate 888 x00). unfold send_logon, write_at. cbv zeta.
  set (v := words_to_memory (ProtocolVersions_words versions)) in *.
  set (l := words_to_memory (ClientLogon_words logon)) in *.
  rewrite Hv, Hl. unfold ProtocolVersions_SERIALIZED_SIZE, BUFFER_LEN, len in *.
  change (Z.to_nat 0) with 0%nat. rewrite take_0. cbn [app].
  rewrite take_app_length' by lia. rewrite (drop_app_ge v) by lia.
  rewrite drop_drop, drop_replicate.
  replace (Z.to_nat 1024 - _)%nat with 888%nat by lia.
  split; [done|]. rewrite !length_app, length_replicate. lia.
Qed.

(** The stream delivers some bytes in time, in any number of reads. *)
Definition delivers (reads : list Read) (bytes : list byte) : Prop :=
  exists pieces rest, reads = map (fun piece => ReadBytes piece false) pieces ++ rest /\
    Forall (fun piece => piece <> []) pieces /\ concat pieces = bytes.

Lemma read_loop_delivers pieces rest buffer :
  Forall (fun piece => piece <> []) pieces -> len buffer + len (concat pieces) = BUFFER_LEN ->
  read_loop (map (fun piece => ReadBytes piece false) pieces ++ rest) buffer =
    Ok (buffer ++ concat pieces).
Proof.
  intros Hne. revert buffer. induction Hne as [|p pieces Hp _ IH]; intros buffer Hlen.
  - assert (Hr : forall reads, read_loop reads buffer = Ok buffer).
    { intros reads. destruct reads; simpl; (zcase; [done|revert Hlen; simpl; len_lia]). }
    by rewrite Hr, app_nil_r.
  - simpl in *. autorewrite with len in Hlen. zcase; [destruct p; [done|len_lia]|].
    rewrite take_ge by (unfold len in *; lia). zcase; [by apply len_0_nil in e|].
    rewrite IH by len_lia. by rewrite <- app_assoc.
Qed.

Lemma read_loop_returns reads buffer :
  match read_loop reads buffer with
  | Ok full => BUFFER_LEN <= len full
  | Err _ => True
  | _ => False
  end.
Proof.
  revert buffer. induction reads as [|r reads IH]; intros buffer; simpl.
  - by zcase.
  - zcase; [done|]. destruct r; [|done]. zcase; [done|]. destruct late; [done|]. apply IH.
Qed.

Lemma length_words_of_memory n bytes : length (words_of_memory n bytes) = n.
Proof.
  unfold words_of_memory. rewrite length_map. revert bytes.
  induction n as [|n IH]; intros bytes; simpl; [done|]. by rewrite IH.
Qed.

Lemma versions_try_from_bytes_total bytes :
  len bytes = ProtocolVersions_SERIALIZED_SIZE ->
  exists v, ProtocolVersions_try_from_bytes bytes = Some v.
Proof.
  intros Hl. unfold ProtocolVersions_try_from_bytes. rewrite Hl. simpl.
  pose proof (length_words_of_memory 4 bytes) as Hn.
  destruct (words_of_memory 4 bytes) as [|? [|? [|? [|? [|]]]]]; try done. by eexists.
Qed.

Lemma logon_try_from_bytes_total bytes :
  len bytes = size_of_ClientLogon -> exists l, ClientLogon_try_from_bytes bytes = Some l.
Proof.
  intros Hl. unfold ClientLogon_try_from_bytes. rewrite Hl. simpl.
  pose proof (length_words_of_memory 13 bytes) as Hn. revert Hn.
  generalize (words_of_memory 13 bytes). intros ws Hn.
  do 13 (destruct ws as [|? ws]; [done|]). destruct ws; [by eexists|done].
Qed.

(** The structs are read back from their memory. *)
Lemma versions_roundtrip v :
  wf_versions v ->
  ProtocolVersions_try_from_bytes (words_to_memory (ProtocolVersions_words v)) = Some v.
Proof.
  intros Hv. unfold ProtocolVersions_try_from_bytes. rewrite len_words_to_memory.
  pose proof (words_roundtrip (ProtocolVersions_words v) []) as Hr. rewrite app_nil_r in Hr.
  change (negb _) with false. cbv iota. etransitivity; [apply f_equal, Hr; done|by destruct v].
Qed.

Lemma logon_memory_roundtrip l :
  wf_logon l -> ClientLogon_try_from_bytes (words_to_memory (ClientLogon_words l)) = Some l.
Proof.
  intros Hl. unfold ClientLogon_try_from_bytes. rewrite len_words_to_memory.
  pose proof (words_roundtrip (ClientLogon_words l) []) as Hr. rewrite app_nil_r in Hr.
  change (negb _) with false. cbv iota. etransitivity; [apply f_equal, Hr; done|by destruct l].
Qed.

Lemma recv_logon_delivers current reads logon versions :
  wf_logon logon -> wf_versions versions -> delivers reads (send_logon logon versions) ->
  recv_logon current reads =
    if bool_decide (versions = current) then Ok logon else Err (Version current versions).
Proof.
  intros Hl Hv (pieces & rest & -> & Hne & Hc).
  destruct (send_logon_layout logon versions) as (padding & Hs & Hlen).
  unfold recv_logon. rewrite read_loop_delivers by (by rewrite ?Hc, ?Hlen).
  rewrite Hc, Hs. cbn [obind].
  pose proof (len_words_to_memory (ProtocolVersions_words versions)) as Hlv.
  pose proof (len_words_to_memory (ClientLogon_words logon)) as Hll.
  change (len (ProtocolVersions_words versions)) with 4 in Hlv.
  change (len (ClientLogon_words logon)) with 13 in Hll.
  rewrite (index_range_Ok [] (words_to_memory (ProtocolVersions_words versions)))
    by (rewrite ?Hlv; done). cbn [obind app].
  rewrite versions_roundtrip by done. unfold err_if. case_bool_decide; [|done]. cbn [obind negb].
  rewrite index_range_Ok by (unfold LOGON_END; rewrite ?Hlv, ?Hll; done). cbn [obind].
  by rewrite logon_memory_roundtrip.
Qed.

Lemma recv_logon_returns current reads : returns (recv_logon current reads).
Proof.
  unfold recv_logon. pose proof (read_loop_returns reads []) as Hr.
  destruct (read_loop reads []) as [buffer| | | |]; try done. cbn [obind].
  assert (Hi : forall i j, 0 <= i <= j -> j <= BUFFER_LEN -> exists c,
    index_range (E := AgaveHandshakeError) buffer i j = Ok c /\ len c = j - i).
  { intros i j Hij Hj. exists (subslice i j buffer). unfold index_range.
    rewrite len_subslice by lia. do 2 (zcase; [|lia]). done. }
  unfold LOGON_END, ProtocolVersions_SERIALIZED_SIZE, size_of_ClientLogon, BUFFER_LEN in *.
  destruct (Hi 0 32) as (c & -> & Hlc); [lia|lia|]. cbn [obind].
  destruct (versions_try_from_bytes_total c) as [v ->]; [done|].
  unfold err_if. case_bool_decide; [|done]. cbn [obind negb].
  destruct (Hi 32 (32 + 104)) as (d & -> & Hld); [lia|lia|]. cbn [obind].
  by destruct (logon_try_from_bytes_total d) as [l ->].
Qed.

(** C33: However the stream splits it into reads, the server receives the logon
    message the client sent, on targets of either byte order: with the client's
    logon when the protocol versions are its own, and otherwise rejected with both
    versions.  Whatever the stream does (end, errors, time-outs, any bytes), the
    server returns a logon or an error and never panics. *)
Theorem logon_roundtrip current logon versions reads other :
  wf_logon logon -> wf_versions versions -> delivers reads (send_logon logon versions) ->
  recv_logon current reads =
    (if bool_decide (versions = current) then Ok logon else Err (Version current versions)) /\
  returns (recv_logon current other).
Proof. split; [by apply recv_logon_delivers|apply recv_logon_returns]. Qed.

(** Each read that does not end the loop adds at least one byte. *)
Lemma read_loop_bound reads buffer n :
  BUFFER_LEN <= len buffer + Z.of_nat n -> read_loop (take n reads) buffer = read_loop reads buffer.
Proof.
  revert reads buffer. induction n as [|n IH]; intros reads buffer Hn.
  - destruct reads as [|r reads]; [done|]. cbn [take read_loop]. zcase; [done|]. lia.
  - destruct reads as [|[available late|] reads]; [done| |done]. cbn [take read_loop]. zcase; [done|].
    set (bytes := take _ available). zcase; [done|]. destruct late; [done|]. apply IH.
    pose proof (len_nonneg bytes). autorewrite with len. lia.
Qed.

(** The server finishes receiving a logon after at most 1024 reads of the
    socket, however the client behaves: later reads make no difference, because
    every read that does not end the loop brings at least one byte of the message.
    It ends with a logon or an error. *)
Theorem recv_logon_terminates current reads :
  recv_logon current reads = recv_logon current (take (Z.to_nat BUFFER_LEN) reads) /\
  returns (recv_logon current (take (Z.to_nat BUFFER_LEN) reads)).
Proof.
  split; [|apply recv_logon_returns]. unfold recv_logon. by rewrite read_loop_bound by done.
Qed.
End WireProofs.

Definition sample_versions : ProtocolVersions :=
  {| pv_handshake := 3; pv_scheduler_bindings := 2; pv_shaq := 1; pv_rts_alloc := 1 |}.

Lemma sample_versions_wf : wf_versions sample_versions.
Proof. unfold wf_versions. repeat constructor; vm_compute; done. Qed.

#[local] Instance big_endian_target : Target := BigEndian.

Lemma logon_roundtrip_witness :
  let message := send_logon sample_logon sample_versions in
  recv_logon sample_versions
    [ReadBytes (take 10 message) false; ReadBytes (drop 10 message) false] = Ok sample_logon.
Proof.
  cbv zeta. refine (proj1 (logon_roundtrip sample_versions sample_logon sample_versions _ []
    sample_logon_wf sample_versions_wf _)).
  exists [take 10 (send_logon sample_logon sample_versions);
          drop 10 (send_logon sample_logon sample_versions)], [].
  split; [reflexivity|]. split; [repeat constructor; vm_compute; discriminate|].
  cbn [concat]. rewrite app_nil_r. apply take_drop.
Defined.

(** ** A rejection reaches the client *)

Lemma rejection_bytes reason :
  valid_str reason ->
  exists n, 0 <= n < 256 /\
    rejection reason = LOGON_FAILURE :: byte_of_Z n :: map byte_of_Z (take 255 (as_bytes reason)) /\
    n = len (take 255 (as_bytes reason)).
Proof.
  intros _. unfold rejection. rewrite len_map. unfold try_from. cbn [modulus].
  destruct (Z.ltb_spec (len (as_bytes reason)) 256) as [Hl|Hl].
  - exists (len (as_bytes reason)). rewrite (take_ge (as_bytes reason)) by (unfold len in *; lia).
    rewrite take_ge by (rewrite length_map; unfold len; lia). split; [len_lia|done].
  - exists 255. split; [done|]. split.
    + cbn [umax modulus]. by rewrite <- fmap_take.
    + unfold len in *. rewrite length_take. lia.
Qed.

Lemma map_byte_roundtrip bs :
  Forall (fun b => 0 <= b < 256) bs -> map Z_of_byte (map byte_of_Z bs) = bs.
Proof. induction 1 as [|b bs Hb _ IH]; simpl; [done|]. by rewrite Z_of_byte_of_Z, IH. Qed.

Lemma recv_rejection {F} reason (control : Control F) :
  valid_str reason ->
  recv_response (Some (rejection reason, control)) =
    Err (Rejected (from_utf8_lossy (take 255 (as_bytes reason)))).
Proof.
  intros Hv. destruct (rejection_bytes reason Hv) as (n & Hn & -> & Hlen).
  set (text := take 255 (as_bytes reason)) in *.
  assert (Hr : map Z_of_byte (map byte_of_Z text) = text)
    by (by apply map_byte_roundtrip, Forall_take, as_bytes_range).
  unfold recv_response. rewrite take_ge
    by (unfold BUFFER_LEN, len in *; cbn [length]; rewrite length_map; lia).
  set (buf := LOGON_FAILURE :: byte_of_Z n :: map byte_of_Z text).
  assert (Hb : len buf = 2 + n) by (unfold buf; autorewrite with len; lia).
  unfold err_if. zcase; [lia|]. cbn [obind]. rewrite (index_Ok buf 0 LOGON_FAILURE) by (done || apply get_cons_0).
  cbn [obind]. rewrite bool_decide_true by done. rewrite (index_Ok buf 1 (byte_of_Z n))
    by (done || by apply (get_app_mid [LOGON_FAILURE])).
  cbn [obind]. rewrite Z_of_byte_of_Z by done.
  replace buf with ([LOGON_FAILURE; byte_of_Z n] ++ map byte_of_Z text ++ []) by (by rewrite app_nil_r).
  rewrite index_range_Ok by (autorewrite with len; lia). cbn [obind]. by rewrite Hr.
Qed.

(** A control message passes its files on. *)
Lemma recv_files {F} (files : list F) :
  recv_response (Some ([LOGON_SUCCESS], ScmRights files)) = Ok files.
Proof. done. Qed.
