(* ===== verification/HandshakeSession.v ===== *)
(** * The handshake (scheduler-handshake/src/server.rs, client.rs and lib.rs)

    The set-up of the two ends of a session: the server creates an allocator and
    queues in shared memory and passes their files to the client in protocol
    order, and the client joins the other ends. *)

From Stdlib Require Import ZArith Lia Strings.Byte Strings.String.
From stdpp Require Import base list numbers sets.
From S2P Require Import Prelude RustStr HandshakeShared HandshakeWire.
Local Open Scope Z_scope.
Local Open Scope rust_scope.

(** ** Shared-memory objects *)

Inductive Endpoint := ProducerEnd | ConsumerEnd.

Definition opposite (e : Endpoint) : Endpoint :=
  match e with ProducerEnd => ConsumerEnd | ConsumerEnd => ProducerEnd end.

#[global] Instance Endpoint_eq_dec : EqDecision Endpoint.
Proof. solve_decision. Defined.
#[global] Instance Msg_eq_dec : EqDecision Msg.
Proof. solve_decision. Defined.
#[global] Instance QueueKind_eq_dec : EqDecision QueueKind.
Proof. solve_decision. Defined.

(** What a file was initialized as: an allocator with a number of handles, or a
    queue, by which end. *)
Inductive FileContent :=
| AllocatorFile (count : Z)
| QueueFile (kind : QueueKind) (msg : Msg) (creator : Endpoint).

#[global] Instance FileContent_eq_dec : EqDecision FileContent.
Proof. solve_decision. Defined.

Record File := {
  file_id : nat;
  file_content : FileContent
}.

(** An end of a queue in one of the processes. *)
Record QueueEnd := {
  qe_file : nat;
  qe_kind : QueueKind;
  qe_msg : Msg;
  qe_end : Endpoint
}.

(** The results of creation attempt number [t] (with its page size and file size),
    of joining another handle to the allocator, and of joining a file. *)
Class SharedMemory := {
  create_succeeds : nat -> PageSize -> FileContent -> Z -> bool;
  join_existing_succeeds : nat -> bool;
  join_succeeds : File -> bool
}.

(** ** The server *)

(** Server code counts its attempts. *)
Definition Srv (A : Type) : Type := nat -> Outcome AgaveHandshakeError A * nat.

Definition srv_ret {A} (a : A) : Srv A := fun t => (Ok a, t).

Definition srv_bind {A B} (m : Srv A) (k : A -> Srv B) : Srv B := fun t =>
  match m t with
  | (Ok a, t') => k a t'
  | (Err e, t') => (Err e, t')
  | (Panic, t') => (Panic, t')
  | (UB, t') => (UB, t')
  | (Diverge, t') => (Diverge, t')
  end.

Declare Scope srv_scope.
Delimit Scope srv_scope with srv.
Notation "x <- m ;; k" := (srv_bind m (fun x => k))
  (at level 100, m at next level, right associativity) : srv_scope.
Local Open Scope srv_scope.

Definition srv_lift {A} (r : Outcome AgaveHandshakeError A) : Srv A := fun t => (r, t).

(** [create(Huge).or_else(|_| create(Standard))]. *)
Definition or_else {A} (m m' : Srv A) : Srv A := fun t =>
  match m t with
  | (Err _, t') => m' t'
  | r => r
  end.

Record AgaveSession := {
  as_allocator : nat;
  as_tpu_to_pack : QueueEnd;
  as_progress_tracker : QueueEnd;
  (** the allocator, [pack_to_worker] and [worker_to_pack] of each worker *)
  as_workers : list (nat * QueueEnd * QueueEnd);
  as_check_workers : list (nat * QueueEnd * QueueEnd);
  as_simulate_workers : list (nat * QueueEnd * QueueEnd)
}.

Section Server.
  Context `{QueueSizes} `{SharedMemory}.

(** A new file of the minimum size, rounded up to pages. *)
Definition create_file (error : AgaveHandshakeError) (content : FileContent) (size : option Z)
    (page_size : PageSize) : Srv File := fun t =>
  match size with
  | None => (Err error, S t)
  | Some size =>
      match checked_file_size size page_size with
      | None => (Err error, S t)
      | Some file_size =>
          if create_succeeds t page_size content file_size
          then (Ok {| file_id := t; file_content := content |}, S t)
          else (Err error, S t)
      end
  end.

Definition create_with_fallback (error : AgaveHandshakeError) (content : FileContent)
    (size : option Z) (page_size : PageSize) : Srv File :=
  match page_size with
  | Huge => or_else (create_file error content size Huge) (create_file error content size Standard)
  | Standard => create_file error content size Standard
  end.

Definition create_allocator (logon : ClientLogon) : Srv File :=
  match allocator_count logon with
  | None => srv_lift Panic
  | Some count =>
      create_with_fallback RtsAlloc (AllocatorFile count) (Some (allocator_size logon)) Huge
  end.

(** [create_producer], [create_consumer], [create_mpmc_producer] and
    [create_mpmc_consumer]. *)
Definition create_queue (kind : QueueKind) (msg : Msg) (server_end : Endpoint) (capacity : Z)
    (page_size : PageSize) : Srv (File * QueueEnd) :=
  file <- create_with_fallback ShaqError (QueueFile kind msg server_end)
            (minimum_file_size kind msg capacity) page_size ;;
  srv_ret (file, {| qe_file := file_id file; qe_kind := kind; qe_msg := msg; qe_end := server_end |}).

Definition join_from_existing (allocator : File) : Srv nat := fun t =>
  (if join_existing_succeeds t then Ok (file_id allocator) else Err RtsAlloc, S t).

Fixpoint create_workers (logon : ClientLogon) (allocator : File) (n : nat)
    (acc : list File * list (nat * QueueEnd * QueueEnd)) :
    Srv (list File * list (nat * QueueEnd * QueueEnd)) :=
  match n with
  | O => srv_ret acc
  | S n =>
      worker_allocator <- join_from_existing allocator ;;
      pack <- create_queue Spsc PackToExecutionWorkerMessage ConsumerEnd
                (pack_to_worker_capacity logon) Huge ;;
      worker <- create_queue Spsc ExecutionWorkerToPackMessage ProducerEnd
                  (worker_to_pack_capacity logon) Huge ;;
      create_workers logon allocator n
        (acc.1 ++ [pack.1; worker.1], acc.2 ++ [(worker_allocator, pack.2, worker.2)])
  end.

(** Every worker of the pool gets its own allocator handle and shares the queues. *)
Fixpoint join_pool (allocator : File) (request response : QueueEnd) (n : nat) :
    Srv (list (nat * QueueEnd * QueueEnd)) :=
  match n with
  | O => srv_ret []
  | S n =>
      handle <- join_from_existing allocator ;;
      rest <- join_pool allocator request response n ;;
      srv_ret ((handle, request, response) :: rest)
  end.

(** The check workers, and the simulate workers. *)
Definition create_pool (allocator : File) (count : Z) (request_msg response_msg : Msg)
    (request_capacity response_capacity : Z) : Srv (list File * list (nat * QueueEnd * QueueEnd)) :=
  if count =? 0 then srv_ret ([], [])
  else
    request <- create_queue Mpmc request_msg ConsumerEnd request_capacity Huge ;;
    response <- create_queue Mpmc response_msg ProducerEnd response_capacity Huge ;;
    workers <- join_pool allocator request.2 response.2 (Z.to_nat count) ;;
    srv_ret ([request.1; response.1], workers).

Definition server_setup_session (logon : ClientLogon) : Srv (AgaveSession * list File) :=
  _ <- srv_lift (validate logon) ;;
  allocator <- create_allocator logon ;;
  tpu <- create_queue Spsc TpuToPackMessage ProducerEnd (tpu_to_pack_capacity logon) Huge ;;
  progress <- create_queue Spsc ProgressMessage ProducerEnd
                (progress_tracker_capacity logon) Standard ;;
  workers <- create_workers logon allocator (Z.to_nat (worker_count logon)) ([], []) ;;
  check <- create_pool allocator (check_worker_count logon) PackToCheckWorkerMessage
             CheckWorkerToPackMessage (pack_to_check_worker_capacity logon)
             (check_worker_to_pack_capacity logon) ;;
  simulate <- create_pool allocator (simulate_worker_count logon) PackToExecutionWorkerMessage
                ExecutionWorkerToPackMessage (pack_to_simulate_worker_capacity logon)
                (simulate_worker_to_pack_capacity logon) ;;
  srv_ret ({| as_allocator := file_id allocator;
              as_tpu_to_pack := tpu.2;
              as_progress_tracker := progress.2;
              as_workers := workers.2;
              as_check_workers := check.2;
              as_simulate_workers := simulate.2 |},
           [allocator; tpu.1; progress.1] ++ workers.1 ++ check.1 ++ simulate.1).

(** ** The client *)

Record ClientSession := {
  cs_allocator : nat;
  cs_tpu_to_pack : QueueEnd;
  cs_progress_tracker : QueueEnd;
  cs_workers : list (QueueEnd * QueueEnd);
  cs_check_workers : option (QueueEnd * QueueEnd);
  cs_simulate_workers : option (QueueEnd * QueueEnd)
}.

(** Joining a queue is unsafe: the file must hold a queue of this kind and type
    whose end is not the creator's. *)
Definition join_queue (kind : QueueKind) (msg : Msg) (client_end : Endpoint) (file : File) :
    Outcome ClientHandshakeError QueueEnd :=
  if bool_decide (file_content file = QueueFile kind msg (opposite client_end)) then
    if join_succeeds file
    then Ok {| qe_file := file_id file; qe_kind := kind; qe_msg := msg; qe_end := client_end |}
    else Err ClientShaq
  else UB.

Definition join_allocator (file : File) : Outcome ClientHandshakeError nat :=
  match file_content file with
  | AllocatorFile _ => if join_succeeds file then Ok (file_id file) else Err ClientRtsAlloc
  | QueueFile _ _ _ => Err ClientRtsAlloc
  end.

(** [slice.split_at(n)]. *)
Definition split_at {E A} (n : Z) (l : list A) : Outcome E (list A * list A) :=
  if n <=? len l then Ok (take (Z.to_nat n) l, drop (Z.to_nat n) l) else Panic.

Definition join_pair (request_msg response_msg : Msg) (files : list File) :
    Outcome ClientHandshakeError (option (QueueEnd * QueueEnd)) :=
  match files with
  | [request_file; response_file] =>
      let? request := join_queue Mpmc request_msg ProducerEnd request_file in
      let? response := join_queue Mpmc response_msg ConsumerEnd response_file in
      Ok (Some (request, response))
  | _ => Ok None
  end.

Definition join_worker (window : list File) : Outcome ClientHandshakeError (QueueEnd * QueueEnd) :=
  match window with
  | [pack_to_worker; worker_to_pack] =>
      let? pack := join_queue Spsc PackToExecutionWorkerMessage ProducerEnd pack_to_worker in
      let? worker := join_queue Spsc ExecutionWorkerToPackMessage ConsumerEnd worker_to_pack in
      Ok (pack, worker)
  | _ => Panic
  end.

(** [slice.chunks(2)]: the last chunk may be shorter. *)
Fixpoint chunks_2 {A} (l : list A) : list (list A) :=
  match l with
  | a :: b :: l => [a; b] :: chunks_2 l
  | [a] => [[a]]
  | [] => []
  end.

Definition client_setup_session (logon : ClientLogon) (files : list File) :
    Outcome ClientHandshakeError ClientSession :=
  let? expected := ok_or (expected_file_count logon) ProtocolViolation in
  let? _ := err_if (negb (len files =? expected)) ProtocolViolation in
  let? split := split_at GLOBAL_SHMEM files in
  let? worker_file_count := ok_or (checked_mul USIZE (worker_count logon) WORKER_SHMEM)
                              ProtocolViolation in
  let? split' := split_at worker_file_count split.2 in
  let check_file_count := if 0 <? check_worker_count logon then CHECK_SHMEM else 0 in
  let? split'' := split_at check_file_count split'.2 in
  match split.1 with
  | [allocator_file; tpu_to_pack_file; progress_tracker_file] =>
      let? allocator := join_allocator allocator_file in
      let? check_workers :=
        join_pair PackToCheckWorkerMessage CheckWorkerToPackMessage split''.1 in
      let? simulate_workers :=
        join_pair PackToExecutionWorkerMessage ExecutionWorkerToPackMessage split''.2 in
      let? tpu_to_pack := join_queue Spsc TpuToPackMessage ConsumerEnd tpu_to_pack_file in
      let? progress_tracker := join_queue Spsc ProgressMessage ConsumerEnd progress_tracker_file in
      let? workers := ofold (fun sessions window =>
                        omap (fun session => sessions ++ [session]) (join_worker window))
                      [] (chunks_2 split'.1) in
      Ok {| cs_allocator := allocator;
            cs_tpu_to_pack := tpu_to_pack;
            cs_progress_tracker := progress_tracker;
            cs_workers := workers;
            cs_check_workers := check_workers;
            cs_simulate_workers := simulate_workers |}
  | _ => Panic
  end.

(** ** The exchange *)

Inductive SessionSetupError :=
| SetupServer (e : AgaveHandshakeError)
| SetupClient (e : ClientHandshakeError).

Definition map_err {E E' A} (f : E -> E') (m : Outcome E A) : Outcome E' A :=
  match m with
  | Ok a => Ok a
  | Err e => Err (f e)
  | Panic => Panic
  | UB => UB
  | Diverge => Diverge
  end.

Definition setup_local_session (logon : ClientLogon) (t : nat) :
    Outcome SessionSetupError (AgaveSession * ClientSession) :=
  let? setup := map_err SetupServer (server_setup_session logon t).1 in
  let? client := map_err SetupClient (client_setup_session logon setup.2) in
  Ok (setup.1, client).

Context `{Target}.

(** [sent] is the success of [sendmsg]. *)
Definition handle_logon (current : ProtocolVersions) (reads : list Read) (sent : bool) :
    Srv (AgaveSession * list File) :=
  logon <- srv_lift (recv_logon current reads) ;;
  setup <- server_setup_session logon ;;
  if sent then srv_ret setup else srv_lift (Err Io).

(** The session of the server and what it has written to the stream; [to_string]
    is the text of an error, and [written] the number of its bytes that the
    non-blocking write of the rejection takes, unless it fails. *)
Definition accept (to_string : AgaveHandshakeError -> str) (current : ProtocolVersions)
    (reads : list Read) (sent : bool) (written : option nat) (t : nat) :
    Outcome AgaveHandshakeError AgaveSession * Received File :=
  match (handle_logon current reads sent t).1 with
  | Ok (session, files) => (Ok session, Some ([LOGON_SUCCESS], ScmRights files))
  | Err err =>
      match written with
      | Some n => (Err err, Some (take n (rejection (to_string err)), NoControl))
      | None => (Err Io, None)
      end
  | Panic => (Panic, None)
  | UB => (UB, None)
  | Diverge => (Diverge, None)
  end.

(** The message as the client's [recvmsg] reports it: files that the control
    buffer has no room for are cut off. *)
Definition recvmsg (message : Received File) : Received File :=
  match message with
  | Some (bytes, ScmRights files) =>
      Some (bytes, if 4 * len files <=? CMSG_MAX_SIZE then ScmRights files else Truncated)
  | _ => message
  end.

(** The rest of [connect_path] once the logon message is sent. *)
Definition connect_path (logon : ClientLogon) (received : Received File) :
    Outcome ClientHandshakeError ClientSession :=
  let? files := recv_response received in
  client_setup_session logon files.
End Server.

(** ** What the two ends of a session promise each other *)

(** The two ends of one queue. *)
Definition peers (server client : QueueEnd) : Prop :=
  qe_file client = qe_file server /\ qe_kind client = qe_kind server /\
  qe_msg client = qe_msg server /\ qe_end client = opposite (qe_end server).

(** A server worker with the allocator and the queues of a client. *)
Definition worker_matches (allocator : nat) (server : nat * QueueEnd * QueueEnd)
    (client : QueueEnd * QueueEnd) : Prop :=
  server.1.1 = allocator /\ peers server.1.2 client.1 /\ peers server.2 client.2.

(** A pool of [count] workers that share the queues of the client. *)
Definition pool_matches (allocator : nat) (count : Z) (server : list (nat * QueueEnd * QueueEnd))
    (client : option (QueueEnd * QueueEnd)) : Prop :=
  len server = count /\
  match client with
  | None => count = 0
  | Some queues => 0 < count /\ Forall (fun worker => worker_matches allocator worker queues) server
  end.

Definition pair_files (queues : QueueEnd * QueueEnd) : list nat := [qe_file queues.1; qe_file queues.2].

(** The files of the client's session. *)
Definition session_files (client : ClientSession) : list nat :=
  [cs_allocator client; qe_file (cs_tpu_to_pack client); qe_file (cs_progress_tracker client)] ++
  flat_map pair_files (cs_workers client) ++
  match cs_check_workers client with Some queues => pair_files queues | None => [] end ++
  match cs_simulate_workers client with Some queues => pair_files queues | None => [] end.

Record sessions_match (logon : ClientLogon) (agave : AgaveSession) (client : ClientSession) : Prop := {
  sm_allocator : cs_allocator client = as_allocator agave;
  sm_tpu_to_pack : peers (as_tpu_to_pack agave) (cs_tpu_to_pack client);
  sm_progress_tracker : peers (as_progress_tracker agave) (cs_progress_tracker client);
  sm_worker_count : len (as_workers agave) = worker_count logon;
  sm_workers : Forall2 (worker_matches (as_allocator agave)) (as_workers agave) (cs_workers client);
  sm_check_workers :
    pool_matches (as_allocator agave) (check_worker_count logon) (as_check_workers agave)
      (cs_check_workers client);
  sm_simulate_workers :
    pool_matches (as_allocator agave) (simulate_worker_count logon) (as_simulate_workers agave)
      (cs_simulate_workers client);
  sm_files : NoDup (session_files client)
}.

(** ** The files of the server *)

Section Files.
  Context `{QueueSizes} `{SharedMemory}.

(** [fs] were created by the attempts from [t] to [t']. *)
Definition created (t t' : nat) (fs : list File) : Prop :=
  (t <= t')%nat /\ Forall (fun f => (t <= file_id f < t')%nat) fs /\ NoDup (map file_id fs).

Lemma created_nil t t' : (t <= t')%nat -> created t t' [].
Proof. intros. split; [done|]. split; constructor. Qed.

Lemma created_app t t1 t2 fs1 fs2 :
  created t t1 fs1 -> created t1 t2 fs2 -> created t t2 (fs1 ++ fs2).
Proof.
  intros (Hle1 & Hb1 & Hn1) (Hle2 & Hb2 & Hn2). split; [lia|]. split.
  - apply Forall_app. rewrite !list.Forall_forall in *.
    split; intros f Hf; [specialize (Hb1 f Hf)|specialize (Hb2 f Hf)]; lia.
  - rewrite map_app. apply list.NoDup_app. split; [done|]. split; [|done].
    intros i (f & -> & Hf)%list_elem_of_fmap (g & Hg & Hf')%list_elem_of_fmap.
    rewrite list.Forall_forall in Hb1, Hb2. specialize (Hb1 f Hf). specialize (Hb2 g Hf'). lia.
Qed.

Lemma srv_bind_Ok {A B} (m : Srv A) (k : A -> Srv B) t t' b :
  srv_bind m k t = (Ok b, t') -> exists a t1, m t = (Ok a, t1) /\ k a t1 = (Ok b, t').
Proof. unfold srv_bind. destruct (m t) as [[a| | | |] t1]; try done. by exists a, t1. Qed.

Lemma create_file_Ok error content size page t t' f :
  create_file error content size page t = (Ok f, t') ->
  file_content f = content /\ created t t' [f].
Proof.
  unfold create_file. destruct size as [size|]; [|done]. destruct (checked_file_size _ _); [|done].
  case_match; [|done]. intros [= <- <-]. split; [done|]. split; [lia|]. split.
  - repeat constructor; simpl; lia.
  - simpl. apply NoDup_singleton.
Qed.

Lemma create_with_fallback_Ok error content size page t t' f :
  create_with_fallback error content size page t = (Ok f, t') ->
  file_content f = content /\ created t t' [f].
Proof.
  destruct page; simpl; [apply create_file_Ok|]. unfold or_else.
  destruct (create_file error content size Huge t) as [[g| | | |] t1] eqn:Hg; try done.
  - intros [= <- <-]. by apply create_file_Ok in Hg.
  - intros Hf. apply create_file_Ok in Hf as (Hc & Hle & Hb & Hn). split; [done|].
    assert (t1 = S t) as ->.
    { unfold create_file in Hg. repeat case_match; by simplify_eq. }
    split; [lia|]. split; [|done]. rewrite Forall_singleton in Hb |- *. lia.
Qed.

(** A file with the server's end of the queue in it. *)
Definition queue_in (kind : QueueKind) (msg : Msg) (server_end : Endpoint) (q : File * QueueEnd) :
    Prop :=
  file_content q.1 = QueueFile kind msg server_end /\
  q.2 = {| qe_file := file_id q.1; qe_kind := kind; qe_msg := msg; qe_end := server_end |}.

Lemma create_queue_Ok kind msg server_end capacity page t t' q :
  create_queue kind msg server_end capacity page t = (Ok q, t') ->
  queue_in kind msg server_end q /\ created t t' [q.1].
Proof.
  intros (f & t1 & Hf & [= <- <-])%srv_bind_Ok. apply create_with_fallback_Ok in Hf as [Hc Hf].
  by repeat split; try apply Hf.
Qed.

Definition worker_queues (p : (File * QueueEnd) * (File * QueueEnd)) : Prop :=
  queue_in Spsc PackToExecutionWorkerMessage ConsumerEnd p.1 /\
  queue_in Spsc ExecutionWorkerToPackMessage ProducerEnd p.2.

Definition two_files (p : (File * QueueEnd) * (File * QueueEnd)) : list File := [p.1.1; p.2.1].

Lemma create_workers_Ok logon allocator n acc t t' res :
  create_workers logon allocator n acc t = (Ok res, t') ->
  exists ps, length ps = n /\ Forall worker_queues ps /\ created t t' (flat_map two_files ps) /\
    res = (acc.1 ++ flat_map two_files ps,
           acc.2 ++ map (fun p => (file_id allocator, p.1.2, p.2.2)) ps).
Proof.
  revert acc t. induction n as [|n IH]; intros acc t; simpl.
  - intros [= <- <-]. exists []. split; [done|]. split; [constructor|]. split; [by apply created_nil|].
    simpl. rewrite !app_nil_r. by destruct acc.
  - intros (handle & t1 & Hj & Hr)%srv_bind_Ok.
    unfold join_from_existing in Hj. case_match; [|done]. injection Hj as <- <-.
    apply srv_bind_Ok in Hr as (pack & t2 & [Hp Hcp]%create_queue_Ok & Hr).
    apply srv_bind_Ok in Hr as (worker & t3 & [Hw Hcw]%create_queue_Ok & Hr).
    apply IH in Hr as (ps & <- & Hps & Hc & ->). exists ((pack, worker) :: ps).
    split; [done|]. split; [by constructor|]. split; [|simpl; by rewrite <- !app_assoc].
    change (flat_map two_files ((pack, worker) :: ps))
      with ([] ++ [pack.1] ++ [worker.1] ++ flat_map two_files ps).
    apply (created_app t (S t)); [by apply created_nil; lia|]. by repeat (eapply created_app; [done|]).
Qed.

Lemma join_pool_Ok allocator request response n t t' res :
  join_pool allocator request response n t = (Ok res, t') ->
  (t <= t')%nat /\ res = replicate n (file_id allocator, request, response).
Proof.
  revert t t' res. induction n as [|n IH]; intros t t' res; simpl.
  - intros [= <- <-]. done.
  - intros (handle & t1 & Hj & Hr)%srv_bind_Ok.
    unfold join_from_existing in Hj. case_match; [|done]. injection Hj as <- <-.
    apply srv_bind_Ok in Hr as (rest & t2 & [Hle ->]%IH & [= <- <-]). split; [lia|done].
Qed.

(** The files and workers of a pool, none when it is disabled. *)
Definition pool_of (allocator : File) (count : Z) (request_msg response_msg : Msg)
    (pool : list File * list (nat * QueueEnd * QueueEnd)) : Prop :=
  if count =? 0 then pool = ([], [])
  else exists request response,
    queue_in Mpmc request_msg ConsumerEnd request /\
    queue_in Mpmc response_msg ProducerEnd response /\
    pool = ([request.1; response.1],
            replicate (Z.to_nat count) (file_id allocator, request.2, response.2)).

Lemma create_pool_Ok allocator count request_msg response_msg c1 c2 t t' pool :
  create_pool allocator count request_msg response_msg c1 c2 t = (Ok pool, t') ->
  pool_of allocator count request_msg response_msg pool /\ created t t' pool.1.
Proof.
  unfold create_pool, pool_of. destruct (count =? 0).
  { intros [= <- <-]. split; [done|by apply created_nil]. }
  intros (request & t1 & [Hq Hcq]%create_queue_Ok & Hr)%srv_bind_Ok.
  apply srv_bind_Ok in Hr as (response & t2 & [Hs Hcs]%create_queue_Ok & Hr).
  apply srv_bind_Ok in Hr as (workers & t3 & [Hle ->]%join_pool_Ok & [= <- <-]).
  split; [by exists request, response|].
  change [request.1; response.1] with ([request.1] ++ [response.1] ++ []).
  eapply created_app; [done|]. eapply created_app; [done|by apply created_nil].
Qed.

(** The allocator has a handle for the TPU, for each worker, and those of the client. *)
Definition is_allocator (logon : ClientLogon) (f : File) : Prop :=
  exists count, allocator_count logon = Some count /\ file_content f = AllocatorFile count.

(** What a successful [Server::setup_session] returns. *)
Definition server_result (logon : ClientLogon) (agave : AgaveSession) (files : list File) : Prop :=
  exists allocator tpu progress ps check simulate,
    is_allocator logon allocator /\
    queue_in Spsc TpuToPackMessage ProducerEnd tpu /\
    queue_in Spsc ProgressMessage ProducerEnd progress /\
    length ps = Z.to_nat (worker_count logon) /\ Forall worker_queues ps /\
    pool_of allocator (check_worker_count logon) PackToCheckWorkerMessage
      CheckWorkerToPackMessage check /\
    pool_of allocator (simulate_worker_count logon) PackToExecutionWorkerMessage
      ExecutionWorkerToPackMessage simulate /\
    agave = {| as_allocator := file_id allocator; as_tpu_to_pack := tpu.2;
               as_progress_tracker := progress.2;
               as_workers := map (fun p => (file_id allocator, p.1.2, p.2.2)) ps;
               as_check_workers := check.2; as_simulate_workers := simulate.2 |} /\
    files = [allocator; tpu.1; progress.1] ++ flat_map two_files ps ++ check.1 ++ simulate.1 /\
    NoDup (map file_id files).

Lemma server_setup_session_Ok logon t t' agave files :
  server_setup_session logon t = (Ok (agave, files), t') ->
  validate logon = Ok tt /\ server_result logon agave files.
Proof.
  unfold server_setup_session.
  intros ([] & t0 & [= Hv <-] & Hr)%srv_bind_Ok. split; [done|].
  apply srv_bind_Ok in Hr as (allocator & t1 & Ha & Hr).
  unfold create_allocator in Ha. destruct (allocator_count logon) as [count|] eqn:Hcount; [|done].
  apply create_with_fallback_Ok in Ha as [Ha Hca].
  apply srv_bind_Ok in Hr as (tpu & t2 & [Ht Hct]%create_queue_Ok & Hr).
  apply srv_bind_Ok in Hr as (progress & t3 & [Hp Hcp]%create_queue_Ok & Hr).
  apply srv_bind_Ok in Hr as (workers & t4 & (ps & Hn & Hps & Hcw & ->)%create_workers_Ok & Hr).
  apply srv_bind_Ok in Hr as (check & t5 & [Hc Hcc]%create_pool_Ok & Hr).
  apply srv_bind_Ok in Hr as (simulate & t6 & [Hs Hcs]%create_pool_Ok & [= <- <- <-]).
  exists allocator, tpu, progress, ps, check, simulate. split; [by exists count|].
  do 8 (split; [done|]).
  assert (created t t6 ([allocator] ++ [tpu.1] ++ [progress.1] ++
    flat_map two_files ps ++ check.1 ++ simulate.1)) as (_ & _ & Hnd)
    by (by repeat (eapply created_app; [eassumption|])).
  exact Hnd.
Qed.
End Files.

(** ** The client joins the other ends *)

Section Joins.
  Context `{QueueSizes} `{SharedMemory}.

(** A computation that fails with an error or yields [x], and does the latter
    under [P]. *)
Definition yields {E A} (P : Prop) (x : A) (m : Outcome E A) : Prop :=
  (m = Ok x \/ exists e, m = Err e) /\ (P -> m = Ok x).

Lemma yields_ret {E A} P (x : A) : yields (E := E) P x (Ok x).
Proof. split; auto. Qed.

Lemma yields_bind {E A B} P (x : A) (y : B) (m : Outcome E A) k :
  yields P x m -> yields P y (k x) -> yields P y (obind m k).
Proof.
  intros [Hm HP] [Hk HP']. split.
  - destruct Hm as [-> |[e ->]]; simpl; eauto.
  - intros p. rewrite (HP p). by apply HP'.
Qed.

Definition all_join (files : list File) : Prop := Forall (fun f => join_succeeds f = true) files.

Lemma all_join_elem files f : all_join files -> f ∈ files -> join_succeeds f = true.
Proof. intros Hall Hf. by apply (proj1 (list.Forall_forall _ _) Hall). Qed.

(** The client's end of the queue in a file. *)
Definition end_in (kind : QueueKind) (msg : Msg) (client_end : Endpoint) (f : File) : QueueEnd :=
  {| qe_file := file_id f; qe_kind := kind; qe_msg := msg; qe_end := client_end |}.

Lemma peers_end_in kind msg server_end q :
  queue_in kind msg server_end q -> peers q.2 (end_in kind msg (opposite server_end) q.1).
Proof. by intros [_ ->]. Qed.

Lemma opposite_opposite e : opposite (opposite e) = e.
Proof. by destruct e. Qed.

Lemma join_queue_yields files kind msg server_end q :
  queue_in kind msg server_end q -> q.1 ∈ files ->
  yields (all_join files) (end_in kind msg (opposite server_end) q.1)
    (join_queue kind msg (opposite server_end) q.1).
Proof.
  intros [Hc _] Hf. unfold join_queue. rewrite opposite_opposite, bool_decide_true by done. split.
  - destruct (join_succeeds q.1); eauto.
  - intros Hall. by rewrite (all_join_elem files).
Qed.

Lemma join_allocator_yields logon files f :
  is_allocator logon f -> f ∈ files ->
  yields (all_join files) (file_id f) (join_allocator f).
Proof.
  intros (count & _ & Hc) Hf. unfold join_allocator. rewrite Hc. split.
  - destruct (join_succeeds f); eauto.
  - intros Hall. by rewrite (all_join_elem files).
Qed.

Definition pool_ends (request_msg response_msg : Msg) (files : list File) :
    option (QueueEnd * QueueEnd) :=
  match files with
  | [request; response] =>
      Some (end_in Mpmc request_msg ProducerEnd request, end_in Mpmc response_msg ConsumerEnd response)
  | _ => None
  end.

Lemma join_pair_yields files allocator count request_msg response_msg pool :
  pool_of allocator count request_msg response_msg pool -> pool.1 ⊆ files ->
  yields (all_join files) (pool_ends request_msg response_msg pool.1)
    (join_pair request_msg response_msg pool.1).
Proof.
  unfold pool_of. destruct (count =? 0); [by intros -> _; apply yields_ret|].
  intros (request & response & Hq & Hs & ->) Hsub. simpl in *.
  apply (yields_bind _ (end_in Mpmc request_msg ProducerEnd request.1)).
  { apply (join_queue_yields _ _ _ ConsumerEnd); [done|]. set_solver. }
  apply (yields_bind _ (end_in Mpmc response_msg ConsumerEnd response.1)).
  { apply (join_queue_yields _ _ _ ProducerEnd); [done|]. set_solver. }
  apply yields_ret.
Qed.

Definition worker_ends (p : (File * QueueEnd) * (File * QueueEnd)) : QueueEnd * QueueEnd :=
  (end_in Spsc PackToExecutionWorkerMessage ProducerEnd p.1.1,
   end_in Spsc ExecutionWorkerToPackMessage ConsumerEnd p.2.1).

Lemma chunks_2_pairs (ps : list ((File * QueueEnd) * (File * QueueEnd))) :
  chunks_2 (flat_map two_files ps) = map two_files ps.
Proof. induction ps as [|p ps IH]; simpl; [done|]. by rewrite IH. Qed.

Lemma join_workers_yield files ps acc :
  Forall worker_queues ps -> flat_map two_files ps ⊆ files ->
  yields (all_join files) (acc ++ map worker_ends ps)
    (ofold (fun sessions window => omap (fun session => sessions ++ [session]) (join_worker window))
       acc (map two_files ps)).
Proof.
  intros Hps. revert acc. induction Hps as [|p ps [Hp Hw] _ IH]; intros acc Hsub; simpl in *.
  - rewrite app_nil_r. apply yields_ret.
  - apply (yields_bind _ (acc ++ [worker_ends p])).
    + unfold omap. apply (yields_bind _ (worker_ends p)); [|apply yields_ret].
      apply (yields_bind _ (end_in Spsc PackToExecutionWorkerMessage ProducerEnd p.1.1)).
      { apply (join_queue_yields _ _ _ ConsumerEnd); [done|]. set_solver. }
      apply (yields_bind _ (end_in Spsc ExecutionWorkerToPackMessage ConsumerEnd p.2.1)).
      { apply (join_queue_yields _ _ _ ProducerEnd); [done|]. set_solver. }
      apply yields_ret.
    + specialize (IH (acc ++ [worker_ends p])). rewrite <- app_assoc in IH. apply IH. set_solver.
Qed.

Lemma split_at_app {E A} n (l1 l2 : list A) :
  n = len l1 -> split_at (E := E) n (l1 ++ l2) = Ok (l1, l2).
Proof.
  intros ->. unfold split_at. rewrite len_app. zcase; [|len_lia].
  by rewrite to_nat_len, take_app_length, drop_app_length.
Qed.

Lemma len_pool allocator count request_msg response_msg pool :
  0 <= count -> pool_of allocator count request_msg response_msg pool ->
  len pool.1 = if 0 <? count then 2 else 0.
Proof.
  unfold pool_of. intros Hc. destruct (Z.eqb_spec count 0) as [->|Hn]; [by intros ->|].
  rewrite (proj2 (Z.ltb_lt 0 count)) by lia. by intros (? & ? & _ & _ & ->).
Qed.

Lemma len_two_files ps : len (flat_map two_files ps) = 2 * len ps.
Proof. induction ps as [|p ps IH]; simpl; [done|]. rewrite !len_cons, IH. lia. Qed.

(** The session of the client for what the server created. *)
Definition client_of (allocator : File) (tpu progress : File * QueueEnd)
    (ps : list ((File * QueueEnd) * (File * QueueEnd))) (check_files simulate_files : list File) :
    ClientSession :=
  {| cs_allocator := file_id allocator;
     cs_tpu_to_pack := end_in Spsc TpuToPackMessage ConsumerEnd tpu.1;
     cs_progress_tracker := end_in Spsc ProgressMessage ConsumerEnd progress.1;
     cs_workers := map worker_ends ps;
     cs_check_workers := pool_ends PackToCheckWorkerMessage CheckWorkerToPackMessage check_files;
     cs_simulate_workers :=
       pool_ends PackToExecutionWorkerMessage ExecutionWorkerToPackMessage simulate_files |}.

Lemma pool_of_matches allocator count request_msg response_msg pool :
  0 <= count -> pool_of allocator count request_msg response_msg pool ->
  pool_matches (file_id allocator) count pool.2 (pool_ends request_msg response_msg pool.1).
Proof.
  unfold pool_of, pool_matches. intros Hc. destruct (Z.eqb_spec count 0) as [->|Hn]; [by intros ->|].
  intros (request & response & Hq & Hs & ->). simpl. split; [rewrite len_replicate; lia|].
  split; [lia|]. apply Forall_replicate. split; [done|].
  split; [exact (peers_end_in _ _ _ _ Hq)|exact (peers_end_in _ _ _ _ Hs)].
Qed.

Lemma pool_ends_files allocator count request_msg response_msg pool :
  pool_of allocator count request_msg response_msg pool ->
  match pool_ends request_msg response_msg pool.1 with Some queues => pair_files queues | None => [] end
    = map file_id pool.1.
Proof.
  unfold pool_of. destruct (count =? 0); [by intros ->|]. by intros (? & ? & _ & _ & ->).
Qed.

Lemma worker_ends_files ps :
  flat_map pair_files (map worker_ends ps) = map file_id (flat_map two_files ps).
Proof. induction ps as [|p ps IH]; simpl; [done|]. by rewrite IH. Qed.

(** Every file is where the client expects it. *)
Lemma client_setup_yields logon allocator tpu progress ps check simulate :
  wf_logon logon -> valid_logon logon ->
  is_allocator logon allocator ->
  queue_in Spsc TpuToPackMessage ProducerEnd tpu ->
  queue_in Spsc ProgressMessage ProducerEnd progress ->
  length ps = Z.to_nat (worker_count logon) -> Forall worker_queues ps ->
  pool_of allocator (check_worker_count logon) PackToCheckWorkerMessage
    CheckWorkerToPackMessage check ->
  pool_of allocator (simulate_worker_count logon) PackToExecutionWorkerMessage
    ExecutionWorkerToPackMessage simulate ->
  let files := [allocator; tpu.1; progress.1] ++ flat_map two_files ps ++ check.1 ++ simulate.1 in
  yields (all_join files) (client_of allocator tpu progress ps check.1 simulate.1)
    (client_setup_session logon files).
Proof.
  intros Hwf Hvalid Ha Ht Hp Hn Hps Hc Hs files.
  pose proof (wf_logon_ranges logon Hwf) as (Hw0 & Hc0 & Hs0 & _ & _).
  pose proof (len_pool _ _ _ _ _ Hc0 Hc) as Hlc. pose proof (len_pool _ _ _ _ _ Hs0 Hs) as Hls.
  pose proof (len_two_files ps) as Hlw.
  assert (Hlen : len ps = worker_count logon) by (unfold len; lia).
  pose proof (vl_workers _ Hvalid) as Hw.
  unfold client_setup_session. rewrite (expected_file_count_valid logon Hwf Hvalid). cbn [ok_or obind].
  unfold GLOBAL_SHMEM, WORKER_SHMEM, CHECK_SHMEM, SIMULATE_SHMEM, err_if.
  rewrite (proj2 (Z.eqb_eq (len files) _)) by (unfold files; autorewrite with len; lia).
  cbn [negb obind]. unfold files at 2. rewrite split_at_app by done. cbn [obind fst snd].
  assert (checked_mul USIZE (worker_count logon) 2 = Some (worker_count logon * 2)) as ->
    by (apply checked_mul_Some; cbn [modulus]; lia).
  cbn [ok_or obind]. rewrite split_at_app by lia. cbn [obind fst snd].
  rewrite split_at_app by done. cbn [obind fst snd]. rewrite chunks_2_pairs.
  apply (yields_bind _ (file_id allocator)); [by eapply join_allocator_yields; [|set_solver]|].
  eapply yields_bind; [eapply join_pair_yields; [exact Hc|set_solver]|].
  eapply yields_bind; [eapply join_pair_yields; [exact Hs|set_solver]|].
  eapply yields_bind; [apply (join_queue_yields files _ _ ProducerEnd tpu); [done|set_solver]|].
  eapply yields_bind; [apply (join_queue_yields files _ _ ProducerEnd progress); [done|set_solver]|].
  eapply yields_bind; [apply join_workers_yield; [done|set_solver]|]. apply yields_ret.
Qed.

Lemma client_of_matches logon agave allocator tpu progress ps check simulate :
  wf_logon logon ->
  queue_in Spsc TpuToPackMessage ProducerEnd tpu ->
  queue_in Spsc ProgressMessage ProducerEnd progress ->
  length ps = Z.to_nat (worker_count logon) -> Forall worker_queues ps ->
  pool_of allocator (check_worker_count logon) PackToCheckWorkerMessage
    CheckWorkerToPackMessage check ->
  pool_of allocator (simulate_worker_count logon) PackToExecutionWorkerMessage
    ExecutionWorkerToPackMessage simulate ->
  agave = {| as_allocator := file_id allocator; as_tpu_to_pack := tpu.2;
             as_progress_tracker := progress.2;
             as_workers := map (fun p => (file_id allocator, p.1.2, p.2.2)) ps;
             as_check_workers := check.2; as_simulate_workers := simulate.2 |} ->
  NoDup (map file_id
    ([allocator; tpu.1; progress.1] ++ flat_map two_files ps ++ check.1 ++ simulate.1)) ->
  sessions_match logon agave (client_of allocator tpu progress ps check.1 simulate.1).
Proof.
  intros Hwf Ht Hp Hn Hps Hc Hs -> Hnd.
  pose proof (wf_logon_ranges logon Hwf) as (Hw0 & Hc0 & Hs0 & _ & _). split; simpl; try done.
  - exact (peers_end_in _ _ _ _ Ht).
  - exact (peers_end_in _ _ _ _ Hp).
  - rewrite len_map. unfold len. lia.
  - clear Hn Hnd. induction Hps as [|p ps [Hp1 Hp2] _ IH]; simpl; constructor; [|done].
    split; [done|]. split; [exact (peers_end_in _ _ _ _ Hp1)|exact (peers_end_in _ _ _ _ Hp2)].
  - by apply pool_of_matches.
  - by apply pool_of_matches.
  - unfold session_files. simpl. rewrite worker_ends_files.
    rewrite (pool_ends_files _ _ _ _ _ Hc), (pool_ends_files _ _ _ _ _ Hs). by rewrite <- !map_app.
Qed.

Lemma setup_sessions logon t t' agave files :
  sizes_in_width -> wf_logon logon -> server_setup_session logon t = (Ok (agave, files), t') ->
  validate logon = Ok tt /\ 4 * len files <= CMSG_MAX_SIZE /\
  exists client, sessions_match logon agave client /\
    yields (all_join files) client (client_setup_session logon files).
Proof.
  intros Hsz Hwf (Hv & allocator & tpu & progress & ps & check & simulate &
    Ha & Ht & Hp & Hn & Hps & Hc & Hs & Hagave & -> & Hnd)%server_setup_session_Ok.
  assert (Hvalid : valid_logon logon).
  { destruct (validate_decides logon Hsz Hwf) as [[? _]|(_ & e & He)]; [done|congruence]. }
  pose proof (wf_logon_ranges logon Hwf) as (Hw0 & Hc0 & Hs0 & _ & _).
  split; [done|]. split.
  - rewrite !len_app, (len_pool _ _ _ _ _ Hc0 Hc), (len_pool _ _ _ _ _ Hs0 Hs), len_two_files.
    pose proof (vl_workers _ Hvalid). change (len [allocator; tpu.1; progress.1]) with 3.
    change CMSG_MAX_SIZE with 540. unfold len. repeat case_match; lia.
  - exists (client_of allocator tpu progress ps check.1 simulate.1).
    split; [by eapply client_of_matches|by apply client_setup_yields].
Qed.
End Joins.

(** ** The server returns, and succeeds when resources last *)

Section Totality.
  Context `{QueueSizes} `{SharedMemory}.

(** The server code returns, and under [P] it returns a value. *)
Definition served {A} (P : Prop) (m : Srv A) : Prop :=
  forall t, returns (m t).1 /\ (P -> exists a, (m t).1 = Ok a).

Lemma served_ret {A} P (a : A) : served P (srv_ret a).
Proof. intros t. split; [done|]. by exists a. Qed.

Lemma served_bind {A B} P (m : Srv A) (k : A -> Srv B) :
  served P m -> (forall a, served P (k a)) -> served P (srv_bind m k).
Proof.
  intros Hm Hk t. unfold srv_bind. specialize (Hm t). destruct (m t) as [[a|e| | |] t'];
    destruct Hm as [Hr HP]; try done.
  - apply Hk.
  - split; [done|]. intros p. by destruct (HP p).
Qed.

(** The capacities a logon asks for. *)
Definition capacities (logon : ClientLogon) : list Z :=
  [tpu_to_pack_capacity logon; progress_tracker_capacity logon;
   pack_to_worker_capacity logon; worker_to_pack_capacity logon;
   pack_to_check_worker_capacity logon; check_worker_to_pack_capacity logon;
   pack_to_simulate_worker_capacity logon; simulate_worker_to_pack_capacity logon].

(** The memory for this logon can be had: on standard pages an allocator of the
    requested size can be initialized (the size is not too small for its number of
    handles) and handed to the workers, and so can queues in files of the minimum size
    for the requested capacities. *)
Record resources (logon : ClientLogon) : Prop := {
  res_allocator t count file_size :
    allocator_count logon = Some count ->
    checked_file_size (allocator_size logon) Standard = Some file_size ->
    create_succeeds t Standard (AllocatorFile count) file_size = true;
  res_handles t : join_existing_succeeds t = true;
  res_queue t kind msg server_end capacity size file_size :
    capacity ∈ capacities logon ->
    minimum_file_size kind msg capacity = Some size ->
    checked_file_size size Standard = Some file_size ->
    create_succeeds t Standard (QueueFile kind msg server_end) file_size = true }.

Lemma create_file_served error content size page (P : Prop) :
  (P -> page = Standard /\
     exists s n, size = Some s /\ checked_file_size s Standard = Some n /\
       forall t, create_succeeds t Standard content n = true) ->
  served P (create_file error content size page).
Proof.
  intros HP t. unfold create_file. split.
  - repeat case_match; done.
  - intros p. destruct (HP p) as (-> & s & n & -> & Hn & Hc). rewrite Hn, Hc. by eexists.
Qed.

Lemma create_with_fallback_served error content size page (P : Prop) :
  (P -> exists s n, size = Some s /\ checked_file_size s Standard = Some n /\
     forall t, create_succeeds t Standard content n = true) ->
  served P (create_with_fallback error content size page).
Proof.
  intros HP. assert (Hs : served P (create_file error content size Standard))
    by (apply create_file_served; intros p; destruct (HP p); auto).
  destruct page; [exact Hs|]. intros t. cbn [create_with_fallback]. unfold or_else.
  assert (Hh : served False (create_file error content size Huge)) by by apply create_file_served.
  specialize (Hh t). destruct (create_file error content size Huge t) as [[f|e| | |] t1];
    destruct Hh as [Hr _]; try done.
  split; [done|]. by exists f.
Qed.

(** The size of a queue that validation let pass. *)
Lemma queue_fits_standard kind msg capacity page :
  sizes_in_width -> queue_fits kind msg capacity page ->
  exists s n, minimum_file_size kind msg capacity = Some s /\ checked_file_size s Standard = Some n.
Proof.
  intros Hsz (s & Hs & Hr). exists s. eexists. split; [done|].
  apply checked_file_size_spec; [by eapply Hsz|]. split; [done|].
  destruct page; [done|]. etransitivity; [|exact Hr].
  apply rounded_standard_le_huge. by destruct (Hsz _ _ _ _ Hs).
Qed.

Lemma create_queue_served logon kind msg server_end capacity page page' :
  sizes_in_width -> queue_fits kind msg capacity page' ->
  capacity ∈ capacities logon ->
  served (resources logon) (create_queue kind msg server_end capacity page).
Proof.
  intros Hsz Hf Hin. apply served_bind; [|intros; apply served_ret].
  apply create_with_fallback_served. intros Hr.
  destruct (queue_fits_standard _ _ _ _ Hsz Hf) as (s & n & Hs & Hn). exists s, n.
  split_and!; [done|done|]. intros t. by eapply res_queue.
Qed.

Lemma join_from_existing_served logon f : served (resources logon) (join_from_existing f).
Proof.
  intros t. unfold join_from_existing. split; [simpl; by case_match|].
  intros Hr. rewrite (res_handles logon Hr). by eexists.
Qed.

Lemma create_workers_served logon allocator n acc :
  sizes_in_width -> valid_logon logon -> served (resources logon) (create_workers logon allocator n acc).
Proof.
  intros Hsz Hv. revert acc. induction n as [|n IH]; intros acc; cbn [create_workers];
    [apply served_ret|].
  apply served_bind; [apply join_from_existing_served|intros handle].
  apply served_bind; [eapply create_queue_served; [done|apply Hv|unfold capacities; set_solver]|intros pack].
  apply served_bind; [eapply create_queue_served; [done|apply Hv|unfold capacities; set_solver]|intros worker]. apply IH.
Qed.

Lemma join_pool_served logon allocator request response n :
  served (resources logon) (join_pool allocator request response n).
Proof.
  induction n as [|n IH]; cbn [join_pool]; [apply served_ret|].
  apply served_bind; [apply join_from_existing_served|intros handle].
  apply served_bind; [exact IH|intros rest]. apply served_ret.
Qed.

Lemma create_pool_served logon allocator count request_msg response_msg c1 c2 :
  sizes_in_width -> 0 <= count ->
  (forall c, c = c1 \/ c = c2 ->
     c ∈ capacities logon) ->
  (0 < count -> queue_fits Mpmc request_msg c1 Huge /\ queue_fits Mpmc response_msg c2 Huge) ->
  served (resources logon) (create_pool allocator count request_msg response_msg c1 c2).
Proof.
  intros Hsz Hc Hin Hf. unfold create_pool. destruct (Z.eqb_spec count 0); [apply served_ret|].
  destruct Hf as [Hf1 Hf2]; [lia|].
  apply served_bind; [by eapply create_queue_served; [| |apply Hin; left]|intros request].
  apply served_bind; [by eapply create_queue_served; [| |apply Hin; right]|intros response].
  apply served_bind; [apply join_pool_served|intros workers]. apply served_ret.
Qed.

Lemma server_setup_session_served logon :
  sizes_in_width -> wf_logon logon ->
  served (resources logon /\ validate logon = Ok tt) (server_setup_session logon).
Proof.
  intros Hsz Hwf. pose proof (wf_logon_ranges logon Hwf) as (Hw0 & Hc0 & Hs0 & Has & _).
  destruct (validate_decides logon Hsz Hwf) as [(Hv & [] & Hval)|(_ & e & Hval)].
  2: { intros t. unfold server_setup_session. rewrite Hval. split; [done|by intros [_ ?]]. }
  assert (Hall : served (resources logon) (server_setup_session logon)).
  { unfold server_setup_session. rewrite Hval.
    apply served_bind; [by intros ?; split; [|exists tt]|intros _].
    apply served_bind; [|intros allocator].
    { unfold create_allocator.
      destruct (proj2 (allocator_count_spec logon Hwf ltac:(apply Hv) (vl_check_workers _ Hv)
        (vl_simulate_workers _ Hv)) (conj (vl_handles _ Hv) (vl_allocators _ Hv))) as [c Hcount]. rewrite Hcount.
      assert (exists size, checked_file_size (allocator_size logon) Standard = Some size)
        as [size Hsize].
      { eexists. apply checked_file_size_spec; [done|]. split; [done|].
        etransitivity; [apply rounded_standard_le_huge; lia|apply Hv]. }
      apply create_with_fallback_served. intros Hr. exists (allocator_size logon), size.
      split_and!; [done|done|]. intros t. by eapply res_allocator. }
    apply served_bind; [eapply create_queue_served; [done|apply Hv|unfold capacities; set_solver]|intros tpu].
    apply served_bind; [eapply create_queue_served; [done|apply Hv|unfold capacities; set_solver]|intros progress].
    apply served_bind; [by apply create_workers_served|intros workers].
    apply served_bind; [apply create_pool_served; [done|done|intros c [->| ->]; unfold capacities; set_solver|apply Hv]|intros check].
    apply served_bind; [apply create_pool_served; [done|done|intros c [->| ->]; unfold capacities; set_solver|apply Hv]|intros simulate].
    apply served_ret. }
  intros t. destruct (Hall t) as [Hr HP]. split; [exact Hr|]. intros [Hres _]. by apply HP.
Qed.
End Totality.

(** ** Sessions *)

Section Theorems.
  Context `{QueueSizes} `{SharedMemory} `{Target}.

(** C11: [setup_local_session] gives the two processes the two ends of the same
    objects.  For every logon it returns a session pair or an error: the server
    does not panic, and the client joins no file as a queue of another kind, message
    type or end (which would be undefined).  In a session that is set up the
    allocator is shared, every client end is the opposite end, with the same
    message type, of the server's queue on the same file, worker by worker and for
    the enabled pools; the pools have as many workers as requested, and no file is
    used twice, so that no other end of a single-producer single-consumer queue
    exists.  When the memory that the logon asks for can be had, with an allocator that is
    not too small, and the files can be joined, it succeeds exactly for the valid
    logons; a valid logon may fail otherwise. *)
Theorem sessions_agree logon t :
  sizes_in_width -> wf_logon logon ->
  returns (setup_local_session logon t) /\
  (forall agave client, setup_local_session logon t = Ok (agave, client) ->
     sessions_match logon agave client) /\
  (resources logon -> (forall f, join_succeeds f = true) ->
     (exists sessions, setup_local_session logon t = Ok sessions) <-> valid_logon logon).
Proof.
  intros Hsz Hwf. unfold setup_local_session.
  destruct (server_setup_session_served logon Hsz Hwf t) as [Hret Hsucc].
  destruct (server_setup_session logon t) as [r t'] eqn:Hs. simpl in Hret, Hsucc |- *.
  assert (Hvalid : validate logon = Ok tt <-> valid_logon logon).
  { destruct (validate_decides logon Hsz Hwf) as [(Hv & [] & Hval)|(Hv & e & Hval)];
      rewrite Hval; split; done. }
  destruct r as [[agave files]|e| | |]; try done; simpl.
  - destruct (setup_sessions _ _ _ _ _ Hsz Hwf Hs) as (Hv & _ & client & Hm & [Hc Hj]).
    split; [|split].
    + by destruct Hc as [-> |[e ->]].
    + intros agave' client'. destruct Hc as [-> |[e ->]]; [|done]. by intros [= <- <-].
    + intros _ Hall. split; [by intros _; apply Hvalid|]. intros _. rewrite Hj; [by eexists|].
      apply list.Forall_forall. intros f _. apply Hall.
  - split; [done|]. split; [done|]. intros Hr _. split; [by intros [? ?]|].
    intros Hv%Hvalid. by destruct (Hsucc (conj Hr Hv)).
Qed.

Lemma len_rejection reason : valid_str reason -> len (rejection reason) <= 257.
Proof.
  intros Hv. destruct (rejection_bytes reason Hv) as (n & Hn & -> & Hlen).
  autorewrite with len. lia.
Qed.

Lemma handle_logon_cases logon versions current reads sent t :
  sizes_in_width -> wf_logon logon -> wf_versions versions ->
  delivers reads (send_logon logon versions) ->
  (exists e, (handle_logon current reads sent t).1 = Err e) \/
  (versions = current /\ exists agave files t',
     (handle_logon current reads sent t).1 = Ok (agave, files) /\
     server_setup_session logon t = (Ok (agave, files), t')).
Proof.
  intros Hsz Hwf Hwv Hd. unfold handle_logon, srv_bind, srv_lift.
  rewrite (recv_logon_delivers current reads logon versions) by done.
  case_bool_decide as Hver; [|left; by eexists].
  destruct (server_setup_session_served logon Hsz Hwf t) as [Hret _].
  destruct (server_setup_session logon t) as [[[agave files]|e| | |] t'] eqn:Hs; try done.
  - destruct sent; [right|left; by eexists]. split; [done|]. by exists agave, files, t'.
  - left. by eexists.
Qed.

(** C10: The handshake over the socket, from the client's [send_logon] through
    [Server::accept] to the client's session, however the stream splits the logon
    message.  When the server's versions differ from the client's it reports both.
    When it accepts, the client receives all files (they fit its control buffer)
    and sets up the matching session, failing only if a file cannot be joined.
    When it rejects, with any error whose text is a string, and the socket takes the
    whole rejection (of at most 257 bytes), the client reports the rejection with the
    first 255 bytes of that text: the whole text if it is that short, and otherwise all
    characters that fit, with a replacement character for one that is cut. *)
Theorem handshake_end_to_end to_string current logon versions reads sent n t :
  sizes_in_width -> wf_logon logon -> wf_versions versions ->
  delivers reads (send_logon logon versions) ->
  (forall e, valid_str (to_string e)) -> (257 <= n)%nat ->
  let (server, message) := accept to_string current reads sent (Some n) t in
  let client := connect_path logon (recvmsg message) in
  (versions <> current -> server = Err (Version current versions)) /\
  match server with
  | Ok agave => exists session, sessions_match logon agave session /\
      (client = Ok session \/ exists e, client = Err e) /\
      ((forall f, join_succeeds f = true) -> client = Ok session)
  | Err e =>
      let text := to_string e in
      client = Err (Rejected (from_utf8_lossy (take 255 (as_bytes text)))) /\
      (str_len text <= 255 -> client = Err (Rejected text)) /\
      (255 < str_len text -> exists k,
         str_len (take k text) <= 255 < str_len (take (S k) text) /\
         client = Err (Rejected (take k text ++
           if str_len (take k text) =? 255 then [] else [REPLACEMENT_CHARACTER])))
  | _ => False
  end.
Proof.
  intros Hsz Hwf Hwv Hd Htext Hn.
  assert (Hver : versions <> current ->
    (handle_logon current reads sent t).1 = Err (Version current versions)).
  { intros Hne. unfold handle_logon, srv_bind, srv_lift.
    rewrite (recv_logon_delivers current reads logon versions) by done.
    by rewrite bool_decide_false. }
  unfold accept.
  destruct (handle_logon_cases logon versions current reads sent t Hsz Hwf Hwv Hd)
    as [[e He]|(-> & agave & files & t' & Hh & Hs)].
  - rewrite He in Hver |- *. cbv zeta. split; [intros Hne; injection (Hver Hne) as <-; done|].
    pose proof (len_rejection (to_string e) (Htext e)) as Hl.
    rewrite take_ge by (unfold len in Hl; lia). cbn [recvmsg]. unfold connect_path.
    rewrite recv_rejection by done. cbn [obind]. split; [done|]. split.
    + unfold str_len, len. intros Hle. rewrite take_ge by lia. by rewrite from_utf8_lossy_as_bytes.
    + intros Hlong. destruct (from_utf8_lossy_take (to_string e) 255) as (k & Hk & Hcut); [done|lia|].
      change (Z.to_nat 255) with 255%nat in Hcut. exists k. by rewrite Hcut.
  - rewrite Hh. cbv zeta. split; [done|].
    destruct (setup_sessions _ _ _ _ _ Hsz Hwf Hs) as (_ & Hfit & session & Hm & [Hc Hj]).
    exists session. split; [done|]. cbn [recvmsg]. unfold connect_path.
    rewrite (proj2 (Z.leb_le _ _) Hfit), recv_files. cbn [obind]. split; [done|].
    intros Hall. apply Hj, list.Forall_forall. intros f _. apply Hall.
Qed.
End Theorems.

(** ** Samples *)

#[local] Instance sample_memory : SharedMemory :=
  {| create_succeeds _ page content file_size :=
       match page, content with
       | Standard, AllocatorFile count => 65536 * count <=? file_size
       | Standard, QueueFile _ _ _ => true
       | Huge, _ => false
       end;
     join_existing_succeeds _ := true;
     join_succeeds _ := true |}.

Lemma sample_resources : resources sample_logon.
Proof.
  split; [|done|done]. intros t count file_size Hc Hs. vm_compute in Hc, Hs.
  injection Hc as <-. by injection Hs as <-.
Qed.

(** A valid logon whose allocator is too small for that. *)
Definition small_logon : ClientLogon :=
  {| worker_count := 4; check_worker_count := 2; simulate_worker_count := 0;
     allocator_size := 0; allocator_handles := 1; tpu_to_pack_capacity := 1024;
     progress_tracker_capacity := 16; pack_to_worker_capacity := 64; worker_to_pack_capacity := 64;
     pack_to_check_worker_capacity := 64; check_worker_to_pack_capacity := 64;
     pack_to_simulate_worker_capacity := 0; simulate_worker_to_pack_capacity := 0 |}.

Example small_allocator_fails :
  validate small_logon = Ok tt /\ exists e, setup_local_session small_logon 0 = Err e.
Proof. split; [by vm_compute|]. eexists. vm_compute. reflexivity. Qed.

Lemma sample_logon_valid : valid_logon sample_logon.
Proof.
  destruct (validate_decides sample_logon sample_sizes_ok sample_logon_wf)
    as [[? _]|(_ & e & He)]; [done|]. vm_compute in He. done.
Qed.

Lemma sessions_agree_witness :
  exists sessions, setup_local_session sample_logon 0 = Ok sessions.
Proof.
  destruct (sessions_agree sample_logon 0 sample_sizes_ok sample_logon_wf) as (_ & _ & H).
  apply H; [exact sample_resources|reflexivity|exact sample_logon_valid].
Defined.

#[local] Instance sample_target : Target := LittleEndian.

Lemma handshake_end_to_end_witness :
  let (server, message) :=
    accept (fun _ => lit "rejected") sample_versions
      [ReadBytes (send_logon sample_logon sample_versions) false] true (Some 300%nat) 0 in
  match server with
  | Ok agave => exists session, sessions_match sample_logon agave session /\
      connect_path sample_logon (recvmsg message) = Ok session
  | _ => False
  end.
Proof.
  pose proof (handshake_end_to_end (fun _ => lit "rejected") sample_versions sample_logon
    sample_versions [ReadBytes (send_logon sample_logon sample_versions) false] true 300 0
    sample_sizes_ok sample_logon_wf sample_versions_wf) as Hend.
  assert (Hok : exists agave message, accept (fun _ => lit "rejected") sample_versions
      [ReadBytes (send_logon sample_logon sample_versions) false] true (Some 300%nat) 0 =
      (Ok agave, message)) by (eexists _, _; vm_compute; reflexivity).
  destruct Hok as (agave & message & Hok). rewrite Hok in Hend |- *.
  destruct Hend as (_ & session & Hm & _ & Hj).
  - exists [send_logon sample_logon sample_versions], []. split; [reflexivity|].
    split; [repeat constructor; vm_compute; discriminate|]. cbn [concat]. apply app_nil_r.
  - intros e. repeat constructor.
  - lia.
  - exists session. split; [exact Hm|]. apply Hj. reflexivity.
Defined.
