(* ===== verification/SchedulerBindings.v ===== *)
(** * The messages of the scheduler (scheduler-bindings/src/lib.rs)

    Agave and an external scheduler exchange fixed-size messages through queues in
    shared memory, and batches and responses through regions of a shared allocator.
    This file has every [repr(C)] struct of the crate with its layout, and its flags
    and codes; the last part has the layout of the handshake's messages. *)

From Stdlib Require Import ZArith Lia Strings.Byte Strings.String.
From stdpp Require Import base list numbers.
From S2P Require Import Prelude RustStr Layout HandshakeShared.
Local Open Scope Z_scope.

(** [env!("CARGO_PKG_VERSION_MAJOR").parse().expect(..)]. *)
Definition version {E} (cargo_pkg_version_major : str) : Outcome E Z :=
  match parse_u64 cargo_pkg_version_major with
  | Some version => Ok version
  | None => Panic
  end.

(** ** Structs *)

(** A byte array. *)
Definition bytes_to_val (bs : list byte) : Val := VSeq (map (fun b => VInt (Z_of_byte b)) bs).
Definition bytes_of_val (v : Val) : option (list byte) :=
  match v with
  | VSeq vs => mapM (fun v => match v with VInt z => Some (byte_of_Z z) | VSeq _ => None end) vs
  | VInt _ => None
  end.

Lemma bytes_of_to_val bs : bytes_of_val (bytes_to_val bs) = Some bs.
Proof.
  simpl. induction bs as [|b bs IH]; simpl; [done|]. rewrite byte_of_Z_of_byte. simpl. by rewrite IH.
Qed.

Record SharableTransactionRegion := {
  str_offset : Z;
  str_length : Z
}.

#[global] Instance SharableTransactionRegion_CType : CType SharableTransactionRegion := {
  ctype := TStruct [TInt USIZE; TInt U32];
  to_val self := VSeq [VInt (str_offset self); VInt (str_length self)];
  of_val v :=
    match v with
    | VSeq [VInt z0; VInt z1] =>
        Some {| str_offset := z0; str_length := z1 |}
    | _ => None
    end
}.

#[global] Instance SharableTransactionRegion_CTypeSpec : CTypeSpec SharableTransactionRegion.
Proof. by constructor; intros []. Qed.

Record SharablePubkeys := {
  spk_offset : Z;
  spk_num_pubkeys : Z
}.

#[global] Instance SharablePubkeys_CType : CType SharablePubkeys := {
  ctype := TStruct [TInt USIZE; TInt U32];
  to_val self := VSeq [VInt (spk_offset self); VInt (spk_num_pubkeys self)];
  of_val v :=
    match v with
    | VSeq [VInt z0; VInt z1] =>
        Some {| spk_offset := z0; spk_num_pubkeys := z1 |}
    | _ => None
    end
}.

#[global] Instance SharablePubkeys_CTypeSpec : CTypeSpec SharablePubkeys.
Proof. by constructor; intros []. Qed.

Record SharableTransactionBatchRegion := {
  sbr_num_transactions : Z;
  sbr_transactions_offset : Z
}.

#[global] Instance SharableTransactionBatchRegion_CType : CType SharableTransactionBatchRegion := {
  ctype := TStruct [TInt U8; TInt USIZE];
  to_val self := VSeq [VInt (sbr_num_transactions self); VInt (sbr_transactions_offset self)];
  of_val v :=
    match v with
    | VSeq [VInt z0; VInt z1] =>
        Some {| sbr_num_transactions := z0; sbr_transactions_offset := z1 |}
    | _ => None
    end
}.

#[global] Instance SharableTransactionBatchRegion_CTypeSpec : CTypeSpec SharableTransactionBatchRegion.
Proof. by constructor; intros []. Qed.

Record ExecutionResponseRegion := {
  err_num_transaction_responses : Z;
  err_transaction_responses_offset : Z
}.

#[global] Instance ExecutionResponseRegion_CType : CType ExecutionResponseRegion := {
  ctype := TStruct [TInt U8; TInt USIZE];
  to_val self := VSeq [VInt (err_num_transaction_responses self);
                       VInt (err_transaction_responses_offset self)];
  of_val v :=
    match v with
    | VSeq [VInt z0; VInt z1] =>
        Some {| err_num_transaction_responses := z0; err_transaction_responses_offset := z1 |}
    | _ => None
    end
}.

#[global] Instance ExecutionResponseRegion_CTypeSpec : CTypeSpec ExecutionResponseRegion.
Proof. by constructor; intros []. Qed.

Record CheckResponseRegion := {
  crr_num_transaction_responses : Z;
  crr_transaction_responses_offset : Z
}.

#[global] Instance CheckResponseRegion_CType : CType CheckResponseRegion := {
  ctype := TStruct [TInt U8; TInt USIZE];
  to_val self := VSeq [VInt (crr_num_transaction_responses self);
                       VInt (crr_transaction_responses_offset self)];
  of_val v :=
    match v with
    | VSeq [VInt z0; VInt z1] =>
        Some {| crr_num_transaction_responses := z0; crr_transaction_responses_offset := z1 |}
    | _ => None
    end
}.

#[global] Instance CheckResponseRegion_CTypeSpec : CTypeSpec CheckResponseRegion.
Proof. by constructor; intros []. Qed.

(** Structs of the structs above. *)
Ltac destruct_fields :=
  repeat match goal with
  | x : SharableTransactionRegion |- _ => destruct x
  | x : SharablePubkeys |- _ => destruct x
  | x : SharableTransactionBatchRegion |- _ => destruct x
  | x : ExecutionResponseRegion |- _ => destruct x
  | x : CheckResponseRegion |- _ => destruct x
  end.

Ltac solve_ctype :=
  constructor; intros []; destruct_fields; cbn -[bytes_of_val bytes_to_val];
  rewrite ?bytes_of_to_val; reflexivity.

Record TpuToPackMessage := {
  tpm_transaction : SharableTransactionRegion;
  tpm_flags : Z;
  tpm_src_addr : list byte
}.

#[global] Instance TpuToPackMessage_CType : CType TpuToPackMessage := {
  ctype := TStruct [ctype SharableTransactionRegion; TInt U8; TArray (TInt U8) 16];
  to_val self := VSeq [to_val (tpm_transaction self); VInt (tpm_flags self);
                       bytes_to_val (tpm_src_addr self)];
  of_val v :=
    match v with
    | VSeq [v0; VInt z1; v2] =>
        match of_val v0, bytes_of_val v2 with
        | Some y0, Some y2 => Some {| tpm_transaction := y0; tpm_flags := z1; tpm_src_addr := y2 |}
        | _, _ => None
        end
    | _ => None
    end
}.

#[global] Instance TpuToPackMessage_CTypeSpec : CTypeSpec TpuToPackMessage.
Proof. solve_ctype. Qed.

Record ProgressMessage := {
  pgm_leader_state : Z;
  pgm_current_slot_progress : Z;
  pgm_epoch : Z;
  pgm_current_slot : Z;
  pgm_next_leader_slot : Z;
  pgm_leader_range_end : Z;
  pgm_remaining_cost_units : Z;
  pgm_remaining_allocated_accounts_data_size : Z;
  pgm_latest_blockhash : list byte;
  pgm_target_bank_time_ms : Z
}.

#[global] Instance ProgressMessage_CType : CType ProgressMessage := {
  ctype := TStruct [TInt U8; TInt U8; TInt U64; TInt U64; TInt U64; TInt U64; TInt U64;
                    TInt U64; TArray (TInt U8) 32; TInt U16];
  to_val self := VSeq [VInt (pgm_leader_state self); VInt (pgm_current_slot_progress self);
                       VInt (pgm_epoch self); VInt (pgm_current_slot self);
                       VInt (pgm_next_leader_slot self); VInt (pgm_leader_range_end self);
                       VInt (pgm_remaining_cost_units self);
                       VInt (pgm_remaining_allocated_accounts_data_size self);
                       bytes_to_val (pgm_latest_blockhash self);
                       VInt (pgm_target_bank_time_ms self)];
  of_val v :=
    match v with
    | VSeq [VInt z0; VInt z1; VInt z2; VInt z3; VInt z4; VInt z5; VInt z6; VInt z7; v8; VInt z9] =>
        match bytes_of_val v8 with
        | Some y8 => Some {| pgm_leader_state := z0; pgm_current_slot_progress := z1; pgm_epoch := z2;
              pgm_current_slot := z3; pgm_next_leader_slot := z4; pgm_leader_range_end := z5;
              pgm_remaining_cost_units := z6;
              pgm_remaining_allocated_accounts_data_size := z7; pgm_latest_blockhash := y8;
              pgm_target_bank_time_ms := z9 |}
        | _ => None
        end
    | _ => None
    end
}.

#[global] Instance ProgressMessage_CTypeSpec : CTypeSpec ProgressMessage.
Proof. solve_ctype. Qed.

Record PackToExecutionWorkerMessage := {
  pem_flags : Z;
  pem_max_working_slot : Z;
  pem_batch : SharableTransactionBatchRegion
}.

#[global] Instance PackToExecutionWorkerMessage_CType : CType PackToExecutionWorkerMessage := {
  ctype := TStruct [TInt U16; TInt U64; ctype SharableTransactionBatchRegion];
  to_val self := VSeq [VInt (pem_flags self); VInt (pem_max_working_slot self);
                       to_val (pem_batch self)];
  of_val v :=
    match v with
    | VSeq [VInt z0; VInt z1; v2] =>
        match of_val v2 with
        | Some y2 => Some {| pem_flags := z0; pem_max_working_slot := z1; pem_batch := y2 |}
        | _ => None
        end
    | _ => None
    end
}.

#[global] Instance PackToExecutionWorkerMessage_CTypeSpec : CTypeSpec PackToExecutionWorkerMessage.
Proof. solve_ctype. Qed.

Record PackToCheckWorkerMessage := {
  pcm_flags : Z;
  pcm_batch : SharableTransactionBatchRegion
}.

#[global] Instance PackToCheckWorkerMessage_CType : CType PackToCheckWorkerMessage := {
  ctype := TStruct [TInt U16; ctype SharableTransactionBatchRegion];
  to_val self := VSeq [VInt (pcm_flags self); to_val (pcm_batch self)];
  of_val v :=
    match v with
    | VSeq [VInt z0; v1] =>
        match of_val v1 with
        | Some y1 => Some {| pcm_flags := z0; pcm_batch := y1 |}
        | _ => None
        end
    | _ => None
    end
}.

#[global] Instance PackToCheckWorkerMessage_CTypeSpec : CTypeSpec PackToCheckWorkerMessage.
Proof. solve_ctype. Qed.

Record ExecutionWorkerToPackMessage := {
  epm_batch : SharableTransactionBatchRegion;
  epm_processed_code : Z;
  epm_responses : ExecutionResponseRegion
}.

#[global] Instance ExecutionWorkerToPackMessage_CType : CType ExecutionWorkerToPackMessage := {
  ctype := TStruct [ctype SharableTransactionBatchRegion; TInt U8; ctype ExecutionResponseRegion];
  to_val self := VSeq [to_val (epm_batch self); VInt (epm_processed_code self);
                       to_val (epm_responses self)];
  of_val v :=
    match v with
    | VSeq [v0; VInt z1; v2] =>
        match of_val v0, of_val v2 with
        | Some y0, Some y2 => Some {| epm_batch := y0; epm_processed_code := z1; epm_responses := y2 |}
        | _, _ => None
        end
    | _ => None
    end
}.

#[global] Instance ExecutionWorkerToPackMessage_CTypeSpec : CTypeSpec ExecutionWorkerToPackMessage.
Proof. solve_ctype. Qed.

Record CheckWorkerToPackMessage := {
  cpm_batch : SharableTransactionBatchRegion;
  cpm_processed_code : Z;
  cpm_responses : CheckResponseRegion
}.

#[global] Instance CheckWorkerToPackMessage_CType : CType CheckWorkerToPackMessage := {
  ctype := TStruct [ctype SharableTransactionBatchRegion; TInt U8; ctype CheckResponseRegion];
  to_val self := VSeq [to_val (cpm_batch self); VInt (cpm_processed_code self);
                       to_val (cpm_responses self)];
  of_val v :=
    match v with
    | VSeq [v0; VInt z1; v2] =>
        match of_val v0, of_val v2 with
        | Some y0, Some y2 => Some {| cpm_batch := y0; cpm_processed_code := z1; cpm_responses := y2 |}
        | _, _ => None
        end
    | _ => None
    end
}.

#[global] Instance CheckWorkerToPackMessage_CTypeSpec : CTypeSpec CheckWorkerToPackMessage.
Proof. solve_ctype. Qed.

Record ExecutionResponse := {
  exr_execution_slot : Z;
  exr_not_included_reason : Z;
  exr_execution_status : Z;
  exr_cost_units : Z;
  exr_fee_payer_balance : Z
}.

#[global] Instance ExecutionResponse_CType : CType ExecutionResponse := {
  ctype := TStruct [TInt U64; TInt U8; TInt U8; TInt U64; TInt U64];
  to_val self := VSeq [VInt (exr_execution_slot self); VInt (exr_not_included_reason self);
                       VInt (exr_execution_status self); VInt (exr_cost_units self);
                       VInt (exr_fee_payer_balance self)];
  of_val v :=
    match v with
    | VSeq [VInt z0; VInt z1; VInt z2; VInt z3; VInt z4] =>
        Some {| exr_execution_slot := z0; exr_not_included_reason := z1;
              exr_execution_status := z2; exr_cost_units := z3; exr_fee_payer_balance := z4 |}
    | _ => None
    end
}.

#[global] Instance ExecutionResponse_CTypeSpec : CTypeSpec ExecutionResponse.
Proof. solve_ctype. Qed.

Record CheckResponse := {
  ckr_parsing_and_sanitization_flags : Z;
  ckr_status_cache_check_flags : Z;
  ckr_fee_payer_balance_flags : Z;
  ckr_resolve_flags : Z;
  ckr_scheduling_details_flags : Z;
  ckr_age_nonce_check_flags : Z;
  ckr_included_slot : Z;
  ckr_transaction_fee : Z;
  ckr_prioritization_fee : Z;
  ckr_estimated_cost_units : Z;
  ckr_allocated_accounts_data_size : Z;
  ckr_balance_slot : Z;
  ckr_fee_payer_balance : Z;
  ckr_resolution_slot : Z;
  ckr_min_alt_deactivation_slot : Z;
  ckr_resolved_pubkeys : SharablePubkeys
}.

#[global] Instance CheckResponse_CType : CType CheckResponse := {
  ctype := TStruct [TInt U8; TInt U8; TInt U8; TInt U8; TInt U8; TInt U8; TInt U64; TInt U64;
                    TInt U64; TInt U64; TInt U64; TInt U64; TInt U64; TInt U64; TInt U64;
                    ctype SharablePubkeys];
  to_val self := VSeq [VInt (ckr_parsing_and_sanitization_flags self);
                       VInt (ckr_status_cache_check_flags self);
                       VInt (ckr_fee_payer_balance_flags self); VInt (ckr_resolve_flags self);
                       VInt (ckr_scheduling_details_flags self);
                       VInt (ckr_age_nonce_check_flags self); VInt (ckr_included_slot self);
                       VInt (ckr_transaction_fee self); VInt (ckr_prioritization_fee self);
                       VInt (ckr_estimated_cost_units self);
                       VInt (ckr_allocated_accounts_data_size self);
                       VInt (ckr_balance_slot self); VInt (ckr_fee_payer_balance self);
                       VInt (ckr_resolution_slot self);
                       VInt (ckr_min_alt_deactivation_slot self);
                       to_val (ckr_resolved_pubkeys self)];
  of_val v :=
    match v with
    | VSeq [VInt z0; VInt z1; VInt z2; VInt z3; VInt z4; VInt z5; VInt z6; VInt z7; VInt z8;
            VInt z9; VInt z10; VInt z11; VInt z12; VInt z13; VInt z14; v15] =>
        match of_val v15 with
        | Some y15 => Some {| ckr_parsing_and_sanitization_flags := z0; ckr_status_cache_check_flags := z1;
              ckr_fee_payer_balance_flags := z2; ckr_resolve_flags := z3;
              ckr_scheduling_details_flags := z4; ckr_age_nonce_check_flags := z5;
              ckr_included_slot := z6; ckr_transaction_fee := z7;
              ckr_prioritization_fee := z8; ckr_estimated_cost_units := z9;
              ckr_allocated_accounts_data_size := z10; ckr_balance_slot := z11;
              ckr_fee_payer_balance := z12; ckr_resolution_slot := z13;
              ckr_min_alt_deactivation_slot := z14; ckr_resolved_pubkeys := y15 |}
        | _ => None
        end
    | _ => None
    end
}.

#[global] Instance CheckResponse_CTypeSpec : CTypeSpec CheckResponse.
Proof. solve_ctype. Qed.

(** ** Flags and codes, by name *)

Local Open Scope string_scope.

Definition tpu_message_flags : list (string * Z) :=
  [("IS_SIMPLE_VOTE", Z.shiftl 1 0);
   ("FORWARDED", Z.shiftl 1 1);
   ("FROM_STAKED_NODE", Z.shiftl 1 2)].

Definition tpu_message_flags_NONE : Z := 0.

Definition NOT_LEADER : Z := 0.
Definition LEADER_STARTING : Z := 1.
Definition LEADER_READY : Z := 2.

Definition MAX_TRANSACTIONS_PER_MESSAGE : Z := 64.

Definition check_message_flags : list (string * Z) :=
  [("STATUS_CACHE_CHECKS", Z.shiftl 1 0);
   ("LOAD_FEE_PAYER_BALANCE", Z.shiftl 1 1);
   ("LOAD_ADDRESS_LOOKUP_TABLES", Z.shiftl 1 2);
   ("CALCULATE_SCHEDULING_DETAILS", Z.shiftl 1 3);
   ("AGE_NONCE_CHECKS", Z.shiftl 1 4)].

Definition execution_message_flags : list (string * Z) :=
  [("DROP_ON_FAILURE", Z.shiftl 1 0);
   ("ALL_OR_NOTHING", Z.shiftl 1 1)].

Definition processed_codes : list (string * Z) :=
  [("PROCESSED", 0);
   ("INVALID", 1);
   ("MAX_WORKING_SLOT_EXCEEDED", 2)].

Definition not_included_reasons : list (string * Z) :=
  [("NONE", 0);
   ("BANK_NOT_AVAILABLE", 1);
   ("PARTIAL_BATCH_CANCELLED", 2);
   ("ALL_OR_NOTHING_BATCH_FAILURE", 3);
   ("ACCOUNT_IN_USE", 64);
   ("ACCOUNT_LOADED_TWICE", 65);
   ("ACCOUNT_NOT_FOUND", 66);
   ("PROGRAM_ACCOUNT_NOT_FOUND", 67);
   ("INSUFFICIENT_FUNDS_FOR_FEE", 68);
   ("INVALID_ACCOUNT_FOR_FEE", 69);
   ("ALREADY_PROCESSED", 70);
   ("BLOCKHASH_NOT_FOUND", 71);
   ("INSTRUCTION_ERROR", 72);
   ("CALL_CHAIN_TOO_DEEP", 73);
   ("MISSING_SIGNATURE_FOR_FEE", 74);
   ("INVALID_ACCOUNT_INDEX", 75);
   ("SIGNATURE_FAILURE", 76);
   ("INVALID_PROGRAM_FOR_EXECUTION", 77);
   ("SANITIZE_FAILURE", 78);
   ("CLUSTER_MAINTENANCE", 79);
   ("ACCOUNT_BORROW_OUTSTANDING", 80);
   ("WOULD_EXCEED_MAX_BLOCK_COST_LIMIT", 81);
   ("UNSUPPORTED_VERSION", 82);
   ("INVALID_WRITABLE_ACCOUNT", 83);
   ("WOULD_EXCEED_MAX_ACCOUNT_COST_LIMIT", 84);
   ("WOULD_EXCEED_ACCOUNT_DATA_BLOCK_LIMIT", 85);
   ("TOO_MANY_ACCOUNT_LOCKS", 86);
   ("ADDRESS_LOOKUP_TABLE_NOT_FOUND", 87);
   ("INVALID_ADDRESS_LOOKUP_TABLE_OWNER", 88);
   ("INVALID_ADDRESS_LOOKUP_TABLE_DATA", 89);
   ("INVALID_ADDRESS_LOOKUP_TABLE_INDEX", 90);
   ("INVALID_RENT_PAYING_ACCOUNT", 91);
   ("WOULD_EXCEED_MAX_VOTE_COST_LIMIT", 92);
   ("WOULD_EXCEED_ACCOUNT_DATA_TOTAL_LIMIT", 93);
   ("DUPLICATE_INSTRUCTION", 94);
   ("INSUFFICIENT_FUNDS_FOR_RENT", 95);
   ("MAX_LOADED_ACCOUNTS_DATA_SIZE_EXCEEDED", 96);
   ("INVALID_LOADED_ACCOUNTS_DATA_SIZE_LIMIT", 97);
   ("RESANITIZATION_NEEDED", 98);
   ("PROGRAM_EXECUTION_TEMPORARILY_RESTRICTED", 99);
   ("UNBALANCED_TRANSACTION", 100);
   ("PROGRAM_CACHE_HIT_MAX_LIMIT", 101)].

Definition execution_statuses : list (string * Z) :=
  [("NOT_INCLUDED", 0); ("SUCCESS", 1); ("FAILED", 2)].

Definition parsing_and_sanitization_flags : list (string * Z) := [("FAILED", Z.shiftl 1 0)].

Definition status_cache_check_flags : list (string * Z) :=
  [("REQUESTED", Z.shiftl 1 0);
   ("PERFORMED", Z.shiftl 1 1);
   ("ALREADY_PROCESSED", Z.shiftl 1 2)].

Definition age_nonce_check_flags : list (string * Z) :=
  [("REQUESTED", Z.shiftl 1 0);
   ("PERFORMED", Z.shiftl 1 1);
   ("TOO_OLD", Z.shiftl 1 2);
   ("INVALID_NONCE", Z.shiftl 1 3);
   ("UNSUPPORTED_VERSION", Z.shiftl 1 4);
   ("VALIDATED_NONCE", Z.shiftl 1 5)].

Definition fee_payer_balance_flags : list (string * Z) :=
  [("REQUESTED", Z.shiftl 1 0); ("PERFORMED", Z.shiftl 1 1)].

Definition resolve_flags : list (string * Z) :=
  [("REQUESTED", Z.shiftl 1 0); ("PERFORMED", Z.shiftl 1 1); ("FAILED", Z.shiftl 1 2)].

Definition scheduling_details_flags : list (string * Z) :=
  [("REQUESTED", Z.shiftl 1 0); ("PERFORMED", Z.shiftl 1 1); ("FAILED", Z.shiftl 1 2)].

Local Close Scope string_scope.

(** ** Flags can be combined and told apart *)

Definition combine_flags (flags : list Z) : Z := fold_right Z.lor 0 flags.
Definition has_flag (word flag : Z) : bool := negb (Z.land word flag =? 0).

(** Every set of flags fits the field and can be read back from it. *)
Definition independent (w : uwidth) (flags : list (string * Z)) : Prop :=
  List.NoDup (map fst flags) /\
  forall set, (forall f, In f set -> In f (map snd flags)) ->
    in_width w (combine_flags set) /\
    forall f, In f (map snd flags) -> (has_flag (combine_flags set) f = true <-> In f set).

Definition single_bits (n : nat) : list Z := map (fun k => Z.shiftl 1 (Z.of_nat k)) (seq 0 n).

Lemma combine_testbit set k : Z.testbit (combine_flags set) k = existsb (fun f => Z.testbit f k) set.
Proof. induction set as [|f set IH]; simpl; [by rewrite Z.bits_0|]. by rewrite Z.lor_spec, IH. Qed.

Lemma has_flag_bit word k : 0 <= k -> has_flag word (Z.shiftl 1 k) = Z.testbit word k.
Proof.
  intros Hk. unfold has_flag. rewrite Z.shiftl_1_l. destruct (Z.eqb_spec (Z.land word (2 ^ k)) 0) as [E|E]; simpl.
  - pose proof (Z.land_spec word (2 ^ k) k) as Hs. by rewrite E, Z.bits_0, Z.pow2_bits_true, andb_true_r in Hs by lia.
  - destruct (Z.testbit word k) eqn:Hb; [done|]. exfalso. apply E. apply Z.bits_inj'. intros j Hj.
    rewrite Z.land_spec, Z.bits_0. destruct (decide (j = k)) as [->|Hne]; [by rewrite Hb|].
    by rewrite Z.pow2_bits_false, andb_false_r by lia.
Qed.

Lemma single_bits_independent w flags n :
  List.NoDup (map fst flags) -> map snd flags = single_bits n -> 2 ^ Z.of_nat n <= modulus w ->
  independent w flags.
Proof.
  intros Hnd Hsn Hw. unfold independent. rewrite Hsn. split; [done|]. intros set Hset.
  assert (Hin : forall f, In f (single_bits n) -> exists k, 0 <= k < Z.of_nat n /\ f = Z.shiftl 1 k).
  { intros f (k & <- & Hk%in_seq)%in_map_iff. exists (Z.of_nat k). split; [lia|done]. }
  assert (Hbit : forall k, 0 <= k -> Z.testbit (combine_flags set) k = true -> In (Z.shiftl 1 k) set).
  { intros k Hk Hb. rewrite combine_testbit in Hb. apply existsb_exists in Hb as (f & Hf & Hb).
    destruct (Hin f (Hset f Hf)) as (j & Hj & ->). rewrite Z.shiftl_1_l in Hb.
    destruct (decide (j = k)) as [->|Hne]; [done|]. by rewrite Z.pow2_bits_false in Hb. }
  split.
  - assert (Hnn : 0 <= combine_flags set).
    { clear -Hset Hin. induction set as [|f set IH]; [done|]. simpl. apply Z.lor_nonneg. split.
      - destruct (Hin f (Hset f ltac:(by left))) as (k & Hk & ->). rewrite Z.shiftl_1_l. by apply Z.pow_nonneg.
      - apply IH. intros f' Hf'. apply Hset. by right. }
    split; [done|]. destruct (Z.lt_ge_cases (combine_flags set) (2 ^ Z.of_nat n)) as [|Hge]; [lia|exfalso].
    assert (0 < combine_flags set) as Hpos by (pose proof (Z.pow_pos_nonneg 2 (Z.of_nat n)); lia).
    pose proof (Z.bit_log2 _ Hpos) as Hb. apply Hbit in Hb; [|apply Z.log2_nonneg].
    apply Hset, Hin in Hb as (j & Hj & E). rewrite !Z.shiftl_1_l in E.
    apply Z.pow_inj_r in E; [|lia|apply Z.log2_nonneg|lia].
    pose proof (Z.log2_le_mono _ _ Hge) as Hl. rewrite Z.log2_pow2 in Hl by lia. lia.
  - intros f Hf. destruct (Hin f Hf) as (k & Hk & ->). rewrite has_flag_bit by lia. split; [intros ?; apply Hbit; [lia|done]|].
    intros Hs. rewrite combine_testbit. apply existsb_exists. exists (Z.shiftl 1 k). split; [done|].
    rewrite Z.shiftl_1_l. apply Z.pow2_bits_true. lia.
Qed.

Definition distinct_codes (w : uwidth) (codes : list (string * Z)) : Prop :=
  List.NoDup (map fst codes) /\ List.NoDup (map snd codes) /\ Forall (in_width w) (map snd codes).

(** ** Properties *)

(** The reasons that are not translations from the SDK. *)
Definition custom_reasons : list string :=
  ["NONE"; "BANK_NOT_AVAILABLE"; "PARTIAL_BATCH_CANCELLED"; "ALL_OR_NOTHING_BATCH_FAILURE"]%string.

(** Decides facts about the tables. *)
Ltac solve_table :=
  unfold in_width; try apply NoDup_ListNoDup; apply (bool_decide_unpack _); by vm_compute.

Ltac solve_flags n := apply (single_bits_independent _ _ n); [solve_table|done|by vm_compute].

(** The flags of every message field can be combined and told apart: a set of
    flags fits the integer of its field, and testing the combined value for a flag
    answers whether it is in the set.  The codes of each kind are distinct and fit
    their field, and a reason for not including a transaction is at least 64 exactly
    if it is a translation of an error of the SDK, so the two kinds of reasons can
    be told apart. *)
Theorem flags_and_codes_are_unambiguous :
  (independent U8 tpu_message_flags /\ independent U16 check_message_flags /\
   independent U16 execution_message_flags /\ independent U8 parsing_and_sanitization_flags /\
   independent U8 status_cache_check_flags /\ independent U8 age_nonce_check_flags /\
   independent U8 fee_payer_balance_flags /\ independent U8 resolve_flags /\
   independent U8 scheduling_details_flags) /\
  (distinct_codes U8 processed_codes /\ distinct_codes U8 not_included_reasons /\
   distinct_codes U8 execution_statuses /\ List.NoDup [NOT_LEADER; LEADER_STARTING; LEADER_READY]) /\
  forall name code, In (name, code) not_included_reasons ->
    (code < 64 <-> In name custom_reasons).
Proof.
  split; [|split].
  - split_and!; [solve_flags 3%nat|solve_flags 5%nat|solve_flags 2%nat|solve_flags 1%nat|solve_flags 3%nat|
      solve_flags 6%nat|solve_flags 2%nat|solve_flags 3%nat|solve_flags 3%nat].
  - unfold distinct_codes. split_and!; solve_table.
  - intros name code Hin.
    assert (Hall : Forall (fun '(name, code) => bool_decide (code < 64) = bool_decide (name ∈ custom_reasons))
      not_included_reasons) by solve_table.
    rewrite List.Forall_forall in Hall. specialize (Hall _ Hin). simpl in Hall.
    by rewrite <- list_elem_of_In, <- (bool_decide_eq_true (code < 64)), Hall, bool_decide_eq_true.
Qed.

(** The largest allocation of [rts_alloc], as the documentation gives it. *)
Definition MAX_ALLOCATION : Z := 4096.

(** The memory of [n] responses. *)
Definition region_size (t : Ty) (n : Z) : Z := n * Z.of_nat (size_of t).

(** The responses to an execution message always fit one allocation: for every
    number of transactions that a message may have, the array of execution responses
    does.  The array of check responses does so only up to 42 transactions: the same
    limit would not be enough for check messages. *)
Theorem response_regions_fit n :
  (0 <= n <= MAX_TRANSACTIONS_PER_MESSAGE ->
     region_size (ctype ExecutionResponse) n <= MAX_ALLOCATION /\ n < modulus U8) /\
  (region_size (ctype CheckResponse) n <= MAX_ALLOCATION <-> n <= 42) /\
  MAX_ALLOCATION < region_size (ctype CheckResponse) MAX_TRANSACTIONS_PER_MESSAGE.
Proof.
  unfold region_size, MAX_ALLOCATION, MAX_TRANSACTIONS_PER_MESSAGE.
  change (Z.of_nat (size_of (ctype ExecutionResponse))) with 32.
  change (Z.of_nat (size_of (ctype CheckResponse))) with 96. cbn [modulus]. lia.
Qed.

(** ** The messages of the handshake *)

#[global] Instance ProtocolVersions_CType : CType ProtocolVersions := {
  ctype := TStruct (replicate 4 (TInt U64));
  to_val self := VSeq (map VInt (ProtocolVersions_words self));
  of_val v := match v with
              | VSeq [VInt a; VInt b; VInt c; VInt d] => ProtocolVersions_of_words [a; b; c; d]
              | _ => None
              end
}.

#[global] Instance ClientLogon_CType : CType ClientLogon := {
  ctype := TStruct (replicate 13 (TInt USIZE));
  to_val self := VSeq (map VInt (ClientLogon_words self));
  of_val v :=
    match v with
    | VSeq vs =>
        match mapM (fun v => match v with VInt z => Some z | VSeq _ => None end) vs with
        | Some ws => ClientLogon_of_words ws
        | None => None
        end
    | VInt _ => None
    end
}.

Section Words.
  Context `{Target}.

(** Fields of eight bytes follow each other without padding. *)
Lemma write_words w ws off mem :
  int_size w = 8%nat -> (8 | off)%nat -> (off + 8 * length ws <= length mem)%nat ->
  write_fields (replicate (length ws) (TInt w)) (map VInt ws) off mem =
  take off mem ++ words_to_memory ws ++ drop (off + 8 * length ws) mem.
Proof.
  intros Hw. revert off mem. induction ws as [|z ws IH]; intros off mem Hoff Hlen.
  - cbn [length replicate map write_fields]. unfold words_to_memory. cbn.
    rewrite Nat.add_0_r, take_drop. done.
  - cbn [length replicate map write_fields align_of size_of write]. rewrite Hw.
    assert (round_up off 8 = off) as ->.
    { destruct Hoff as [k ->]. unfold round_up. change (8 - 1)%nat with 7%nat.
      by rewrite (Nat.div_add_l k 8 7), Nat.add_0_r. }
    pose proof (len_native_bytes 8 z) as Hn. unfold len in Hn. apply Nat2Z.inj in Hn.
    cbn [length] in Hlen. rewrite IH.
    2: { apply Nat.divide_add_r; [done|by exists 1%nat]. }
    2: { rewrite length_put by lia. lia. }
    unfold put. rewrite Hn. rewrite (app_assoc (take off mem)).
    rewrite take_app_length' by (rewrite length_app, length_take; lia).
    rewrite drop_app_ge by (rewrite length_app, length_take; lia). rewrite drop_drop, <- app_assoc.
    f_equal. unfold words_to_memory. cbn [map concat]. rewrite <- app_assoc. do 3 f_equal.
    rewrite length_app, length_take. lia.
Qed.

Lemma write_words_whole w ws mem :
  int_size w = 8%nat -> length mem = (8 * length ws)%nat ->
  write (TStruct (replicate (length ws) (TInt w))) (VSeq (map VInt ws)) mem = words_to_memory ws.
Proof.
  intros Hw Hl. rewrite write_struct, write_words; [|done|by exists 0%nat|lia].
  rewrite take_0, drop_ge by lia. by rewrite app_nil_r.
Qed.

Lemma words_of_to_memory n mem :
  length mem = (8 * n)%nat -> words_to_memory (words_of_memory n mem) = mem.
Proof.
  unfold words_to_memory, words_of_memory. revert mem. induction n as [|n IH]; intros mem Hl; simpl.
  - by destruct mem.
  - rewrite native_bytes_native_val by (rewrite length_take; lia).
    rewrite IH by (rewrite length_drop; lia). apply take_drop.
Qed.

(** A struct of words is read from any memory of its size. *)
Lemma of_words_total {A} (of_words : list Z -> option A) (words : A -> list Z) n mem :
  (forall ws, length ws = n -> exists a, of_words ws = Some a /\ words a = ws) ->
  length mem = (8 * n)%nat ->
  exists a, of_words (words_of_memory n mem) = Some a /\ words_to_memory (words a) = mem.
Proof.
  intros Hof Hl. destruct (Hof (words_of_memory n mem)) as (a & Ha & Hw).
  { unfold words_of_memory. rewrite length_map. clear. revert mem. induction n as [|n IH]; intros mem; simpl; [done|].
    by rewrite IH. }
  exists a. split; [done|]. rewrite Hw. by apply words_of_to_memory.
Qed.
End Words.

(** The messages of the handshake have no padding, as their documentation
    demands: writing one fills all its bytes, whatever the memory held before, so no
    byte of the sender's memory leaks; the bytes are those that the handshake sends,
    and the sizes are those it assumes.  Conversely every byte pattern of the right
    size is a message. *)
Theorem handshake_messages_have_no_padding `{Target} (versions : ProtocolVersions) (logon : ClientLogon) :
  Z.of_nat (size_of (ctype ProtocolVersions)) = ProtocolVersions_SERIALIZED_SIZE /\
  Z.of_nat (size_of (ctype ClientLogon)) = size_of_ClientLogon /\
  (forall mem, length mem = size_of (ctype ProtocolVersions) ->
     store versions mem = words_to_memory (ProtocolVersions_words versions) /\
     exists versions', ProtocolVersions_try_from_bytes mem = Some versions' /\ store versions' mem = mem) /\
  (forall mem, length mem = size_of (ctype ClientLogon) ->
     store logon mem = words_to_memory (ClientLogon_words logon) /\
     exists logon', ClientLogon_try_from_bytes mem = Some logon' /\ store logon' mem = mem).
Proof.
  assert (Hv : forall v mem, length mem = 32%nat -> store v mem = words_to_memory (ProtocolVersions_words v))
    by (intros v mem; apply (write_words_whole U64 (ProtocolVersions_words v)); done).
  assert (Hc : forall l mem, length mem = 104%nat -> store l mem = words_to_memory (ClientLogon_words l))
    by (intros l mem; apply (write_words_whole USIZE (ClientLogon_words l)); done).
  split; [done|]. split; [done|]. split; intros mem Hl.
  - split; [by apply Hv|]. unfold ProtocolVersions_try_from_bytes.
    assert (len mem = 32) as -> by (unfold len; by rewrite Hl). cbn [negb Z.eqb].
    destruct (of_words_total ProtocolVersions_of_words ProtocolVersions_words 4 mem) as (v & Hof & Hw);
      [intros ws Hws; do 4 (destruct ws as [|? ws]; [done|]); destruct ws; [by eexists|done]|done|].
    exists v. split; [exact Hof|]. by rewrite Hv, Hw.
  - split; [by apply Hc|]. unfold ClientLogon_try_from_bytes.
    assert (len mem = 104) as -> by (unfold len; by rewrite Hl). cbn [negb Z.eqb].
    destruct (of_words_total ClientLogon_of_words ClientLogon_words 13 mem) as (l & Hof & Hw);
      [intros ws Hws; do 13 (destruct ws as [|? ws]; [done|]); destruct ws; [by eexists|done]|done|].
    exists l. split; [exact Hof|]. by rewrite Hc, Hw.
Qed.
