(* ===== verification/Geyser.v ===== *)
(** * The interface of Geyser plugins
      (geyser-plugin-interface/src/geyser_plugin_interface.rs, block_footer.rs and
       transaction_status_meta.rs)

    The data that a validator passes to its plugins, and the trait that a plugin
    implements.  Most methods have a default; those of the newer callbacks call the
    deprecated ones, so that plugins written for these still get notified. *)

From Stdlib Require Import ZArith Lia Strings.Byte Strings.String.
From stdpp Require Import base list numbers.
From S2P Require Import Prelude RustStr.
Local Open Scope Z_scope.

(** ** Data *)

(** Types of other crates, which the interface passes on. *)
Class GeyserTypes := {
  Signature : Type;
  Hash : Type;
  Pubkey : Type;
  SignatureCompressed : Type;
  SanitizedTransaction : Type;
  VersionedTransaction : Type;
  LoadedAddresses : Type;
  CompiledInstruction : Type;
  TransactionError : Type;
  RewardType : Type;
  SocketAddr : Type;
  F64 : Type;
  GeyserIoError : Type;
  CustomError : Type;
  Log : Type;
  LevelFilter : Type
}.

Section Geyser.
  Context `{GeyserTypes}.

(** *** block_footer.rs *)

Record VotesAggregate := {
  va_signature : SignatureCompressed;
  va_bitmap : list byte
}.

Record BlockFinalizationCert := {
  fc_slot : Z;
  fc_block_id : Hash;
  fc_final_aggregate : VotesAggregate;
  fc_notar_aggregate : option VotesAggregate
}.

Record SkipRewardCertificate := {
  sr_slot : Z;
  sr_signature : SignatureCompressed;
  sr_bitmap : list byte
}.

Record NotarRewardCertificate := {
  nr_slot : Z;
  nr_block_id : Hash;
  nr_signature : SignatureCompressed;
  nr_bitmap : list byte
}.

Record BlockFooterV1 := {
  ft_bank_hash : Hash;
  ft_block_producer_time_nanos : Z;
  ft_block_user_agent : list byte;
  ft_block_final_cert : option BlockFinalizationCert;
  ft_skip_reward_cert : option SkipRewardCertificate;
  ft_notar_reward_cert : option NotarRewardCertificate
}.

Inductive VersionedBlockFooter :=
| BlockFooter_V1 (info : BlockFooterV1).

(** *** transaction_status_meta.rs *)

Record UiTokenAmount := {
  ua_ui_amount : option F64;
  ua_decimals : Z;
  ua_amount : str;
  ua_ui_amount_string : str
}.

Record TransactionTokenBalance := {
  tb_account_index : Z;
  tb_mint : str;
  tb_ui_token_amount : UiTokenAmount;
  tb_owner : str;
  tb_program_id : str
}.

Record InnerInstruction := {
  ii_instruction : CompiledInstruction;
  ii_stack_height : option Z
}.

Record InnerInstructions := {
  iis_index : Z;
  iis_instructions : list InnerInstruction
}.

Record Reward := {
  rw_pubkey : str;
  rw_lamports : Z;
  rw_post_balance : Z;
  rw_reward_type : option RewardType;
  rw_commission : option Z;
  rw_commission_bps : option Z
}.

Record RewardsAndNumPartitions := {
  rp_rewards : list Reward;
  rp_num_partitions : option Z
}.

Record TransactionReturnData := {
  rd_program_id : Pubkey;
  rd_data : list byte
}.

Record TransactionStatusMeta := {
  sm_status : (unit + TransactionError);
  sm_fee : Z;
  sm_pre_balances : list Z;
  sm_post_balances : list Z;
  sm_inner_instructions : option (list InnerInstructions);
  sm_log_messages : option (list str);
  sm_pre_token_balances : option (list TransactionTokenBalance);
  sm_post_token_balances : option (list TransactionTokenBalance);
  sm_rewards : option (list Reward);
  sm_loaded_addresses : LoadedAddresses;
  sm_return_data : option TransactionReturnData;
  sm_compute_units_consumed : option Z;
  sm_cost_units : option Z
}.

(** *** geyser_plugin_interface.rs

    The [_tag] of an enum of versions is its discriminant, which is fixed by
    [repr(u32)]. *)

Record ReplicaAccountInfo := {
  ai1_pubkey : list byte;
  ai1_lamports : Z;
  ai1_owner : list byte;
  ai1_executable : bool;
  ai1_rent_epoch : Z;
  ai1_data : list byte;
  ai1_write_version : Z
}.

Record ReplicaAccountInfoV2 := {
  ai2_pubkey : list byte;
  ai2_lamports : Z;
  ai2_owner : list byte;
  ai2_executable : bool;
  ai2_rent_epoch : Z;
  ai2_data : list byte;
  ai2_write_version : Z;
  ai2_txn_signature : option Signature
}.

Record ReplicaAccountInfoV3 := {
  ai3_pubkey : list byte;
  ai3_lamports : Z;
  ai3_owner : list byte;
  ai3_executable : bool;
  ai3_rent_epoch : Z;
  ai3_data : list byte;
  ai3_write_version : Z;
  ai3_txn : option SanitizedTransaction
}.

Record ReplicaAccountInfoV4 := {
  ai4_pubkey : list byte;
  ai4_lamports : Z;
  ai4_owner : list byte;
  ai4_executable : bool;
  ai4_rent_epoch : Z;
  ai4_data : list byte;
  ai4_write_version : Z;
  ai4_txn : option SanitizedTransaction;
  ai4_txn_index : option Z
}.

Record ReplicaAccountInfoV5 := {
  ai5_pubkey : list byte;
  ai5_lamports : Z;
  ai5_owner : list byte;
  ai5_executable : bool;
  ai5_data : list byte;
  ai5_write_version : Z;
  ai5_txn : option SanitizedTransaction;
  ai5_txn_index : option Z
}.

Inductive ReplicaAccountInfoVersions :=
| Account_V0_0_1 (info : ReplicaAccountInfo)
| Account_V0_0_2 (info : ReplicaAccountInfoV2)
| Account_V0_0_3 (info : ReplicaAccountInfoV3)
| Account_V0_0_4 (info : ReplicaAccountInfoV4)
| Account_V0_0_5 (info : ReplicaAccountInfoV5).

Definition Account_tag (self : ReplicaAccountInfoVersions) : Z :=
  match self with Account_V0_0_1 _ => 0 | Account_V0_0_2 _ => 1 | Account_V0_0_3 _ => 2 | Account_V0_0_4 _ => 3 | Account_V0_0_5 _ => 4 end.

Record ReplicaTransactionInfoV4 := {
  ti4_signature : Signature;
  ti4_message_hash : Hash;
  ti4_is_vote : bool;
  ti4_transaction : VersionedTransaction;
  ti4_transaction_status_meta : TransactionStatusMeta;
  ti4_index : Z
}.

Inductive ReplicaTransactionInfoVersions :=
| Transaction_V0_0_4 (info : ReplicaTransactionInfoV4).

Definition Transaction_tag (self : ReplicaTransactionInfoVersions) : Z :=
  match self with Transaction_V0_0_4 _ => 3 end.

Record ReplicaDeshredTransactionInfo := {
  dt1_signature : Signature;
  dt1_is_vote : bool;
  dt1_transaction : VersionedTransaction;
  dt1_loaded_addresses : option LoadedAddresses
}.

Record ReplicaDeshredTransactionInfoV2 := {
  dt2_signature : Signature;
  dt2_is_vote : bool;
  dt2_transaction : VersionedTransaction;
  dt2_loaded_addresses : option LoadedAddresses;
  dt2_completed_data_set_starting_shred_index : Z;
  dt2_completed_data_set_ending_shred_index_exclusive : Z
}.

Inductive ReplicaDeshredTransactionInfoVersions :=
| DeshredTransaction_V0_0_1 (info : ReplicaDeshredTransactionInfo)
| DeshredTransaction_V0_0_2 (info : ReplicaDeshredTransactionInfoV2).

Definition DeshredTransaction_tag (self : ReplicaDeshredTransactionInfoVersions) : Z :=
  match self with DeshredTransaction_V0_0_1 _ => 0 | DeshredTransaction_V0_0_2 _ => 1 end.

Record ReplicaEntryInfo := {
  ei1_slot : Z;
  ei1_index : Z;
  ei1_num_hashes : Z;
  ei1_hash : list byte;
  ei1_executed_transaction_count : Z
}.

Record ReplicaEntryInfoV2 := {
  ei2_slot : Z;
  ei2_index : Z;
  ei2_num_hashes : Z;
  ei2_hash : list byte;
  ei2_executed_transaction_count : Z;
  ei2_starting_transaction_index : Z
}.

Inductive ReplicaEntryInfoVersions :=
| Entry_V0_0_1 (info : ReplicaEntryInfo)
| Entry_V0_0_2 (info : ReplicaEntryInfoV2).

Definition Entry_tag (self : ReplicaEntryInfoVersions) : Z :=
  match self with Entry_V0_0_1 _ => 0 | Entry_V0_0_2 _ => 1 end.

Record ReplicaEntryUpdateParentInfo := {
  eu1_slot : Z;
  eu1_cleared_bank_id : Z;
  eu1_parent_slot : Z;
  eu1_parent_block_id : Hash
}.

Inductive ReplicaEntryUpdateParentInfoVersions :=
| EntryUpdateParent_V0_0_1 (info : ReplicaEntryUpdateParentInfo).

Definition EntryUpdateParent_tag (self : ReplicaEntryUpdateParentInfoVersions) : Z :=
  match self with EntryUpdateParent_V0_0_1 _ => 0 end.

Record ReplicaDeshredUpdateParentInfo := {
  du1_slot : Z;
  du1_update_parent_fec_set_index : Z;
  du1_parent_slot : Z;
  du1_parent_block_id : Hash
}.

Inductive ReplicaDeshredUpdateParentInfoVersions :=
| DeshredUpdateParent_V0_0_1 (info : ReplicaDeshredUpdateParentInfo).

Definition DeshredUpdateParent_tag (self : ReplicaDeshredUpdateParentInfoVersions) : Z :=
  match self with DeshredUpdateParent_V0_0_1 _ => 0 end.

Record ReplicaBlockFooterInfo := {
  bf_slot : Z;
  bf_block_footer : VersionedBlockFooter
}.

Inductive ReplicaBlockFooterInfoVersions :=
| BlockFooter_V0_0_2 (info : ReplicaBlockFooterInfo).

Definition BlockFooter_tag (self : ReplicaBlockFooterInfoVersions) : Z :=
  match self with BlockFooter_V0_0_2 _ => 1 end.

Record ReplicaBlockInfoV5 := {
  bi5_parent_slot : Z;
  bi5_parent_blockhash : str;
  bi5_slot : Z;
  bi5_blockhash : str;
  bi5_rewards : RewardsAndNumPartitions;
  bi5_block_time : option Z;
  bi5_block_height : option Z;
  bi5_executed_transaction_count : Z;
  bi5_entry_count : Z
}.

Inductive ReplicaBlockInfoVersions :=
| Block_V0_0_5 (info : ReplicaBlockInfoV5).

Definition Block_tag (self : ReplicaBlockInfoVersions) : Z :=
  match self with Block_V0_0_5 _ => 4 end.

Record ReplicaContactInfoV0_0_1 := {
  ci_pubkey : list byte;
  ci_wallclock : Z;
  ci_outset : Z;
  ci_shred_version : Z;
  ci_version_major : Z;
  ci_version_minor : Z;
  ci_version_patch : Z;
  ci_version_commit : Z;
  ci_version_feature_set : Z;
  ci_version_client_id : Z;
  ci_gossip : option SocketAddr;
  ci_tpu_quic : option SocketAddr;
  ci_tpu_forwards_quic : option SocketAddr;
  ci_tpu_vote_udp : option SocketAddr;
  ci_tpu_vote_quic : option SocketAddr;
  ci_tvu_udp : option SocketAddr;
  ci_tvu_quic : option SocketAddr;
  ci_serve_repair_udp : option SocketAddr;
  ci_serve_repair_quic : option SocketAddr;
  ci_rpc : option SocketAddr;
  ci_rpc_pubsub : option SocketAddr;
  ci_alpenglow : option SocketAddr
}.

Inductive ReplicaContactInfoVersions :=
| Contact_V0_0_1 (info : ReplicaContactInfoV0_0_1).

Definition Contact_tag (self : ReplicaContactInfoVersions) : Z :=
  match self with Contact_V0_0_1 _ => 0 end.

Inductive GeyserPluginError :=
| ConfigFileOpenError (e : GeyserIoError)
| ConfigFileReadError (msg : str)
| AccountsUpdateError (msg : str)
| SlotStatusUpdateError (msg : str)
| Custom (e : CustomError)
| TransactionUpdateError (msg : str).

Inductive SlotStatus :=
| Processed
| Rooted
| Confirmed
| FirstShredReceived
| Completed
| CreatedBank
| Dead (error : str).

Definition SlotStatus_as_str (self : SlotStatus) : str :=
  match self with
  | Confirmed => lit "confirmed"
  | Processed => lit "processed"
  | Rooted => lit "rooted"
  | FirstShredReceived => lit "first_shred_received"
  | Completed => lit "completed"
  | CreatedBank => lit "created_bank"
  | Dead _error => lit "dead"
  end.

(** ** The trait

    A plugin is the methods it overrides, each as a function of the state behind
    the plugin, which also methods that take [&self] may change. *)

Section Plugin.
  Context {S : Type}.

Definition Method : Type := S -> Outcome GeyserPluginError unit * S.

Record PluginImpl := {
  impl_name : str;
  impl_setup_logger : option (Log -> LevelFilter -> Method);
  impl_on_load : option (str -> bool -> Method);
  impl_update_account : option (ReplicaAccountInfoVersions -> Z -> bool -> Method);
  impl_update_account_from_snapshot : option (ReplicaAccountInfoVersions -> Z -> Method);
  impl_update_account_for_bank : option (ReplicaAccountInfoVersions -> Z -> Z -> Method);
  impl_notify_end_of_startup : option Method;
  impl_notify_bank_creation : option (Z -> option Z -> Z -> Method);
  impl_update_slot_status : option (Z -> option Z -> SlotStatus -> Method);
  impl_update_bank_status : option (Z -> option Z -> SlotStatus -> Z -> Method);
  impl_notify_transaction : option (ReplicaTransactionInfoVersions -> Z -> Method);
  impl_notify_transaction_for_bank : option (ReplicaTransactionInfoVersions -> Z -> Z -> Method);
  impl_notify_entry : option (ReplicaEntryInfoVersions -> Method);
  impl_notify_entry_for_bank : option (ReplicaEntryInfoVersions -> Z -> Method);
  impl_notify_block_footer : option (ReplicaBlockFooterInfoVersions -> Z -> Method);
  impl_notify_block_metadata : option (ReplicaBlockInfoVersions -> Method);
  impl_notify_block_metadata_for_bank : option (ReplicaBlockInfoVersions -> Z -> Method);
  impl_notify_contact_info : option (ReplicaContactInfoVersions -> bool -> Method);
  impl_notify_contact_info_removed : option (list byte -> Method);
  impl_notify_deshred_transaction : option (ReplicaDeshredTransactionInfoVersions -> Z -> Method);
  impl_notify_entry_update_parent : option (ReplicaEntryUpdateParentInfoVersions -> Method);
  impl_notify_deshred_update_parent : option (ReplicaDeshredUpdateParentInfoVersions -> Method);
  impl_on_unload : option (S -> S);
  impl_account_data_notifications_enabled : option (S -> bool);
  impl_account_data_snapshot_notifications_enabled : option (S -> bool);
  impl_transaction_notifications_enabled : option (S -> bool);
  impl_entry_notifications_enabled : option (S -> bool);
  impl_block_footer_notifications_enabled : option (S -> bool);
  impl_contact_info_notifications_enabled : option (S -> bool);
  impl_deshred_transaction_notifications_enabled : option (S -> bool);
  impl_deshred_transaction_alt_resolution_enabled : option (S -> bool)
}.

(** ** Calls: the overriding method, or the default of the trait *)

Section Calls.
  Context (plugin : PluginImpl).

Definition plugin_name : str := impl_name plugin.

Definition setup_logger (logger : Log) (level : LevelFilter) : Method :=
  match impl_setup_logger plugin with Some f => f logger level | None => fun s => (Ok tt, s) end.

Definition on_load (config_file : str) (is_reload : bool) : Method :=
  match impl_on_load plugin with Some f => f config_file is_reload | None => fun s => (Ok tt, s) end.

Definition update_account (account : ReplicaAccountInfoVersions) (slot : Z) (is_startup : bool) : Method :=
  match impl_update_account plugin with Some f => f account slot is_startup | None => fun s => (Ok tt, s) end.

Definition update_account_from_snapshot (account : ReplicaAccountInfoVersions) (slot : Z) : Method :=
  match impl_update_account_from_snapshot plugin with Some f => f account slot | None => update_account account slot true end.

Definition update_account_for_bank (account : ReplicaAccountInfoVersions) (slot : Z) (bank_id : Z) : Method :=
  match impl_update_account_for_bank plugin with Some f => f account slot bank_id | None => update_account account slot false end.

Definition notify_end_of_startup : Method :=
  match impl_notify_end_of_startup plugin with Some f => f | None => fun s => (Ok tt, s) end.

Definition notify_bank_creation (slot : Z) (parent : option Z) (bank_id : Z) : Method :=
  match impl_notify_bank_creation plugin with Some f => f slot parent bank_id | None => fun s => (Ok tt, s) end.

Definition update_slot_status (slot : Z) (parent : option Z) (status : SlotStatus) : Method :=
  match impl_update_slot_status plugin with Some f => f slot parent status | None => fun s => (Ok tt, s) end.

Definition update_bank_status (slot : Z) (parent : option Z) (status : SlotStatus) (bank_id : Z) : Method :=
  match impl_update_bank_status plugin with Some f => f slot parent status bank_id | None => update_slot_status slot parent status end.

Definition notify_transaction (transaction : ReplicaTransactionInfoVersions) (slot : Z) : Method :=
  match impl_notify_transaction plugin with Some f => f transaction slot | None => fun s => (Ok tt, s) end.

Definition notify_transaction_for_bank (transaction : ReplicaTransactionInfoVersions) (slot : Z) (bank_id : Z) : Method :=
  match impl_notify_transaction_for_bank plugin with Some f => f transaction slot bank_id | None => notify_transaction transaction slot end.

Definition notify_entry (entry : ReplicaEntryInfoVersions) : Method :=
  match impl_notify_entry plugin with Some f => f entry | None => fun s => (Ok tt, s) end.

Definition notify_entry_for_bank (entry : ReplicaEntryInfoVersions) (bank_id : Z) : Method :=
  match impl_notify_entry_for_bank plugin with Some f => f entry bank_id | None => notify_entry entry end.

Definition notify_block_footer (block_footer : ReplicaBlockFooterInfoVersions) (bank_id : Z) : Method :=
  match impl_notify_block_footer plugin with Some f => f block_footer bank_id | None => fun s => (Ok tt, s) end.

Definition notify_block_metadata (blockinfo : ReplicaBlockInfoVersions) : Method :=
  match impl_notify_block_metadata plugin with Some f => f blockinfo | None => fun s => (Ok tt, s) end.

Definition notify_block_metadata_for_bank (blockinfo : ReplicaBlockInfoVersions) (bank_id : Z) : Method :=
  match impl_notify_block_metadata_for_bank plugin with Some f => f blockinfo bank_id | None => notify_block_metadata blockinfo end.

Definition notify_contact_info (info : ReplicaContactInfoVersions) (is_startup : bool) : Method :=
  match impl_notify_contact_info plugin with Some f => f info is_startup | None => fun s => (Ok tt, s) end.

Definition notify_contact_info_removed (pubkey : list byte) : Method :=
  match impl_notify_contact_info_removed plugin with Some f => f pubkey | None => fun s => (Ok tt, s) end.

Definition notify_deshred_transaction (transaction : ReplicaDeshredTransactionInfoVersions) (slot : Z) : Method :=
  match impl_notify_deshred_transaction plugin with Some f => f transaction slot | None => fun s => (Ok tt, s) end.

Definition notify_entry_update_parent (update_parent : ReplicaEntryUpdateParentInfoVersions) : Method :=
  match impl_notify_entry_update_parent plugin with Some f => f update_parent | None => fun s => (Ok tt, s) end.

Definition notify_deshred_update_parent (update_parent : ReplicaDeshredUpdateParentInfoVersions) : Method :=
  match impl_notify_deshred_update_parent plugin with Some f => f update_parent | None => fun s => (Ok tt, s) end.

Definition on_unload : S -> S :=
  match impl_on_unload plugin with Some f => f | None => fun s => s end.

Definition account_data_notifications_enabled : S -> bool :=
  match impl_account_data_notifications_enabled plugin with Some f => f | None => fun _ => true end.

Definition account_data_snapshot_notifications_enabled : S -> bool :=
  match impl_account_data_snapshot_notifications_enabled plugin with Some f => f | None => fun _ => true end.

Definition transaction_notifications_enabled : S -> bool :=
  match impl_transaction_notifications_enabled plugin with Some f => f | None => fun _ => false end.

Definition entry_notifications_enabled : S -> bool :=
  match impl_entry_notifications_enabled plugin with Some f => f | None => fun _ => false end.

Definition block_footer_notifications_enabled : S -> bool :=
  match impl_block_footer_notifications_enabled plugin with Some f => f | None => fun _ => false end.

Definition contact_info_notifications_enabled : S -> bool :=
  match impl_contact_info_notifications_enabled plugin with Some f => f | None => fun _ => false end.

Definition deshred_transaction_notifications_enabled : S -> bool :=
  match impl_deshred_transaction_notifications_enabled plugin with Some f => f | None => fun _ => false end.

Definition deshred_transaction_alt_resolution_enabled : S -> bool :=
  match impl_deshred_transaction_alt_resolution_enabled plugin with Some f => f | None => fun _ => false end.

(** Every callback of the validator. *)
Inductive Callback :=
| UpdateAccount (account : ReplicaAccountInfoVersions) (slot : Z) (is_startup : bool)
| UpdateAccountFromSnapshot (account : ReplicaAccountInfoVersions) (slot : Z)
| UpdateAccountForBank (account : ReplicaAccountInfoVersions) (slot : Z) (bank_id : Z)
| NotifyEndOfStartup
| NotifyBankCreation (slot : Z) (parent : option Z) (bank_id : Z)
| UpdateSlotStatus (slot : Z) (parent : option Z) (status : SlotStatus)
| UpdateBankStatus (slot : Z) (parent : option Z) (status : SlotStatus) (bank_id : Z)
| NotifyTransaction (transaction : ReplicaTransactionInfoVersions) (slot : Z)
| NotifyTransactionForBank (transaction : ReplicaTransactionInfoVersions) (slot : Z) (bank_id : Z)
| NotifyEntry (entry : ReplicaEntryInfoVersions)
| NotifyEntryForBank (entry : ReplicaEntryInfoVersions) (bank_id : Z)
| NotifyBlockFooter (block_footer : ReplicaBlockFooterInfoVersions) (bank_id : Z)
| NotifyBlockMetadata (blockinfo : ReplicaBlockInfoVersions)
| NotifyBlockMetadataForBank (blockinfo : ReplicaBlockInfoVersions) (bank_id : Z)
| NotifyContactInfo (info : ReplicaContactInfoVersions) (is_startup : bool)
| NotifyContactInfoRemoved (pubkey : list byte)
| NotifyDeshredTransaction (transaction : ReplicaDeshredTransactionInfoVersions) (slot : Z)
| NotifyEntryUpdateParent (update_parent : ReplicaEntryUpdateParentInfoVersions)
| NotifyDeshredUpdateParent (update_parent : ReplicaDeshredUpdateParentInfoVersions).

Definition callback (c : Callback) : Method :=
  match c with
  | UpdateAccount account slot is_startup => update_account account slot is_startup
  | UpdateAccountFromSnapshot account slot => update_account_from_snapshot account slot
  | UpdateAccountForBank account slot bank_id => update_account_for_bank account slot bank_id
  | NotifyEndOfStartup => notify_end_of_startup
  | NotifyBankCreation slot parent bank_id => notify_bank_creation slot parent bank_id
  | UpdateSlotStatus slot parent status => update_slot_status slot parent status
  | UpdateBankStatus slot parent status bank_id => update_bank_status slot parent status bank_id
  | NotifyTransaction transaction slot => notify_transaction transaction slot
  | NotifyTransactionForBank transaction slot bank_id => notify_transaction_for_bank transaction slot bank_id
  | NotifyEntry entry => notify_entry entry
  | NotifyEntryForBank entry bank_id => notify_entry_for_bank entry bank_id
  | NotifyBlockFooter block_footer bank_id => notify_block_footer block_footer bank_id
  | NotifyBlockMetadata blockinfo => notify_block_metadata blockinfo
  | NotifyBlockMetadataForBank blockinfo bank_id => notify_block_metadata_for_bank blockinfo bank_id
  | NotifyContactInfo info is_startup => notify_contact_info info is_startup
  | NotifyContactInfoRemoved pubkey => notify_contact_info_removed pubkey
  | NotifyDeshredTransaction transaction slot => notify_deshred_transaction transaction slot
  | NotifyEntryUpdateParent update_parent => notify_entry_update_parent update_parent
  | NotifyDeshredUpdateParent update_parent => notify_deshred_update_parent update_parent
  end.

(** A sequence of callbacks, with their results. *)
Fixpoint callbacks (cs : list Callback) (s : S) : list (Outcome GeyserPluginError unit) * S :=
  match cs with
  | [] => ([], s)
  | c :: cs =>
      let '(r, s) := callback c s in
      let '(rs, s) := callbacks cs s in
      (r :: rs, s)
  end.
End Calls.

(** ** Compatibility *)

(** The deprecated callback that a newer one stands for. *)
Definition legacy (c : Callback) : Callback :=
  match c with
  | UpdateAccountFromSnapshot account slot => UpdateAccount account slot true
  | UpdateAccountForBank account slot _ => UpdateAccount account slot false
  | UpdateBankStatus slot parent status _ => UpdateSlotStatus slot parent status
  | NotifyTransactionForBank transaction slot _ => NotifyTransaction transaction slot
  | NotifyEntryForBank entry _ => NotifyEntry entry
  | NotifyBlockMetadataForBank blockinfo _ => NotifyBlockMetadata blockinfo
  | c => c
  end.

(** The statuses that belong to a bank; the others are told with
    [update_slot_status] directly, by a validator of any age. *)
Definition bank_status (status : SlotStatus) : bool :=
  match status with
  | FirstShredReceived | Completed => false
  | _ => true
  end.

(** The callbacks that newer ones replace: those that are deprecated, and
    [update_slot_status] for the statuses of banks. *)
Definition superseded (c : Callback) : bool :=
  match c with
  | UpdateAccount _ _ _ | NotifyTransaction _ _ | NotifyEntry _ | NotifyBlockMetadata _ => true
  | UpdateSlotStatus _ _ status => bank_status status
  | _ => false
  end.

(** A plugin from before the newer callbacks. *)
Definition is_legacy (plugin : PluginImpl) : Prop :=
  impl_update_account_from_snapshot plugin = None /\
  impl_update_account_for_bank plugin = None /\
  impl_update_bank_status plugin = None /\
  impl_notify_transaction_for_bank plugin = None /\
  impl_notify_entry_for_bank plugin = None /\
  impl_notify_block_metadata_for_bank plugin = None.

(** A plugin that implements all newer callbacks. *)
Definition is_current (plugin : PluginImpl) : Prop :=
  is_Some (impl_update_account_from_snapshot plugin) /\
  is_Some (impl_update_account_for_bank plugin) /\
  is_Some (impl_update_bank_status plugin) /\
  is_Some (impl_notify_transaction_for_bank plugin) /\
  is_Some (impl_notify_entry_for_bank plugin) /\
  is_Some (impl_notify_block_metadata_for_bank plugin).

(** The plugin without what it does in superseded callbacks. *)
Definition without_superseded (plugin : PluginImpl) : PluginImpl :=
  {| impl_name := impl_name plugin;
     impl_setup_logger := impl_setup_logger plugin;
     impl_on_load := impl_on_load plugin;
     impl_update_account := None;
     impl_update_account_from_snapshot := impl_update_account_from_snapshot plugin;
     impl_update_account_for_bank := impl_update_account_for_bank plugin;
     impl_notify_end_of_startup := impl_notify_end_of_startup plugin;
     impl_notify_bank_creation := impl_notify_bank_creation plugin;
     impl_update_slot_status :=
       (fun f slot parent status s => if bank_status status then (Ok tt, s) else f slot parent status s)
         <$> impl_update_slot_status plugin;
     impl_update_bank_status := impl_update_bank_status plugin;
     impl_notify_transaction := None;
     impl_notify_transaction_for_bank := impl_notify_transaction_for_bank plugin;
     impl_notify_entry := None;
     impl_notify_entry_for_bank := impl_notify_entry_for_bank plugin;
     impl_notify_block_footer := impl_notify_block_footer plugin;
     impl_notify_block_metadata := None;
     impl_notify_block_metadata_for_bank := impl_notify_block_metadata_for_bank plugin;
     impl_notify_contact_info := impl_notify_contact_info plugin;
     impl_notify_contact_info_removed := impl_notify_contact_info_removed plugin;
     impl_notify_deshred_transaction := impl_notify_deshred_transaction plugin;
     impl_notify_entry_update_parent := impl_notify_entry_update_parent plugin;
     impl_notify_deshred_update_parent := impl_notify_deshred_update_parent plugin;
     impl_on_unload := impl_on_unload plugin;
     impl_account_data_notifications_enabled := impl_account_data_notifications_enabled plugin;
     impl_account_data_snapshot_notifications_enabled := impl_account_data_snapshot_notifications_enabled plugin;
     impl_transaction_notifications_enabled := impl_transaction_notifications_enabled plugin;
     impl_entry_notifications_enabled := impl_entry_notifications_enabled plugin;
     impl_block_footer_notifications_enabled := impl_block_footer_notifications_enabled plugin;
     impl_contact_info_notifications_enabled := impl_contact_info_notifications_enabled plugin;
     impl_deshred_transaction_notifications_enabled := impl_deshred_transaction_notifications_enabled plugin;
     impl_deshred_transaction_alt_resolution_enabled := impl_deshred_transaction_alt_resolution_enabled plugin |}.

(** A plugin that implements nothing but its name. *)
Definition bare (name : str) : PluginImpl :=
  {| impl_name := name;
     impl_setup_logger := None;
     impl_on_load := None;
     impl_update_account := None;
     impl_update_account_from_snapshot := None;
     impl_update_account_for_bank := None;
     impl_notify_end_of_startup := None;
     impl_notify_bank_creation := None;
     impl_update_slot_status := None;
     impl_update_bank_status := None;
     impl_notify_transaction := None;
     impl_notify_transaction_for_bank := None;
     impl_notify_entry := None;
     impl_notify_entry_for_bank := None;
     impl_notify_block_footer := None;
     impl_notify_block_metadata := None;
     impl_notify_block_metadata_for_bank := None;
     impl_notify_contact_info := None;
     impl_notify_contact_info_removed := None;
     impl_notify_deshred_transaction := None;
     impl_notify_entry_update_parent := None;
     impl_notify_deshred_update_parent := None;
     impl_on_unload := None;
     impl_account_data_notifications_enabled := None;
     impl_account_data_snapshot_notifications_enabled := None;
     impl_transaction_notifications_enabled := None;
     impl_entry_notifications_enabled := None;
     impl_block_footer_notifications_enabled := None;
     impl_contact_info_notifications_enabled := None;
     impl_deshred_transaction_notifications_enabled := None;
     impl_deshred_transaction_alt_resolution_enabled := None |}.

Lemma legacy_callback plugin c s :
  is_legacy plugin -> callback plugin c s = callback plugin (legacy c) s.
Proof.
  intros (H1 & H2 & H3 & H4 & H5 & H6). destruct c; try done; cbn [callback legacy];
    unfold update_account_from_snapshot, update_account_for_bank, update_bank_status,
      notify_transaction_for_bank, notify_entry_for_bank, notify_block_metadata_for_bank;
    by rewrite ?H1, ?H2, ?H3, ?H4, ?H5, ?H6.
Qed.

Lemma current_callback plugin c s :
  is_current plugin -> superseded c = false -> callback plugin c s = callback (without_superseded plugin) c s.
Proof.
  intros ([? H1] & [? H2] & [? H3] & [? H4] & [? H5] & [? H6]) Hc. destruct c; try done; cbn [callback];
    unfold update_account_from_snapshot, update_account_for_bank, update_bank_status, update_slot_status,
      notify_transaction_for_bank, notify_entry_for_bank, notify_block_metadata_for_bank; simpl;
    rewrite ?H1, ?H2, ?H3, ?H4, ?H5, ?H6; try done.
  simpl in Hc. destruct (impl_update_slot_status plugin); simpl; by rewrite ?Hc.
Qed.

(** C37: Plugins of every age work with a validator that makes the newer callbacks.
    A plugin that implements none of them gets each one as the callback it replaces,
    with the same data (and, for accounts, whether they come from a snapshot), in
    the same order, and its results and errors are passed on.  In a plugin that
    implements all of them, as long as the validator itself makes no deprecated
    callback and tells no status of a bank with [update_slot_status], what the plugin
    does in these makes no difference, so they are never reached from the defaults;
    [update_slot_status] keeps its part for the statuses without a bank.  And a plugin
    that implements nothing accepts every callback without effect. *)
Theorem plugins_are_compatible plugin cs s :
  (is_legacy plugin -> callbacks plugin cs s = callbacks plugin (map legacy cs) s) /\
  (is_current plugin -> Forall (fun c => superseded c = false) cs ->
     callbacks plugin cs s = callbacks (without_superseded plugin) cs s) /\
  (forall name, callbacks (bare name) cs s = (map (fun _ => Ok tt) cs, s)).
Proof.
  split_and!.
  - intros Hl. revert s. induction cs as [|c cs IH]; intros s; [done|]. cbn [map callbacks].
    rewrite <- (legacy_callback plugin c s Hl). destruct (callback plugin c s) as [r s']. by rewrite IH.
  - intros Hc Hcs. revert s. induction Hcs as [|c cs Hs _ IH]; intros s; [done|]. cbn [callbacks].
    rewrite (current_callback plugin c s Hc Hs). destruct (callback _ c s) as [r s']. by rewrite IH.
  - intros name. revert s. induction cs as [|c cs IH]; intros s; [done|]. cbn [map callbacks].
    assert (callback (bare name) c s = (Ok tt, s)) as -> by by destruct c. by rewrite IH.
Qed.

(** The name of a status tells its variant. *)
Lemma SlotStatus_as_str_inj a b :
  SlotStatus_as_str a = SlotStatus_as_str b ->
  a = b \/ exists e e', a = Dead e /\ b = Dead e'.
Proof. destruct a, b; simpl; intros E; try discriminate; eauto. Qed.

End Plugin.
End Geyser.

(** ** Sample: a legacy plugin that records statuses, as in the tests of the crate *)

#[local] Instance sample_types : GeyserTypes := {|
  Signature := unit; Hash := unit; Pubkey := unit; SignatureCompressed := unit;
  SanitizedTransaction := unit; VersionedTransaction := unit; LoadedAddresses := unit;
  CompiledInstruction := unit; TransactionError := unit; RewardType := unit; SocketAddr := unit;
  F64 := unit; GeyserIoError := unit; CustomError := unit; Log := unit; LevelFilter := unit |}.

Definition legacy_plugin : PluginImpl (S := list SlotStatus) :=
  {| impl_name := lit "legacy";
     impl_setup_logger := None;
     impl_on_load := None;
     impl_update_account := None;
     impl_update_account_from_snapshot := None;
     impl_update_account_for_bank := None;
     impl_notify_end_of_startup := None;
     impl_notify_bank_creation := None;
     impl_update_slot_status := Some (fun _ _ status s => (Ok tt, s ++ [status]));
     impl_update_bank_status := None;
     impl_notify_transaction := None;
     impl_notify_transaction_for_bank := None;
     impl_notify_entry := None;
     impl_notify_entry_for_bank := None;
     impl_notify_block_footer := None;
     impl_notify_block_metadata := None;
     impl_notify_block_metadata_for_bank := None;
     impl_notify_contact_info := None;
     impl_notify_contact_info_removed := None;
     impl_notify_deshred_transaction := None;
     impl_notify_entry_update_parent := None;
     impl_notify_deshred_update_parent := None;
     impl_on_unload := None;
     impl_account_data_notifications_enabled := None;
     impl_account_data_snapshot_notifications_enabled := None;
     impl_transaction_notifications_enabled := None;
     impl_entry_notifications_enabled := None;
     impl_block_footer_notifications_enabled := None;
     impl_contact_info_notifications_enabled := None;
     impl_deshred_transaction_notifications_enabled := None;
     impl_deshred_transaction_alt_resolution_enabled := None |}.

Lemma plugins_are_compatible_witness :
  let dead := Dead (lit "replay failed") in
  callbacks legacy_plugin [NotifyBankCreation 42 (Some 41) 7; UpdateBankStatus 42 (Some 41) dead 7] [] =
    ([Ok tt; Ok tt], [dead]).
Proof.
  intros dead. destruct (plugins_are_compatible legacy_plugin
    [NotifyBankCreation 42 (Some 41) 7; UpdateBankStatus 42 (Some 41) dead 7] []) as (H & _).
  rewrite H; [reflexivity|]. repeat split.
Defined.
