(* ===== verification/HandshakeText.v ===== *)
(** * Versions and error texts (scheduler-handshake/src/shared.rs and lib.rs)

    The versions of a build, their text and the texts of the errors of the
    handshake, which is what a rejected client learns. *)

From Stdlib Require Import ZArith Lia Strings.Byte Strings.String.
From Stdlib Require Import DecimalString DecimalFacts DecimalN.
From stdpp Require Import base list numbers.
From S2P Require Import Prelude RustStr HandshakeShared HandshakeWire HandshakeSession.
From S2P Require Import SchedulerBindings.
Local Open Scope Z_scope.
Local Open Scope rust_scope.

(** ** Versions *)

(** The versions of a build, from the major versions in the environment of the two
    crates and the constants of shaq and rts_alloc ([u32]). *)
Definition ProtocolVersions_current {E} (handshake_major bindings_major : str)
    (shaq_VERSION rts_alloc_VERSION : Z) : Outcome E ProtocolVersions :=
  let? handshake := version handshake_major in
  let? scheduler_bindings := version bindings_major in
  Ok {| pv_handshake := handshake;
        pv_scheduler_bindings := scheduler_bindings;
        pv_shaq := shaq_VERSION;
        pv_rts_alloc := rts_alloc_VERSION |}.

Definition ProtocolVersions_fmt (self : ProtocolVersions) : str :=
  lit "handshake=" ++ display (pv_handshake self) ++
  lit ", scheduler-bindings=" ++ display (pv_scheduler_bindings self) ++
  lit ", shaq=" ++ display (pv_shaq self) ++
  lit ", rts-alloc=" ++ display (pv_rts_alloc self).

(** ** Errors *)

Definition QueueField_str (field : QueueField) : str :=
  match field with
  | TpuToPackCapacity => lit "tpu_to_pack_capacity"
  | ProgressTrackerCapacity => lit "progress_tracker_capacity"
  | PackToWorkerCapacity => lit "pack_to_worker_capacity"
  | WorkerToPackCapacity => lit "worker_to_pack_capacity"
  | PackToCheckWorkerCapacity => lit "pack_to_check_worker_capacity"
  | CheckWorkerToPackCapacity => lit "check_worker_to_pack_capacity"
  | PackToSimulateWorkerCapacity => lit "pack_to_simulate_worker_capacity"
  | SimulateWorkerToPackCapacity => lit "simulate_worker_to_pack_capacity"
  end.

(** The texts of the errors of other crates. *)
Class ErrorTexts := {
  io_text : str;
  rts_alloc_text : str;
  rts_alloc_debug : str;
  shaq_text : str;
  shaq_debug : str
}.

Section Texts.
  Context `{ErrorTexts}.

Definition AgaveHandshakeError_to_string (self : AgaveHandshakeError) : str :=
  match self with
  | Io => lit "Io; err=" ++ io_text
  | Timeout => lit "Timeout"
  | EofDuringHandshake => lit "Close during handshake"
  | Version server client =>
      lit "Version; server=(" ++ ProtocolVersions_fmt server ++
      lit "); client=(" ++ ProtocolVersions_fmt client ++ lit ")"
  | WorkerCount count => lit "Worker count; count=" ++ display count
  | CheckWorkerCount count => lit "Check worker count; count=" ++ display count
  | SimulateWorkerCount count => lit "Simulate worker count; count=" ++ display count
  | AllocatorHandles count => lit "Allocator handles; count=" ++ display count
  | AllocatorSize size => lit "Allocator size cannot be represented; size=" ++ display size
  | QueueCapacity field capacity =>
      lit "Queue capacity cannot be represented; field=" ++ QueueField_str field ++
      lit ", capacity=" ++ display capacity
  | RtsAlloc => lit "Rts alloc; err=" ++ rts_alloc_debug
  | ShaqError => lit "Shaq; err=" ++ shaq_debug
  end.

Definition ClientHandshakeError_to_string (self : ClientHandshakeError) : str :=
  match self with
  | ClientIo => lit "Io; err=" ++ io_text
  | TimedOut => lit "Timed out"
  | ProtocolViolation => lit "Protocol violation"
  | Rejected reason => lit "Rejected; reason=" ++ reason
  | ClientRtsAlloc => lit "Rts alloc; err=" ++ rts_alloc_text
  | ClientShaq => lit "Shaq; err=" ++ shaq_text
  end.

Definition SessionSetupError_to_string (self : SessionSetupError) : str :=
  match self with
  | SetupServer e => lit "Server session setup failed: " ++ AgaveHandshakeError_to_string e
  | SetupClient e => lit "Client session setup failed: " ++ ClientHandshakeError_to_string e
  end.

(** ** Decimal numbers *)

Lemma display_inj n m : in_width U64 n -> in_width U64 m -> display n = display m -> n = m.
Proof.
  intros Hn Hm E. apply (f_equal parse_u64) in E.
  rewrite !parse_u64_display in E by done. congruence.
Qed.

Lemma decimal_value_lower s acc :
  Forall (fun c => 0x30 <= c <= 0x39) s -> 0 <= acc -> acc * 10 ^ len s <= decimal_value s acc.
Proof.
  intros Hs. revert acc. induction Hs as [|c s Hc _ IH]; intros acc Ha.
  - unfold decimal_value, len. cbn. lia.
  - change (decimal_value (c :: s) acc) with (decimal_value s (10 * acc + (c - 0x30))).
    specialize (IH (10 * acc + (c - 0x30)) ltac:(lia)).
    replace (len (c :: s)) with (Z.succ (len s)) by (unfold len; cbn [length]; lia).
    rewrite Z.pow_succ_r by (unfold len; lia).
    assert (0 < 10 ^ len s) by (apply Z.pow_pos_nonneg; unfold len; lia). nia.
Qed.

(** The numerals have no leading zeros. *)
Lemma display_cases n :
  0 < n -> exists c s, display n = c :: s /\ 0x31 <= c <= 0x39 /\
    Forall (fun c => 0x30 <= c <= 0x39) s /\ decimal_value (c :: s) 0 = n.
Proof.
  intros Hn. unfold display. set (u := N.to_uint (Z.to_N n)).
  assert (Hu : N.of_uint u = Z.to_N n) by apply DecimalN.Unsigned.of_to.
  assert (Hnorm : Decimal.unorm u = u).
  { unfold u. rewrite <- DecimalN.Unsigned.to_of. by rewrite DecimalN.Unsigned.of_to. }
  assert (Hv : decimal_value (digits u) 0 = n) by (rewrite decimal_value_digits, Hu; lia).
  assert (Hnz : u <> Decimal.Nil /\ forall d, u <> Decimal.D0 d).
  { split; [intros E; rewrite E in Hv; cbn in Hv; lia|]. intros d E. rewrite E in Hnorm, Hv.
    cbn in Hnorm. unfold Decimal.unorm in Hnorm. cbn [Decimal.nzhead] in Hnorm.
    destruct (Decimal.nzhead d) as [|d'| | | | | | | | |] eqn:Ed; try done.
    - injection Hnorm as <-. cbn in Hv. lia.
    - by destruct (nzhead_nonzero d d'). }
  pose proof (digits_ascii u) as Ha. clearbody u. clear Hnorm Hu.
  destruct u; try (by destruct Hnz as [? Hz]); try (by destruct Hnz as [_ Hz]; destruct (Hz u)).
  all: eexists _, _; split; [cbn [NilZero.string_of_uint]; rewrite lit_digits; reflexivity|];
    split; [lia|]; split; [|exact Hv]; cbn [digits] in Ha; by inversion Ha.
Qed.

Lemma len_display n k : 0 < k -> 0 <= n < 10 ^ k -> len (display n) <= k.
Proof.
  intros Hk [Hn Hlt]. destruct (Z.eqb_spec n 0) as [->|Hne]; [change (1 <= k); lia|].
  destruct (display_cases n ltac:(lia)) as (c & s & -> & Hc & Hs & Hv).
  change (decimal_value s (10 * 0 + (c - 0x30)) = n) in Hv.
  pose proof (decimal_value_lower s (10 * 0 + (c - 0x30)) Hs ltac:(lia)) as Hl.
  assert (0 < 10 ^ len s) by (apply Z.pow_pos_nonneg; unfold len; lia).
  assert (Hp : 10 ^ len s < 10 ^ k).
  { apply Z.le_lt_trans with n; [|done]. rewrite <- Hv. etransitivity; [|exact Hl].
    rewrite <- (Z.mul_1_l (10 ^ len s)) at 1. apply Z.mul_le_mono_nonneg_r; lia. }
  apply Z.pow_lt_mono_r_iff in Hp; [|lia..].
  unfold len in *. cbn [length]. lia.
Qed.

(** ** What a rejection tells *)

(** Errors of the handshake itself, not of the operating system, the allocator or the
    queues; the numbers in them have their width. *)
Definition telling (e : AgaveHandshakeError) : Prop :=
  match e with
  | Io | RtsAlloc | ShaqError => False
  | Timeout | EofDuringHandshake => True
  | Version server client => wf_versions server /\ wf_versions client
  | WorkerCount n | CheckWorkerCount n | SimulateWorkerCount n | AllocatorHandles n
  | AllocatorSize n | QueueCapacity _ n => in_width USIZE n
  end.

(** The decimal digits in the versions of a mismatch; a version has up to 20. *)
Definition version_digits (e : AgaveHandshakeError) : Z :=
  match e with
  | Version server client =>
      len (flat_map display (ProtocolVersions_words server ++ ProtocolVersions_words client))
  | _ => 0
  end.

Definition ascii (s : str) : Prop := Forall (fun c => 0 <= c < 0x80) s.

Lemma as_bytes_ascii s : ascii s -> as_bytes s = s.
Proof.
  induction 1 as [|c s Hc _ IH]; [done|]. unfold as_bytes in *. cbn [flat_map]. rewrite IH.
  unfold encode_utf8. by rewrite (proj2 (Z.ltb_lt c 0x80)) by lia.
Qed.

Lemma valid_ascii s : ascii s -> valid_str s.
Proof.
  apply Forall_impl. intros c Hc. unfold is_scalar_value.
  rewrite (proj2 (Z.leb_le 0 c)), (proj2 (Z.ltb_lt c 0xD800)) by lia. done.
Qed.

(** An ASCII text of at most [k] bytes. *)
Definition short (k : Z) (s : str) : Prop := ascii s /\ len s <= k.

Lemma short_app j k a b : short j a -> short k b -> short (j + k) (a ++ b).
Proof. intros [Ha ?] [Hb ?]. split; [by apply Forall_app|]. autorewrite with len. lia. Qed.

Lemma short_display k n : 0 < k -> 0 <= n < 10 ^ k -> short k (display n).
Proof.
  intros Hk Hn. split; [|by apply len_display].
  refine (List.Forall_impl _ _ (display_ascii n ltac:(lia))). cbn. lia.
Qed.

Definition shortb (k : Z) (s : str) : bool :=
  forallb (fun c => (0 <=? c) && (c <? 0x80)) s && (len s <=? k).

Lemma short_lit k s : shortb k s = true -> short k s.
Proof.
  unfold shortb. rewrite andb_true_iff, forallb_forall. intros [Ha Hl%Z.leb_le]. split; [|done].
  apply List.Forall_forall. intros c Hc%Ha. lia.
Qed.

Lemma short_weaken j k s : short j s -> j <= k -> short k s.
Proof. intros [? ?] ?. split; [done|lia]. Qed.

Lemma short_usize n : in_width USIZE n -> short 20 (display n).
Proof. intros [? ?]. apply short_display; [done|]. uints. lia. Qed.

Lemma ascii_lit s : forallb (fun c => (0 <=? c) && (c <? 0x80)) s = true -> ascii s.
Proof.
  rewrite forallb_forall. intros Ha. apply List.Forall_forall. intros c Hc%Ha. lia.
Qed.

Lemma ascii_display n : in_width U64 n -> ascii (display n).
Proof.
  intros [Hn _]. refine (List.Forall_impl _ _ (display_ascii n Hn)). cbn. lia.
Qed.

Lemma ascii_versions v : wf_versions v -> ascii (ProtocolVersions_fmt v).
Proof.
  unfold wf_versions, ProtocolVersions_words. rewrite !List.Forall_cons_iff.
  intros (H1 & H2 & H3 & H4 & _). unfold ProtocolVersions_fmt.
  repeat (apply Forall_app; split); (by apply ascii_display) || by apply ascii_lit.
Qed.

Lemma len_versions v :
  len (ProtocolVersions_fmt v) = 50 + len (flat_map display (ProtocolVersions_words v)).
Proof.
  unfold ProtocolVersions_fmt, ProtocolVersions_words. cbn [flat_map]. rewrite app_nil_r, !len_app.
  change (len (lit "handshake=")) with 10. change (len (lit ", scheduler-bindings=")) with 21.
  change (len (lit ", shaq=")) with 7. change (len (lit ", rts-alloc=")) with 12. lia.
Qed.

Lemma short_field f : short 32 (QueueField_str f).
Proof. apply short_lit. by destruct f. Qed.

(** The texts of all errors but a mismatch of versions are short. *)
Definition is_mismatch (e : AgaveHandshakeError) : Prop :=
  match e with Version _ _ => True | _ => False end.

Lemma short_text e : telling e -> ~ is_mismatch e -> short 254 (AgaveHandshakeError_to_string e).
Proof.
  assert (Hcount : forall l n, shortb 43 l = true -> in_width USIZE n -> short 254 (l ++ display n)).
  { intros l n Hl Hn. eapply short_weaken; [apply short_app; [by apply short_lit|by apply short_usize]|lia]. }
  destruct e; cbn [telling is_mismatch AgaveHandshakeError_to_string]; try done; intros Hn Hm;
    try (by apply short_lit); try (by apply Hcount); try (by destruct Hm).
  eapply short_weaken.
  - apply (short_app 44); [by apply short_lit|]. apply short_app; [apply short_field|].
    apply (short_app 11); [by apply short_lit|by apply short_usize].
  - lia.
Qed.

Lemma ascii_text e : telling e -> ascii (AgaveHandshakeError_to_string e).
Proof.
  intros He. destruct e as [| | |server client| | | | | | | |];
    try (by apply (short_text _ He); intros []).
  destruct He as [Hs Hc]. cbn [AgaveHandshakeError_to_string].
  repeat first [by apply ascii_versions | by apply ascii_lit | apply Forall_app; split].
Qed.

(** The text fits the rejection unless the versions have more than 126 digits together. *)
Lemma text_fits e :
  telling e -> len (AgaveHandshakeError_to_string e) <= 255 <-> version_digits e <= 126.
Proof.
  intros He. assert (~ is_mismatch e -> version_digits e = 0) as Hd by (destruct e; done || by intros []).
  destruct e as [| | |server client| | | | | | | |];
    try (rewrite Hd by (intros []); split; [done|]; intros _;
         destruct (short_text _ He ltac:(intros [])) as [_ ?]; lia).
  cbn [AgaveHandshakeError_to_string version_digits]. rewrite flat_map_app, !len_app, !len_versions.
  change (len (lit "Version; server=(")) with 17. change (len (lit "); client=(")) with 11.
  change (len (lit ")")) with 1. split; lia.
Qed.

(** Numbers end where the digits do. *)
Lemma digits_stop (a b : str) c c' r r' :
  Forall (fun c => 0x30 <= c <= 0x39) a -> Forall (fun c => 0x30 <= c <= 0x39) b ->
  c < 0x30 -> c' < 0x30 -> a ++ c :: r = b ++ c' :: r' -> a = b /\ c :: r = c' :: r'.
Proof.
  intros Ha Hb Hc Hc'. revert b Hb. induction Ha as [|x a Hx _ IH]; intros b Hb E;
    destruct Hb as [|y b Hy Hb]; cbn in E; try (injection E; lia); [done|].
  injection E as -> E. destruct (IH b Hb E) as [-> ?]. done.
Qed.

Lemma display_stop n m c c' r r' :
  in_width U64 n -> in_width U64 m -> c < 0x30 -> c' < 0x30 ->
  display n ++ c :: r = display m ++ c' :: r' -> n = m /\ c :: r = c' :: r'.
Proof.
  intros Hn Hm Hc Hc' E.
  destruct (digits_stop (display n) (display m) c c' r r') as [Ed ?]; try done;
    [apply display_ascii; by destruct Hn|apply display_ascii; by destruct Hm|].
  split; [by apply display_inj|done].
Qed.

Lemma versions_stop v v' r r' :
  wf_versions v -> wf_versions v' ->
  ProtocolVersions_fmt v ++ lit ")" ++ r = ProtocolVersions_fmt v' ++ lit ")" ++ r' -> v = v' /\ r = r'.
Proof.
  unfold wf_versions, ProtocolVersions_words. rewrite !List.Forall_cons_iff.
  intros (A1 & A2 & A3 & A4 & _) (B1 & B2 & B3 & B4 & _) E.
  unfold ProtocolVersions_fmt in E. rewrite <- !app_assoc in E.
  apply app_inv_head in E. apply display_stop in E as [E1 E]; [|done..].
  apply (app_inv_head (lit ", scheduler-bindings=")) in E.
  apply display_stop in E as [E2 E]; [|done..]. apply (app_inv_head (lit ", shaq=")) in E.
  apply display_stop in E as [E3 E]; [|done..]. apply (app_inv_head (lit ", rts-alloc=")) in E.
  apply display_stop in E as [E4 E]; [|done..]. apply (app_inv_head (lit ")")) in E.
  split; [|done]. destruct v, v'; cbn in *. congruence.
Qed.

(** Different errors have different texts. *)
Lemma text_inj e e' :
  telling e -> telling e' ->
  AgaveHandshakeError_to_string e = AgaveHandshakeError_to_string e' -> e = e'.
Proof.
  intros He He'. destruct e, e'; cbn [telling] in He, He'; try done;
    cbn [AgaveHandshakeError_to_string]; intros E; try discriminate E.
  - apply app_inv_head in E.
    destruct He as [Hs Hc], He' as [Hs' Hc'].
    apply (versions_stop server server0 (lit "; client=(" ++ ProtocolVersions_fmt client ++ lit ")")
             (lit "; client=(" ++ ProtocolVersions_fmt client0 ++ lit ")")) in E as [-> E]; [|done..].
    apply app_inv_head, (versions_stop client client0 [] []) in E as [-> _]; done.
  - f_equal. by apply app_inv_head, display_inj in E.
  - f_equal. by apply app_inv_head, display_inj in E.
  - f_equal. by apply app_inv_head, display_inj in E.
  - f_equal. by apply app_inv_head, display_inj in E.
  - f_equal. by apply app_inv_head, display_inj in E.
  - apply app_inv_head in E. destruct field, field0; try discriminate E;
      f_equal; by apply app_inv_head, app_inv_head, display_inj in E.
Qed.

(** No text of a mismatch is the beginning of another. *)
Lemma mismatch_prefix s c s' c' extra :
  telling (Version s c) -> telling (Version s' c') ->
  AgaveHandshakeError_to_string (Version s' c') =
    AgaveHandshakeError_to_string (Version s c) ++ extra -> s' = s /\ c' = c.
Proof.
  intros [Hs Hc] [Hs' Hc']. cbn [AgaveHandshakeError_to_string]. rewrite <- !app_assoc.
  intros E%app_inv_head.
  apply (versions_stop s' s (lit "; client=(" ++ ProtocolVersions_fmt c' ++ lit ")")
           (lit "; client=(" ++ ProtocolVersions_fmt c ++ lit ")" ++ extra)) in E as [-> E]; [|done..].
  apply app_inv_head, (versions_stop c' c [] extra) in E as [-> _]; done.
Qed.

(** An error whose text fits is told by what fits of the texts. *)
Lemma told_apart e e' :
  telling e -> telling e' -> len (AgaveHandshakeError_to_string e) <= 255 ->
  take 255 (AgaveHandshakeError_to_string e') = AgaveHandshakeError_to_string e -> e' = e.
Proof.
  intros He He' Hl Heq.
  destruct (Z.le_gt_cases (len (AgaveHandshakeError_to_string e')) 255) as [Hl'|Hl'].
  { rewrite take_ge in Heq by (unfold len in *; lia). by apply text_inj. }
  assert (Hlen : len (AgaveHandshakeError_to_string e) = 255)
    by (rewrite <- Heq; unfold len in *; rewrite length_take; lia).
  destruct e as [| | |s c| | | | | | | |];
    try (destruct (short_text _ He ltac:(intros [])) as [_ ?]; lia).
  destruct e' as [| | |s' c'| | | | | | | |];
    try (destruct (short_text _ He' ltac:(intros [])) as [_ ?]; lia).
  destruct (mismatch_prefix s c s' c' (drop 255 (AgaveHandshakeError_to_string (Version s' c'))))
    as [-> ->]; [done|done| |done].
  by rewrite <- Heq, take_drop.
Qed.

Context `{QueueSizes} `{SharedMemory} `{Target}.

(** ** The public entry points *)

(** [connect]: the logon message if it is sent whole, and the result; [connected] is the success of connecting
    and of setting the time-outs, [sent] that of the write of the logon message. *)
Definition connect (current : ProtocolVersions) (logon : ClientLogon) (connected sent : bool)
    (received : Received File) : list byte * Outcome ClientHandshakeError ClientSession :=
  if connected then
    if sent then (send_logon logon current, connect_path logon (recvmsg received))
    else ([], Err ClientIo)
  else ([], Err ClientIo).

(** [Server::accept]; [accepted] is the success of accepting a stream and of setting its
    time-out. *)
Definition Server_accept (current : ProtocolVersions) (accepted : bool) (reads : list Read)
    (sent : bool) (written : option nat) (t : nat) :
    Outcome AgaveHandshakeError AgaveSession * Received File :=
  if accepted then accept AgaveHandshakeError_to_string current reads sent written t
  else (Err Io, None).

(** C30: A client that is turned away learns why.  When the server fails with an error
    of the handshake itself (not one of the operating system, the allocator or the
    queues), and the socket takes the whole rejection (of at most 257 bytes), the client
    reports the first 255 bytes of the text of the error.  That is the whole text, and no
    other such error is reported with it, unless the eight versions of a mismatch have
    more than 126 digits together. *)
Theorem rejection_tells_the_error versions current logon reads sent n t e :
  (handle_logon current reads sent t).1 = Err e -> telling e -> (257 <= n)%nat ->
  let text := AgaveHandshakeError_to_string e in
  exists message,
    Server_accept current true reads sent (Some n) t = (Err e, message) /\
    (connect versions logon true true message).2 = Err (Rejected (take 255 text)) /\
    (take 255 text = text <-> version_digits e <= 126) /\
    (version_digits e <= 126 -> forall e', telling e' ->
       take 255 (AgaveHandshakeError_to_string e') = take 255 text -> e' = e).
Proof.
  intros He Htell Hn text. pose proof (ascii_text e Htell) as Ha. fold text in Ha.
  pose proof (text_fits e Htell) as Hfits. fold text in Hfits.
  assert (take 255 text = text <-> len text <= 255) as Htake.
  { split; [|intros; apply take_ge; unfold len in *; lia]. intros <-.
    unfold len. rewrite length_take. lia. }
  pose proof (valid_ascii _ Ha) as Hv. pose proof (len_rejection _ Hv) as Hr.
  unfold Server_accept, accept. rewrite He. eexists. split; [done|]. split; [|split].
  - unfold text in *. rewrite take_ge by (unfold len in Hr; lia). unfold connect, connect_path.
    cbn [recvmsg snd]. rewrite recv_rejection by done. cbn [obind].
    pose proof (from_utf8_lossy_as_bytes (take 255 (AgaveHandshakeError_to_string e))) as Hlossy.
    rewrite as_bytes_ascii in Hlossy by by apply Forall_take.
    rewrite (as_bytes_ascii _ Ha). do 2 f_equal. apply Hlossy. by apply Forall_take.
  - by rewrite Htake.
  - intros Hd%Hfits e' He' Heq. rewrite (proj2 Htake Hd) in Heq. by apply told_apart.
Qed.
End Texts.

(** ** Samples *)

#[local] Instance sample_texts : ErrorTexts :=
  {| io_text := []; rts_alloc_text := []; rts_alloc_debug := []; shaq_text := []; shaq_debug := [] |}.

#[local] Instance sample_memory : SharedMemory :=
  {| create_succeeds _ _ _ _ := true; join_existing_succeeds _ := true; join_succeeds _ := true |}.

#[local] Instance sample_target : Target := LittleEndian.

(** A client of another build. *)
Definition other_versions : ProtocolVersions :=
  {| pv_handshake := pv_handshake sample_versions + 1;
     pv_scheduler_bindings := pv_scheduler_bindings sample_versions;
     pv_shaq := pv_shaq sample_versions;
     pv_rts_alloc := pv_rts_alloc sample_versions |}.

Lemma rejection_tells_the_error_witness :
  exists message,
    Server_accept sample_versions true
      [ReadBytes (connect other_versions sample_logon true true None).1 false] true
      (Some 300%nat) 0 =
      (Err (Version sample_versions other_versions), message) /\
    (connect other_versions sample_logon true true message).2 =
      Err (Rejected (AgaveHandshakeError_to_string (Version sample_versions other_versions))).
Proof.
  destruct (rejection_tells_the_error other_versions sample_versions sample_logon
    [ReadBytes (connect other_versions sample_logon true true None).1 false] true 300 0
    (Version sample_versions other_versions)) as (message & Ha & Hc & Hw & _).
  - vm_compute. reflexivity.
  - split; repeat constructor; vm_compute; first [discriminate|reflexivity].
  - lia.
  - exists message. split; [exact Ha|]. rewrite Hc, (proj2 Hw); [reflexivity|vm_compute; discriminate].
Defined.

(** The versions of this client are too long for their mismatch to be reported whole. *)
Example long_versions_are_cut :
  let v := {| pv_handshake := 2 ^ 64 - 1; pv_scheduler_bindings := 2 ^ 64 - 1;
              pv_shaq := 2 ^ 64 - 1; pv_rts_alloc := 2 ^ 64 - 1 |} in
  version_digits (Version v v) = 160.
Proof. by vm_compute. Qed.

Example current_versions :
  ProtocolVersions_current (E := unit) (lit "4") (lit "3") 2 7 =
    Ok {| pv_handshake := 4; pv_scheduler_bindings := 3; pv_shaq := 2; pv_rts_alloc := 7 |}.
Proof. reflexivity. Qed.
