(* ===== verification/HandshakeServer.v ===== *)
(** * The server over many connections (scheduler-handshake/src/server.rs)

    [Server] keeps one buffer for all of its connections, and gives each client a
    limited time to send its logon message.  This file follows the buffer and the
    time through [accept], and shows that neither lets one client affect another. *)

From Stdlib Require Import ZArith Lia Strings.Byte Strings.String.
From stdpp Require Import base list numbers.
From S2P Require Import Prelude RustStr HandshakeShared HandshakeWire HandshakeSession HandshakeText.
Local Open Scope Z_scope.
Local Open Scope rust_scope.

(** ** State *)

(** In nanoseconds. *)
Definition HANDSHAKE_TIMEOUT : Z := 1000000000.

Record Server := { sv_buffer : list byte }.

(** [Server::new], when the socket can be bound. *)
Definition Server_new (bound : bool) : option Server :=
  if bound then Some {| sv_buffer := replicate (Z.to_nat BUFFER_LEN) x00 |} else None.

Definition wf_server (server : Server) : Prop := len (sv_buffer server) = BUFFER_LEN.

(** A call of [read] on the stream: the bytes that are there for it, or an error, and
    how long it takes. *)
Inductive SocketRead := SocketBytes (available : list byte) | SocketError.

(** A connection: the results of accepting it and of setting its time-out, of the
    reads, of sending the files, and of writing a rejection. *)
Record Connection := {
  cn_accepted : bool;
  cn_reads : list (SocketRead * Z);
  cn_sent : bool;
  cn_written : option nat
}.

(** ** Operations *)

Section Operations.
  Context `{ErrorTexts} `{QueueSizes} `{SharedMemory} `{Target}.

(** The loop that fills the buffer; with its time.  A client that has nothing more to
    say makes [read] fail after the time-out of the stream. *)
Fixpoint recv_loop (reads : list (SocketRead * Z)) (elapsed : Z) (buffer : list byte)
    (buffer_len : Z) : Outcome AgaveHandshakeError unit * list byte * Z :=
  if buffer_len <? len buffer then
    match reads with
    | (SocketBytes available, duration) :: reads =>
        let elapsed := elapsed + duration in
        let bytes := take (Z.to_nat (len buffer - buffer_len)) available in
        let read := len bytes in
        let buffer := write_at buffer buffer_len bytes in
        if read =? 0 then (Err EofDuringHandshake, buffer, elapsed)
        else
          match checked_add USIZE buffer_len read with
          | None => (Panic, buffer, elapsed)
          | Some buffer_len =>
              if HANDSHAKE_TIMEOUT <? elapsed then (Err Timeout, buffer, elapsed)
              else recv_loop reads elapsed buffer buffer_len
          end
    | (SocketError, duration) :: _ => (Err Io, buffer, elapsed + duration)
    | [] => (Err Io, buffer, elapsed + HANDSHAKE_TIMEOUT)
    end
  else (Ok tt, buffer, elapsed).

Definition Server_recv_logon (server_versions : ProtocolVersions) (server : Server)
    (reads : list (SocketRead * Z)) : Outcome AgaveHandshakeError ClientLogon * Server * Z :=
  match recv_loop reads 0 (sv_buffer server) 0 with
  | (filled, buffer, elapsed) =>
      (let? _ := filled in
       let? versions_bytes := index_range buffer 0 ProtocolVersions_SERIALIZED_SIZE in
       match ProtocolVersions_try_from_bytes versions_bytes with
       | None => Panic
       | Some client_versions =>
           let? _ := err_if (negb (bool_decide (client_versions = server_versions)))
                       (Version server_versions client_versions) in
           let? logon_bytes := index_range buffer ProtocolVersions_SERIALIZED_SIZE LOGON_END in
           match ClientLogon_try_from_bytes logon_bytes with
           | None => Panic
           | Some logon => Ok logon
           end
       end, {| sv_buffer := buffer |}, elapsed)
  end.

(** The attempts to create files are counted over all connections. *)
Definition Server_handle_logon (current : ProtocolVersions) (server : Server) (conn : Connection)
    (t : nat) : Outcome AgaveHandshakeError (AgaveSession * list File) * Server * nat :=
  match Server_recv_logon current server (cn_reads conn) with
  | (Ok logon, server, _) =>
      match server_setup_session logon t with
      | (Ok setup, t) => (if cn_sent conn then Ok setup else Err Io, server, t)
      | (failure, t) => (failure, server, t)
      end
  | (Err e, server, _) => (Err e, server, t)
  | (Panic, server, _) => (Panic, server, t)
  | (UB, server, _) => (UB, server, t)
  | (Diverge, server, _) => (Diverge, server, t)
  end.

(** [self.buffer[from..to].copy_from_slice(src)]: panics on a range that is not in the
    buffer or not of the length of [src]. *)
Definition copy_from_slice {E} (buffer : list byte) (from to : Z) (src : list byte) :
    Outcome E (list byte) :=
  let? slice := index_range buffer from to in
  if len slice =? len src then Ok (write_at buffer from src) else Panic.

(** The part of [accept] that writes a rejection into the buffer: the new buffer, and
    the bytes that are passed to [write]. *)
Definition write_rejection {E} (buffer : list byte) (reason : str) :
    Outcome E (list byte * list byte) :=
  let bytes := map byte_of_Z (as_bytes reason) in
  let reason_len := match try_from U8 (len bytes) with Some n => n | None => umax U8 end in
  match checked_add USIZE 2 reason_len with
  | None => Panic
  | Some buffer_len =>
      let? buffer := index_set buffer 0 LOGON_FAILURE in
      let? buffer := index_set buffer 1 (byte_of_Z reason_len) in
      let? reason_bytes := index_range bytes 0 reason_len in
      let? buffer := copy_from_slice buffer 2 buffer_len reason_bytes in
      let? written := index_range buffer 0 buffer_len in
      Ok (buffer, written)
  end.

(** [Server::accept]: the session, what is written to the stream, and the server after it. *)
Definition accept_connection (current : ProtocolVersions) (server : Server) (conn : Connection)
    (t : nat) : Outcome AgaveHandshakeError AgaveSession * Received File * Server * nat :=
  if cn_accepted conn then
    match Server_handle_logon current server conn t with
    | (Ok (session, files), server, t) =>
        (Ok session, Some ([LOGON_SUCCESS], ScmRights files), server, t)
    | (Err err, server, t) =>
        match write_rejection (sv_buffer server) (AgaveHandshakeError_to_string err) with
        | Ok (buffer, bytes) =>
            let server := {| sv_buffer := buffer |} in
            match cn_written conn with
            | Some n => (Err err, Some (take n bytes, NoControl), server, t)
            | None => (Err Io, None, server, t)
            end
        | Err err => (Err err, None, server, t)
        | Panic => (Panic, None, server, t)
        | UB => (UB, None, server, t)
        | Diverge => (Diverge, None, server, t)
        end
    | (Panic, server, t) => (Panic, None, server, t)
    | (UB, server, t) => (UB, None, server, t)
    | (Diverge, server, t) => (Diverge, None, server, t)
    end
  else (Err Io, None, server, t).

(** A server that accepts one connection after the other. *)
Fixpoint serve (current : ProtocolVersions) (conns : list Connection) (server : Server) (t : nat) :
    list (Outcome AgaveHandshakeError AgaveSession * Received File) :=
  match conns with
  | [] => []
  | conn :: conns =>
      match accept_connection current server conn t with
      | (session, message, server, t) => (session, message) :: serve current conns server t
      end
  end.

(** ** Specification: a server without a buffer or a clock *)

(** The reads as the specification sees them: with whether the time is up. *)
Fixpoint observe (elapsed : Z) (reads : list (SocketRead * Z)) : list Read :=
  match reads with
  | [] => []
  | (SocketBytes available, duration) :: reads =>
      ReadBytes available (HANDSHAKE_TIMEOUT <? elapsed + duration) ::
      observe (elapsed + duration) reads
  | (SocketError, duration) :: reads => ReadError :: observe (elapsed + duration) reads
  end.

Fixpoint serve_spec (current : ProtocolVersions) (conns : list Connection) (t : nat) :
    list (Outcome AgaveHandshakeError AgaveSession * Received File) :=
  match conns with
  | [] => []
  | conn :: conns =>
      let reads := observe 0 (cn_reads conn) in
      Server_accept current (cn_accepted conn) reads (cn_sent conn) (cn_written conn) t ::
      serve_spec current conns
        (if cn_accepted conn then (handle_logon current reads (cn_sent conn) t).2 else t)
  end.

(** ** Refinement *)

Lemma len_write_at buf off bytes :
  0 <= off -> off + len bytes <= len buf -> len (write_at buf off bytes) = len buf.
Proof.
  intros Ho Hl. unfold write_at, len in *. rewrite !length_app, length_take, length_drop. lia.
Qed.

Lemma take_write_at buf off bytes :
  0 <= off -> off + len bytes <= len buf ->
  take (Z.to_nat (off + len bytes)) (write_at buf off bytes) = take (Z.to_nat off) buf ++ bytes.
Proof.
  intros Ho Hl. unfold write_at, len in *. rewrite app_assoc. apply take_app_length'.
  rewrite length_app, length_take. lia.
Qed.

(** The loop keeps what it has read in the first part of the buffer. *)
Lemma recv_loop_refines reads elapsed buffer n :
  len buffer = BUFFER_LEN -> 0 <= n <= BUFFER_LEN ->
  match recv_loop reads elapsed buffer n with
  | (result, buffer', _) =>
      len buffer' = BUFFER_LEN /\
      read_loop (observe elapsed reads) (take (Z.to_nat n) buffer) =
        (let? _ := result in Ok buffer')
  end.
Proof.
  revert elapsed buffer n. induction reads as [|[[available|] d] reads IH]; intros elapsed buffer n Hb Hn;
    cbn [recv_loop observe read_loop];
    assert (Ht : len (take (Z.to_nat n) buffer) = n) by (unfold len in *; rewrite length_take; lia);
    rewrite Ht, Hb.
  - destruct (Z.ltb_spec n BUFFER_LEN); destruct (Z.leb_spec BUFFER_LEN n); try lia; [done|].
    split; [done|]. cbn [obind]. by rewrite take_ge by (unfold len in *; lia).
  - destruct (Z.ltb_spec n BUFFER_LEN); destruct (Z.leb_spec BUFFER_LEN n); try lia;
      [|split; [done|]; cbn [obind]; by rewrite take_ge by (unfold len in *; lia)].
    set (bytes := take _ available).
    assert (Hle : n + len bytes <= BUFFER_LEN).
    { unfold bytes, len. rewrite length_take. lia. }
    pose proof (len_nonneg bytes) as Hpos.
    pose proof (len_write_at buffer n bytes ltac:(lia) ltac:(lia)) as Hw.
    destruct (Z.eqb_spec (len bytes) 0); [split; [congruence|done]|].
    rewrite (proj2 (checked_add_Some USIZE n (len bytes) (n + len bytes)))
      by (split; [done|]; unfold BUFFER_LEN in *; uints; lia).
    destruct (HANDSHAKE_TIMEOUT <? elapsed + d); [split; [congruence|done]|].
    rewrite <- (take_write_at buffer n bytes) by lia. apply IH; [congruence|lia].
  - destruct (Z.ltb_spec n BUFFER_LEN); destruct (Z.leb_spec BUFFER_LEN n); try lia; [done|].
    split; [done|]. cbn [obind]. by rewrite take_ge by (unfold len in *; lia).
Qed.

Lemma Server_recv_logon_refines current server reads :
  wf_server server ->
  match Server_recv_logon current server reads with
  | (result, server', _) => wf_server server' /\ recv_logon current (observe 0 reads) = result
  end.
Proof.
  intros Hw. unfold Server_recv_logon, recv_logon.
  pose proof (recv_loop_refines reads 0 (sv_buffer server) 0 Hw ltac:(done)) as Hl.
  destruct (recv_loop reads 0 (sv_buffer server) 0) as [[result buffer] elapsed].
  destruct Hl as [Hlen Hl]. change (take (Z.to_nat 0) (sv_buffer server)) with (@nil byte) in Hl.
  rewrite Hl. split; [done|]. by destruct result.
Qed.

Lemma Server_handle_logon_refines current server conn t :
  wf_server server ->
  match Server_handle_logon current server conn t with
  | (result, server', t') =>
      wf_server server' /\
      handle_logon current (observe 0 (cn_reads conn)) (cn_sent conn) t = (result, t')
  end.
Proof.
  intros Hw. unfold Server_handle_logon, handle_logon, srv_bind, srv_lift.
  pose proof (Server_recv_logon_refines current server (cn_reads conn) Hw) as Hr.
  destruct (Server_recv_logon current server (cn_reads conn)) as [[result server'] elapsed].
  destruct Hr as [Hw' ->]. destruct result as [logon|e| | |]; try done.
  destruct (server_setup_session logon t) as [[setup|e| | |] t']; try done.
  by destruct (cn_sent conn).
Qed.

Lemma index_range_take {E A} (l : list A) n :
  0 <= n <= len l -> index_range (E := E) l 0 n = Ok (take (Z.to_nat n) l).
Proof.
  intros Hn. unfold index_range, subslice.
  rewrite (proj2 (Z.leb_le 0 n)), (proj2 (Z.leb_le n (len l))) by lia.
  cbn [andb]. by replace (n - 0) with n by lia.
Qed.

Lemma copy_from_slice_Ok {E} buffer from src :
  0 <= from -> from + len src <= len buffer ->
  copy_from_slice (E := E) buffer from (from + len src) src = Ok (write_at buffer from src).
Proof.
  intros Hf Hl. pose proof (len_nonneg src). unfold copy_from_slice, index_range.
  rewrite (proj2 (Z.leb_le from _)), (proj2 (Z.leb_le (from + len src) _)) by lia.
  cbn [andb obind]. rewrite len_subslice by lia. by rewrite (proj2 (Z.eqb_eq _ _)) by lia.
Qed.

(** The bytes of a rejection are those of the specification, whatever was in the buffer. *)
Lemma write_rejection_refines {E} buffer reason :
  len buffer = BUFFER_LEN ->
  exists buffer', write_rejection (E := E) buffer reason = Ok (buffer', rejection reason) /\
    len buffer' = BUFFER_LEN.
Proof.
  intros Hb. unfold write_rejection, rejection.
  set (bytes := map byte_of_Z (as_bytes reason)).
  set (n := match try_from U8 (len bytes) with Some n => n | None => umax U8 end).
  assert (Hn : 0 <= n <= 255 /\ n <= len bytes).
  { unfold n, try_from. pose proof (len_nonneg bytes). cbn [modulus umax].
    destruct (Z.ltb_spec (len bytes) 256); uints; lia. }
  rewrite (proj2 (checked_add_Some USIZE 2 n (2 + n))) by (split; [done|]; uints; lia).
  destruct buffer as [|b0 [|b1 rest]]; [done|done|].
  set (reason_bytes := take (Z.to_nat n) bytes).
  assert (Hr : n = len reason_bytes) by (unfold reason_bytes, len in *; rewrite length_take; lia).
  set (head := LOGON_FAILURE :: byte_of_Z n :: rest).
  assert (Hhead : take (Z.to_nat 2) head = [LOGON_FAILURE; byte_of_Z n]) by done.
  assert (Hh : len head = 1024) by (unfold head, BUFFER_LEN, len in *; cbn [length] in *; lia).
  unfold index_set. rewrite Hb. change (0 <? BUFFER_LEN) with true. cbn [obind].
  change (len (<[Z.to_nat 0 := LOGON_FAILURE]> (b0 :: b1 :: rest))) with (len (b0 :: b1 :: rest)).
  rewrite Hb. change (1 <? BUFFER_LEN) with true. cbn [obind].
  change (<[Z.to_nat 1 := _]> _) with head.
  rewrite index_range_take by lia. cbn [obind]. change (take (Z.to_nat n) bytes) with reason_bytes.
  clearbody n reason_bytes head. subst n. rewrite copy_from_slice_Ok by lia. cbn [obind].
  pose proof (len_write_at head 2 reason_bytes ltac:(lia) ltac:(lia)) as Hw.
  rewrite index_range_take by lia. cbn [obind]. eexists. split; [|by rewrite Hw].
  do 2 f_equal. rewrite take_write_at by lia. by rewrite Hhead.
Qed.

Lemma accept_connection_refines current server conn t :
  wf_server server ->
  match accept_connection current server conn t with
  | (session, message, server', t') =>
      wf_server server' /\
      Server_accept current (cn_accepted conn) (observe 0 (cn_reads conn)) (cn_sent conn)
        (cn_written conn) t = (session, message) /\
      t' = (if cn_accepted conn
            then (handle_logon current (observe 0 (cn_reads conn)) (cn_sent conn) t).2 else t)
  end.
Proof.
  intros Hw. unfold accept_connection, Server_accept, accept. destruct (cn_accepted conn); [|done].
  pose proof (Server_handle_logon_refines current server conn t Hw) as Hh.
  destruct (Server_handle_logon current server conn t) as [[result server'] t'].
  destruct Hh as [Hw' ->]. cbn [fst snd]. destruct result as [[session files]|e| | |]; try done.
  destruct (write_rejection_refines (E := AgaveHandshakeError) (sv_buffer server')
    (AgaveHandshakeError_to_string e) Hw') as (buffer & -> & Hb).
  by destruct (cn_written conn).
Qed.

Lemma serve_refines current conns server t :
  wf_server server -> serve current conns server t = serve_spec current conns t.
Proof.
  revert server t. induction conns as [|conn conns IH]; intros server t Hw; cbn; [done|].
  pose proof (accept_connection_refines current server conn t Hw) as Ha.
  destruct (accept_connection current server conn t) as [[[session message] server'] t'].
  destruct Ha as (Hw' & -> & ->). by rewrite IH.
Qed.

(** ** Time *)

(** [set_read_timeout]: a read that has not got anything by then returns. *)
Definition timely (reads : list (SocketRead * Z)) : Prop :=
  Forall (fun r => 0 <= r.2 <= HANDSHAKE_TIMEOUT) reads.

Lemma recv_loop_time reads elapsed buffer n :
  timely reads -> 0 <= elapsed <= HANDSHAKE_TIMEOUT ->
  match recv_loop reads elapsed buffer n with
  | (result, _, elapsed') =>
      elapsed <= elapsed' <= 2 * HANDSHAKE_TIMEOUT /\
      (result = Ok tt -> elapsed' <= HANDSHAKE_TIMEOUT)
  end.
Proof.
  intros Ht. revert elapsed buffer n.
  induction Ht as [|[[available|] d] reads Hd _ IH]; intros elapsed buffer n He;
    cbn [recv_loop]; destruct (n <? len buffer); unfold HANDSHAKE_TIMEOUT in *; cbn [snd] in *;
    try (split; [lia|try done; lia]).
  set (bytes := take _ available). destruct (len bytes =? 0); [split; [lia|done]|].
  destruct (checked_add USIZE n (len bytes)) as [n'|]; [|split; [lia|done]].
  destruct (Z.ltb_spec 1000000000 (elapsed + d)); [split; [lia|done]|].
  specialize (IH (elapsed + d) (write_at buffer n bytes) n' ltac:(lia)).
  destruct (recv_loop reads (elapsed + d) (write_at buffer n bytes) n') as [[result b] e'].
  split; [lia|apply IH].
Qed.

(** Each read that does not end the loop adds at least one byte. *)
Lemma recv_loop_bound reads elapsed buffer n k :
  len buffer = BUFFER_LEN -> 0 <= n <= BUFFER_LEN -> BUFFER_LEN <= n + Z.of_nat k ->
  recv_loop (take k reads) elapsed buffer n = recv_loop reads elapsed buffer n.
Proof.
  revert reads elapsed buffer n. induction k as [|k IH]; intros reads elapsed buffer n Hb Hn Hk.
  - destruct reads as [|r reads]; [done|]. cbn [take recv_loop]. rewrite Hb.
    by rewrite (proj2 (Z.ltb_ge n BUFFER_LEN)) by lia.
  - destruct reads as [|[[available|] d] reads]; [done| |done]. cbn [take recv_loop].
    rewrite Hb. destruct (Z.ltb_spec n BUFFER_LEN); [|done].
    set (bytes := take _ available).
    assert (Hle : n + len bytes <= BUFFER_LEN) by (unfold bytes, len; rewrite length_take; lia).
    pose proof (len_nonneg bytes). destruct (Z.eqb_spec (len bytes) 0); [done|].
    destruct (checked_add USIZE n (len bytes)) as [n'|] eqn:E; [|done].
    apply checked_add_Some in E as [-> _].
    destruct (HANDSHAKE_TIMEOUT <? elapsed + d); [done|].
    apply IH; [by rewrite len_write_at by lia|lia..].
Qed.

(** ** Theorems *)

(** C27: Clients do not affect each other through the server's buffer.  Whatever the
    buffer holds after earlier connections (other logon messages, rejections, parts of
    them), a sequence of connections has the sessions and the messages of a server
    without a buffer: a logon consists of bytes of its own connection only, and a
    rejection sends no bytes of another one.  The buffer keeps its size, and is there
    from the beginning. *)
Theorem connections_are_independent current conns server t :
  wf_server server ->
  serve current conns server t = serve_spec current conns t /\
  (forall conn, match accept_connection current server conn t with
                | (_, _, server', _) => wf_server server'
                end) /\
  exists server0, Server_new true = Some server0 /\ wf_server server0.
Proof.
  intros Hw. split; [by apply serve_refines|]. split; [|by eexists].
  intros conn. pose proof (accept_connection_refines current server conn t Hw) as Ha.
  destruct (accept_connection current server conn t) as [[[? ?] ?] ?]. apply Ha.
Qed.

(** C28: A client cannot hold up the server.  When each read returns by the time-out
    that is set on the stream, receiving a logon takes at most twice that time and at
    most 1024 reads, however slowly the client sends it and whether or not it goes on;
    it ends with a logon or an error; and a logon that is accepted came in time. *)
Theorem server_is_not_held_up current server reads :
  wf_server server -> timely reads ->
  match Server_recv_logon current server reads with
  | (result, server', elapsed) =>
      0 <= elapsed <= 2 * HANDSHAKE_TIMEOUT /\ returns result /\
      (forall logon, result = Ok logon -> elapsed <= HANDSHAKE_TIMEOUT) /\
      Server_recv_logon current server (take (Z.to_nat BUFFER_LEN) reads) =
        (result, server', elapsed)
  end.
Proof.
  intros Hw Ht. pose proof (Server_recv_logon_refines current server reads Hw) as Hr.
  pose proof (recv_loop_time reads 0 (sv_buffer server) 0 Ht ltac:(done)) as Htime.
  pose proof (recv_loop_bound reads 0 (sv_buffer server) 0 (Z.to_nat BUFFER_LEN) Hw
    ltac:(done) ltac:(done)) as Hbound.
  unfold Server_recv_logon in *. rewrite Hbound.
  destruct (recv_loop reads 0 (sv_buffer server) 0) as [[filled buffer] elapsed].
  destruct Hr as [_ Hr], Htime as [Htime Hok]. split; [done|].
  split; [rewrite <- Hr; apply recv_logon_returns|]. split; [|done].
  intros logon. by destruct filled as [[]| | | |]; [intros _; apply Hok|..].
Qed.
End Operations.

(** ** Samples *)

#[local] Instance sample_texts : ErrorTexts :=
  {| io_text := []; rts_alloc_text := []; rts_alloc_debug := []; shaq_text := []; shaq_debug := [] |}.

#[local] Instance sample_memory : SharedMemory :=
  {| create_succeeds _ _ _ _ := true; join_existing_succeeds _ := true; join_succeeds _ := true |}.

#[local] Instance sample_target : Target := LittleEndian.

Definition sample_server : Server := {| sv_buffer := replicate 1024 xff |}.

(** A client that sends a byte and stops, and one that logs on. *)
Definition sample_connections : list Connection :=
  [ {| cn_accepted := true; cn_reads := [(SocketBytes [x07], 5)]; cn_sent := true;
       cn_written := Some 1024%nat |};
    {| cn_accepted := true;
       cn_reads := [(SocketBytes (send_logon sample_logon sample_versions), 7)];
       cn_sent := true; cn_written := None |} ].

Lemma connections_are_independent_witness :
  serve sample_versions sample_connections sample_server 0 =
    serve_spec sample_versions sample_connections 0 /\
  map (fun r => match r.1 with Ok _ => true | _ => false end)
    (serve sample_versions sample_connections sample_server 0) = [false; true].
Proof.
  split; [|vm_compute; reflexivity].
  apply (connections_are_independent sample_versions sample_connections sample_server 0).
  reflexivity.
Defined.

(** The first of them is given up after the time-out. *)
Lemma server_is_not_held_up_witness :
  match Server_recv_logon sample_versions sample_server [(SocketBytes [x07], 5)] with
  | (result, _, elapsed) =>
      result = Err Io /\ elapsed = HANDSHAKE_TIMEOUT + 5 /\ elapsed <= 2 * HANDSHAKE_TIMEOUT
  end.
Proof.
  pose proof (server_is_not_held_up sample_versions sample_server [(SocketBytes [x07], 5)]) as H.
  destruct (Server_recv_logon _ _ _) as [[result server'] elapsed] eqn:E.
  destruct H as [H _]; [reflexivity|repeat constructor; vm_compute; discriminate|].
  vm_compute in E. injection E as <- <- <-. split; [reflexivity|]. split; [reflexivity|].
  apply H.
Defined.
