(* ===== verification/TestKit.v ===== *)
(** * The vocabulary of the unit tests

    The test modules of the crates are translated as boolean functions and evaluated
    on the model, so that the definitions agree with the program on the inputs that
    its authors chose.  A test is true if all of its assertions hold and nothing in it
    panics. *)

From Stdlib Require Import ZArith Lia Strings.Byte.
From stdpp Require Import base list numbers.
From S2P Require Import Prelude.
Local Open Scope Z_scope.

(** ** Assertions *)

#[global] Instance Outcome_eq_dec {E A} `{EqDecision E, EqDecision A} : EqDecision (Outcome E A).
Proof. solve_decision. Defined.

(** [let x = r.unwrap();]: a test fails where [unwrap] panics. *)
Definition unwrap {E A} (r : Outcome E A) (k : A -> bool) : bool :=
  match r with Ok a => k a | _ => false end.

Definition expect {A} (o : option A) (k : A -> bool) : bool :=
  match o with Some a => k a | None => false end.

Declare Scope test_scope.
Delimit Scope test_scope with test.
Notation "'let!' x ':=' r 'in' k" := (unwrap r (fun x => k))
  (at level 200, x name, k at level 200) : test_scope.
Notation "'let*' x ':=' o 'in' k" := (expect o (fun x => k))
  (at level 200, x name, k at level 200) : test_scope.
(** [assert_eq!(x, y)]. *)
Notation "x '===' y" := (bool_decide (x = y)) (at level 70) : test_scope.

Definition is_ok {E A} (r : Outcome E A) : bool := match r with Ok _ => true | _ => false end.
(** An error; not a panic. *)
Definition is_err {E A} (r : Outcome E A) : bool := match r with Err _ => true | _ => false end.
Definition is_none {A} (o : option A) : bool := match o with None => true | Some _ => false end.

(** What a test module says of the model. *)
Definition all_pass (tests : list bool) : Prop := forallb id tests = true.

(** [v[i] = b] in a test. *)
Definition set (i : Z) (b : Z) (v : list byte) : list byte := <[Z.to_nat i := byte_of_Z b]> v.
Definition bytes_of (zs : list Z) : list byte := map byte_of_Z zs.
(** [vec![b; n]]. *)
Definition filled (n : Z) (b : Z) : list byte := replicate (Z.to_nat n) (byte_of_Z b).

(** [n] numbers from [lo], and the range [lo..hi]. *)
Fixpoint count_up (n : nat) (lo : Z) : list Z :=
  match n with O => [] | S n => lo :: count_up n (lo + 1) end.
Definition range (lo hi : Z) : list Z := count_up (Z.to_nat (hi - lo)) lo.

Lemma in_count_up n lo x : In x (count_up n lo) -> lo <= x < lo + Z.of_nat n.
Proof.
  revert lo. induction n as [|n IH]; intros lo; cbn [count_up]; [done|].
  intros [<-|Hin%IH]; lia.
Qed.

Lemma in_range lo hi x : In x (range lo hi) -> lo <= x < hi.
Proof. intros H%in_count_up. lia. Qed.
