(* ===== verification/TestState.v ===== *)
(** * Tests with a state

    A test of a running system is a sequence of calls that ends early where an assertion
    fails or an [unwrap] panics. *)

From stdpp Require Import base list.
From S2P Require Import Prelude.

Definition StatefulTest (S A : Type) : Type := S -> option (A * S).

Definition ret {S A} (a : A) : StatefulTest S A := fun s => Some (a, s).
Definition bind {S A B} (m : StatefulTest S A) (k : A -> StatefulTest S B) : StatefulTest S B :=
  fun s => match m s with Some (a, s') => k a s' | None => None end.
Definition fails {S A} : StatefulTest S A := fun _ => None.

Declare Scope bench_scope.
Delimit Scope bench_scope with bench.
Notation "x <- m ;; k" := (bind m (fun x => k))
  (at level 100, m at next level, right associativity) : bench_scope.
Notation "m ;; k" := (bind m (fun _ => k))
  (at level 100, right associativity) : bench_scope.

(** [assert!(b)], and [unwrap]. *)
Definition assert {S} (b : bool) : StatefulTest S unit := if b then ret tt else fails.
Definition unwrap_ok {S E A} (r : Outcome E A) : StatefulTest S A :=
  match r with Ok a => ret a | _ => fails end.
Definition unwrap_some {S A} (o : option A) : StatefulTest S A :=
  match o with Some a => ret a | None => fails end.

(** A call whose result must be [Ok], or [Some]. *)
Notation "x <-? m ;; k" := (bind m (fun r => bind (unwrap_ok r) (fun x => k)))
  (at level 100, m at next level, right associativity) : bench_scope.
Notation "x <-! m ;; k" := (bind m (fun r => bind (unwrap_some r) (fun x => k)))
  (at level 100, m at next level, right associativity) : bench_scope.

(** A [for] loop, and one that collects its results. *)
Fixpoint for_each {S A} (xs : list A) (body : A -> StatefulTest S unit) : StatefulTest S unit :=
  (match xs with [] => ret tt | x :: xs => body x ;; for_each xs body end)%bench.

Fixpoint collect {S A} (n : nat) (m : StatefulTest S A) : StatefulTest S (list A) :=
  (match n with O => ret [] | S n => x <- m ;; xs <- collect n m ;; ret (x :: xs) end)%bench.

(** A test passes if it runs to its end. *)
Definition passes {S A} (test : StatefulTest S A) (s : S) : bool :=
  match test s with Some _ => true | None => false end.
