(* ===== verification/TestBench.v ===== *)
(** * A bench for the integration tests of the event system

    The tests of event-system/tests run a publishing process and its subscribers in one
    directory.  Here both run on the model: the public interface (EventApi.v) on a
    concrete operating system without faults, and the public subscriber (SubscriberApi.v)
    on the file system that the former leaves behind.  The external crates are concrete
    here: a [shaq] queue hands its cells to every consumer from the moment it joined and
    refuses more than its capacity, and [wincode] is little-endian. *)

From Stdlib Require Import ZArith Lia Strings.Byte Strings.String.
From stdpp Require Import base list numbers gmap.
From S2P Require Import Prelude RustStr StreamName StreamPolicy QueueCell FileSystem StreamQueue.
From S2P Require Import EventStream StreamPolicyManager EventSystem EventApi.
From S2P Require Import Subscriber Discovery SubscriberApi TestKit TestState.
Local Open Scope Z_scope.

(** ** tests/common/mod.rs *)

Definition TEST_CONFIG : StreamConfig :=
  {| capacity := 5; publisher_slots := 1; subscriber_slots := 1 |}.

Record TestEvent := { value : Z }.
Definition TEST_EVENT : TestEvent := {| value := 42 |}.

Inductive TestEnumEvent := Value (value : Z).

(** [#[event(max_serialized_size = 16)]] *)
Record BoundedEvent := { values : list byte }.

#[global] Instance TestEvent_eq_dec : EqDecision TestEvent.
Proof. solve_decision. Defined.
#[global] Instance BoundedEvent_eq_dec : EqDecision BoundedEvent.
Proof. solve_decision. Defined.

(** What is encoded is written to the front of the cell. *)
Definition into_cell (bytes cell : list byte) : option (list byte) :=
  if len bytes <=? len cell then Some (bytes ++ drop (length bytes) cell) else None.

#[global] Instance TestEvent_wincode : Wincode TestEvent | 10 := {
  encode e := le_bytes 8 (value e);
  serialized_size := Static 8;
  serialize_into_cell cell e := into_cell (le_bytes 8 (value e)) cell;
  deserialize bytes :=
    if 8 <=? len bytes then Some {| value := le_val (take 8 bytes) |} else None
}.

#[global] Instance BoundedEvent_wincode : Wincode BoundedEvent | 10 := {
  encode e := le_bytes 8 (len (values e)) ++ values e;
  serialized_size := Dynamic 8;
  serialize_into_cell cell e := into_cell (le_bytes 8 (len (values e)) ++ values e) cell;
  deserialize bytes :=
    let n := le_val (take 8 bytes) in
    if (8 <=? len bytes) && (n <=? len (drop 8 bytes))
    then Some {| values := take (Z.to_nat n) (drop 8 bytes) |} else None
}.

#[global] Instance TestEnumEvent_wincode : Wincode TestEnumEvent | 10 := {
  encode '(Value v) := le_bytes 4 0 ++ le_bytes 8 v;
  serialized_size := Static 12;
  serialize_into_cell cell '(Value v) := into_cell (le_bytes 4 0 ++ le_bytes 8 v) cell;
  deserialize bytes :=
    if (12 <=? len bytes) && (le_val (take 4 bytes) =? 0)
    then Some (Value (le_val (take 8 (drop 4 bytes)))) else None
}.

(** An event type of the tests: its schema (here, the name of the type) and the size of
    its cells. *)
Class TestType (E : Type) := {
  schema_of : list byte;
  cell_len : Z;
  test_wincode :: Wincode E
}.

#[global] Instance TestEvent_type : TestType TestEvent :=
  {| schema_of := map byte_of_Z (lit "TestEvent"); cell_len := 8 |}.
#[global] Instance TestEnumEvent_type : TestType TestEnumEvent :=
  {| schema_of := map byte_of_Z (lit "TestEnumEvent"); cell_len := 12 |}.
#[global] Instance BoundedEvent_type : TestType BoundedEvent :=
  {| schema_of := map byte_of_Z (lit "BoundedEvent"); cell_len := 16 |}.

(** Cells are reserved with whatever they held before. *)
Definition serialize_event {E} `{TestType E} (e : E) : option (list byte) :=
  serialize_into_cell (filled (cell_len (E := E)) 0xAA) e.

(** ** The operating system and the crates *)

#[local] Instance bench_calls : SystemCalls :=
  {| fault := fun _ => false; partial_work := fun _ => O |}.

(** Every queue file gets a descriptor and an identifier of its own; a queue needs a
    capacity. *)
#[local] Instance bench_queues : QueueCalls := {|
  random_u64 t := Some (Z.of_nat t);
  memfd_create t := Some (Z.of_nat t);
  create_with_identifier _ cfg _ := 0 <? capacity cfg;
  add_seals _ := true;
  process_id := 77
|}.

#[local] Instance bench_schemas : SchemaLibrary := {
  RootSchema := list byte;
  RootSchema_name := map Z_of_byte;
  deserialize_schema bytes := Some bytes
}.

(** A subscriber: its queue, how far it has read, and what it connected with. *)
Record Joined := {
  jo_broadcast : Broadcast;
  jo_position : nat;
  jo_name : StreamName;
  jo_schema : list byte
}.

Record Bench := {
  be_world : World;
  (** addresses for new streams and publishers *)
  be_fresh : nat;
  be_joined : gmap nat Joined
}.

(** The streams whose queue is [q]. *)
Definition streams_of (b : Bench) (q : nat) : list EventStream :=
  List.filter (fun s => match ss_queue (es_state s) with
                        | Some queue => Nat.eqb (bc_id (sq_broadcast queue)) q
                        | None => false
                        end) (map snd (map_to_list (wo_streams (be_world b)))).

Definition config_of (b : Bench) (q : nat) : StreamConfig :=
  match streams_of b q with s :: _ => es_stream_config s | [] => TEST_CONFIG end.

(** All cells that were sent to the queue [q]. *)
Definition cells_of (b : Bench) (q : nat) : list (list byte) :=
  flat_map (fun e => map snd (List.filter (fun c => Nat.eqb c.1 q) e.2))
    (map_to_list (wo_sent (be_world b))).

Definition joined_to (b : Bench) (q : nat) : list Joined :=
  List.filter (fun j => Nat.eqb (bc_id (jo_broadcast j)) q) (map snd (map_to_list (be_joined b))).

(** A queue has room for as many cells as its capacity, besides those that all
    consumers have read. *)
#[local] Instance bench_shaq (b : Bench) : Shaq := {
  producer_available live slots := live <? slots;
  can_reserve q sent count :=
    forallb (fun j => len sent - Z.of_nat (jo_position j) + count <=? capacity (config_of b q))
      (joined_to b q)
}.

#[local] Instance bench_consumers (b : Bench) : ShaqConsumers := {
  SliceConsumer := Broadcast * nat;
  slice_consumer _ q :=
    if len (joined_to b (bc_id q)) <? subscriber_slots (config_of b (bc_id q))
    then Some (q, length (cells_of b (bc_id q))) else None;
  sc_broadcast_handle c := c.1;
  sc_try_read c :=
    match cells_of b (bc_id c.1) !! c.2 with
    | Some cell => (Some {| rg_slice := cell;
                            rg_lane_metadata := {| lm_lane := 0; lm_rejected_items := 0 |} |},
                    (c.1, S c.2))
    | None => (None, c)
    end;
  sc_read_timeout c _ :=
    match cells_of b (bc_id c.1) !! c.2 with
    | Some cell => (Some {| rg_slice := cell;
                            rg_lane_metadata := {| lm_lane := 0; lm_rejected_items := 0 |} |},
                    (c.1, S c.2))
    | None => (None, c)
    end;
  bc_lane_metadata q lane :=
    if lane <? bc_producer_slots q then Some {| lm_lane := lane; lm_rejected_items := 0 |} else None
}.

(** The links of [/proc] lead to the queues that are alive: the file of a queue was
    created by the call before the queue's. *)
Definition proc_of (b : Bench) (target : str) : option QueueFile :=
  let queues := flat_map (fun s => match ss_queue (es_state s) with
                                   | Some queue => [sq_broadcast queue]
                                   | None => []
                                   end)
                  (map snd (map_to_list (wo_streams (be_world b)))) in
  match List.filter (fun q => bool_decide
      (lit "/proc/77/fd/" ++ display (Z.of_nat (bc_id q) - 1) = target)) queues with
  | q :: _ => Some {| qf_seals := REQUIRED_SEALS; qf_broadcast := Some q |}
  | [] => None
  end.

(** The entries of the streams directory. *)
Definition published_entries (b : Bench) : list (str * Node) :=
  default [] (entries_at (streams_directory []) (io_fs (wo_io (be_world b)))).

#[local] Instance bench_subscriber_calls (b : Bench) : SubscriberCalls :=
  snapshot_calls (published_entries b) (proc_of b).

#[local] Instance bench_decoding : DynamicDecoding := {
  Fields := list (str * Z);
  StructDecoder := unit;
  EnumDecoder := unit;
  VariantDecoder := str * list (str * Z);
  Decoder_new schema :=
    if bool_decide (schema = schema_of (E := TestEnumEvent)) then inr tt else inl tt;
  struct_fields _ bytes := [(lit "value", le_val (take 8 bytes))];
  decode_variant _ bytes :=
    match deserialize bytes with
    | Some (Value v) => Some (lit "Value", [(lit "value", v)])
    | None => None
    end;
  variant_decoder_name := fst;
  variant_fields := snd
}.

(** ** Tests *)

Notation Test := (StatefulTest Bench).
Local Open Scope bench_scope.

(** A call on the publishing side. *)
Definition call_world {A} (f : Bench -> World -> A * World) : Test A := fun b =>
  let '(a, w) := f b (be_world b) in
  Some (a, {| be_world := w; be_fresh := be_fresh b; be_joined := be_joined b |}).

Definition fresh : Test nat := fun b =>
  Some (be_fresh b, {| be_world := be_world b; be_fresh := S (be_fresh b); be_joined := be_joined b |}).

(** *** The publishing side *)

Definition set_stream_policy (text : str) : Test unit :=
  policy <- unwrap_ok (StreamPolicy_from_str text) ;;
  call_world (fun _ w => (tt, api_set_stream_policy SystemPlatform policy w)).

Definition create_stream E `{TestType E} (stream_name : StreamName) (config : StreamConfig) :
    Test (Outcome CreateStreamError FactoryHandle) :=
  s <- fresh ;;
  call_world (fun _ => api_create_stream s SystemPlatform stream_name config (Some (schema_of (E := E)))).

Definition stream_of (factory : FactoryHandle) : nat :=
  match factory with FactoryPlatform s => s | FactoryStub _ => 0 end.

Definition clone_factory (factory : FactoryHandle) : Test FactoryHandle :=
  call_world (fun _ w => (factory, EventApi.clone_factory (stream_of factory) w)).
Definition drop_factory (factory : FactoryHandle) : Test unit :=
  call_world (fun _ w => (tt, EventApi.drop_factory (stream_of factory) w)).

Definition try_create_publisher (factory : FactoryHandle) : Test (option PublisherHandle) :=
  id <- fresh ;; call_world (fun b => api_try_create_publisher (H1 := bench_shaq b) id factory).

Definition publish {E} `{TestType E} (publisher : PublisherHandle) (event : E) :
    Test (Outcome PublishError unit) :=
  call_world (fun b => api_publish (H1 := bench_shaq b) serialize_event publisher event).

Definition publish_batch {E} `{TestType E} (publisher : PublisherHandle) (events : list E) :
    Test (Outcome PublishError unit) :=
  call_world (fun b => api_publish_batch (H1 := bench_shaq b) serialize_event publisher events).

Definition is_enabled (publisher : PublisherHandle) : Test bool :=
  call_world (fun b => api_is_enabled (H1 := bench_shaq b) publisher).

(** Both parts of [Publisher::drop], and the reference to the stream. *)
Definition drop_publisher (publisher : PublisherHandle) : Test unit :=
  match publisher with
  | PublisherStub _ => ret tt
  | PublisherPlatform s id =>
      call_world (fun _ w =>
        let dropped sw := match sw_publishers sw !! id with
                          | Some p => release_slot id (drop_producer id p sw)
                          | None => sw
                          end in
        let '(_, w) := on_stream s tt (fun sw => (tt, dropped sw)) w in
        (tt, release_stream s w))
  end.

(** *** The subscribing side *)

(** The backend of the subscribers at this moment. *)
Definition bench_backend (b : Bench) : SubscriberBackend :=
  linux_backend (H0 := bench_consumers b) (H1 := bench_subscriber_calls b).

(** The streams that a subscriber finds now. *)
Definition available_streams_of (b : Bench) : list (@AvailableStream bench_schemas) :=
  (pub_available_streams (H0 := bench_backend b) 0%nat).1.

Definition available_streams : Test (list (@AvailableStream bench_schemas)) := fun b =>
  Some (available_streams_of b, b).

Definition available_stream_names : Test (list str) :=
  streams <- available_streams ;;
  ret (map (fun s => StreamName_as_str (av_stream_name s)) streams).

(** The same names in any order. *)
Definition same_names (names expected : list str) : bool :=
  Nat.eqb (length names) (length expected) &&
  forallb (fun n => existsb (fun m => bool_decide (n = m)) names) expected.

Definition attach (j : Joined) (b : Bench) : @Subscriber bench_schemas (bench_consumers b) :=
  {| sub_slice_consumer := (jo_broadcast j, jo_position j) : @SliceConsumer (bench_consumers b);
     sub_stream_name := jo_name j; sub_schema := jo_schema j : @RootSchema bench_schemas |}.

Definition detach {b : Bench} (sub : @Subscriber bench_schemas (bench_consumers b)) : Joined :=
  let c : Broadcast * nat := sub_slice_consumer sub in
  {| jo_broadcast := c.1; jo_position := c.2; jo_name := sub_stream_name sub; jo_schema := sub_schema sub |}.

Definition put_joined (i : nat) (j : Joined) (b : Bench) : Bench :=
  {| be_world := be_world b; be_fresh := be_fresh b; be_joined := <[i := j]> (be_joined b) |}.

(** A new subscriber gets the next number. *)
Definition join {E} (result : forall b, Outcome E (@Subscriber bench_schemas (bench_consumers b))) :
    Test (Outcome E nat) := fun b =>
  match result b with
  | Ok sub => let i := be_fresh b in
              Some (Ok i, {| be_world := be_world b; be_fresh := S i;
                             be_joined := <[i := detach sub]> (be_joined b) |})
  | Err e => Some (Err e, b)
  | _ => None
  end.

Definition try_connect_typed E `{TestType E} (stream : @AvailableStream bench_schemas) :
    Test (Outcome TryConnectTypedError nat) :=
  join (fun b => (pub_try_connect_typed (H0 := bench_backend b)
                    (schema_of (E := E) : @RootSchema bench_schemas) stream 0%nat).1).

Definition try_connect_dynamic (stream : @AvailableStream bench_schemas) :
    Test (Outcome TryConnectError nat) :=
  join (fun b => (pub_try_connect_dynamic (H0 := bench_backend b) stream 0%nat).1).

(** A call on the subscriber [i]; [f] reads what it needs of the message. *)
Definition on_subscriber {E M A} (i : nat)
    (recv : forall b, @Subscriber bench_schemas (bench_consumers b) ->
       Outcome E M * @Subscriber bench_schemas (bench_consumers b))
    (f : M -> A) : Test (Outcome E A) := fun b =>
  match be_joined b !! i with
  | Some j =>
      let '(r, sub) := recv b (attach j b) in
      Some (Prelude.omap f r, put_joined i (detach sub) b)
  | None => None
  end.

(** [try_recv] and the decoding of the message. *)
Definition try_recv E `{TestType E} (i : nat) : Test (Outcome TryRecvError (option E)) := fun b =>
  on_subscriber i (fun b => pub_try_recv (H0 := bench_backend b))
    (decode_typed (H0 := bench_backend b)) b.

Definition try_recv_dynamic (i : nat) : Test (Outcome TryRecvError (option DecodedMessage)) := fun b =>
  on_subscriber i (fun b => pub_try_recv (H0 := bench_backend b))
    (decode_dynamic (H0 := bench_backend b)) b.

Definition recv_timeout E `{TestType E} (i : nat) (timeout : Z) :
    Test (Outcome RecvTimeoutError (option E)) := fun b =>
  on_subscriber i (fun b sub => pub_recv_timeout (H0 := bench_backend b) sub timeout)
    (decode_typed (H0 := bench_backend b)) b.

Definition subscriber_stream_name (i : nat) : Test StreamName := fun b =>
  match be_joined b !! i with
  | Some j => Some (pub_subscriber_stream_name (H0 := bench_backend b) (attach j b), b)
  | None => None
  end.

Definition subscriber_type_name (i : nat) : Test str := fun b =>
  match be_joined b !! i with
  | Some j => Some (pub_subscriber_type_name (H0 := bench_backend b) (attach j b), b)
  | None => None
  end.

(** The numbers of the lanes that a subscriber sees. *)
Definition lanes (i : nat) : Test (list Z) := fun b =>
  match be_joined b !! i with
  | Some j => Some (map (pub_lane (H0 := bench_backend b))
                      (pub_lanes_iter (H0 := bench_backend b)
                        (pub_lanes_metadata (H0 := bench_backend b) (attach j b))), b)
  | None => None
  end.

(** *** The test context *)

(** An empty temporary directory. *)
Definition temp_dir : IoWorld := {| io_fs := Directory []; io_calls := O; io_history := [] |}.

Definition new_event_system (io : IoWorld) : option World :=
  match (api_EventSystem_new (Some []) io).1 with Ok (_, w) => Some w | _ => None end.

(** [TestContextBuilder::build]. *)
Definition with_context (policy : option str) (test : Test unit) : bool :=
  match new_event_system temp_dir with
  | Some w =>
      passes (set_stream_policy (default [] policy) ;; test)%bench
        {| be_world := w; be_fresh := O; be_joined := ∅ |}
  | None => false
  end.

Definition TestContextBuilder_build := with_context None.
Definition with_policy_enabling_all_streams := with_context (Some (lit "on")).

Definition named (name : str) : Test StreamName := unwrap_ok (stream_name name).
Definition TEST_STREAM_NAME : Test StreamName := named (lit "test-stream").

(** The first available stream, connected to. *)
Definition connect_first E `{TestType E} : Test (Outcome TryConnectTypedError nat) :=
  streams <- available_streams ;;
  stream <- unwrap_some (head streams) ;;
  try_connect_typed E stream.

Definition create_stream_factory_with_subscriber E `{TestType E} (config : StreamConfig) :
    Test (FactoryHandle * nat) :=
  name <- TEST_STREAM_NAME ;;
  created <- create_stream E name config ;;
  publisher_factory <- unwrap_ok created ;;
  connected <- connect_first E ;;
  subscriber <- unwrap_ok connected ;;
  ret (publisher_factory, subscriber).

Definition create_stream_with_subscriber E `{TestType E} : Test (PublisherHandle * nat) :=
  created <- create_stream_factory_with_subscriber E TEST_CONFIG ;;
  publisher <- try_create_publisher created.1 ;;
  publisher <- unwrap_some publisher ;;
  ret (publisher, created.2).

Definition assert_is_empty (subscribers : list nat) : Test unit :=
  for_each subscribers (fun subscriber =>
    r <- try_recv TestEvent subscriber ;;
    assert (match r with Err RecvEmpty => true | _ => false end)).

Definition assert_received (subscribers : list nat) : Test unit :=
  for_each subscribers (fun subscriber =>
    r <- try_recv TestEvent subscriber ;;
    message <- unwrap_ok r ;;
    assert (bool_decide (message = Some TEST_EVENT))).
