(* ===== verification/TestData.v ===== *)
(** * The transactions of the unit tests of transaction-view

    The helpers of the test modules (sanitize.rs has the ones that are shared), as
    messages of the model. *)

From Stdlib Require Import ZArith Lia Strings.Byte.
From stdpp Require Import base list numbers.
From S2P Require Import Prelude Cursor Bytes MessageHeaderFrame InstructionsFrame.
From S2P Require Import AddressTableLookupFrame TransactionConfigView Message TransactionFrame.
From S2P Require Export Samples TestKit.
Local Open Scope Z_scope.

Definition fails_with {A} (e : TransactionViewError) (r : Result A) : bool :=
  match r with Err e' => bool_decide (e' = e) | _ => false end.

(** [Pubkey::new_unique()], for the [n]-th key of a test; [Pubkey::default()],
    [Hash::default()] and the system program are zeros. *)
Definition new_unique (n : Z) : list byte := byte_of_Z n :: filled 31 0xEE.
Definition zero_key : list byte := filled 32 0.
Definition default_signature : list byte := filled 64 0.

(** [(0..n).map(|_| Pubkey::new_unique())]. *)
Definition new_uniques (n : Z) : list (list byte) := map new_unique (range 1 (n + 1)).

Definition header (signers readonly_signed readonly_unsigned : Z) : MessageHeader :=
  {| num_required_signatures := signers; num_readonly_signed_accounts := readonly_signed;
     num_readonly_unsigned_accounts := readonly_unsigned |}.

Definition instruction (program : Z) (accs ds : list Z) : SVMInstruction :=
  {| program_id_index := program; accounts := bytes_of accs; data := bytes_of ds |}.

Definition lookup (key : list byte) (w r : list Z) : SVMMessageAddressTableLookup :=
  {| account_key := key; writable_indexes := bytes_of w; readonly_indexes := bytes_of r |}.

(** The tests' transactions have default signatures and mostly a default blockhash. *)
Definition create_transaction (num_signatures : Z) (m : Message) : Transaction :=
  {| tx_signatures := replicate (Z.to_nat num_signatures) default_signature; tx_message := m |}.

Definition create_legacy_transaction (num_signatures : Z) (h : MessageHeader)
    (account_keys : list (list byte)) (instructions : list SVMInstruction) : Transaction :=
  create_transaction num_signatures
    {| msg_version := Legacy; msg_header := h; msg_account_keys := account_keys;
       msg_recent_blockhash := zero_key; msg_instructions := instructions;
       msg_address_table_lookups := []; msg_config := empty_config |}.

Definition create_v0_transaction (num_signatures : Z) (h : MessageHeader)
    (account_keys : list (list byte)) (instructions : list SVMInstruction)
    (address_table_lookups : list SVMMessageAddressTableLookup) : Transaction :=
  create_transaction num_signatures
    {| msg_version := V0; msg_header := h; msg_account_keys := account_keys;
       msg_recent_blockhash := zero_key; msg_instructions := instructions;
       msg_address_table_lookups := address_table_lookups; msg_config := empty_config |}.

Definition create_v1_transaction (num_signatures : Z) (h : MessageHeader)
    (account_keys : list (list byte)) (instructions : list SVMInstruction)
    (config : TransactionConfig) : Transaction :=
  create_transaction num_signatures
    {| msg_version := V1; msg_header := h; msg_account_keys := account_keys;
       msg_recent_blockhash := zero_key; msg_instructions := instructions;
       msg_address_table_lookups := []; msg_config := config |}.

(** [SystemInstruction::Transfer { lamports: 1 }], serialized. *)
Definition transfer_data : list Z := [2; 0; 0; 0; 1; 0; 0; 0; 0; 0; 0; 0].

(** The message that [Message::new] compiles from two transfers by one payer: the
    payer, the receivers, and the system program as a read-only account. *)
Definition multiple_transfers : Transaction :=
  create_legacy_transaction 1 (header 1 0 1)
    [new_unique 1; new_unique 2; new_unique 3; zero_key]
    [instruction 3 [0; 1] transfer_data; instruction 3 [0; 2] transfer_data].

(** The message that [Message::new] compiles from no instructions. *)
Definition empty_message : Message :=
  tx_message (create_legacy_transaction 1 (header 1 0 0) [new_unique 1] []).

(** [wincode::serialize] of a transaction and of a message. *)
Definition serialize (t : Transaction) : list byte := encode_transaction t.
Definition serialize_message (m : Message) : list byte := encode_message m.
