(* ===== verification/TestsParsing.v ===== *)
(** * The unit tests of the readers and of the frames

    The test modules of bytes.rs, signature_frame.rs, message_header_frame.rs,
    static_account_keys_frame.rs, address_table_lookup_frame.rs, message_frame.rs,
    transaction_config_view.rs and instructions_frame.rs of transaction-view, without
    the two tests that parse megabytes (of 65535 signatures and of as many keys). *)

From Stdlib Require Import ZArith Lia Strings.Byte.
From stdpp Require Import base list numbers.
From S2P Require Import Prelude Cursor RustIterator Bytes SignatureFrame MessageHeaderFrame.
From S2P Require Import StaticAccountKeysFrame AddressTableLookupFrame InstructionsFrame.
From S2P Require Import TransactionConfigView MessageFrame Message TransactionFrame TestData.
Local Open Scope Z_scope.
Local Open Scope test_scope.

(** ** bytes.rs *)

Definition test_check_remaining : bool :=
  let bytes := bytes_of [1; 2; 3] in
  is_ok (check_remaining [] 0 0) && is_err (check_remaining [] 0 1) &&
  is_ok (check_remaining bytes 0 0) && is_ok (check_remaining bytes 0 1) &&
  is_ok (check_remaining bytes 0 3) && is_err (check_remaining bytes 0 4) &&
  is_ok (check_remaining bytes 1 0) && is_ok (check_remaining bytes 1 1) &&
  is_ok (check_remaining bytes 1 2) && is_err (check_remaining bytes 1 (umax USIZE)).

Definition test_read_byte : bool :=
  let bytes := bytes_of [5; 6; 7] in
  let (r1, offset) := read_byte bytes 0 in
  (r1 === Ok 5) && (offset =? 1) &&
  let (r2, offset) := read_byte bytes offset in
  (r2 === Ok 6) && (offset =? 2) &&
  let (r3, offset) := read_byte bytes offset in
  (r3 === Ok 7) && (offset =? 3) && is_err (read_byte bytes offset).1.

(** Serializes a value at the start of a buffer and reads it back. *)
Definition reads_back (read : Parser Z) (size value : Z) : bool :=
  let serialized := encode_short value in
  let (read_value, offset) := read (serialized ++ filled (size - len serialized) 0) 0 in
  (match read_value with Ok v => v =? value | _ => false end) && (offset =? len serialized).

Definition test_read_compressed_u16 : bool :=
  forallb (reads_back read_compressed_u16 16) (range 0 65536) &&
  ((read_compressed_u16 (filled 3 0) 0).1 === Ok 0) &&
  is_err (read_compressed_u16 (bytes_of [0xFF; 0xFF; 0x04]) 0).1 &&
  ((read_compressed_u16 (bytes_of [0xFF; 0xFF; 0x03]) 0).1 === Ok (umax U16)) &&
  is_err (read_compressed_u16 (filled 1 0xFF) 0).1 &&
  is_err (read_compressed_u16 (filled 2 0xFF) 0).1 &&
  is_err (read_compressed_u16 (bytes_of [0x81; 0x80; 0x00]) 0).1.

Definition test_optimized_read_compressed_u16 : bool :=
  forallb (reads_back optimized_read_compressed_u16 16) (range 0 (PACKET_DATA_SIZE + 1)) &&
  ((optimized_read_compressed_u16 (filled 3 0) 0).1 === Ok 0) &&
  is_err (optimized_read_compressed_u16 (bytes_of [0xFF; 0xFF; 0x04]) 0).1 &&
  is_err (optimized_read_compressed_u16 (bytes_of [0xFF; 0x80]) 0).1 &&
  is_err (optimized_read_compressed_u16 (filled 1 0xFF) 0).1 &&
  is_err (optimized_read_compressed_u16 (filled 2 0xFF) 0).1 &&
  is_err (optimized_read_compressed_u16 (bytes_of [0x81; 0x00]) 0).1.

Definition test_advance_offset_for_array : bool :=
  is_err (advance_offset_for_array 2 1 (filled 1 0) 0).1 &&
  let (r, offset) := advance_offset_for_array 2 2 (filled 4 0) 0 in is_ok r && (offset =? 4).

Definition test_advance_offset_for_type : bool :=
  is_err (advance_offset_for_type 2 (filled 1 0) 0).1 &&
  let (r, offset) := advance_offset_for_type 2 (filled 4 0) 0 in is_ok r && (offset =? 2).

(** The loop over all values is an instance of the round trip. *)
Lemma reads_back_compressed value : in_width U16 value -> reads_back read_compressed_u16 16 value = true.
Proof.
  intros Hv. unfold reads_back. set (post := filled _ 0).
  assert (Hlen : len (encode_short value) <= 3).
  { unfold encode_short. repeat zcase; vm_compute; discriminate. }
  pose proof (len_nonneg (encode_short value)) as Hpos.
  pose proof (read_compressed_u16_roundtrip [] value post Hv) as Hread. cbn [app] in Hread.
  change (len (@nil byte)) with 0 in Hread. rewrite Hread.
  - rewrite Z.add_0_l. by rewrite !Z.eqb_refl.
  - unfold slice_ok, post, filled, isize_MAX, len in *.
    rewrite length_app, length_replicate. lia.
Qed.

Lemma test_read_compressed_u16_passes : test_read_compressed_u16 = true.
Proof.
  assert (Hall : forall values, (forall v, In v values -> in_width U16 v) ->
    forallb (reads_back read_compressed_u16 16) values = true).
  { intros values Hv. apply forallb_forall. intros v Hin. by apply reads_back_compressed, Hv. }
  unfold test_read_compressed_u16.
  rewrite (Hall (range 0 65536) (in_range 0 65536)). vm_compute. reflexivity.
Qed.

Theorem bytes_tests_pass :
  all_pass [test_check_remaining; test_read_byte; test_read_compressed_u16;
    test_optimized_read_compressed_u16; test_advance_offset_for_array;
    test_advance_offset_for_type].
Proof.
  unfold all_pass. cbn [forallb]. rewrite test_read_compressed_u16_passes.
  vm_compute. reflexivity.
Qed.

(** ** signature_frame.rs *)

(** [serialize_short_vec] of each module. *)
Definition serialize_signatures (sigs : list (list byte)) : list byte :=
  encode_short (len sigs) ++ concat sigs.

Definition default_signatures (n : Z) : list (list byte) :=
  replicate (Z.to_nat n) default_signature.

Definition test_zero_signatures : bool :=
  is_err (SignatureFrame_try_new (serialize_signatures []) 0).1.

(** A frame of so many signatures at an offset, and the offset after it. *)
Definition signature_frame_is (r : Result SignatureFrame * Z) (num offset next : Z) : bool :=
  let! frame := r.1 in
  (sf_num_signatures frame =? num) && (sf_offset frame =? offset) && (r.2 =? next).

Definition test_one_signature : bool :=
  signature_frame_is (SignatureFrame_try_new (serialize_signatures (default_signatures 1)) 0)
    1 1 (1 + size_of_Signature).

Definition test_signatures_above_packet_policy_limit : bool :=
  signature_frame_is (SignatureFrame_try_new (serialize_signatures (default_signatures 13)) 0)
    13 1 (1 + 13 * size_of_Signature).

Definition test_non_zero_offset : bool :=
  signature_frame_is
    (SignatureFrame_try_new (x00 :: serialize_signatures (default_signatures 1)) 1)
    1 2 (2 + size_of_Signature).

Definition test_multibyte_signature_count : bool :=
  is_err (SignatureFrame_try_new (serialize_signatures (default_signatures 128)) 0).1.

Theorem signature_frame_tests_pass :
  all_pass [test_zero_signatures; test_one_signature; test_signatures_above_packet_policy_limit;
    test_non_zero_offset; test_multibyte_signature_count].
Proof. vm_compute. reflexivity. Qed.

(** ** message_header_frame.rs *)

Definition test_invalid_version : bool :=
  is_err (MessageHeaderFrame_try_new (bytes_of [129]) 0).1.

Definition test_legacy_transaction_missing_header_byte : bool :=
  is_err (MessageHeaderFrame_try_new (bytes_of [5; 0]) 0).1.

Definition header_frame_is (r : Result MessageHeaderFrame) (version : TransactionVersion)
    (signed readonly_signed readonly_unsigned : Z) : bool :=
  let! header := r in
  (mh_version header === version) && (mh_num_required_signatures header =? signed) &&
  (mh_num_readonly_signed_accounts header =? readonly_signed) &&
  (mh_num_readonly_unsigned_accounts header =? readonly_unsigned).

Definition test_legacy_transaction_valid : bool :=
  header_frame_is (MessageHeaderFrame_try_new (bytes_of [5; 1; 2]) 0).1 Legacy 5 1 2.

Definition test_v0_transaction_missing_header_byte : bool :=
  is_err (MessageHeaderFrame_try_new (bytes_of [MESSAGE_VERSION_PREFIX; 5; 1]) 0).1.

Definition test_v0_transaction_valid : bool :=
  header_frame_is
    (MessageHeaderFrame_try_new (bytes_of [MESSAGE_VERSION_PREFIX; 5; 1; 2]) 0).1 V0 5 1 2.

Theorem message_header_frame_tests_pass :
  all_pass [test_invalid_version; test_legacy_transaction_missing_header_byte;
    test_legacy_transaction_valid; test_v0_transaction_missing_header_byte;
    test_v0_transaction_valid].
Proof. vm_compute. reflexivity. Qed.

(** ** static_account_keys_frame.rs *)

Definition serialize_pubkeys (keys : list (list byte)) : list byte :=
  encode_short (len keys) ++ concat keys.

Definition default_pubkeys (n : Z) : list (list byte) := replicate (Z.to_nat n) zero_key.

Definition test_zero_accounts : bool :=
  is_err (StaticAccountKeysFrame_try_new (serialize_pubkeys []) 0).1.

Definition keys_frame_is (r : Result StaticAccountKeysFrame * Z) (num offset next : Z) : bool :=
  let! frame := r.1 in
  (sk_num_static_accounts frame =? num) && (sk_offset frame =? offset) && (r.2 =? next).

Definition test_one_account : bool :=
  keys_frame_is (StaticAccountKeysFrame_try_new (serialize_pubkeys (default_pubkeys 1)) 0)
    1 1 (1 + size_of_Pubkey).

Definition test_max_accounts : bool :=
  keys_frame_is
    (StaticAccountKeysFrame_try_new
       (serialize_pubkeys (default_pubkeys LEGACY_OR_V0_MAX_STATIC_ACCOUNTS_PER_PACKET)) 0)
    38 1 (1 + 38 * size_of_Pubkey).

Definition test_too_many_accounts : bool :=
  is_err (StaticAccountKeysFrame_try_new
            (serialize_pubkeys (default_pubkeys (LEGACY_OR_V0_MAX_STATIC_ACCOUNTS_PER_PACKET + 1)))
            0).1.

Theorem static_account_keys_frame_tests_pass :
  all_pass [test_zero_accounts; test_one_account; test_max_accounts; test_too_many_accounts].
Proof. vm_compute. reflexivity. Qed.

(** ** address_table_lookup_frame.rs *)

Definition serialize_lookups (atls : list SVMMessageAddressTableLookup) : list byte :=
  encode_short (len atls) ++ flat_map encode_atl atls.

Definition atl_frame_is (bytes : list byte) (num w r : Z) : bool :=
  let (frame, offset) := AddressTableLookupFrame_try_new bytes 0 in
  let! frame := frame in
  (atl_num_address_table_lookups frame =? num) && (atl_offset frame =? 1) && (offset =? len bytes) &&
  (atl_total_writable_lookup_accounts frame =? w) && (atl_total_readonly_lookup_accounts frame =? r).

Definition test_zero_atls : bool := atl_frame_is (serialize_lookups []) 0 0 0.

Definition test_length_too_high : bool :=
  is_err (AddressTableLookupFrame_try_new (set 0 5 (serialize_lookups [])) 0).1.

Definition one_lookup : list byte := serialize_lookups [lookup (new_unique 1) [1; 2; 3] [4; 5; 6]].

Definition test_single_atl : bool := atl_frame_is one_lookup 1 3 3.

Definition test_multiple_atls : bool :=
  atl_frame_is
    (serialize_lookups
       [lookup (new_unique 1) [1; 2; 3] [4; 5; 6]; lookup (new_unique 2) [1; 2; 3] [4; 5]]) 2 6 5.

Definition test_invalid_writable_indexes_vec : bool :=
  is_err (AddressTableLookupFrame_try_new (set 33 127 one_lookup) 0).1.

Definition test_invalid_readonly_indexes_vec : bool :=
  is_err (AddressTableLookupFrame_try_new (set 37 127 one_lookup) 0).1.

Theorem address_table_lookup_frame_tests_pass :
  all_pass [test_zero_atls; test_length_too_high; test_single_atl; test_multiple_atls;
    test_invalid_writable_indexes_vec; test_invalid_readonly_indexes_vec].
Proof. vm_compute. reflexivity. Qed.

(** ** message_frame.rs *)

Definition test_try_new_as_v1_rejects_legacy_message : bool :=
  let bytes := serialize_message empty_message in
  (head bytes === Some x01) && fails_with ParseError (MessageFrame_try_new_as_v1 bytes).

Theorem message_frame_tests_pass : all_pass [test_try_new_as_v1_rejects_legacy_message].
Proof. vm_compute. reflexivity. Qed.

(** ** transaction_config_view.rs *)

(** [to_le_bytes]. *)
Definition u32le (x : Z) : list byte := le_bytes 4 x.
Definition u64_words_le (x : Z) : list byte * list byte :=
  let bytes := le_bytes 8 x in (take 4 bytes, drop 4 bytes).

(** [TransactionConfigFrame::try_new] after [prefix] and the mask, before the values. *)
Definition config_frame (prefix : list byte) (mask : Z) (values : list byte) :
    Result TransactionConfigFrame * Z * list byte :=
  let bytes := prefix ++ u32le mask ++ values in
  (TransactionConfigFrame_try_new (len prefix) mask bytes (len prefix + 4), bytes).

(** The four values of a view. *)
Definition config_is (frame : TransactionConfigFrame) (bytes : list byte) (fee cu loaded heap : option Z) :
    bool :=
  let view := {| cv_transaction_config_frame := frame; cv_bytes := bytes |} in
  (priority_fee_lamports view === Ok fee) && (compute_unit_limit view === Ok cu) &&
  (loaded_accounts_data_size_limit view === Ok loaded) && (requested_heap_size view === Ok heap).

Definition test_not_applicable_defaults : bool :=
  let frame := TransactionConfigFrame_not_applicable in
  negb (TransactionConfigFrame_is_present frame) && (sanitize_mask (cf_mask frame) === Ok tt).

Definition test_try_new_zero_mask_is_present : bool :=
  match config_frame (filled 5 0) 0 [] with
  | (frame, offset, _) =>
      let! frame := frame in
      TransactionConfigFrame_is_present frame && (cf_mask_offset frame =? 5) &&
      (cf_mask frame =? 0) && (offset =? 9)
  end.

Definition half_set (mask : Z) : bool :=
  let buf := filled 5 0 ++ u32le mask in
  fails_with SanitizeError (TransactionConfigFrame_try_new 5 mask buf 5).1.

Definition test_try_new_invalid_priority_fee_half_set_low_bit : bool := half_set 1.
Definition test_try_new_invalid_priority_fee_half_set_high_bit : bool := half_set 2.

Definition test_try_new_invalid_config_values : bool :=
  fails_with ParseError (config_frame (filled 3 7) 7 []).1.1.

Definition test_read_defaults_when_bits_unset : bool :=
  match config_frame (filled 2 1) 0 [] with
  | (frame, _, bytes) => let! frame := frame in config_is frame bytes None None None None
  end.

Definition test_unknown_bits_rejected : bool :=
  forallb (fun mask => fails_with SanitizeError (sanitize_mask mask))
    [32; 255; Z.shiftl 1 31; Z.lor 31 (Z.shiftl 1 16)].

Definition test_priority_fee_only : bool :=
  let fee := 123456789 in
  let (lo, hi) := u64_words_le fee in
  match config_frame (filled 4 9) 3 (lo ++ hi) with
  | (frame, offset, bytes) =>
      let! frame := frame in
      (offset =? len bytes) && TransactionConfigFrame_is_present frame &&
      config_is frame bytes (Some fee) None None None
  end.

Definition test_all_initial_fields_present : bool :=
  let fee := 99 in
  let cu := 1400000 in
  let loaded := 64000 in
  let heap := 64 * 1024 in
  let (fee_lo, fee_hi) := u64_words_le fee in
  match config_frame (filled 7 9) 31 (fee_lo ++ fee_hi ++ u32le cu ++ u32le loaded ++ u32le heap) with
  | (frame, offset, bytes) =>
      let! frame := frame in
      (offset =? len bytes) && TransactionConfigFrame_is_present frame &&
      config_is frame bytes (Some fee) (Some cu) (Some loaded) (Some heap)
  end.

Definition test_sparse_bits_word_indexing : bool :=
  let cu := 777 in
  let heap := 48 * 1024 in
  match config_frame (filled 3 1) 20 (u32le cu ++ u32le heap) with
  | (frame, offset, bytes) =>
      let! frame := frame in
      (offset =? len bytes) && (word_index_for_bit frame 2 === Some 0) &&
      (word_index_for_bit frame 4 === Some 1) && (word_index_for_bit frame 3 === None) &&
      config_is frame bytes None (Some cu) None (Some heap)
  end.

Definition test_truncated_priority_fee_values : bool :=
  fails_with ParseError (config_frame (filled 2 5) 3 (bytes_of [1; 2; 3; 4])).1.1.

Theorem transaction_config_view_tests_pass :
  all_pass [test_not_applicable_defaults; test_try_new_zero_mask_is_present;
    test_try_new_invalid_priority_fee_half_set_low_bit;
    test_try_new_invalid_priority_fee_half_set_high_bit; test_try_new_invalid_config_values;
    test_read_defaults_when_bits_unset; test_unknown_bits_rejected; test_priority_fee_only;
    test_all_initial_fields_present; test_sparse_bits_word_indexing;
    test_truncated_priority_fee_values].
Proof. vm_compute. reflexivity. Qed.

(** ** instructions_frame.rs *)

(** The module's own [offset]. *)
Definition InstructionsFrame_offset (self : InstructionsFrame) : Z :=
  match self with
  | LegacyAndV0Frame _ offset _ => offset
  | V1Frame _ headers_offset _ => headers_offset
  end.

Definition serialize_instructions (ixs : list SVMInstruction) : list byte :=
  encode_short (len ixs) ++ flat_map encode_instruction ixs.

Definition legacy_parses (bytes : list byte) (num : Z) : bool :=
  let (frame, offset) := InstructionsFrame_try_new_for_legacy_and_v0 bytes 0 in
  let! frame := frame in
  (InstructionsFrame_num_instructions frame =? num) && (InstructionsFrame_offset frame =? 1) &&
  (offset =? len bytes).

Definition legacy_fails (bytes : list byte) : bool :=
  is_err (InstructionsFrame_try_new_for_legacy_and_v0 bytes 0).1.

Definition an_instruction : SVMInstruction := instruction 0 [1; 2; 3] [4; 5; 6; 7; 8; 9; 10].

Definition test_zero_instructions : bool := legacy_parses (serialize_instructions []) 0.
Definition test_num_instructions_too_high : bool :=
  legacy_fails (set 0 2 (serialize_instructions [instruction 0 [] []])).
Definition test_single_instruction : bool :=
  legacy_parses (serialize_instructions [an_instruction]) 1.
Definition test_multiple_instructions : bool :=
  legacy_parses
    (serialize_instructions [an_instruction; instruction 1 [4; 5; 6] [7; 8; 9; 10; 11; 12; 13]]) 2.
Definition test_invalid_instruction_accounts_vec : bool :=
  legacy_fails (set 2 127 (serialize_instructions [an_instruction])).
Definition test_invalid_instruction_data_vec : bool :=
  legacy_fails (set 6 127 (serialize_instructions [an_instruction])).

Definition test_txv1_instructions_iterator : bool :=
  let instructions := [an_instruction;
    instruction 10 [11; 12] [13; 14; 15; 16; 17; 18; 19; 20]] in
  let serialized := serialize_message
    (tx_message (create_v1_transaction 0 (header 0 0 0) [] instructions empty_config)) in
  let! frame := (InstructionsFrame_try_new_for_v1 2 serialized 42).1 in
  collect (InstructionsFrame_iter frame serialized) === Ok instructions.

Definition short_u16_1 (x : Z) : list byte := bytes_of [x].
Definition short_u16_2 (x : Z) : list byte :=
  bytes_of [Z.lor (Z.land x 0x7F) 0x80; Z.shiftr x 7].

(** The frame has one instruction, of so many accounts and data, with lengths of so
    many bytes. *)
Definition one_legacy_instruction (bytes : list byte) (accs n ds m : Z) : bool :=
  let (frame, offset) := InstructionsFrame_try_new_for_legacy_and_v0 bytes 0 in
  (offset =? len bytes) &&
  match frame with
  | Ok (LegacyAndV0Frame num_instructions offset [ix]) =>
      (num_instructions =? 1) && (offset =? 1) && (if_num_accounts ix =? accs) &&
      (if_data_len ix =? ds) && (if_num_accounts_len ix =? n) && (if_data_len_len ix =? m)
  | _ => false
  end.

Definition test_try_new_legacy_single_instruction : bool :=
  one_legacy_instruction (bytes_of [1; 7; 2; 3; 4; 3; 9; 8; 7]) 2 1 3 1.

Definition test_try_new_legacy_two_byte_lengths : bool :=
  let num_accounts := 128 in
  let data_len := 130 in
  let bytes := bytes_of [1; 42] ++ short_u16_2 num_accounts ++ filled num_accounts 5 ++
               short_u16_2 data_len ++ filled data_len 9 in
  one_legacy_instruction bytes num_accounts 2 data_len 2.

Definition v1_frame_is (r : Result InstructionsFrame) (num headers payloads : Z) : bool :=
  match r with
  | Ok (V1Frame num_instructions headers_offset payloads_offset) =>
      (num_instructions =? num) && (headers_offset =? headers) && (payloads_offset =? payloads)
  | _ => false
  end.

Definition v1_header_is (bytes : list byte) (offset pid accs data_len : Z) : bool :=
  let! hdr := (read_v1_header bytes offset).1 in
  (vh_program_id_index hdr =? pid) && (vh_num_accounts hdr =? accs) && (vh_data_len hdr =? data_len).

Definition test_try_new_for_v1_single_instruction : bool :=
  let bytes := bytes_of [9; 2; 3; 0; 10; 11; 1; 2; 3] in
  let (frame, offset) := InstructionsFrame_try_new_for_v1 1 bytes 0 in
  (offset =? len bytes) && v1_frame_is frame 1 0 4 && v1_header_is bytes 0 9 2 3.

Definition test_try_new_for_v1_two_instructions : bool :=
  let bytes := bytes_of [1; 2; 1; 0; 7; 1; 2; 0; 20; 21; 99; 42; 5; 6] in
  let (frame, offset) := InstructionsFrame_try_new_for_v1 2 bytes 0 in
  (offset =? len bytes) && v1_frame_is frame 2 0 8 &&
  v1_header_is bytes 0 1 2 1 && v1_header_is bytes 4 7 1 2.

Definition test_try_new_for_v1_truncated_header_fails : bool :=
  is_err (InstructionsFrame_try_new_for_v1 1 (bytes_of [9; 2; 3]) 0).1.

Definition test_try_new_for_v1_truncated_payload_fails : bool :=
  is_err (InstructionsFrame_try_new_for_v1 1 (bytes_of [9; 2; 3; 0; 10; 11; 1; 2]) 0).1.

Definition test_try_new_legacy_truncated_payload_fails : bool :=
  legacy_fails (bytes_of [1; 7; 1; 9; 3; 1; 2]).

Definition test_try_new_for_v1_zero_instructions : bool :=
  let (frame, offset) := InstructionsFrame_try_new_for_v1 0 [] 0 in
  (offset =? 0) && v1_frame_is frame 0 0 0.

Definition data_len_max_header_fails_parse : bool :=
  fails_with ParseError (InstructionsFrame_try_new_for_v1 1 (bytes_of [1; 1; 0xFF; 0xFF]) 0).1.

Definition test_try_new_legacy_zero_instructions : bool :=
  let (frame, offset) := InstructionsFrame_try_new_for_legacy_and_v0 (short_u16_1 0) 0 in
  (offset =? 1) &&
  match frame with
  | Ok (LegacyAndV0Frame num_instructions offset []) => (num_instructions =? 0) && (offset =? 1)
  | _ => false
  end.

Theorem instructions_frame_tests_pass :
  all_pass [test_zero_instructions; test_num_instructions_too_high; test_single_instruction;
    test_multiple_instructions; test_invalid_instruction_accounts_vec;
    test_invalid_instruction_data_vec; test_txv1_instructions_iterator;
    test_try_new_legacy_single_instruction; test_try_new_legacy_two_byte_lengths;
    test_try_new_for_v1_single_instruction; test_try_new_for_v1_two_instructions;
    test_try_new_for_v1_truncated_header_fails; test_try_new_for_v1_truncated_payload_fails;
    test_try_new_legacy_truncated_payload_fails; test_try_new_for_v1_zero_instructions;
    data_len_max_header_fails_parse; test_try_new_legacy_zero_instructions].
Proof. vm_compute. reflexivity. Qed.
