(* ===== verification/TestsTransaction.v ===== *)
(** * The unit tests of transaction_frame.rs and sanitize.rs

    The two test modules of transaction-view that work on whole transactions. *)

From Stdlib Require Import ZArith Lia Strings.Byte.
From stdpp Require Import base list numbers.
From S2P Require Import Prelude Cursor RustIterator Bytes SignatureFrame MessageHeaderFrame.
From S2P Require Import StaticAccountKeysFrame AddressTableLookupFrame InstructionsFrame.
From S2P Require Import TransactionConfigView MessageFrame Message TransactionFrame Views Sanitize.
From S2P Require Import TransactionView MessageView TestData.
Local Open Scope Z_scope.
Local Open Scope test_scope.

(** ** transaction_frame.rs *)

Definition verify_transaction_frame (tx : Transaction) : bool :=
  let m := tx_message tx in
  let! frame := TransactionFrame_try_new (serialize tx) in
  let message := tf_message frame in
  (sf_num_signatures (tf_signature frame) =? len (tx_signatures tx)) &&
  (sf_offset (tf_signature frame) =? 1) &&
  (MessageFrame_num_required_signatures message =? num_required_signatures (msg_header m)) &&
  (MessageFrame_num_readonly_signed_static_accounts message
    =? num_readonly_signed_accounts (msg_header m)) &&
  (MessageFrame_num_readonly_unsigned_static_accounts message
    =? num_readonly_unsigned_accounts (msg_header m)) &&
  (MessageFrame_num_static_account_keys message =? len (msg_account_keys m)) &&
  (MessageFrame_num_instructions message =? len (msg_instructions m)) &&
  (MessageFrame_num_address_table_lookups message =? len (msg_address_table_lookups m)).

Definition minimally_sized_transaction : Transaction :=
  create_legacy_transaction 1 (header 1 0 0) [zero_key] [].

(** As [Message::new] and [v0::Message::try_compile] compile the transfers: the
    system program is a read-only account, and accounts of a lookup table come after
    the static keys. *)
Definition simple_transfer : Transaction :=
  create_legacy_transaction 1 (header 1 0 1) [new_unique 1; new_unique 2; zero_key]
    [instruction 2 [0; 1] transfer_data].
Definition simple_transfer_v0 : Transaction :=
  create_v0_transaction 1 (header 1 0 1) [new_unique 1; new_unique 2; zero_key]
    [instruction 2 [0; 1] transfer_data] [].
Definition v0_with_single_lookup : Transaction :=
  create_v0_transaction 1 (header 1 0 1) [new_unique 1; zero_key]
    [instruction 1 [0; 2] transfer_data] [lookup (new_unique 3) [0] []].
Definition v0_with_multiple_lookups : Transaction :=
  create_v0_transaction 1 (header 1 0 1) [new_unique 1; zero_key]
    [instruction 1 [0; 2] transfer_data; instruction 1 [0; 3] transfer_data]
    [lookup (new_unique 4) [0] []; lookup (new_unique 5) [0] []].

Definition simple_v1_transaction : Transaction :=
  create_v1_transaction 1 (header 1 0 1) [new_unique 1; new_unique 2; new_unique 3]
    [instruction 2 [0; 1] [10; 11; 12]; instruction 2 [] [99]]
    {| cfg_priority_fee_lamports := Some 123; cfg_compute_unit_limit := Some 456;
       cfg_loaded_accounts_data_size_limit := Some 789; cfg_requested_heap_size := Some 1024 |}.

Definition test_minimal_sized_transaction : bool :=
  verify_transaction_frame minimally_sized_transaction.
Definition test_simple_transfer : bool := verify_transaction_frame simple_transfer.
Definition test_simple_transfer_v0 : bool := verify_transaction_frame simple_transfer_v0.
Definition test_v0_with_lookup : bool := verify_transaction_frame v0_with_single_lookup.

Definition test_trailing_byte : bool :=
  is_err (TransactionFrame_try_new (serialize simple_transfer ++ [x00])).

Definition test_insufficient_bytes : bool :=
  is_err (TransactionFrame_try_new (removelast (serialize simple_transfer))).

(** A compact length of [u16::MAX] and more at an offset. *)
Definition overflow_at (offset : Z) (bytes : list byte) : list byte :=
  set offset 0xFF (set (offset + 1) 0xFF (set (offset + 2) 0xFF bytes)).

Definition test_signature_overflow : bool :=
  is_err (TransactionFrame_try_new (overflow_at 0 (serialize simple_transfer))).

Definition test_account_key_overflow : bool :=
  let offset := 1 + size_of_Signature + 3 in
  is_err (TransactionFrame_try_new (overflow_at offset (serialize simple_transfer))).

Definition test_instructions_overflow : bool :=
  let offset := 1 + size_of_Signature + 3 + 1 + 3 * size_of_Pubkey + size_of_Hash in
  is_err (TransactionFrame_try_new (overflow_at offset (serialize simple_transfer))).

Definition test_alt_overflow : bool :=
  let tx := simple_transfer_v0 in
  let* ix := head (msg_instructions (tx_message tx)) in
  let ix_bytes := len (data ix) in
  let offset := 1 + size_of_Signature + 1 + 3 + 1 + 3 * size_of_Pubkey + size_of_Hash
                + 1 + 1 + 1 + 2 + 1 + ix_bytes in
  is_err (TransactionFrame_try_new (set offset 1 (serialize tx))).

Definition test_basic_accessors : bool :=
  let tx := simple_transfer in
  let bytes := serialize tx in
  let! frame := TransactionFrame_try_new bytes in
  let message := tf_message frame in
  (sf_num_signatures (tf_signature frame) =? 1) && (MessageFrame_version message === Legacy) &&
  (MessageFrame_num_required_signatures message =? 1) &&
  (MessageFrame_num_readonly_signed_static_accounts message =? 0) &&
  (MessageFrame_num_readonly_unsigned_static_accounts message =? 1) &&
  (MessageFrame_num_static_account_keys message =? 3) &&
  (MessageFrame_num_instructions message =? 1) &&
  (MessageFrame_num_address_table_lookups message =? 0) &&
  (SignatureFrame_signatures (tf_signature frame) bytes === Ok (tx_signatures tx)) &&
  (MessageFrame_static_account_keys message bytes === Ok (msg_account_keys (tx_message tx))) &&
  (MessageFrame_recent_blockhash message bytes === Ok (msg_recent_blockhash (tx_message tx))).

(** The instructions that the iterator returns before it ends. *)
Definition instructions_are (tx : Transaction) (expected : list SVMInstruction) : bool :=
  let bytes := serialize tx in
  let! frame := TransactionFrame_try_new bytes in
  collect (MessageFrame_instructions_iter (tf_message frame) bytes) === Ok expected.

Definition test_instructions_iter_empty : bool := instructions_are minimally_sized_transaction [].
Definition test_instructions_iter_single : bool :=
  instructions_are simple_transfer [instruction 2 [0; 1] transfer_data].
Definition test_instructions_iter_multiple : bool :=
  instructions_are multiple_transfers
    [instruction 3 [0; 1] transfer_data; instruction 3 [0; 2] transfer_data].

Definition lookups_are (tx : Transaction) (expected : list SVMMessageAddressTableLookup) : bool :=
  let bytes := serialize tx in
  let! frame := TransactionFrame_try_new bytes in
  match collect (MessageFrame_address_table_lookup_iter (tf_message frame) bytes) with
  | Ok lookups =>
      (map account_key lookups === map account_key expected) &&
      (map writable_indexes lookups === map writable_indexes expected) &&
      (map readonly_indexes lookups === map readonly_indexes expected)
  | _ => false
  end.

Definition test_address_table_lookup_iter_empty : bool := lookups_are simple_transfer [].
Definition test_address_table_lookup_iter_single : bool :=
  lookups_are v0_with_single_lookup (msg_address_table_lookups (tx_message v0_with_single_lookup)).
Definition test_address_table_lookup_iter_multiple : bool :=
  lookups_are v0_with_multiple_lookups
    (msg_address_table_lookups (tx_message v0_with_multiple_lookups)).

Definition test_v1_transaction_frame_parses : bool :=
  let! frame := TransactionFrame_try_new (serialize simple_v1_transaction) in
  let message := tf_message frame in
  (MessageFrame_version message === V1) && (sf_num_signatures (tf_signature frame) =? 1) &&
  (MessageFrame_num_required_signatures message =? 1) &&
  (MessageFrame_num_readonly_signed_static_accounts message =? 0) &&
  (MessageFrame_num_readonly_unsigned_static_accounts message =? 1) &&
  (MessageFrame_num_static_account_keys message =? 3) &&
  (MessageFrame_num_instructions message =? 2) &&
  (MessageFrame_num_address_table_lookups message =? 0) &&
  (MessageFrame_total_writable_lookup_accounts message =? 0) &&
  (MessageFrame_total_readonly_lookup_accounts message =? 0) &&
  ((MessageFrame_message_range message).1 <? sf_offset (tf_signature frame)).

Definition test_v1_is_not_legacy_or_v0 : bool :=
  is_legacy_or_v0 (serialize simple_v1_transaction) === Ok false.
Definition test_legacy_is_legacy_or_v0 : bool :=
  is_legacy_or_v0 (serialize (create_transaction 1 empty_message)) === Ok true.
Definition test_is_legacy_or_v0_empty_bytes : bool := fails_with ParseError (is_legacy_or_v0 []).

Definition test_v1_rejects_unknown_version : bool :=
  fails_with ParseError
    (TransactionFrame_try_new
       (set 0 (Z.lor MESSAGE_VERSION_PREFIX 2) (serialize simple_v1_transaction))).

Definition test_v1_rejects_trailing_byte : bool :=
  fails_with ParseError (TransactionFrame_try_new (serialize simple_v1_transaction ++ [x00])).

Definition test_rejects_bytes_with_unrepresentable_frame_offsets : bool :=
  let bytes :=
    bytes_of [V1_PREFIX; 1; 0; 0] ++ le_bytes 4 0 ++ filled 32 0 ++ bytes_of [1; 1] ++
    filled 32 1 ++ bytes_of [0; 0] ++ le_bytes 2 (umax U16) ++ filled (umax U16) 0 ++
    filled 64 0 in
  (umax U16 <? len bytes) && fails_with ParseError (TransactionFrame_try_new bytes).

Definition test_v1_rejects_truncated_bytes : bool :=
  fails_with ParseError (TransactionFrame_try_new (removelast (serialize simple_v1_transaction))).

Definition test_v1_instruction_iteration : bool :=
  instructions_are simple_v1_transaction
    [instruction 2 [0; 1] [10; 11; 12]; instruction 2 [] [99]].

Theorem transaction_frame_tests_pass :
  all_pass [test_minimal_sized_transaction; test_simple_transfer; test_simple_transfer_v0;
    test_v0_with_lookup; test_trailing_byte; test_insufficient_bytes; test_signature_overflow;
    test_account_key_overflow; test_instructions_overflow; test_alt_overflow;
    test_basic_accessors; test_instructions_iter_empty; test_instructions_iter_single;
    test_instructions_iter_multiple; test_address_table_lookup_iter_empty;
    test_address_table_lookup_iter_single; test_address_table_lookup_iter_multiple;
    test_v1_transaction_frame_parses; test_v1_is_not_legacy_or_v0;
    test_legacy_is_legacy_or_v0; test_is_legacy_or_v0_empty_bytes;
    test_v1_rejects_unknown_version; test_v1_rejects_trailing_byte;
    test_rejects_bytes_with_unrepresentable_frame_offsets; test_v1_rejects_truncated_bytes;
    test_v1_instruction_iteration].
Proof. vm_compute. reflexivity. Qed.

(** ** sanitize.rs *)

(** [TransactionView::try_new_unsanitized(wincode::serialize(&transaction))]. *)
Definition unsanitized (tx : Transaction) : Result (TransactionView false (list byte)) :=
  TransactionView_try_new_unsanitized (serialize tx).

(** A check of the message of a transaction that parses. *)
Definition message_check (check : MessageViewRef false -> Result unit) (tx : Transaction)
    (assertion : Result unit -> bool) : bool :=
  let! view := unsanitized tx in
  let! message := TransactionView_message view in
  assertion (check message).

Definition passes (check : MessageViewRef false -> Result unit) (tx : Transaction) : bool :=
  message_check check tx is_ok.
Definition rejects (check : MessageViewRef false -> Result unit) (tx : Transaction) : bool :=
  message_check check tx (fails_with SanitizeError).

Definition test_sanitize_multiple_transfers : bool :=
  let! view := unsanitized multiple_transfers in is_ok (TransactionView_sanitize view).

Definition test_sanitize_transaction_size_too_large : bool :=
  let! view := unsanitized
    (create_legacy_transaction 1 (header 1 0 1) [new_unique 1; new_unique 2]
       [{| program_id_index := 1; accounts := bytes_of [0]; data := filled 5000 0 |}]) in
  fails_with SanitizeError (sanitize_transaction_size view).

Definition test_sanitize_signatures : bool :=
  (let! view := unsanitized (create_legacy_transaction 1 (header 2 0 0) (new_uniques 3) []) in
   fails_with SanitizeError (sanitize_signatures view)) &&
  (let! view := unsanitized (create_legacy_transaction 2 (header 1 0 0) (new_uniques 3) []) in
   fails_with SanitizeError (sanitize_signatures view)) &&
  rejects sanitize_required_signatures
    (create_legacy_transaction 2 (header 2 0 0) (new_uniques 1) []) &&
  passes sanitize_required_signatures
    (create_legacy_transaction 13 (header 13 0 0) (new_uniques 13) []) &&
  passes sanitize_required_signatures
    (create_v1_transaction 13 (header 13 0 0) (new_uniques 13) [] empty_config) &&
  rejects sanitize_required_signatures
    (create_v0_transaction 2 (header 2 0 0) (new_uniques 1) []
       [lookup (new_unique 2) [0; 1; 2; 3; 4; 5] [6; 7; 8]]).

Definition test_sanitize_account_access : bool :=
  fails_with ParseError (unsanitized (create_legacy_transaction 0 (header 0 0 0) (new_uniques 1) [])) &&
  rejects sanitize_message_header
    (create_v1_transaction 0 (header 0 0 0) (new_uniques 1) [] empty_config) &&
  rejects sanitize_message_header
    (create_legacy_transaction 1 (header 1 0 2) (new_uniques 2) []) &&
  rejects sanitize_message_header
    (create_legacy_transaction 1 (header 1 1 0) (new_uniques 2) []) &&
  rejects sanitize_account_access
    (create_v0_transaction 2 (header 2 0 0) (new_uniques 1) []
       [lookup (new_unique 2) (range 0 100) (range 100 200);
        lookup (new_unique 3) (range 100 200) (range 0 100)]) &&
  passes sanitize_account_access
    (create_v1_transaction 1 (header 1 0 63) (new_uniques 65) [] empty_config).

(** The instructions with one of them changed. *)
Definition modify (i : nat) (f : SVMInstruction -> SVMInstruction) (ixs : list SVMInstruction) :
    list SVMInstruction := alter f i ixs.
Definition with_program (p : Z) (ix : SVMInstruction) : SVMInstruction :=
  {| program_id_index := p; accounts := accounts ix; data := data ix |}.
Definition push_account (a : Z) (ix : SVMInstruction) : SVMInstruction :=
  {| program_id_index := program_id_index ix; accounts := accounts ix ++ [byte_of_Z a];
     data := data ix |}.

Definition test_sanitize_instructions : bool :=
  let h := header 1 0 1 in
  let account_keys := new_uniques 3 in
  let valid_instructions := [instruction 1 [0; 1] [1; 2; 3]; instruction 2 [1; 0] [3; 2; 1; 4]] in
  let atls := [lookup (new_unique 4) [0; 1] [2]] in
  let legacy instructions := create_legacy_transaction 1 h account_keys instructions in
  let v0 instructions := create_v0_transaction 1 h account_keys instructions atls in
  let sanitized tx := is_ok (TransactionView_try_new_sanitized (serialize tx)) in
  let too_many := take 65 (concat (repeat valid_instructions 33)) in
  let accounts_of n :=
    {| program_id_index := 2; accounts := filled 254 0 ++ bytes_of (range 1 n); data := [] |} in
  passes sanitize_instructions (legacy valid_instructions) &&
  passes sanitize_instructions (v0 valid_instructions) &&
  forallb (fun i =>
    let change f := modify i f valid_instructions in
    rejects sanitize_instructions (legacy (change (with_program (len account_keys)))) &&
    rejects sanitize_instructions (v0 (change (with_program (len account_keys)))) &&
    rejects sanitize_instructions (legacy (change (with_program 0))) &&
    rejects sanitize_instructions (legacy (change (push_account (len account_keys)))) &&
    rejects sanitize_instructions (v0 (change (push_account (len account_keys + 3))))) [0; 1]%nat &&
  passes sanitize_instructions (legacy too_many) && sanitized (legacy too_many) &&
  passes sanitize_instructions (v0 too_many) && sanitized (v0 too_many) &&
  passes sanitize_instructions (legacy [accounts_of 3]) && sanitized (legacy [accounts_of 3]) &&
  passes sanitize_instructions (legacy [accounts_of 2]).

Definition test_sanitize_address_table_lookups : bool :=
  forallb (fun empty_index =>
    let index_of i := if Nat.eqb i empty_index then [] else [0; 1] in
    rejects sanitize_address_table_lookups
      (create_v0_transaction 1 (header 1 0 0) [new_unique 1] []
         [lookup (new_unique 2) (index_of 0%nat) []; lookup (new_unique 3) (index_of 1%nat) []]))
    [0; 1]%nat.

(** [v1::MAX_TRANSACTION_SIZE] is a constant of solana-message, 4096 bytes. *)
Definition test_v1_accepts_policy_values (v1_MAX_TRANSACTION_SIZE : Z) : bool :=
  let config :=
    {| cfg_priority_fee_lamports := None; cfg_compute_unit_limit := None;
       cfg_loaded_accounts_data_size_limit := None; cfg_requested_heap_size := Some 1025 |} in
  let transaction :=
    create_v1_transaction 13 (header 13 0 0) (new_uniques 96) (repeat (instruction 13 [0] []) 65)
      config in
  let data := serialize transaction in
  (v1_MAX_TRANSACTION_SIZE <? len data) && is_ok (TransactionView_try_new_sanitized data) &&
  is_ok (MessageView_try_new_sanitized (serialize_message (tx_message transaction))).

Theorem sanitize_tests_pass :
  all_pass [test_sanitize_multiple_transfers; test_sanitize_transaction_size_too_large;
    test_sanitize_signatures; test_sanitize_account_access; test_sanitize_instructions;
    test_sanitize_address_table_lookups; test_v1_accepts_policy_values 4096].
Proof. vm_compute. reflexivity. Qed.
