(* ===== verification/TestsViews.v ===== *)
(** * The unit tests of the views

    The test modules of transaction_view.rs, message_view.rs and
    resolved_transaction_view.rs of transaction-view. *)

From Stdlib Require Import ZArith Lia Strings.Byte.
From stdpp Require Import base list numbers gmap sets.
From S2P Require Import Prelude Cursor RustIterator Bytes SignatureFrame MessageHeaderFrame.
From S2P Require Import StaticAccountKeysFrame AddressTableLookupFrame InstructionsFrame.
From S2P Require Import TransactionConfigView MessageFrame Message TransactionFrame Views Sanitize.
From S2P Require Import TransactionView SvmStaticMessage MessageView ResolvedTransactionView TestData.
Local Open Scope Z_scope.
Local Open Scope rust_scope.
Local Open Scope test_scope.

(** ** transaction_view.rs *)

Definition try_new_unsanitized (bytes : list byte) : Result (TransactionView false (list byte)) :=
  TransactionView_try_new_unsanitized bytes.

Definition verify_transaction_view_frame (tx : Transaction) : bool :=
  let m := tx_message tx in
  let! view := try_new_unsanitized (serialize tx) in
  (TransactionView_num_signatures view =? len (tx_signatures tx)) &&
  (TransactionView_num_required_signatures view =? num_required_signatures (msg_header m)) &&
  (TransactionView_num_readonly_signed_static_accounts view
    =? num_readonly_signed_accounts (msg_header m)) &&
  (TransactionView_num_readonly_unsigned_static_accounts view
    =? num_readonly_unsigned_accounts (msg_header m)) &&
  (TransactionView_num_static_account_keys view =? len (msg_account_keys m)) &&
  (TransactionView_num_instructions view =? len (msg_instructions m)) &&
  (TransactionView_num_address_table_lookups view =? len (msg_address_table_lookups m)) &&
  let! config := TransactionView_transaction_config view in is_none config.

Definition test_multiple_transfers : bool := verify_transaction_view_frame multiple_transfers.

Definition simple_v1_transaction : Transaction :=
  create_v1_transaction 1 (header 1 0 0) [new_unique 1; new_unique 2]
    [instruction 1 [0] [1; 2; 3; 4]]
    {| cfg_priority_fee_lamports := Some 111; cfg_compute_unit_limit := Some 222;
       cfg_loaded_accounts_data_size_limit := Some 333; cfg_requested_heap_size := Some 1024 |}.

Definition test_v1_transaction_config_present : bool :=
  let! view := try_new_unsanitized (serialize simple_v1_transaction) in
  let! config := TransactionView_transaction_config view in
  let* config := config in
  (TransactionView_version view === V1) &&
  (priority_fee_lamports config === Ok (Some 111)) &&
  (compute_unit_limit config === Ok (Some 222)) &&
  (loaded_accounts_data_size_limit config === Ok (Some 333)) &&
  (requested_heap_size config === Ok (Some 1024)).

Definition test_v1_message_data_excludes_signatures : bool :=
  let bytes := serialize simple_v1_transaction in
  let! view := try_new_unsanitized bytes in
  let! message_data := TransactionView_message_data view in
  let frame := tv_frame view in
  (len message_data <? len bytes) &&
  (index_range (E := TransactionViewError) bytes (MessageFrame_message_range (tf_message frame)).1
     (sf_offset (tf_signature frame)) === Ok message_data).

Definition test_v1_signatures_accessible : bool :=
  let! view := try_new_unsanitized (serialize simple_v1_transaction) in
  let! signatures := TransactionView_signatures view in
  let! static_account_keys := TransactionView_static_account_keys view in
  let! instructions := TransactionView_instructions_iter view in
  (len signatures =? 1) && (len static_account_keys =? 2) &&
  (collect instructions === Ok [instruction 1 [0] [1; 2; 3; 4]]).

Definition test_set_recent_blockhash : bool :=
  forallb (fun tx =>
    let! view := TransactionView_try_new_sanitized (serialize tx) in
    let recent_blockhash := filled 32 7 in
    let! view := TransactionView_set_recent_blockhash recent_blockhash view in
    (TransactionView_recent_blockhash view === Ok recent_blockhash) &&
    (TransactionView_data view === Ok (serialize (tx_with_blockhash recent_blockhash tx))))
    [multiple_transfers; simple_v1_transaction].

Definition append_trailing_bytes (transaction_bytes : list byte) : list byte :=
  transaction_bytes ++ filled 7 0xAA.

Definition test_try_new_unsanitized_rejects_trailing_bytes : bool :=
  is_err (try_new_unsanitized (append_trailing_bytes (serialize multiple_transfers))).

(** Parsing the prefix consumes the transaction and exposes no trailing bytes. *)
Definition prefix_is {S} (r : Result (TransactionView S (list byte) * Z)) (tx : Transaction)
    (assertion : TransactionView S (list byte) -> bool) : bool :=
  let! parsed := r in
  (parsed.2 =? len (serialize tx)) && (TransactionView_data parsed.1 === Ok (serialize tx)) &&
  assertion parsed.1.

Definition test_from_prefix_ignores_trailing_bytes_legacy : bool :=
  prefix_is
    (TransactionView_try_new_unsanitized_from_prefix
       (append_trailing_bytes (serialize multiple_transfers))) multiple_transfers
    (fun view => (TransactionView_version view === Legacy) &&
                 (TransactionView_num_instructions view =? 2)).

Definition test_from_prefix_ignores_trailing_bytes_v1 : bool :=
  prefix_is
    (TransactionView_try_new_unsanitized_from_prefix
       (append_trailing_bytes (serialize simple_v1_transaction))) simple_v1_transaction
    (fun view => (TransactionView_version view === V1) &&
       let! signatures := TransactionView_signatures view in len signatures =? 1).

Definition test_from_prefix_still_rejects_truncated_transaction : bool :=
  is_err (TransactionView_try_new_unsanitized_from_prefix
            (removelast (serialize multiple_transfers))).

Definition test_sanitized_from_prefix : bool :=
  prefix_is
    (TransactionView_try_new_sanitized_from_prefix
       (append_trailing_bytes (serialize multiple_transfers))) multiple_transfers (fun _ => true).

Definition test_from_prefix_splits_concatenated_transactions_from_bytes_buffer : bool :=
  let buffer := serialize multiple_transfers ++ serialize simple_v1_transaction in
  let! first := TransactionView_try_new_unsanitized_from_prefix buffer in
  let! second_view := try_new_unsanitized (drop (Z.to_nat first.2) buffer) in
  (TransactionView_data first.1 === Ok (serialize multiple_transfers)) &&
  (TransactionView_version first.1 === Legacy) &&
  (TransactionView_data second_view === Ok (serialize simple_v1_transaction)) &&
  (TransactionView_version second_view === V1).

Theorem transaction_view_tests_pass :
  all_pass [test_multiple_transfers; test_v1_transaction_config_present;
    test_v1_message_data_excludes_signatures; test_v1_signatures_accessible;
    test_set_recent_blockhash; test_try_new_unsanitized_rejects_trailing_bytes;
    test_from_prefix_ignores_trailing_bytes_legacy; test_from_prefix_ignores_trailing_bytes_v1;
    test_from_prefix_still_rejects_truncated_transaction; test_sanitized_from_prefix;
    test_from_prefix_splits_concatenated_transactions_from_bytes_buffer].
Proof. vm_compute. reflexivity. Qed.

(** ** message_view.rs *)

(** Signs with a placeholder signature per required signer. *)
Definition sign (message : Message) : Transaction :=
  create_transaction (num_required_signatures (msg_header message)) message.

Definition verify_message_view (message : Message) : bool :=
  let message_bytes := serialize_message message in
  let h := msg_header message in
  let! message_view := MessageView_try_new_sanitized message_bytes in
  let! instructions := MessageView_instructions_iter message_view in
  let! lookups := MessageView_address_table_lookup_iter message_view in
  let! config := MessageView_transaction_config message_view in
  let! transaction_view := try_new_unsanitized (serialize (sign message)) in
  (MessageView_data message_view === Ok message_bytes) &&
  (MessageView_num_required_signatures message_view =? num_required_signatures h) &&
  (MessageView_num_readonly_signed_static_accounts message_view
    =? num_readonly_signed_accounts h) &&
  (MessageView_num_readonly_unsigned_static_accounts message_view
    =? num_readonly_unsigned_accounts h) &&
  (MessageView_static_account_keys message_view === Ok (msg_account_keys message)) &&
  (MessageView_recent_blockhash message_view === Ok (msg_recent_blockhash message)) &&
  (collect instructions === Ok (msg_instructions message)) &&
  (match collect lookups with
   | Ok lookups =>
       map (fun a => (account_key a, writable_indexes a, readonly_indexes a)) lookups ===
       map (fun a => (account_key a, writable_indexes a, readonly_indexes a))
         (msg_address_table_lookups message)
   | _ => false
   end) &&
  Bool.eqb (negb (is_none config)) (msg_version message === V1) &&
  (match svm_version message_view, msg_version message with
   | VersionLegacy, Legacy => true
   | VersionNumber n, V0 => n =? 0
   | VersionNumber n, V1 => n =? 1
   | _, _ => false
   end) &&
  (TransactionView_message_data transaction_view === Ok message_bytes).

Definition test_legacy_message : bool := verify_message_view (tx_message multiple_transfers).

Definition test_v0_message : bool :=
  verify_message_view (with_blockhash (filled 32 7)
    (tx_message (create_v0_transaction 1 (header 1 0 1) [new_unique 1; zero_key]
       [instruction 1 [0; 2] transfer_data] [lookup (new_unique 3) [0] []]))).

Definition test_v1_message : bool :=
  verify_message_view (with_blockhash (filled 32 7)
    (tx_message (create_v1_transaction 1 (header 1 0 1) [new_unique 1; new_unique 2]
       [instruction 1 [0] [1; 2; 3; 4]]
       {| cfg_priority_fee_lamports := Some 111; cfg_compute_unit_limit := Some 222;
          cfg_loaded_accounts_data_size_limit := Some 333;
          cfg_requested_heap_size := Some (32 * 1024) |}))).

Definition test_message_try_new_unsanitized_rejects_invalid_bytes : bool :=
  let trailing_bytes := serialize_message empty_message ++ [x00] in
  let unknown_version := bytes_of [Z.lor MESSAGE_VERSION_PREFIX 2; 1; 0; 0] in
  forallb (fun bytes => fails_with ParseError (MessageView_try_new_unsanitized bytes))
    [[]; unknown_version; trailing_bytes].

(** A transaction of a version with so many signers, keys and bytes of data. *)
Definition transaction_of (version : TransactionVersion) (signers keys data_len : Z) : Transaction :=
  let h := header signers 0 0 in
  let instructions :=
    [{| program_id_index := keys - 1; accounts := bytes_of [0]; data := filled data_len 0 |}] in
  match version with
  | Legacy => create_legacy_transaction signers h (new_uniques keys) instructions
  | V0 => create_v0_transaction signers h (new_uniques keys) instructions []
  | V1 => create_v1_transaction signers h (new_uniques keys) instructions empty_config
  end.

Definition test_sanitize_matches_signed_transaction (v1_MAX_TRANSACTION_SIZE : Z) : bool :=
  let cases :=
    [(transaction_of Legacy 0 2 0, false); (transaction_of Legacy 3 2 0, false);
     (transaction_of V1 13 14 0, true)] ++
    flat_map (fun c =>
      let '(version, max_transaction_size) := c in
      let max_data_len :=
        max_transaction_size - len (serialize (transaction_of version 1 2 128)) + 128 in
      [(transaction_of version 1 2 max_data_len, true);
       (transaction_of version 1 2 (max_data_len + 1), version === V1)])
      [(Legacy, PACKET_DATA_SIZE); (V0, PACKET_DATA_SIZE); (V1, v1_MAX_TRANSACTION_SIZE)] in
  forallb (fun '(transaction, expect_ok) =>
    Bool.eqb (is_ok (MessageView_try_new_sanitized (serialize_message (tx_message transaction))))
      expect_ok &&
    Bool.eqb (is_ok (TransactionView_try_new_sanitized (serialize transaction))) expect_ok) cases.

Theorem message_view_tests_pass :
  all_pass [test_legacy_message; test_v0_message; test_v1_message;
    test_message_try_new_unsanitized_rejects_invalid_bytes;
    test_sanitize_matches_signed_transaction 4096].
Proof. vm_compute. reflexivity. Qed.

(** ** resolved_transaction_view.rs *)

(** [AccountKeys] chains the static and the loaded keys; the loader has some id. *)
#[local] Instance test_crates : SolanaCrates := {
  account_keys_iter static loaded :=
    static ++ match loaded with Some l => writable l ++ readonly l | None => [] end;
  bpf_loader_upgradeable_ID := filled 32 200 }.

Definition no_keys : gset (list byte) := ∅.

Definition resolve (transaction : Transaction) (loaded : option LoadedAddresses)
    (reserved : gset (list byte)) :
    Result (ResolvedTransactionView (list byte) LoadedAddresses) :=
  let? view := TransactionView_try_new_sanitized (serialize transaction) in
  ResolvedTransactionView_try_new view loaded reserved.

(** The view of the transaction is sanitized, and resolving it fails. *)
Definition mismatches (transaction : Transaction) (loaded : option LoadedAddresses) : bool :=
  is_ok (TransactionView_try_new_sanitized (serialize transaction)) &&
  fails_with AddressLookupMismatch (resolve transaction loaded no_keys).

Definition one_of_each : SVMMessageAddressTableLookup := lookup (new_unique 9) [0] [1].

Definition test_expected_loaded_addresses : bool :=
  mismatches (create_v0_transaction 1 (header 1 0 0) (new_uniques 2) [] [one_of_each]) None.

Definition test_unexpected_loaded_addresses : bool :=
  mismatches (create_v0_transaction 1 (header 1 0 0) (new_uniques 2) [] [])
    (Some {| la_writable := [new_unique 3]; la_readonly := [] |}).

Definition test_mismatched_loaded_address_lengths : bool :=
  mismatches (create_v0_transaction 1 (header 1 0 0) (new_uniques 2) [] [one_of_each])
    (Some {| la_writable := [new_unique 3]; la_readonly := [] |}).

Definition sysvar_clock : list byte := filled 32 201.
Definition system_program : list byte := zero_key.

(** The accounts that can be written, in order. *)
Definition writable_are (r : Result (ResolvedTransactionView (list byte) LoadedAddresses))
    (expected : list bool) : bool :=
  let! resolved_view := r in
  map (fun i => ResolvedTransactionView_is_writable resolved_view (Z.of_nat i))
    (seq 0 (length expected)) === expected.

Definition create_transaction_with_keys (static_keys : list (list byte)) (loaded : LoadedAddresses) :
    Transaction :=
  let w := len (la_writable loaded) in
  create_v0_transaction 1 (header 1 0 1) (take 2 static_keys) []
    [lookup (new_unique 9) (range (len static_keys) (len static_keys + w))
       (range (len static_keys + w) (len static_keys + w + len (la_readonly loaded)))].

Definition test_is_writable : bool :=
  let reserved : gset (list byte) := {[sysvar_clock; system_program]} in
  let key n := new_unique (10 + n) in
  let case static_keys loaded expected :=
    writable_are (resolve (create_transaction_with_keys static_keys loaded) (Some loaded) reserved)
      expected in
  case [sysvar_clock; key 0] {| la_writable := [key 1]; la_readonly := [key 2] |}
    [false; false; true; false] &&
  case [system_program; key 0] {| la_writable := [key 1]; la_readonly := [key 2] |}
    [false; false; true; false] &&
  case [key 0; key 1] {| la_writable := [system_program]; la_readonly := [key 2] |}
    [true; false; false; false].

Definition create_transaction_with_static_keys (static_keys : list (list byte))
    (loaded : LoadedAddresses) : Transaction :=
  let w := len (la_writable loaded) in
  create_v0_transaction 1 (header 1 0 0) static_keys [instruction 1 [0] []]
    [lookup (new_unique 9) (range 0 w) (range w (w + len (la_readonly loaded)))].

Definition test_demote_writable_program : bool :=
  let key n := new_unique (10 + n) in
  let loaded := {| la_writable := [key 3; key 4]; la_readonly := [] |} in
  let loaded' := {| la_writable := [key 3]; la_readonly := [bpf_loader_upgradeable_ID] |} in
  let case static_keys loaded expected :=
    writable_are
      (resolve (create_transaction_with_static_keys static_keys loaded) (Some loaded) no_keys)
      expected in
  case [key 0; key 1; key 2] loaded [true; false; true; true; true] &&
  case [key 0; key 1; bpf_loader_upgradeable_ID] loaded [true; true; true; true; true] &&
  case [key 0; key 1; key 2] loaded' [true; true; true; true; false].

Theorem resolved_transaction_view_tests_pass :
  all_pass [test_expected_loaded_addresses; test_unexpected_loaded_addresses;
    test_mismatched_loaded_address_lengths; test_is_writable; test_demote_writable_program].
Proof. vm_compute. reflexivity. Qed.
