(* ===== verification/TestsEvents.v ===== *)
(** * The unit tests of the event system and of the handshake's client

    The tests of queue_cell.rs, backend/linux.rs and backend/linux/subscriber.rs, of
    tests/stream_name.rs and tests/stream_policy.rs (those on policies as such), and of
    scheduler-handshake/src/client.rs. *)

From Stdlib Require Import ZArith Lia Strings.Byte Strings.String.
From stdpp Require Import base list numbers.
From S2P Require Import Prelude RustStr StreamName StreamPolicy QueueCell FileSystem StreamQueue.
From S2P Require Import Subscriber HandshakeShared HandshakeWire TestKit.
Local Open Scope Z_scope.
Local Open Scope test_scope.

(** ** stream_name.rs *)

Definition rejected_name (e : StreamNameValidationError) (name : str) : bool :=
  match StreamName_try_new name, e with
  | Err InvalidCharacter, InvalidCharacter | Err Empty, Empty
  | Err ReservedDirectoryName, ReservedDirectoryName => true
  | _, _ => false
  end.

Definition try_new_rejects_invalid_names : bool :=
  forallb (rejected_name InvalidCharacter)
    [lit "stream" ++ [0] ++ lit "name"; lit "nested/stream"; lit "../stream"; lit "./stream";
     lit "stream/../other"; lit "..\stream"; lit "/absolute"; lit "trailing/"; lit "trailing//";
     lit "trailing/."; lit "stream name"; lit "stream" ++ [0x9] ++ lit "name";
     lit "stream" ++ [0xA] ++ lit "name"; lit "stream,other"; lit "stream=on"; lit "stream\name";
     lit "stream_/name"; [0x1F980]; [0x754C]].

Definition try_new_rejects_invalid_directory_names : bool :=
  rejected_name Empty [] && rejected_name ReservedDirectoryName (lit ".") &&
  rejected_name ReservedDirectoryName (lit "..").

Definition sucessful_macro_evaluates_to_same_result_as_constructor : bool :=
  forallb (fun name =>
    let! stream_name := stream_name name in
    (StreamName_as_str stream_name === name) &&
    match StreamName_try_new name with Ok n => n === stream_name | _ => false end)
    [lit "stream_a"; lit "_"; lit "_stream_a_"; lit "solana_core"; lit "solana_core::replay_stage";
     lit "solana_core::replay_stage::slot_events"; lit "slot.events:v1"; lit ".hidden";
     lit ".test"; lit "..tests"; lit "test.stream-events"; lit "trailing."; lit "..."].

Theorem stream_name_tests_pass :
  all_pass [try_new_rejects_invalid_names; try_new_rejects_invalid_directory_names;
    sucessful_macro_evaluates_to_same_result_as_constructor].
Proof. vm_compute. reflexivity. Qed.

(** ** stream_policy.rs *)

#[local] Instance StreamPolicy_eq_dec : EqDecision StreamPolicy.
Proof. solve_decision. Defined.

Definition tab : str := [0x9].
Definition newline : str := [0xA].
Definition return' : str := [0xD].

(** Two texts parse to the same policy. *)
Definition same_policy (text1 text2 : str) : bool :=
  let! policy1 := StreamPolicy_from_str text1 in
  let! policy2 := StreamPolicy_from_str text2 in policy1 === policy2.

Definition policies_matches_off : bool :=
  forallb (fun text => same_policy text (lit "off")) [lit " "; tab; []] &&
  let! off_policy := StreamPolicy_from_str (lit "off") in StreamPolicy_default === off_policy.

Definition last_rule_wins : bool :=
  same_policy (lit "off, network.=on, on, network.=off") (lit "on, network.=off").

Definition accepts_distinct_prefixes : bool :=
  is_ok (StreamPolicy_from_str (lit "network.=on,network.repair=off")) &&
  is_ok (StreamPolicy_from_str (lit "Network.=on,network.=off")).

Definition normalizes_policy : bool :=
  forallb (fun '(format_1, format_2) =>
      negb (format_1 === format_2) && same_policy format_1 format_2)
    [([], lit "off"); (lit " " ++ tab ++ return' ++ newline ++ lit " ", lit "off");
     (lit "banking_stage", lit "banking_stage=on");
     (lit " " ++ tab ++ lit " network. " ++ newline, lit "network.=on");
     (lit "network.,banking_stage", lit "network.=on,banking_stage=on");
     (lit "off,network.", lit "off,network.=on"); (lit "network.,on", lit "on,network.=on");
     (lit "network.,off,banking_stage", lit "off,network.=on,banking_stage=on");
     (lit "off,network.,network.repair=off", lit "off,network.=on,network.repair=off");
     (lit "off,off=", lit "off,off=on"); (lit "ON=", lit "ON=on");
     (lit "banking_stage=off,banking_stage", lit "banking_stage=on");
     (lit "banking_stage=", lit "banking_stage=on");
     (lit "banking_stage= " ++ tab ++ lit " ", lit "banking_stage=on");
     (lit "ON", lit "on"); (lit "oN", lit "on"); (lit "OFF", lit "off"); (lit "oFf", lit "off");
     (lit "ON,banking_stage=OFF", lit "on,banking_stage=off");
     (lit "oFf,banking_stage=oN", lit "off,banking_stage=on");
     (lit " " ++ tab ++ lit "ON" ++ newline ++ lit ", banking_stage " ++ tab ++ lit "=" ++ newline ++
      lit "OFF , network. = on ", lit "on,banking_stage=off,network.=on");
     (lit "network.=on,on", lit "on,network.=on");
     (lit "network.=on,off,network.repair=off", lit "off,network.=on,network.repair=off");
     (lit "net=on,rpc=off", lit "rpc=off,net=on"); (lit "net=on,Net=off", lit "Net=off,net=on");
     (lit "network.repair=off,rpc=off,net=on,network.=on",
      lit "network.=on,net=on,rpc=off,network.repair=off")].

Definition ignores_empty_directives : bool :=
  forallb (fun '(value, expected) => same_policy value expected)
    [(lit ",", lit "off"); (lit " , ," ++ tab ++ lit "," ++ newline ++ lit ", ", lit "off");
     (lit "on,", lit "on"); (lit ",off", lit "off");
     (lit "on,,banking_stage=off", lit "on,banking_stage=off");
     (lit "on, " ++ tab ++ newline ++ lit " ,banking_stage=off", lit "on,banking_stage=off");
     (lit "network.=on, " ++ tab, lit "network.=on")].

Definition empty_prefix_sets_default_rule : bool :=
  forallb (fun '(directive, default_rule) =>
      same_policy directive default_rule &&
      same_policy (lit "on,network.=on," ++ directive ++ lit ",network.repair=off")
        (default_rule ++ lit ",network.=on,network.repair=off"))
    [(lit "=on", lit "on"); (lit "=off", lit "off"); (lit "=", lit "on");
     (lit " " ++ tab ++ lit " =on", lit "on");
     (lit " " ++ tab ++ lit " = " ++ newline, lit "on"); (lit " = oFf ", lit "off")].

Definition rejects_invalid_rule_values : bool :=
  forallb (fun value => forallb (fun prefix =>
    forallb (fun policy =>
        match StreamPolicy_from_str policy with
        | Err (InvalidStreamRuleValue v) => v === value
        | _ => false
        end)
      [prefix ++ lit "=" ++ value;
       lit "on,network.=on," ++ prefix ++ lit "=" ++ value ++ lit ",network.repair=off";
       prefix ++ lit "=" ++ value ++ lit "," ++ prefix ++ lit "=on"]) [lit "network."; []])
    [lit "invalid"; lit "allow"; lit "on=off"].

Theorem stream_policy_tests_pass :
  all_pass [policies_matches_off; last_rule_wins; accepts_distinct_prefixes; normalizes_policy;
    ignores_empty_directives; empty_prefix_sets_default_rule; rejects_invalid_rule_values].
Proof. vm_compute. reflexivity. Qed.

(** ** queue_cell.rs *)

Definition panics {E A} (r : Outcome E A) : bool := match r with Panic => true | _ => false end.
Definition cell_size (size : SerializedSize) (bound : option Z) : Outcome SynError Z :=
  event_queue_cell_size size bound.
Definition cell_size_is (size : SerializedSize) (bound : option Z) (expected : Z) : bool :=
  let! n := cell_size size bound in n =? expected.

Definition static_size_uses_wincode_upper_bound : bool :=
  cell_size_is (Static 8) None 8 && cell_size_is (Static 8) (Some 16) 8.
Definition dynamic_size_uses_explicit_upper_bound : bool := cell_size_is (Dynamic 8) (Some 16) 16.
Definition dynamic_size_requires_explicit_upper_bound : bool := panics (cell_size (Dynamic 8) None).
Definition dynamic_size_rejects_bound_equal_to_lower_bound : bool :=
  panics (cell_size (Dynamic 8) (Some 8)).
Definition dynamic_size_rejects_bound_below_lower_bound : bool :=
  panics (cell_size (Dynamic 8) (Some 7)).

Theorem queue_cell_tests_pass :
  all_pass [static_size_uses_wincode_upper_bound; dynamic_size_uses_explicit_upper_bound;
    dynamic_size_requires_explicit_upper_bound; dynamic_size_rejects_bound_equal_to_lower_bound;
    dynamic_size_rejects_bound_below_lower_bound].
Proof. vm_compute. reflexivity. Qed.

(** ** backend/linux.rs *)

(** An empty temporary directory. *)
Definition temp_world : IoWorld := {| io_fs := Directory []; io_calls := O; io_history := [] |}.

Definition staging_directory_publish_preserves_contents : bool :=
  let contents := map byte_of_Z (lit "published contents") in
  let (result, w) :=
    (staging <- StagingDirectory_new [] (lit "staging") ;;
     create_new_file (StagingDirectory_path staging) (lit "file") ;;
     write_all (StagingDirectory_path staging) (lit "file") contents ;;
     StagingDirectory_publish staging [] (lit "published"))%io temp_world in
  is_ok result && is_none (get_node [lit "staging"] (io_fs w)) &&
  match get_node [lit "published"; lit "file"] (io_fs w) with
  | Some (RegularFile bytes) => bytes === contents
  | _ => false
  end.

Definition unpublished_staging_directory_removes_contents_on_drop : bool :=
  let (result, w) :=
    (staging <- StagingDirectory_new [] (lit "staging") ;;
     create_new_file (StagingDirectory_path staging) (lit "file") ;;
     write_all (StagingDirectory_path staging) (lit "file")
       (map byte_of_Z (lit "unpublished contents")) ;;
     StagingDirectory_drop staging)%io temp_world in
  is_ok result && is_none (get_node [lit "staging"] (io_fs w)).

Theorem staging_directory_tests_pass :
  all_pass [staging_directory_publish_preserves_contents;
    unpublished_staging_directory_removes_contents_on_drop].
Proof. vm_compute. reflexivity. Qed.

(** ** backend/linux/subscriber.rs *)

#[local] Instance test_schema_library : SchemaLibrary := {
  RootSchema := list byte;
  RootSchema_name _ := [];
  deserialize_schema bytes := Some bytes
}.

#[local] Instance test_consumers : ShaqConsumers := {
  SliceConsumer := unit;
  slice_consumer _ _ := None;
  sc_broadcast_handle _ := {| bc_id := 0; bc_queue_identifier := 0; bc_producer_slots := 1 |};
  sc_try_read c := (None, c);
  sc_read_timeout c _ := (None, c);
  bc_lane_metadata _ _ := None
}.

(** A stream directory with a queue file of some name, seals and identifier. *)
Definition test_stream (queue_file : str) (seals identifier : Z) : SubscriberCalls := {|
  DirHandle := unit;
  FileHandle := unit;
  read_dir _ := None;
  open_directory _ _ := Some tt;
  directory_iter _ _ := [Some (as_bytes SCHEMA_FILE_NAME); Some (as_bytes queue_file)];
  openat_rdonly _ _ _ := Some tt;
  openat_rdwr _ _ _ := Some tt;
  read_to_end _ _ := Some [];
  get_seals _ _ := seals;
  join_untyped _ _ :=
    Some {| bc_id := 0; bc_queue_identifier := identifier; bc_producer_slots := 1 |}
|}.

Definition open_test_queue (queue_file : str) (seals identifier : Z) :
    Outcome CreateAvailableStreamError Broadcast :=
  (open_queue (H1 := test_stream queue_file seals identifier) tt 0%nat).1.

Definition open_queue_rejects_invalid_identifier : bool :=
  forallb (fun name =>
      match open_test_queue name REQUIRED_SEALS 7 with
      | Err InvalidQueueIdentifier => true
      | _ => false
      end)
    [lit "queue-"; lit "queue-invalid"; lit "queue-18446744073709551616"].

Definition open_queue_rejects_mismatched_identifier : bool :=
  let actual_identifier := 7 in
  let published_identifier := actual_identifier + 1 in
  let! queue := open_test_queue (QUEUE_FILE_NAME_PREFIX ++ display actual_identifier)
                  REQUIRED_SEALS actual_identifier in
  (bc_queue_identifier queue =? actual_identifier) &&
  match open_test_queue (QUEUE_FILE_NAME_PREFIX ++ display published_identifier)
          REQUIRED_SEALS actual_identifier with
  | Err (QueueIdentifierMismatch expected actual) =>
      (expected =? published_identifier) && (actual =? actual_identifier)
  | _ => false
  end.

(** Without [F_SEAL_SHRINK], [F_SEAL_GROW] or [F_SEAL_SEAL]. *)
Definition open_queue_rejects_missing_seals : bool :=
  forallb (fun seals =>
      match open_test_queue (QUEUE_FILE_NAME_PREFIX ++ display 42) seals 42 with
      | Err QueueIsNotSealed => true
      | _ => false
      end)
    [0; Z.ldiff REQUIRED_SEALS 0x2; Z.ldiff REQUIRED_SEALS 0x4; Z.ldiff REQUIRED_SEALS 0x1].

Theorem open_queue_tests_pass :
  all_pass [open_queue_rejects_invalid_identifier; open_queue_rejects_mismatched_identifier;
    open_queue_rejects_missing_seals].
Proof. vm_compute. reflexivity. Qed.

(** ** scheduler-handshake/src/client.rs *)

Definition response_eof_returns_error : bool :=
  match recv_response (F := unit) (Some ([], NoControl)) with Err ClientIo => true | _ => false end.

Definition rejection_with_truncated_utf8_returns_error : bool :=
  match recv_response (F := unit) (Some ([LOGON_FAILURE; x01; xc3], NoControl)) with
  | Err (Rejected reason) => reason === [0xFFFD]
  | _ => false
  end.

Theorem client_tests_pass :
  all_pass [response_eof_returns_error; rejection_with_truncated_utf8_returns_error].
Proof. vm_compute. reflexivity. Qed.
