(* ===== verification/TestsSystem.v ===== *)
(** * The integration tests of the event system

    The tests of event-system/tests/event_system_linux.rs, event_system_stub.rs,
    lane_metadata.rs, subscriber.rs, event.rs and of tests/stream_policy.rs (those on a
    live event system), run on the bench of TestBench.v: policy manager, streams,
    publishers, the published directories and the subscribers together. *)

From Stdlib Require Import ZArith Lia Strings.Byte Strings.String.
From stdpp Require Import base list numbers gmap.
From S2P Require Import Prelude RustStr StreamName StreamPolicy QueueCell FileSystem StreamQueue.
From S2P Require Import EventStream StreamPolicyManager EventSystem EventApi.
From S2P Require Import Subscriber Discovery SubscriberApi TestKit TestState TestBench.
Local Open Scope Z_scope.
Local Open Scope bench_scope.

Definition is_queue_error {A} (r : Outcome CreateStreamError A) : bool :=
  match r with Err Queue => true | _ => false end.
Definition is_name_in_use {A} (r : Outcome CreateStreamError A) : bool :=
  match r with Err StreamNameAlreadyInUse => true | _ => false end.

(** ** event_system_linux.rs *)

Definition create_event_system_fails_when_path_is_a_file : bool :=
  let contents := map byte_of_Z (lit "existing file contents are preserved") in
  let io := {| io_fs := Directory [(lit "file", RegularFile contents)]; io_calls := O;
               io_history := [] |} in
  let (r, io') := api_EventSystem_new (H := bench_calls) (Some [lit "file"]) io in
  is_err r &&
  match get_node [lit "file"] (io_fs io') with
  | Some (RegularFile c) => bool_decide (c = contents)
  | _ => false
  end.

Definition create_event_system_reuses_directory_only_after_drop : bool :=
  match new_event_system temp_dir with
  | None => false
  | Some w =>
      match new_event_system (wo_io w) with
      | Some _ => false
      | None => match new_event_system (wo_io (drop_event_system (H := bench_calls) w)) with
                | Some _ => true
                | None => false
                end
      end
  end.

Definition create_stream_reserves_names_only_after_success : bool :=
  with_policy_enabling_all_streams (
    name <- named (lit "reused-stream-name") ;;
    let invalid_config := {| capacity := 0; publisher_slots := publisher_slots TEST_CONFIG;
                             subscriber_slots := subscriber_slots TEST_CONFIG |} in
    r <- create_stream TestEvent name invalid_config ;;
    assert (is_queue_error r) ;;
    _publisher_factory <-? create_stream TestEvent name TEST_CONFIG ;;
    r <- create_stream TestEvent name TEST_CONFIG ;;
    assert (is_name_in_use r)).

Definition stream_can_be_recreated_after_dropping_all_handles : bool :=
  TestContextBuilder_build (
    name <- TEST_STREAM_NAME ;;
    factory_1 <-? create_stream TestEvent name TEST_CONFIG ;;
    factory_2 <- clone_factory factory_1 ;;
    drop_factory factory_1 ;;
    r <- create_stream TestEvent name TEST_CONFIG ;;
    assert (is_err r) ;;
    drop_factory factory_2 ;;
    r <- create_stream TestEvent name TEST_CONFIG ;;
    assert (is_ok r)).

Definition with_publisher_slots (n : nat) : StreamConfig :=
  {| capacity := capacity TEST_CONFIG; publisher_slots := Z.of_nat n;
     subscriber_slots := subscriber_slots TEST_CONFIG |}.

Definition publisher_creation_respects_slot_limit : bool :=
  forallb (fun publisher_slots => with_policy_enabling_all_streams (
    name <- TEST_STREAM_NAME ;;
    publisher_factory <-? create_stream TestEvent name (with_publisher_slots publisher_slots) ;;
    publishers <- collect publisher_slots (
      publisher <-! try_create_publisher publisher_factory ;; ret publisher) ;;
    r <- try_create_publisher publisher_factory ;;
    assert (is_none r) ;;
    popped <- unwrap_some (last publishers) ;;
    drop_publisher popped ;;
    reused_slot_publisher <-! try_create_publisher publisher_factory ;;
    enabled <- is_enabled reused_slot_publisher ;;
    assert enabled)) [1; 2; 4]%nat.

Definition typed_subscribers_can_connect_and_receive_events : bool :=
  forallb (fun slots => with_policy_enabling_all_streams (
    let stream_config := {| capacity := capacity TEST_CONFIG;
                            publisher_slots := publisher_slots TEST_CONFIG;
                            subscriber_slots := Z.of_nat slots |} in
    name <- TEST_STREAM_NAME ;;
    publisher_factory <-? create_stream TestEvent name stream_config ;;
    publisher <-! try_create_publisher publisher_factory ;;
    subscribers <- collect slots (subscriber <-? connect_first TestEvent ;; ret subscriber) ;;
    r <- connect_first TestEvent ;;
    assert (match r with Err (Connection SubscriberSlotsExhausted) => true | _ => false end) ;;
    _ok <-? publish publisher TEST_EVENT ;;
    for_each subscribers (fun subscriber =>
      stream_name <- subscriber_stream_name subscriber ;;
      assert (bool_decide (stream_name = name)) ;;
      type_name <- subscriber_type_name subscriber ;;
      assert (bool_decide (type_name = lit "TestEvent")) ;;
      received_event <-? try_recv TestEvent subscriber ;;
      assert (bool_decide (received_event = Some TEST_EVENT))))) [1; 2]%nat.

(** For one event type. *)
Definition dynamic_subscriber_decodes {E} `{TestType E} (event : E)
    (expected_variant_name : option str) : bool :=
  with_policy_enabling_all_streams (
    name <- TEST_STREAM_NAME ;;
    publisher_factory <-? create_stream E name TEST_CONFIG ;;
    publisher <-! try_create_publisher publisher_factory ;;
    streams <- available_streams ;;
    assert (Nat.eqb (length streams) 1) ;;
    available_stream <- unwrap_some (last streams) ;;
    subscriber <-? try_connect_dynamic available_stream ;;
    _ok <-? publish publisher event ;;
    received_message <-? try_recv_dynamic subscriber ;;
    decoded <- unwrap_some received_message ;;
    let '(variant_name, fields) :=
      match decoded with
      | DecodedStruct fields => (None, fields)
      | DecodedEnum variant_name fields => (Some variant_name, fields)
      end in
    assert (bool_decide (variant_name = expected_variant_name)) ;;
    assert (bool_decide (fields = [(lit "value", 42)]))).

Definition dynamic_subscriber_can_connect_and_decode_events : bool :=
  dynamic_subscriber_decodes TEST_EVENT None &&
  dynamic_subscriber_decodes (Value 42) (Some (lit "Value")).

Definition fitting_event : BoundedEvent := {| values := [x01] |}.
Definition oversized_event : BoundedEvent := {| values := filled 16 2 |}.

Definition failed_serialization_sends_nothing : bool :=
  forallb (fun publish_oversized : PublisherHandle -> Test (Outcome PublishError unit) =>
    with_policy_enabling_all_streams (
      created <- create_stream_with_subscriber BoundedEvent ;;
      let '(publisher, subscriber) := created in
      r <- publish_oversized publisher ;;
      assert (match r with Err Serialization => true | _ => false end) ;;
      assert_is_empty [subscriber] ;;
      _ok <-? publish publisher fitting_event ;;
      received_event <-? try_recv BoundedEvent subscriber ;;
      assert (bool_decide (received_event = Some fitting_event)) ;;
      assert_is_empty [subscriber]))
    [fun publisher => publish publisher oversized_event;
     fun publisher => publish_batch publisher [fitting_event; oversized_event]].

Theorem event_system_tests_pass :
  all_pass [create_event_system_fails_when_path_is_a_file;
    create_event_system_reuses_directory_only_after_drop;
    create_stream_reserves_names_only_after_success;
    stream_can_be_recreated_after_dropping_all_handles; publisher_creation_respects_slot_limit;
    typed_subscribers_can_connect_and_receive_events;
    dynamic_subscriber_can_connect_and_decode_events; failed_serialization_sends_nothing].
Proof. vm_compute. reflexivity. Qed.

(** ** stream_policy.rs *)

(** The subscriber of the stream of some name. *)
Definition connect (name : str) : Test nat :=
  streams <- available_streams ;;
  stream <- unwrap_some (List.find (fun s => bool_decide (StreamName_as_str (av_stream_name s) = name)) streams) ;;
  subscriber <-? try_connect_typed TestEvent stream ;;
  ret subscriber.

Definition assert_available (expected : list str) : Test unit :=
  names <- available_stream_names ;;
  assert (same_names names expected).

Definition test_publisher_stream_enabled : bool :=
  with_policy_enabling_all_streams (
    name <- TEST_STREAM_NAME ;;
    publisher_factory <-? create_stream TestEvent name TEST_CONFIG ;;
    publisher <-! try_create_publisher publisher_factory ;;
    drop_factory publisher_factory ;;
    set_stream_policy (lit "off") ;;
    enabled <- is_enabled publisher ;;
    assert (negb enabled) ;;
    set_stream_policy (lit "on") ;;
    enabled <- is_enabled publisher ;;
    assert enabled).

Definition disabled_stream_is_not_published : bool :=
  TestContextBuilder_build (
    name <- TEST_STREAM_NAME ;;
    publisher_factory <-? create_stream TestEvent name TEST_CONFIG ;;
    publisher <-! try_create_publisher publisher_factory ;;
    _ok <-? publish publisher TEST_EVENT ;;
    _ok <-? publish_batch publisher [TEST_EVENT; TEST_EVENT] ;;
    assert_available [] ;;
    (fun b => assert (Nat.eqb (length (published_entries b)) 0) b)).

Definition toggling_stream_policy_for_live_event_system : bool :=
  TestContextBuilder_build (
    let create_publisher name :=
      stream_name <- named name ;;
      publisher_factory <-? create_stream TestEvent stream_name TEST_CONFIG ;;
      publisher <-! try_create_publisher publisher_factory ;;
      drop_factory publisher_factory ;;
      ret publisher in
    packets <- create_publisher (lit "network.packets") ;;
    drops <- create_publisher (lit "network.drops") ;;
    transaction <- create_publisher (lit "block-production.transaction") ;;
    let publish_on_all_publishers :=
      for_each [packets; drops; transaction] (fun publisher =>
        _ok <-? publish publisher TEST_EVENT ;; ret tt) in
    publish_on_all_publishers ;;
    assert_available [] ;;
    set_stream_policy (lit "on") ;;
    assert_available [lit "block-production.transaction"; lit "network.drops"; lit "network.packets"] ;;
    network_packets_subscriber <- connect (lit "network.packets") ;;
    network_drops_subscriber <- connect (lit "network.drops") ;;
    block_production_transaction_subscriber <- connect (lit "block-production.transaction") ;;
    assert_is_empty [network_packets_subscriber; network_drops_subscriber;
                     block_production_transaction_subscriber] ;;
    publish_on_all_publishers ;;
    assert_received [network_packets_subscriber; network_drops_subscriber;
                     block_production_transaction_subscriber] ;;
    set_stream_policy (lit "off, network.=on, network.packets=off, block-production=on") ;;
    assert_available [lit "block-production.transaction"; lit "network.drops"] ;;
    publish_on_all_publishers ;;
    assert_is_empty [network_packets_subscriber] ;;
    assert_received [network_drops_subscriber; block_production_transaction_subscriber]).

Definition reenabled_stream_is_a_new_stream : bool :=
  with_policy_enabling_all_streams (
    name <- TEST_STREAM_NAME ;;
    publisher_factory <-? create_stream TestEvent name TEST_CONFIG ;;
    publisher <-! try_create_publisher publisher_factory ;;
    first_stream_subscriber <- connect (StreamName_as_str name) ;;
    set_stream_policy (lit "off") ;;
    assert_available [] ;;
    set_stream_policy (lit "on") ;;
    second_stream_subscriber <- connect (StreamName_as_str name) ;;
    _ok <-? publish publisher TEST_EVENT ;;
    assert_is_empty [first_stream_subscriber] ;;
    assert_received [second_stream_subscriber]).

Definition publisher_slots_are_reserved_while_disabled : bool :=
  forallb (fun publisher_slots => TestContextBuilder_build (
    name <- TEST_STREAM_NAME ;;
    publisher_factory <-? create_stream TestEvent name (with_publisher_slots publisher_slots) ;;
    publishers <- collect publisher_slots (
      publisher <-! try_create_publisher publisher_factory ;; ret publisher) ;;
    r <- try_create_publisher publisher_factory ;;
    assert (is_none r) ;;
    set_stream_policy (lit "on") ;;
    subscriber <- connect (StreamName_as_str name) ;;
    for_each publishers (fun publisher =>
      _ok <-? publish publisher TEST_EVENT ;;
      assert_received [subscriber]))) [1; 2]%nat.

Theorem live_policy_tests_pass :
  all_pass [test_publisher_stream_enabled; disabled_stream_is_not_published;
    toggling_stream_policy_for_live_event_system; reenabled_stream_is_a_new_stream;
    publisher_slots_are_reserved_while_disabled].
Proof. vm_compute. reflexivity. Qed.

(** ** lane_metadata.rs

    Which events a lane rejected is counted by [shaq]; the lanes and the failing call
    are the program's. *)
Definition lanes_metadata_for_all_lanes : bool :=
  with_policy_enabling_all_streams (
    created <- create_stream_factory_with_subscriber TestEvent
      {| capacity := 4; publisher_slots := 2; subscriber_slots := subscriber_slots TEST_CONFIG |} ;;
    let '(publisher_factory, subscriber) := created in
    publisher <-! try_create_publisher publisher_factory ;;
    _ok <-? publish_batch publisher (replicate 4 TEST_EVENT) ;;
    r <- publish publisher TEST_EVENT ;;
    assert (match r with Err FailedToSend => true | _ => false end) ;;
    lanes_metadata <- lanes subscriber ;;
    assert (bool_decide (lanes_metadata = [0; 1]))).

(** ** subscriber.rs *)

Definition recv_timeout_errors_when_no_message_is_published : bool :=
  forallb (fun timeout => with_policy_enabling_all_streams (
    created <- create_stream_with_subscriber TestEvent ;;
    r <- recv_timeout TestEvent created.2 timeout ;;
    assert (match r with Err RecvTimeout => true | _ => false end))) [0; 10000].

Definition recv_timeout_returns_already_published_message : bool :=
  with_policy_enabling_all_streams (
    created <- create_stream_with_subscriber TestEvent ;;
    let '(publisher, subscriber) := created in
    _ok <-? publish publisher TEST_EVENT ;;
    received_event <-? recv_timeout TestEvent subscriber 10000000000 ;;
    assert (bool_decide (received_event = Some TEST_EVENT))).

Theorem subscriber_tests_pass :
  all_pass [lanes_metadata_for_all_lanes; recv_timeout_errors_when_no_message_is_published;
    recv_timeout_returns_already_published_message].
Proof. vm_compute. reflexivity. Qed.

(** ** event_system_stub.rs *)

(** The stub ignores limits, names and sizes; it never serializes. *)
Definition explicit_stub_produces_no_op_publishers : bool :=
  let zero := {| capacity := 0; publisher_slots := 0; subscriber_slots := 0 |} in
  let event := {| values := filled 1024 0x78 |} in
  with_context None (
    policy <- unwrap_ok (StreamPolicy_from_str (lit "on")) ;;
    let event_system := api_EventSystem_stub in
    call_world (fun _ w => (tt, api_set_stream_policy (H := bench_calls) (H0 := bench_queues)
                                  event_system policy w)) ;;
    name <- TEST_STREAM_NAME ;;
    for_each [event_system; event_system] (fun system =>
      factory <-? call_world (fun _ => api_create_stream (H := bench_calls) (H0 := bench_queues)
                                         0%nat system name zero (Some [])) ;;
      for_each [factory; factory] (fun factory =>
        publisher <-! try_create_publisher factory ;;
        _another_publisher <-! try_create_publisher factory ;;
        _ok <-? publish publisher event ;;
        _ok <-? publish_batch publisher [event] ;;
        _ok <-? publish_batch publisher ([] : list BoundedEvent) ;;
        ret tt))).

(** ** event.rs *)

#[local] Instance SynError_eq_dec : EqDecision SynError.
Proof. solve_decision. Defined.

Definition cell_size_of (size : SerializedSize) (args : list Meta) (ident : str) :
    Outcome SynError Z :=
  event (Some Itself) size args {| di_ident := ident; di_generics := [] |}.
Definition max_serialized_size_64 : list Meta :=
  [{| meta_path := lit "max_serialized_size"; meta_value := LitInt 64 |}].

Definition event_macro_sizes_static_struct_queue_cell_from_the_schema : bool :=
  bool_decide (cell_size_of (Static 8) [] (lit "StaticEvent") = Ok 8).
Definition event_macro_sizes_static_enum_queue_cell_from_the_schema : bool :=
  bool_decide (cell_size_of (Static 12) [] (lit "StaticEnumEvent") = Ok (4 + 8)).
Definition event_macro_uses_the_declared_dynamic_size_bound_for_struct : bool :=
  bool_decide (cell_size_of (Dynamic 8) max_serialized_size_64 (lit "DynamicEvent") = Ok 64).
Definition event_macro_uses_the_declared_dynamic_size_bound_for_enum : bool :=
  bool_decide (cell_size_of (Dynamic 12) max_serialized_size_64 (lit "DynamicEnumEvent") = Ok 64).

Theorem stub_and_macro_tests_pass :
  all_pass [explicit_stub_produces_no_op_publishers;
    event_macro_sizes_static_struct_queue_cell_from_the_schema;
    event_macro_sizes_static_enum_queue_cell_from_the_schema;
    event_macro_uses_the_declared_dynamic_size_bound_for_struct;
    event_macro_uses_the_declared_dynamic_size_bound_for_enum].
Proof. vm_compute. reflexivity. Qed.
