(* ===== verification/TestsHandshake.v ===== *)
(** * The tests of the scheduler handshake (scheduler-handshake/src/tests.rs)

    Server and client of the handshake run on the model, with the allocator and the
    queues made concrete: a queue file needs a header and a power of two of cells, huge
    pages cannot be had, and an established queue is a list of cells in memory. *)

From Stdlib Require Import ZArith Lia Strings.Byte Strings.String.
From stdpp Require Import base list numbers gmap.
From S2P Require Import Prelude RustStr Layout HandshakeShared HandshakeWire HandshakeSession.
From S2P Require Import SchedulerBindings HandshakeText HandshakeServer TestKit TestState.
Local Open Scope Z_scope.
Local Open Scope test_scope.
Local Open Scope bench_scope.

(** ** The crates *)

Definition size_of_msg (msg : Msg) : Z :=
  Z.of_nat (size_of
    match msg with
    | HandshakeShared.TpuToPackMessage => ctype TpuToPackMessage
    | HandshakeShared.ProgressMessage => ctype ProgressMessage
    | HandshakeShared.PackToExecutionWorkerMessage => ctype PackToExecutionWorkerMessage
    | HandshakeShared.ExecutionWorkerToPackMessage => ctype ExecutionWorkerToPackMessage
    | HandshakeShared.PackToCheckWorkerMessage => ctype PackToCheckWorkerMessage
    | HandshakeShared.CheckWorkerToPackMessage => ctype CheckWorkerToPackMessage
    end).

Definition checked_next_power_of_two (n : Z) : option Z :=
  try_from USIZE (if n <=? 1 then 1 else 2 ^ Z.log2_up n).

#[local] Instance test_queue_sizes : QueueSizes := fun _ msg capacity =>
  match checked_next_power_of_two capacity with
  | None => None
  | Some cells =>
      match checked_mul USIZE cells (size_of_msg msg) with
      | None => None
      | Some bytes => checked_add USIZE bytes 256
      end
  end.

#[local] Instance test_memory : SharedMemory :=
  {| create_succeeds _ page _ _ := match page with Standard => true | Huge => false end;
     join_existing_succeeds _ := true; join_succeeds _ := true |}.

#[local] Instance test_texts : ErrorTexts :=
  {| io_text := lit "io"; rts_alloc_text := []; rts_alloc_debug := []; shaq_text := [];
     shaq_debug := [] |}.

#[local] Instance test_target : Target := LittleEndian.

(** ** Helpers *)

#[local] Instance QueueField_eq_dec : EqDecision QueueField.
Proof. solve_decision. Defined.
#[local] Instance AgaveHandshakeError_eq_dec : EqDecision AgaveHandshakeError.
Proof. solve_decision. Defined.

Definition USIZE_MAX : Z := umax USIZE.
Definition U32_MAX : Z := umax U32.

(** A logon of its fields, and [ClientLogon::default()]. *)
Definition logon (workers check simulate size handles tpu progress pack worker check_req check_resp
    simulate_req simulate_resp : Z) : ClientLogon :=
  {| worker_count := workers; check_worker_count := check; simulate_worker_count := simulate;
     allocator_size := size; allocator_handles := handles; tpu_to_pack_capacity := tpu;
     progress_tracker_capacity := progress; pack_to_worker_capacity := pack;
     worker_to_pack_capacity := worker; pack_to_check_worker_capacity := check_req;
     check_worker_to_pack_capacity := check_resp; pack_to_simulate_worker_capacity := simulate_req;
     simulate_worker_to_pack_capacity := simulate_resp |}.
Definition counts (workers check simulate handles : Z) : ClientLogon :=
  logon workers check simulate 0 handles 0 0 0 0 0 0 0 0.

(** The same logon but for one field. *)
Definition with_field (i : nat) (v : Z) (l : ClientLogon) : ClientLogon :=
  default l (ClientLogon_of_words (<[i := v]> (ClientLogon_words l))).

Definition fails_with {A} (e : AgaveHandshakeError) (r : Outcome AgaveHandshakeError A) : bool :=
  match r with Err e' => e' === e | _ => false end.
Definition local_fails_with {A} (e : AgaveHandshakeError) (r : Outcome SessionSetupError A) : bool :=
  match r with Err (SetupServer e') => e' === e | _ => false end.
Definition rejected_because {A} (text : str) (r : Outcome ClientHandshakeError A) : bool :=
  match r with Err (Rejected reason) => reason === text | _ => false end.

Definition local_session (l : ClientLogon) : Outcome SessionSetupError (AgaveSession * ClientSession) :=
  setup_local_session l 0%nat.
Definition setup_session (l : ClientLogon) : Outcome AgaveHandshakeError (AgaveSession * list File) :=
  (server_setup_session l 0%nat).1.

Definition current : ProtocolVersions :=
  match ProtocolVersions_current (E := unit) (lit "10") (lit "8") 3 5 with
  | Ok versions => versions
  | _ => {| pv_handshake := 0; pv_scheduler_bindings := 0; pv_shaq := 0; pv_rts_alloc := 0 |}
  end.

(** A server that accepts one client: what both sides return. *)
Definition exchange (client_versions : ProtocolVersions) (l : ClientLogon) :
    Outcome AgaveHandshakeError AgaveSession * Outcome ClientHandshakeError ClientSession :=
  match Server_new true with
  | None => (Panic, Panic)
  | Some server =>
      let sent := (connect client_versions l true true None).1 in
      let conn := {| cn_accepted := true; cn_reads := [(SocketBytes sent, 0)]; cn_sent := true;
                     cn_written := Some 1024%nat |} in
      match accept_connection current server conn 0%nat with
      | (session, message, _, _) => (session, (connect client_versions l true true message).2)
      end
  end.

(** ** Versions *)

Definition handshake_version_matches_crate_major : bool :=
  match version (E := unit) (lit "10") with
  | Ok v => (v =? 10) && (pv_handshake current =? v)
  | _ => false
  end.

Definition reject_version_mismatches : bool :=
  forallb (fun i =>
      let client_versions := default current
        (ProtocolVersions_of_words
           (alter (fun v => v + 1) i (ProtocolVersions_words current))) in
      let (server, client) := exchange client_versions (counts 0 0 0 0) in
      negb (client_versions === current) &&
      fails_with (Version current client_versions) server &&
      rejected_because (lit "Version; server=(" ++ ProtocolVersions_fmt current ++
        lit "); client=(" ++ ProtocolVersions_fmt client_versions ++ lit ")") client)
    [0; 1; 2; 3]%nat.

(** ** Counts *)

Definition local_session_rejects_invalid_worker_count : bool :=
  forallb (fun count => local_fails_with (WorkerCount count) (local_session (counts count 1 0 1)))
    [0; MAX_WORKERS + 1; USIZE_MAX].
Definition local_session_rejects_invalid_check_worker_count : bool :=
  forallb (fun count => local_fails_with (CheckWorkerCount count) (local_session (counts 1 count 0 1)))
    [MAX_WORKERS + 1; USIZE_MAX].
Definition local_session_rejects_invalid_allocator_handles : bool :=
  forallb (fun count => local_fails_with (AllocatorHandles count) (local_session (counts 1 1 0 count)))
    [0; U32_MAX - 2; USIZE_MAX].
Definition setup_session_rejects_invalid_worker_counts : bool :=
  forallb (fun count => fails_with (WorkerCount count) (setup_session (counts count 1 0 1)))
    [0; MAX_WORKERS + 1; USIZE_MAX].
Definition setup_session_rejects_invalid_check_worker_counts : bool :=
  forallb (fun count => fails_with (CheckWorkerCount count) (setup_session (counts 1 count 0 1)))
    [MAX_WORKERS + 1; USIZE_MAX].
Definition setup_session_rejects_invalid_simulate_worker_counts : bool :=
  forallb (fun count => fails_with (SimulateWorkerCount count) (setup_session (counts 1 0 count 1)))
    [MAX_WORKERS + 1; USIZE_MAX].
Definition setup_session_rejects_invalid_allocator_handles : bool :=
  forallb (fun count => fails_with (AllocatorHandles count) (setup_session (counts 1 1 0 count)))
    [0; U32_MAX - 2; USIZE_MAX].

(** ** Sizes *)

Definition local_session_rejects_unrepresentable_allocator_sizes : bool :=
  forallb (fun size => local_fails_with (AllocatorSize size)
      (local_session (with_field 3 size (counts 1 1 0 1)))) [USIZE_MAX; isize_MAX].

Definition local_session_rejects_unrepresentable_queue_capacities : bool :=
  forallb (fun capacity => forallb (fun '(expected_field, i) =>
      local_fails_with (QueueCapacity expected_field capacity)
        (local_session (with_field i capacity (counts 1 1 1 1))))
    [(TpuToPackCapacity, 5); (ProgressTrackerCapacity, 6); (PackToWorkerCapacity, 7);
     (WorkerToPackCapacity, 8); (PackToCheckWorkerCapacity, 9); (CheckWorkerToPackCapacity, 10);
     (PackToSimulateWorkerCapacity, 11); (SimulateWorkerToPackCapacity, 12)]%nat)
    [USIZE_MAX; 2 ^ 63].

Definition queue_payload_size_boundary_is_checked : bool :=
  match checked_next_power_of_two (USIZE_MAX / Z.of_nat (size_of (ctype ProgressMessage))) with
  | None => false
  | Some capacity =>
      fails_with (QueueCapacity ProgressTrackerCapacity capacity)
        (validate (with_field 6 capacity (counts 1 1 0 1)))
  end.

Definition file_size_rounding_is_checked : bool :=
  forallb (fun page_size =>
      let bytes := PageSize_bytes page_size in
      let largest := POINTER_OFFSET_LIMIT / bytes * bytes in
      (checked_file_size 1 page_size === Some bytes) &&
      (checked_file_size largest page_size === Some largest) &&
      is_none (checked_file_size (largest + 1) page_size) &&
      is_none (checked_file_size USIZE_MAX page_size)) [Standard; Huge].

Definition reject_unrepresentable_sizes_over_socket : bool :=
  forallb (fun l =>
      let (server, client) := exchange current l in
      match validate l, server with
      | Err expected, Err error =>
          let text := AgaveHandshakeError_to_string expected in
          (AgaveHandshakeError_to_string error === text) && rejected_because text client
      | _, _ => false
      end)
    [with_field 3 USIZE_MAX (counts 1 1 0 1); with_field 5 USIZE_MAX (counts 1 1 0 1)].

Definition check_worker_queues_use_dedicated_capacities : bool :=
  let l := logon 1 1 1 (64 * 1024 * 1024) 1 2 2 2 2 (2 ^ 18) (2 ^ 19) (2 ^ 17) (2 ^ 16) in
  let! setup := setup_session l in
  (len setup.2 =? 9) &&
  is_ok (client_setup_session l setup.2) &&
  bool_decide (map file_content (drop 5 setup.2) =
    [QueueFile Mpmc HandshakeShared.PackToCheckWorkerMessage ConsumerEnd;
     QueueFile Mpmc HandshakeShared.CheckWorkerToPackMessage ProducerEnd;
     QueueFile Mpmc HandshakeShared.PackToExecutionWorkerMessage ConsumerEnd;
     QueueFile Mpmc HandshakeShared.ExecutionWorkerToPackMessage ProducerEnd]).

Theorem validation_tests_pass :
  all_pass [handshake_version_matches_crate_major; reject_version_mismatches;
    local_session_rejects_invalid_worker_count; local_session_rejects_invalid_check_worker_count;
    local_session_rejects_invalid_allocator_handles; setup_session_rejects_invalid_worker_counts;
    setup_session_rejects_invalid_check_worker_counts;
    setup_session_rejects_invalid_simulate_worker_counts;
    setup_session_rejects_invalid_allocator_handles;
    local_session_rejects_unrepresentable_allocator_sizes;
    local_session_rejects_unrepresentable_queue_capacities;
    queue_payload_size_boundary_is_checked; file_size_rounding_is_checked;
    reject_unrepresentable_sizes_over_socket; check_worker_queues_use_dedicated_capacities].
Proof. vm_compute. reflexivity. Qed.

(** ** Worker counts over the socket *)

(** The logon of these tests, with the capacities of the two pools. *)
Definition big_logon (workers check simulate check_capacity simulate_capacity : Z) : ClientLogon :=
  logon workers check simulate (1024 * 1024 * 1024) 3 65536 256 1024 1024
    check_capacity check_capacity simulate_capacity simulate_capacity.

Definition accept_worker_count_max : bool :=
  let (server, client) := exchange current (big_logon MAX_WORKERS 1 MAX_WORKERS 1024 1024) in
  is_ok server && is_ok client.

Definition reject_worker_count_low : bool :=
  let (server, client) := exchange current (big_logon 0 1 0 1024 0) in
  fails_with (WorkerCount 0) server && rejected_because (lit "Worker count; count=0") client.

Definition reject_worker_count_high : bool :=
  let (server, client) := exchange current (big_logon 100 1 0 1024 0) in
  fails_with (WorkerCount 100) server && rejected_because (lit "Worker count; count=100") client.

Definition reject_check_worker_count_high : bool :=
  let (server, client) := exchange current (big_logon 1 100 0 1024 0) in
  fails_with (CheckWorkerCount 100) server &&
  rejected_because (lit "Check worker count; count=100") client.

Definition accept_zero_check_workers : bool :=
  let (server, client) := exchange current (big_logon 1 0 0 USIZE_MAX 0) in
  (let! session := server in len (as_check_workers session) =? 0) &&
  let! session := client in
  (len (cs_workers session) =? 1) && is_none (cs_check_workers session).

Definition zero_check_workers_have_no_queue_files : bool :=
  let l := logon 1 0 0 (64 * 1024 * 1024) 1 2 2 2 2 USIZE_MAX USIZE_MAX USIZE_MAX USIZE_MAX in
  let! setup := setup_session l in
  let '(agave, files) := setup in
  (len (as_check_workers agave) =? 0) && (len (as_simulate_workers agave) =? 0) &&
  (len files =? 5) &&
  let! client := client_setup_session l files in
  is_none (cs_check_workers client) && is_none (cs_simulate_workers client).

Definition simulate_workers_without_check_workers : bool :=
  let l := logon 1 0 2 (64 * 1024 * 1024) 1 2 2 2 2 0 0 2 2 in
  let! setup := setup_session l in
  let '(agave, files) := setup in
  (len (as_check_workers agave) =? 0) && (len (as_simulate_workers agave) =? 2) &&
  (len files =? 7) &&
  let! client := client_setup_session l files in
  is_none (cs_check_workers client) && negb (is_none (cs_simulate_workers client)).

Theorem worker_count_tests_pass :
  all_pass [accept_worker_count_max; reject_worker_count_low; reject_worker_count_high;
    reject_check_worker_count_high; accept_zero_check_workers;
    zero_check_workers_have_no_queue_files; simulate_workers_without_check_workers].
Proof. vm_compute. reflexivity. Qed.

(** ** Messages on all queues *)

(** The cells in each queue file, the oldest first. *)
Definition Queues : Type := gmap nat (list (list byte)).

(** [try_write] on the producer's end. *)
Definition try_write {A} `{CType A} (q : QueueEnd) (message : A) : StatefulTest Queues unit := fun queues =>
  match qe_end q with
  | ProducerEnd =>
      let cell := store message (filled (Z.of_nat (size_of (ctype A))) 0xAA) in
      Some (tt, <[qe_file q := default [] (queues !! qe_file q) ++ [cell]]> queues)
  | ConsumerEnd => None
  end.

(** [try_read] on the consumer's end, and what is read. *)
Definition try_read A `{CType A} (q : QueueEnd) : StatefulTest Queues (option A) := fun queues =>
  match qe_end q, default [] (queues !! qe_file q) with
  | ConsumerEnd, cell :: cells => Some (load cell, <[qe_file q := cells]> queues)
  | ConsumerEnd, [] => Some (None, queues)
  | ProducerEnd, _ => None
  end.

(** Messages are compared by their memory. *)
Definition assert_eq {A} `{CType A} (read : option A) (message : A) : StatefulTest Queues unit :=
  let bytes (m : A) := store m (filled (Z.of_nat (size_of (ctype A))) 0) in
  assert (bool_decide (bytes <$> read = Some (bytes message))).

Definition tpu_to_pack : TpuToPackMessage :=
  {| tpm_transaction := {| str_offset := 10; str_length := 5 |};
     tpm_flags := 21; tpm_src_addr := filled 16 4 |}.
Definition progress_tracker : ProgressMessage :=
  {| pgm_leader_state := LEADER_READY; pgm_current_slot_progress := 32; pgm_epoch := 7;
     pgm_current_slot := 3; pgm_next_leader_slot := 12; pgm_leader_range_end := 16;
     pgm_remaining_cost_units := 12000000; pgm_remaining_allocated_accounts_data_size := 20000000;
     pgm_latest_blockhash := filled 32 42; pgm_target_bank_time_ms := 0 |}.

(** The messages for worker [i]; [processed_codes::PROCESSED] is 0. *)
Definition batch (i : Z) : SharableTransactionBatchRegion :=
  {| sbr_num_transactions := 5 + i; sbr_transactions_offset := 100 |}.
Definition pack_to_check_worker (i : Z) : PackToCheckWorkerMessage :=
  {| pcm_flags := 123; pcm_batch := batch i |}.
Definition pack_to_worker (i : Z) : PackToExecutionWorkerMessage :=
  {| pem_flags := 1; pem_max_working_slot := 100 + i; pem_batch := batch 0 |}.
Definition check_worker_to_pack (i : Z) : CheckWorkerToPackMessage :=
  {| cpm_batch := batch i; cpm_processed_code := 0;
     cpm_responses := {| crr_num_transaction_responses := 2;
                         crr_transaction_responses_offset := 1 |} |}.
Definition worker_to_pack (i : Z) : ExecutionWorkerToPackMessage :=
  {| epm_batch := batch i; epm_processed_code := 0;
     epm_responses := {| err_num_transaction_responses := 2;
                         err_transaction_responses_offset := 1 |} |}.

(** With the number of the element. *)
Definition numbered {A} (l : list A) : list (Z * A) := zip (range 0 (len l)) l.

(** Requests from the client's pool to its workers and the responses. *)
Definition pool_messages {Req Resp} `{CType Req} `{CType Resp} (request : Z -> Req) (response : Z -> Resp)
    (workers : list (nat * QueueEnd * QueueEnd)) (pool : QueueEnd * QueueEnd) : StatefulTest Queues unit :=
  for_each (numbered workers) (fun '(i, _) => try_write pool.1 (request i)) ;;
  for_each (numbered workers) (fun '(i, worker) =>
    message <- try_read Req worker.1.2 ;; assert_eq message (request i)) ;;
  for_each (numbered workers) (fun '(i, worker) => try_write worker.2 (response i)) ;;
  for_each (numbered workers) (fun '(i, _) =>
    message <- try_read Resp pool.2 ;; assert_eq message (response i)).

(** What both sides do with their ends, in one of the orders that the two threads allow. *)
Definition messages_pass (agave : AgaveSession) (client : ClientSession) : StatefulTest Queues unit :=
  try_write (as_tpu_to_pack agave) tpu_to_pack ;;
  try_write (as_progress_tracker agave) progress_tracker ;;
  message <- try_read TpuToPackMessage (cs_tpu_to_pack client) ;;
  assert_eq message tpu_to_pack ;;
  message <- try_read ProgressMessage (cs_progress_tracker client) ;;
  assert_eq message progress_tracker ;;
  match cs_check_workers client with
  | Some pool => pool_messages pack_to_check_worker check_worker_to_pack (as_check_workers agave) pool
  | None => assert (len (as_check_workers agave) =? 0)
  end ;;
  match cs_simulate_workers client with
  | Some pool => pool_messages pack_to_worker worker_to_pack (as_simulate_workers agave) pool
  | None => assert (len (as_simulate_workers agave) =? 0)
  end ;;
  assert (len (as_workers agave) =? len (cs_workers client)) ;;
  for_each (numbered (cs_workers client)) (fun '(i, worker) => try_write worker.1 (pack_to_worker i)) ;;
  for_each (numbered (as_workers agave)) (fun '(i, worker) =>
    message <- try_read PackToExecutionWorkerMessage worker.1.2 ;;
    assert_eq message (pack_to_worker i)) ;;
  for_each (numbered (as_workers agave)) (fun '(i, worker) => try_write worker.2 (worker_to_pack i)) ;;
  for_each (numbered (cs_workers client)) (fun '(i, worker) =>
    message <- try_read ExecutionWorkerToPackMessage worker.2 ;;
    assert_eq message (worker_to_pack i)).

Definition message_passing_on_all_queues : bool :=
  let (server, client) := exchange current
    (logon 4 2 2 (1024 * 1024 * 1024) 3 65536 256 1024 1024 1024 1024 1024 1024) in
  let! agave := server in
  let! client := client in
  (len (as_workers agave) =? 4) && (len (as_check_workers agave) =? 2) &&
  (len (as_simulate_workers agave) =? 2) &&
  passes (messages_pass agave client) ∅.

Definition local_session_message_passing_on_all_queues : bool :=
  let l := logon 2 2 0 (64 * 1024 * 1024) 1 2 2 2 2 2 2 0 0 in
  let! sessions := local_session l in
  let '(agave, client) := sessions in
  (len (as_workers agave) =? worker_count l) && (len (cs_workers client) =? worker_count l) &&
  (len (as_check_workers agave) =? check_worker_count l) &&
  passes (messages_pass agave client) ∅.

Theorem message_passing_tests_pass :
  all_pass [message_passing_on_all_queues; local_session_message_passing_on_all_queues].
Proof. vm_compute. reflexivity. Qed.
